(* ===== verification/_CoqProject ===== *)
-Q . S2P
Prelude.v
GoStd.v
Float64.v
Kube.v
Api.v
Effects.v
Naming.v
Failover.v
Rollout.v
ClusterNodes.v
Status.v
Jobs.v
Recovery.v
SentinelRollout.v
Scaling.v
Rotation.v
Webhook.v
Acl.v
Config.v
Workload.v
Ensure.v
Sentinel.v
TlsReload.v
Backup.v
Telemetry.v
Controller.v
Settle.v
Json.v
ApiJson.v
V1alpha1.v
DeepCopy.v
DeepCopyBeta.v
DeepCopyAlpha.v
Conversion.v
Schema.v
StatusRules.v
Admission.v
Manager.v
TimeFormat.v
Tabwriter.v
Plugin.v
Commands.v
