(* ===== verification/Prelude.v ===== *)
(** * Wellcake: a verification library for a Valkey operator

    Wellcake (Go) is a Kubernetes operator that runs Valkey in four topologies:
    Standalone, Replication, Sentinel and Cluster.  A ValkeyCluster object describes
    the wanted deployment; the controller reads it, talks to the Kubernetes API server
    and to the Valkey pods, and records in the object's status what it has done.  A
    ValkeyACL object describes users, applied by a second controller; two admission
    webhooks check both objects before they are stored.  Nothing is shared between
    reconcile passes but the API server, the pods and the status: the status fields
    [primaryDownSince], [quorumDownSince], [lastAppliedReplicas], [clusterInitialized],
    [last...Token] are the operator's memory, and the properties below are mostly about
    the order in which a pass acts, records, and acts again.

    ** How the code is modelled

    A Go function that calls neither the API server nor a pod is a Rocq function.  Every
    other function is a program of the free monad [prog] (Effects): a call is an
    operation [Op] and its answer is left to the environment.  [exec p tr a] relates a
    program to its possible traces of operations and answers, so that a safety theorem
    holds for every behaviour of the API server and of the pods, errors included; [run]
    executes a program against a concrete environment and is used for convergence
    theorems (in a world whose pods or API server behave as documented), witnesses and
    examples; [run_exec] ties the two together.  Go errors are values; a helper that
    changes the object in memory returns it; int32 and int64 arithmetic wraps
    ([wrap32], [wrap64]).

    ** Files, in dependency order

    - Prelude: notation, tactics, hints, lemmas on lists, ranges and strings.
    - GoStd: the used parts of Go's strings, strconv and sort, and machine integers.
    - Float64: Go's float64 on the Standard Library's binary64, and strconv.ParseFloat; integers
      below 2^53 are added, subtracted and parsed exactly.
    - Kube: the Kubernetes objects, with the fields the operator reads or sets.
    - Api: api/v1beta1 (valkeycluster_types.go, valkeyacl_types.go, defaults.go).
    - Effects: operations, programs, executions, a Hoare logic on traces, [run].
    - Naming: names and sizes (resources.go, cluster_pershard.go, failover.go, ...).
    - Failover: failover.go and the client certificate of tls_reload.go.
    - Rollout: rollout.go.
    - ClusterNodes: the CLUSTER NODES view (cluster.go) and the Cluster rollout pass.
    - Status: conditions and status writes (resources.go, valkeycluster_controller.go,
      cluster.go, metrics.go); apimachinery's SetStatusCondition is the class
      [ConditionLib], with an instance.
    - Jobs: the Jobs and scripts of cluster.go, cluster_pershard.go, restore_assembly.go.
    - Recovery: cluster_recovery.go.
    - SentinelRollout: rollout_sentinel.go.
    - Scaling: formation, scaling, resharding and the pass of reconcileCluster (cluster.go)
      from the point where the workload exists.
    - Rotation: password_rotation.go, ensurePasswordSecret, rotateSentinelPassword.
    - Webhook: internal/webhook/v1beta1 (both validators and the defaulter).
    - Acl: valkeyacl_controller.go.
    - Config: valkey.conf, sentinel.conf, quoting, version gates, memory sizing and restart
      hashes (resources.go, sentinel.go).
    - Workload: the builders of Services, StatefulSets, budgets and network policies, with
      their scripts as text (resources.go, cluster_pershard.go, sentinel.go).
    - Ensure: the create, compare and update steps (valkeycluster_controller.go,
      primary_service.go, cluster_pershard.go, sentinel.go), and a model of the API server's
      store, [store_handle], with the laws of admission as the classes [Admission] and
      [StsAdmission].
    - Sentinel: timings, stale-view reset and data-pod repair (sentinel.go).
    - TlsReload: tls_reload.go.
    - Backup: backup.go.
    - Telemetry: telemetry.go.
    - Controller: Reconcile and the pass of each topology, hibernation, deletion, event
      mappings (valkeycluster_controller.go, sentinel.go, cluster.go, metrics.go); it
      composes the files above.
    - Settle: the steps of Ensure composed as the Replication and the Cluster pass compose them (no
      code of its own).
    - Json: JSON trees and codecs of structs as encoding/json handles them, and jsonRoundTrip
      (api/v1alpha1/conversion.go).
    - ApiJson: the JSON form of the v1beta1 structs; the codecs of Kubernetes' own types are the
      class [KubeCodecs].
    - V1alpha1: api/v1alpha1 (valkeycluster_types.go, valkeyacl_types.go, defaults.go) in a module
      of its own, with its JSON form.
    - DeepCopy, DeepCopyBeta, DeepCopyAlpha: the generated deep copies of both versions
      (zz_generated.deepcopy.go) over an explicit memory of variables, arrays and maps; everywhere
      else objects are values.  The deep copies of Kubernetes' own types are the class [K8sCopies].
    - Conversion: ConvertTo and ConvertFrom of both kinds (api/v1alpha1/conversion.go).
    - Schema: what the CRD makes the API server do, from the markers on the v1beta1 types:
      defaults, value rules, CEL rules, rules on updates.
    - StatusRules: the CRD's rules on the status, and the invariant that every write of both
      controllers obeys them.
    - Admission: the objects that got through schema and webhooks, and what the controller makes
      of them.
    - Manager: cmd/main.go and the two SetupWithManager.
    - TimeFormat, Tabwriter: the used parts of Go's time and text/tabwriter.
    - Plugin: cmd/kubectl-valkey (client.go, ops.go, backup.go, cli.go, certificate.go, status.go,
      report.go) in a module of its own, and its theorems against the operator's files.
    - Commands: the command tree of the plugin (main.go and the constructors of the commands); cobra
      is the class [Cobra], with an instance.

    ** What the theorems show

    - Failover: a pass works for a single primary and never promotes or keeps an empty one
      over a pod that holds data; the debounce; convergence on a well-behaved fleet; the
      choice of the authoritative master; manual failover runs once.
    - Rollouts: the decisions on every branch; a rollout terminates; at most one pod is
      down and the primary is never it; the passes delete only what the decision allows;
      the Sentinel handover's order, with writes unpaused last on every path.
    - Cluster: the parser reads back printed CLUSTER NODES; the shard view equals its
      reference definition; quorum recovery acts only behind its gate and fences before it
      takes over; formation, scaling and resharding keep the order drain, delete, record;
      the drain scripts name exactly the leaving pods; scaling converges.
    - Rotation: the order of a rotation, no lock-out while it runs, convergence.
    - Status: the phase and conditions follow readiness, and transition times move only
      when a status flips.
    - Admission and ACLs: what admission guarantees, which commands an ACL reconcile may
      send, and convergence of the users.
    - Configuration: quoting round-trips and cannot inject a line; the user's settings win;
      no directive is written that the image does not know; memory sizes stay in bounds at
      int64; which changes restart the Sentinels.
    - Workload: for every spec the objects fit together (volumes, ports, selectors); scaling
      rolls no pod; the two budgets of a Sentinel cluster split its pods; the network policy
      lets the cluster talk to itself.
    - Ensure: each step converges from any state of its object, touches nothing else and is
      then quiet; volumes only grow; the role labels route the split Services.
    - Settle: the workload of a Standalone, Replication or Cluster pass as a whole converges in one
      pass from any state of the API server, because each step works on its own part of the store
      ([slot]), and later passes reach the topology's own logic by reading alone.  (A Sentinel pass
      writes its ConfigMap and StatefulSet again every time, so it has no such theorem.)
    - Sentinel, TLS, backup: a reset, a repair or a recorded fingerprint happens only behind
      its gate; a renewed certificate reaches every pod; retention keeps whole snapshots.
    - Controller: how a pass fails (no pod is touched before the workload exists, and the
      error names the step), the life of an object from finalizer to deletion, hibernation,
      and that a downstream cluster is never failed over.
    - Telemetry: it only looks and never changes what a pass does; utilisation is exact on
      integer counters and stays within its bounds; the zone gauge counts what was seen; a
      deleted cluster's samples, and no other's, are dropped.
    - Naming and defaulting: pod enumeration without repetition in both Cluster layouts,
      round trips of pod and host names, idempotent defaulting.
    - Versions: converting between v1alpha1 and v1beta1 never fails on valid objects, loses nothing
      in either direction and commutes with defaulting.
    - Deep copies: a copy has the content of the original and shares no memory with it, so the base
      of a status patch is not changed by the assignments that follow.
    - Status rules: whatever is answered, no reconcile asks for a status the CRD refuses.
    - Schema and admission: what stays fixed over the life of an object; a stored object is complete
      and no reconcile of it ends in an invalid spec; the operator renders the same objects with and
      without the CRD's defaults, but for four fields.
    - Manager: the cache covers the wanted namespaces and every pod of the operator, whose events
      reach their own cluster; the manager starts after everything is set up.
    - Plugin: its copies of names and annotations are the operator's; a request changes annotations
      only and reaches the step that honours it; the diagnostic commands only look; the files of a
      certificate; the tables of the status command are aligned as documented; timestamps used as
      tokens are distinct; a line typed at the terminal that exits with 0 has reached the operator,
      and no line makes the plugin panic.
    Examples at the end of a file show, on concrete inputs, behaviour that differs from
    what a comment of the code says (a rollout that deletes a primary whose replacement
    was not promoted, a rotation that is not retry-safe, a drain recorded for another size
    than it was run for, an ACL user that is never deleted, a hibernated cluster that does
    not wake, a retention that deletes another cluster's snapshots, a failover target that outlives
    its request, a Standalone cluster of three pods, and others).

    ** Bounds and parameters

    Two definitions have fuel: [certFingerprintLoop] gets one unit more than the length of
    its input, which is enough because a decoded PEM block consumes input
    ([certFingerprintLoop_total]); the column recursion of text/tabwriter, [format], gets one
    more than the number of columns, and more changes nothing ([format_fuel]).  Polling loops run [timeout / poll + 1] times, as
    wait.PollUntilContextTimeout does; RetryOnConflict takes client-go's number of steps as
    the parameter [retrySteps]; the order in which Go visits a map is a parameter, any
    permutation of its entries.  Executions are total: [exec_total] shows that every program
    can run to its end whatever is answered.  Code that is not under src/ is a parameter,
    with its documented behaviour as hypotheses where a theorem needs it: SHA-256
    ([sha256], and [specHash] and [cronHash], the digests of a value's JSON),
    [deepDerivative], [pemDecode], [parseCertificate], the admission of the API server
    ([admitObj], [admitSts]), the presence of an uncached reader ([hasAPIReader]), the JSON of the
    Kubernetes types ([KubeCodecs], with an instance), their deep copies ([K8sCopies], with an
    instance), YAML ([marshal]), cobra ([Cobra]), and which step of the manager's setup returns an
    error ([fails]).

    ** What is not modelled

    Logging, closing of clients, and client-go, go-redis, apimachinery and Valkey
    themselves, which are operations or classes.  Shell scripts are modelled as the text
    the operator writes, not by what they do (the retention pipeline of the backup script is
    the exception: [expired] says which keys it deletes).  The process's maps
    (telemetry.go) are operations, one per critical section.  Left out for good: scheme
    registration, the declaration of collectors, the parsing of flags and command lines (flag,
    cobra), the help texts, the length limits of texts in the CRD and its rules on ValkeyACL's
    spec, and the helpers of the end-to-end tests. *)

From stdpp Require Export base list gmap sets strings sorting.
From Stdlib Require Export ZArith Lia.
From Stdlib Require Ascii.
Export (notations) Stdlib.Strings.Ascii.

(** Go's [byte]. *)
Abbreviation byte := Stdlib.Strings.Ascii.ascii.

#[global] Set Default Goal Selector "!".
#[global] Set Warnings "-clear-no-such-hyp".

(** ** Notation for Go's boolean comparisons *)
Declare Scope go_scope.
Delimit Scope go_scope with go.
Notation "a == b" := (bool_decide (a = b)) (at level 70, no associativity) : go_scope.
Notation "a != b" := (negb (bool_decide (a = b))) (at level 70, no associativity) : go_scope.
Open Scope go_scope.

(** ** Hint databases and tactics *)

(** [go] holds the lemmas that close the routine side conditions. *)
Create HintDb go.

(** Split every [if]/[match] of the goal, keeping the equations. *)
Ltac split_cases :=
  repeat (first [ case_bool_decide | case_decide | case_match ]; simplify_eq/=).

(** Turn boolean connectives in the context into propositions. *)
Ltac bool_hyps :=
  repeat match goal with
  | H : (_ && _)%bool = true |- _ => apply andb_true_iff in H; destruct H
  | H : (_ || _)%bool = false |- _ => apply orb_false_iff in H; destruct H
  | H : negb _ = true |- _ => apply negb_true_iff in H
  | H : negb _ = false |- _ => apply negb_false_iff in H
  | H : bool_decide _ = true |- _ => apply bool_decide_eq_true in H
  | H : bool_decide _ = false |- _ => apply bool_decide_eq_false in H
  | H : (_ <? _)%Z = true |- _ => apply Z.ltb_lt in H
  | H : (_ <? _)%Z = false |- _ => apply Z.ltb_ge in H
  | H : (_ <=? _)%Z = true |- _ => apply Z.leb_le in H
  | H : (_ <=? _)%Z = false |- _ => apply Z.leb_gt in H
  end.

(** Destruct the existentials and conjunctions of the context. *)
Ltac deex :=
  repeat match goal with
  | H : ∃ _, _ |- _ => destruct H
  | H : _ ∧ _ |- _ => destruct H
  | H : let _ := _ in _ |- _ => cbv zeta in H
  end.

(** ** Keeping the best element of a list

    The operator chooses pods with the same loop in five places (the
    authoritative master, the replica to promote, the manual failover target,
    the rollout target, the takeover replica): walk a list and replace the
    current best by a strictly better element. *)
Definition keep_best {A} (better : A → A → bool) (best : option A) (x : A) : option A :=
  match best with
  | None => Some x
  | Some b => if better x b then Some x else Some b
  end.

Section keep_best.
Context {A : Type} (better : A → A → bool).

Lemma keep_best_some l b : is_Some (foldl (keep_best better) (Some b) l).
Proof.
  revert b; induction l as [|x l IH]; intros b; [by eexists|].
  simpl. destruct (better x b); apply IH.
Qed.

Lemma keep_best_cons_some x l : is_Some (foldl (keep_best better) None (x :: l)).
Proof. apply keep_best_some. Qed.

Lemma keep_best_elem_acc l acc r :
  foldl (keep_best better) acc l = Some r → acc = Some r ∨ r ∈ l.
Proof.
  revert acc; induction l as [|x l IH]; intros acc Hr; simpl in Hr; [auto|].
  apply IH in Hr as [Hr|Hr]; [|right; by constructor].
  unfold keep_best in Hr. destruct acc as [b|]; [destruct (better x b)|]; simplify_eq;
    auto; right; constructor.
Qed.

Lemma keep_best_elem l r : foldl (keep_best better) None l = Some r → r ∈ l.
Proof. intros [?|?]%keep_best_elem_acc; done. Qed.

Lemma keep_best_none l : foldl (keep_best better) None l = None ↔ l = [].
Proof.
  split; [|by intros ->]. destruct l as [|x l]; [done|].
  destruct (keep_best_cons_some x l) as [r Hr]. by rewrite Hr.
Qed.

(** [better] must be irreflexive and compatible with replacing the best. *)
Hypothesis better_irrefl : ∀ x, better x x = false.
Hypothesis better_repl : ∀ x y z, better z y = true → better x y = false → better x z = false.

Lemma keep_best_max_acc l b r :
  foldl (keep_best better) (Some b) l = Some r →
  (∀ x, better x b = false → x ∈ l → better x r = false) ∧
  (∀ x, better x b = false → better x r = false) ∧
  (∀ x, x ∈ l → better x r = false).
Proof.
  revert b; induction l as [|y l IH]; intros b Hr; simpl in Hr.
  { simplify_eq. split_and!; [done|done|]. intros x Hx; inversion Hx. }
  destruct (better y b) eqn:Hyb; apply IH in Hr as (H1 & H2 & H3).
  - assert (∀ x, better x b = false → better x r = false) as Hb.
    { intros x Hx. apply H2. eauto. }
    split_and!; auto.
    intros x [->|Hx]%elem_of_cons; auto.
  - split_and!; auto.
    intros x [->|Hx]%elem_of_cons; auto.
Qed.

Lemma keep_best_max l r x :
  foldl (keep_best better) None l = Some r → x ∈ l → better x r = false.
Proof.
  destruct l as [|b l]; [done|]; simpl. intros Hr.
  apply keep_best_max_acc in Hr as (H1 & H2 & H3).
  intros [->|Hx]%elem_of_cons; auto.
Qed.
End keep_best.

(** ** Lists *)
Lemma filter_cons_bool {A} (P : A → bool) x (l : list A) :
  filter P (x :: l) = if P x then x :: filter P l else filter P l.
Proof. rewrite filter_cons. by case_decide; destruct (P x). Qed.
Lemma elem_of_filter_bool {A} (P : A → bool) x (l : list A) : x ∈ filter P l ↔ P x = true ∧ x ∈ l.
Proof. rewrite list_elem_of_filter. by rewrite Is_true_true. Qed.

Lemma forallb_elem {A} (P : A → bool) l : forallb P l = true ↔ ∀ x, x ∈ l → P x = true.
Proof. rewrite forallb_forall. by setoid_rewrite list_elem_of_In. Qed.
Lemma forallb_false_elem {A} (P : A → bool) l : forallb P l = false ↔ ∃ x, x ∈ l ∧ P x = false.
Proof.
  induction l as [|y l IH]; simpl.
  - split; [done|]. intros (x & Hx & _). by apply elem_of_nil in Hx.
  - rewrite andb_false_iff, IH. setoid_rewrite elem_of_cons. split.
    + intros [?|(x & ? & ?)]; eauto.
    + intros (x & [->|?] & ?); eauto.
Qed.
Lemma existsb_elem {A} (P : A → bool) l : existsb P l = true ↔ ∃ x, x ∈ l ∧ P x = true.
Proof. rewrite existsb_exists. by setoid_rewrite list_elem_of_In. Qed.

(** An element of a list without duplicate keys is determined by its key. *)
Lemma NoDup_fmap_eq {A B} (f : A → B) (l : list A) x y :
  NoDup (f <$> l) → x ∈ l → y ∈ l → f x = f y → x = y.
Proof.
  intros Hnd [i Hi]%list_elem_of_lookup [j Hj]%list_elem_of_lookup E.
  assert (i = j) as ->; [|congruence].
  eapply NoDup_lookup; [exact Hnd| |]; rewrite list_lookup_fmap; [by rewrite Hi|].
  rewrite Hj. simpl. by rewrite E.
Qed.

Lemma StronglySorted_filter_bool {A} (R : A → A → Prop) (P : A → bool) l :
  StronglySorted R l → StronglySorted R (filter P l).
Proof.
  induction 1 as [|x l _ IH Hall]; [constructor|]. rewrite filter_cons_bool.
  destruct (P x); [|done]. constructor; [done|]. rewrite Forall_forall in *.
  intros y [_ Hy]%elem_of_filter_bool. auto.
Qed.

Lemma foldl_keep_best_filter {A} (better : A → A → bool) (P : A → bool) l acc :
  foldl (λ b x, if P x then keep_best better b x else b) acc l =
  foldl (keep_best better) acc (filter P l).
Proof.
  revert acc; induction l as [|x l IH]; intros acc; [done|].
  simpl. rewrite filter_cons. case_decide as HP; destruct (P x); try done; apply IH.
Qed.

(** The integers [lo, lo+1, ..., hi-1] of a Go [for i := lo; i < hi; i++]. *)
Definition zrange (lo hi : Z) : list Z := (λ i, lo + Z.of_nat i)%Z <$> seq 0 (Z.to_nat (hi - lo)).

Lemma elem_of_zrange lo hi i : i ∈ zrange lo hi ↔ (lo ≤ i < hi)%Z.
Proof.
  unfold zrange. rewrite list_elem_of_fmap. split.
  - intros (k & -> & Hk%elem_of_seq). lia.
  - intros H. exists (Z.to_nat (i - lo)). split; [lia|]. apply elem_of_seq. lia.
Qed.

Lemma length_zrange lo hi : length (zrange lo hi) = Z.to_nat (hi - lo).
Proof. unfold zrange. by rewrite length_fmap, length_seq. Qed.

Lemma lookup_zrange lo hi (k : nat) :
  k < Z.to_nat (hi - lo) → zrange lo hi !! k = Some (lo + Z.of_nat k)%Z.
Proof.
  intros Hk. unfold zrange. rewrite list_lookup_fmap, lookup_seq_lt by done. done.
Qed.

Lemma NoDup_zrange lo hi : NoDup (zrange lo hi).
Proof.
  unfold zrange. apply NoDup_fmap_2; [|apply NoDup_seq].
  intros x y; lia.
Qed.

Lemma zrange_empty lo hi : (hi ≤ lo)%Z → zrange lo hi = [].
Proof. intros ?. unfold zrange. by replace (Z.to_nat (hi - lo)) with 0 by lia. Qed.

#[export] Hint Resolve NoDup_zrange : go.

(** ** Order in a trace *)

(** An element that satisfies [P] comes after a prefix none of whose elements does. *)
Lemma after_prefix {A} (P : A → Prop) (pre rest t1 t2 : list A) (e : A) :
  pre ++ rest = t1 ++ e :: t2 → Forall (λ x, ¬ P x) pre → P e → ∃ k, t1 = pre ++ k.
Proof.
  revert t1; induction pre as [|x pre IH]; intros t1 E Hp He; [by exists t1|].
  apply Forall_cons in Hp as [Hx Hp]. destruct t1 as [|y t1]; simplify_eq/=; [done|].
  destruct (IH t1) as [k ->]; [done..|]. by exists k.
Qed.

Lemma elem_of_mid {A} (x : A) l k : x ∈ l ++ x :: k.
Proof. set_solver. Qed.
