(* ===== verification/GoStd.v ===== *)
(** * GoStd: the parts of Go and its standard library the operator uses

    Machine integers ([int32], [int64]) are [Z] with the wrap-around written
    out; Go strings are byte strings ([string] of stdpp); [strings], [strconv]
    and [sort] functions are the executable definitions below, with their
    algebraic lemmas.  [unicode.IsSpace] is taken on ASCII bytes (the inputs are
    Valkey replies and Kubernetes names, which are ASCII). *)

From stdpp Require Export pretty.
From S2P Require Import Prelude.

(** ** Machine integers *)
Definition wrap32 (z : Z) : Z := (z + 2 ^ 31) `mod` 2 ^ 32 - 2 ^ 31.
Definition wrap64 (z : Z) : Z := (z + 2 ^ 63) `mod` 2 ^ 64 - 2 ^ 63.
Definition is_int32 (z : Z) : Prop := (- 2 ^ 31 ≤ z < 2 ^ 31)%Z.
Definition is_int64 (z : Z) : Prop := (- 2 ^ 63 ≤ z < 2 ^ 63)%Z.

(** ** strings *)

(** The double quote, the tab, the line feed and the carriage return, as strings. *)
Definition dq : string := String "034"%char "".
Definition nl : string := String "010"%char "".
Definition tab : string := String "009"%char "".

Fixpoint str_forall (P : byte → bool) (s : string) : bool :=
  match s with
  | "" => true
  | String a s' => (P a && str_forall P s')%bool
  end.

(** [s] does not contain the byte [c]. *)
Definition lacks (c : byte) (s : string) : bool := str_forall (λ a, a != c) s.
(** [s] has no white space. *)
Definition no_space (s : string) : bool := str_forall (λ a, negb (Ascii.is_space a)) s.

(** [strings.Index] with a one-byte separator. *)
Fixpoint index_byte (c : byte) (s : string) : option nat :=
  match s with
  | "" => None
  | String a s' => if a == c then Some 0 else S <$> index_byte c s'
  end.

(** [strings.LastIndex] with a one-byte separator. *)
Fixpoint last_index_byte (c : byte) (s : string) : option nat :=
  match s with
  | "" => None
  | String a s' =>
      match last_index_byte c s' with
      | Some i => Some (S i)
      | None => if a == c then Some 0 else None
      end
  end.

(** [s[:n]] and [s[n:]]. *)
Fixpoint str_take (n : nat) (s : string) : string :=
  match n, s with
  | S n', String a s' => String a (str_take n' s')
  | _, _ => ""
  end.
Fixpoint str_drop (n : nat) (s : string) : string :=
  match n, s with
  | S n', String a s' => str_drop n' s'
  | _, _ => s
  end.

(** [strings.Cut] with a one-byte separator. *)
Fixpoint cut_byte (c : byte) (s : string) : option (string * string) :=
  match s with
  | "" => None
  | String a s' =>
      if a == c then Some ("", s')
      else match cut_byte c s' with
           | Some (x, y) => Some (String a x, y)
           | None => None
           end
  end.

(** [strings.HasPrefix], [strings.TrimPrefix], [strings.HasSuffix], [strings.Contains]. *)
Fixpoint strip_prefix (p s : string) : option string :=
  match p, s with
  | "", _ => Some s
  | String a p', String b s' => if a == b then strip_prefix p' s' else None
  | String _ _, "" => None
  end.
Definition has_prefix (s p : string) : bool :=
  match strip_prefix p s with Some _ => true | None => false end.
Definition trim_prefix (s p : string) : string :=
  match strip_prefix p s with Some r => r | None => s end.
Fixpoint has_suffix (s suf : string) : bool :=
  (s == suf) || match s with "" => false | String _ s' => has_suffix s' suf end.
Fixpoint contains (s sub : string) : bool :=
  has_prefix s sub || match s with "" => false | String _ s' => contains s' sub end.

(** [strings.Split] / [strings.SplitSeq] with a one-byte separator. *)
Fixpoint split_byte (c : byte) (s : string) : list string :=
  match s with
  | "" => [""]
  | String a s' =>
      if a == c then "" :: split_byte c s'
      else match split_byte c s' with
           | w :: ws => String a w :: ws
           | [] => [String a ""]
           end
  end.

(** [strings.Fields]: the pending word and the completed words, right to left. *)
Definition flush_word (w : string) (ws : list string) : list string :=
  if w == "" then ws else w :: ws.
Fixpoint fields_go (s : string) : string * list string :=
  match s with
  | "" => ("", [])
  | String a s' =>
      let '(w, ws) := fields_go s' in
      if Ascii.is_space a then ("", flush_word w ws) else (String a w, ws)
  end.
Definition fields (s : string) : list string :=
  let '(w, ws) := fields_go s in flush_word w ws.

(** [strings.TrimSpace]. *)
Fixpoint trim_left (s : string) : string :=
  match s with
  | "" => ""
  | String a s' => if Ascii.is_space a then trim_left s' else s
  end.
Fixpoint trim_right (s : string) : string :=
  match s with
  | "" => ""
  | String a s' =>
      let r := trim_right s' in
      if ((r == "") && Ascii.is_space a)%bool then "" else String a r
  end.
Definition trim_space (s : string) : string := trim_right (trim_left s).

(** [strings.Join]. *)
Fixpoint join (sep : string) (l : list string) : string :=
  match l with
  | [] => ""
  | [s] => s
  | s :: l' => s +:+ sep +:+ join sep l'
  end.

(** [strings.ToLower] on ASCII. *)
Definition lower_byte (a : byte) : byte :=
  let n := Stdlib.Strings.Ascii.N_of_ascii a in
  if ((65 <=? n) && (n <=? 90))%N%bool then Stdlib.Strings.Ascii.ascii_of_N (n + 32) else a.
Fixpoint to_lower (s : string) : string :=
  match s with
  | "" => ""
  | String a s' => String (lower_byte a) (to_lower s')
  end.

(** ** strconv *)
Definition digit_val (a : byte) : option Z :=
  Z.of_nat <$> Ascii.is_nat a.
Fixpoint digits_val (acc : Z) (s : string) : option Z :=
  match s with
  | "" => Some acc
  | String a s' =>
      match digit_val a with
      | Some d => digits_val (acc * 10 + d)%Z s'
      | None => None
      end
  end.
Definition unsigned_val (s : string) : option Z :=
  match s with "" => None | _ => digits_val 0 s end.

(** [strconv.ParseInt(s, 10, bits)]: [None] is a syntax or range error. *)
Definition ParseInt (s : string) (bits : Z) : option Z :=
  let v := match s with
           | String "-"%char s' => Z.opp <$> unsigned_val s'
           | String "+"%char s' => unsigned_val s'
           | _ => unsigned_val s
           end in
  match v with
  | Some n => if ((- 2 ^ (bits - 1) <=? n) && (n <? 2 ^ (bits - 1)))%Z%bool then Some n else None
  | None => None
  end.
Definition Atoi (s : string) : option Z := ParseInt s 64.
Definition Itoa (z : Z) : string := pretty z.

(** [strconv.ParseBool]. *)
Definition ParseBool (s : string) : option bool :=
  if decide (s ∈ ["1"; "t"; "T"; "TRUE"; "true"; "True"]) then Some true
  else if decide (s ∈ ["0"; "f"; "F"; "FALSE"; "false"; "False"]) then Some false
  else None.

(** [sort.Strings]. *)
Definition sort_strings (l : list string) : list string := merge_sort String.le l.

(** [info[k]] on a Go map: the zero value when the key is absent. *)
Definition map_get (m : gmap string string) (k : string) : string := default "" (m !! k).

(** [if v, err := strconv.ParseInt(...); err == nil { x = v }] with [x] zero before. *)
Definition int64_or_zero (s : string) : Z := default 0%Z (ParseInt s 64).

(** ** Lemmas: machine integers *)
Lemma wrap32_small z : is_int32 z → wrap32 z = z.
Proof. unfold is_int32, wrap32. intros. rewrite Z.mod_small; lia. Qed.
Lemma wrap32_range z : is_int32 (wrap32 z).
Proof.
  unfold is_int32, wrap32.
  pose proof (Z.mod_pos_bound (z + 2 ^ 31) (2 ^ 32) ltac:(lia)). lia.
Qed.
Lemma wrap64_small z : is_int64 z → wrap64 z = z.
Proof. unfold is_int64, wrap64. intros. rewrite Z.mod_small; lia. Qed.

(** ** Lemmas: strings *)
Lemma str_app_cons a s t : String a s +:+ t = String a (s +:+ t).
Proof. done. Qed.
Lemma str_app_nil_l s : "" +:+ s = s.
Proof. done. Qed.
Lemma str_app_nil_r s : s +:+ "" = s.
Proof. induction s as [|a s IH]; [done|]. by rewrite str_app_cons, IH. Qed.
Lemma str_app_assoc s t u : s +:+ (t +:+ u) = (s +:+ t) +:+ u.
Proof. induction s as [|a s IH]; [done|]. by rewrite !str_app_cons, IH. Qed.

Lemma str_length_app s t : String.length (s +:+ t) = String.length s + String.length t.
Proof. induction s as [|a s IH]; [done|]. rewrite str_app_cons; simpl. by rewrite IH. Qed.

Lemma str_forall_app P s t : str_forall P (s +:+ t) = (str_forall P s && str_forall P t)%bool.
Proof.
  induction s as [|a s IH]; [done|].
  rewrite str_app_cons; simpl. by rewrite IH, andb_assoc.
Qed.

Lemma str_forall_impl (P Q : byte → bool) s :
  (∀ a, P a = true → Q a = true) → str_forall P s = true → str_forall Q s = true.
Proof.
  intros HPQ. induction s as [|a s IH]; simpl; [done|].
  intros [? ?]%andb_true_iff. apply andb_true_iff. auto.
Qed.

Lemma lacks_app c s t : lacks c (s +:+ t) = (lacks c s && lacks c t)%bool.
Proof. apply str_forall_app. Qed.
Lemma no_space_app s t : no_space (s +:+ t) = (no_space s && no_space t)%bool.
Proof. apply str_forall_app. Qed.

Lemma strip_prefix_app p s : strip_prefix p (p +:+ s) = Some s.
Proof.
  induction p as [|a p IH]; [done|]. rewrite str_app_cons. simpl.
  by rewrite bool_decide_true.
Qed.
Lemma strip_prefix_Some p s r : strip_prefix p s = Some r ↔ s = p +:+ r.
Proof.
  split; [|intros ->; apply strip_prefix_app].
  revert s; induction p as [|a p IH]; intros s H; simpl in H; [by simplify_eq|].
  destruct s as [|b s]; [done|]. case_bool_decide; simplify_eq.
  rewrite str_app_cons. f_equal. auto.
Qed.

Lemma index_byte_app c s t :
  lacks c s = true → index_byte c (s +:+ String c t) = Some (String.length s).
Proof.
  induction s as [|a s IH]; simpl; intros Hs.
  - try rewrite str_app_nil_l; simpl. by rewrite bool_decide_true.
  - unfold lacks in Hs; simpl in Hs. bool_hyps.
    try rewrite str_app_cons; simpl. rewrite bool_decide_false by done.
    by rewrite IH.
Qed.
Lemma index_byte_lacks c s : lacks c s = true → index_byte c s = None.
Proof.
  induction s as [|a s IH]; [done|]. unfold lacks; simpl. intros. bool_hyps.
  rewrite bool_decide_false by done. by rewrite IH.
Qed.
Lemma str_take_app s t : str_take (String.length s) (s +:+ t) = s.
Proof. induction s as [|a s IH]; [by destruct t|]. rewrite str_app_cons; simpl. by rewrite IH. Qed.
Lemma str_drop_app s t : str_drop (String.length s) (s +:+ t) = t.
Proof. induction s as [|a s IH]; [by destruct t|]. rewrite str_app_cons; simpl. done. Qed.

Lemma last_index_byte_lacks c s : lacks c s = true → last_index_byte c s = None.
Proof.
  induction s as [|a s IH]; [done|]. unfold lacks; simpl. intros. bool_hyps.
  rewrite IH by done. by rewrite bool_decide_false.
Qed.
Lemma last_index_byte_app c s t :
  lacks c t = true → last_index_byte c (s +:+ String c t) = Some (String.length s).
Proof.
  intros Ht. induction s as [|a s IH]; simpl.
  - try rewrite str_app_nil_l; simpl. by rewrite last_index_byte_lacks, bool_decide_true.
  - try rewrite str_app_cons; simpl. by rewrite IH.
Qed.

Lemma cut_byte_app c s t :
  lacks c s = true → cut_byte c (s +:+ String c t) = Some (s, t).
Proof.
  induction s as [|a s IH]; simpl; intros Hs.
  - try rewrite str_app_nil_l; simpl. by rewrite bool_decide_true.
  - unfold lacks in Hs; simpl in Hs. bool_hyps.
    try rewrite str_app_cons; simpl. rewrite bool_decide_false by done. by rewrite IH.
Qed.
Lemma cut_byte_lacks c s : lacks c s = true → cut_byte c s = None.
Proof.
  induction s as [|a s IH]; [done|]. unfold lacks; simpl. intros. bool_hyps.
  rewrite bool_decide_false by done. by rewrite IH.
Qed.

Lemma split_byte_lacks c s : lacks c s = true → split_byte c s = [s].
Proof.
  induction s as [|a s IH]; [done|]. unfold lacks; simpl. intros. bool_hyps.
  rewrite bool_decide_false by done. by rewrite IH.
Qed.
Lemma split_byte_app c s t :
  lacks c s = true → split_byte c (s +:+ String c t) = s :: split_byte c t.
Proof.
  induction s as [|a s IH]; simpl; intros Hs.
  - try rewrite str_app_nil_l; simpl. by rewrite bool_decide_true.
  - unfold lacks in Hs; simpl in Hs. bool_hyps.
    try rewrite str_app_cons; simpl. rewrite bool_decide_false by done. by rewrite IH.
Qed.

(** Splitting what was joined gives the pieces back. *)
Lemma split_byte_join c l :
  l ≠ [] → Forall (λ s, lacks c s = true) l → split_byte c (join (String c "") l) = l.
Proof.
  intros Hne. induction l as [|s l IH]; [done|]; intros [Hs Hl]%Forall_cons.
  destruct l as [|s' l]; [by apply split_byte_lacks|].
  change (join (String c "") (s :: s' :: l)) with (s +:+ (String c "" +:+ join (String c "") (s' :: l))).
  rewrite str_app_cons, str_app_nil_l. rewrite split_byte_app by done.
  by rewrite IH.
Qed.

Lemma fields_go_word s t :
  no_space s = true →
  fields_go (s +:+ t) = (s +:+ (fields_go t).1, (fields_go t).2).
Proof.
  induction s as [|a s IH]; intros Hs.
  - rewrite !str_app_nil_l. by destruct (fields_go t).
  - unfold no_space in Hs; simpl in Hs. bool_hyps. rewrite str_app_cons; simpl.
    rewrite IH by done. match goal with H : Ascii.is_space a = false |- _ => rewrite H end.
    by rewrite str_app_cons.
Qed.

Lemma fields_cons s t :
  s ≠ "" → no_space s = true → fields (s +:+ String " " t) = s :: fields t.
Proof.
  intros Hne Hs. unfold fields. rewrite fields_go_word by done. simpl.
  destruct (fields_go t) as [w ws]; simpl. rewrite str_app_nil_r.
  unfold flush_word at 1. by rewrite bool_decide_false.
Qed.

Lemma fields_one s : s ≠ "" → no_space s = true → fields s = [s].
Proof.
  intros Hne Hs. unfold fields.
  pose proof (fields_go_word s "" Hs) as H. rewrite str_app_nil_r in H.
  rewrite H; simpl. rewrite str_app_nil_r. unfold flush_word. by rewrite bool_decide_false.
Qed.

(** [strings.Fields] of words joined by single blanks gives the words back. *)
Lemma fields_join l :
  Forall (λ s, s ≠ "" ∧ no_space s = true) l → fields (join " " l) = l.
Proof.
  induction l as [|s l IH]; [done|]; intros [[Hne Hs] Hl]%Forall_cons.
  destruct l as [|s' l]; [by apply fields_one|].
  change (join " " (s :: s' :: l)) with (s +:+ String " " (join " " (s' :: l))).
  rewrite fields_cons by done. by rewrite IH.
Qed.

(** ** Lemmas: decimal numbers *)
Lemma is_nat_pretty_N_char x : (x < 10)%N → Ascii.is_nat (pretty_N_char x) = Some (N.to_nat x).
Proof.
  intros Hx.
  assert (x = 0 ∨ x = 1 ∨ x = 2 ∨ x = 3 ∨ x = 4 ∨ x = 5 ∨ x = 6 ∨ x = 7 ∨ x = 8 ∨ x = 9)%N
    as H by lia.
  by repeat (destruct H as [->|H]; [done|]); subst.
Qed.

Lemma digits_val_pretty_N_go x s :
  digits_val 0 (pretty_N_go x s) = digits_val (Z.of_N x) s.
Proof.
  revert s. induction (N.lt_wf_0 x) as [x _ IH]; intros s.
  assert (x = 0 ∨ 0 < x)%N as [->|?] by lia; [by rewrite pretty_N_go_0|].
  rewrite pretty_N_go_step by done. rewrite IH by (by apply N.div_lt). simpl.
  unfold digit_val. rewrite is_nat_pretty_N_char by (by apply N.mod_lt).
  simpl. f_equal.
  rewrite N_nat_Z, N2Z.inj_div, N2Z.inj_mod.
  pose proof (Z.div_mod (Z.of_N x) 10 ltac:(done)). lia.
Qed.

Lemma unsigned_val_pretty_N x : unsigned_val (pretty x) = Some (Z.of_N x).
Proof.
  unfold unsigned_val. unfold pretty at 1, pretty_N at 1.
  unfold pretty, pretty_N. case_decide as Hx; [by subst|].
  rewrite digits_val_pretty_N_go. destruct (pretty_N_go x "") eqn:E; [|done].
  exfalso. pose proof (digits_val_pretty_N_go x "") as H. rewrite E in H. simpl in H.
  simplify_eq. lia.
Qed.

(** The bytes [strconv.Itoa] can print. *)
Definition is_digit (a : byte) : bool :=
  match Ascii.is_nat a with Some _ => true | None => false end.

Lemma is_digit_pretty_N_char x : is_digit (pretty_N_char x) = true.
Proof. unfold pretty_N_char. by repeat case_match. Qed.

Lemma str_forall_digit_pretty_N_go x s :
  str_forall is_digit s = true → str_forall is_digit (pretty_N_go x s) = true.
Proof.
  revert s. induction (N.lt_wf_0 x) as [x _ IH]; intros s Hs.
  assert (x = 0 ∨ 0 < x)%N as [->|?] by lia; [by rewrite pretty_N_go_0|].
  rewrite pretty_N_go_step by done. apply IH; [by apply N.div_lt|].
  simpl. by rewrite is_digit_pretty_N_char.
Qed.

Lemma Itoa_nonneg n : (0 ≤ n)%Z → Itoa n = pretty (Z.to_N n).
Proof. intros. by destruct n. Qed.

Lemma Itoa_digits n : (0 ≤ n)%Z → str_forall is_digit (Itoa n) = true.
Proof.
  intros Hn. rewrite Itoa_nonneg by done. unfold pretty, pretty_N.
  case_decide; [done|]. by apply str_forall_digit_pretty_N_go.
Qed.

Lemma Itoa_nonempty n : Itoa n ≠ "".
Proof.
  destruct n as [|p|p]; [done| |done]. unfold Itoa, pretty, pretty_Z.
  intros H. pose proof (unsigned_val_pretty_N (N.pos p)) as H'.
  unfold pretty, pretty_positive in H. by rewrite H in H'.
Qed.

#[global] Instance Itoa_inj : Inj (=) (=) Itoa.
Proof. unfold Itoa. apply _. Qed.

(** A byte that is not a digit never occurs in the decimal form of a non-negative number. *)
Lemma Itoa_lacks c n : is_digit c = false → (0 ≤ n)%Z → lacks c (Itoa n) = true.
Proof.
  intros Hc Hn. eapply str_forall_impl; [|by apply Itoa_digits].
  intros a Ha. apply negb_true_iff, bool_decide_eq_false. intros ->. congruence.
Qed.

Lemma Itoa_no_space n : (0 ≤ n)%Z → no_space (Itoa n) = true.
Proof.
  intros Hn. eapply str_forall_impl; [|by apply Itoa_digits].
  intros a Ha. apply negb_true_iff.
  destruct a as [[] [] [] [] [] [] [] []]; try done.
Qed.

(** Printing a number and parsing it back. *)
Lemma ParseInt_Itoa n bits :
  (0 ≤ n < 2 ^ (bits - 1))%Z → ParseInt (Itoa n) bits = Some n.
Proof.
  intros [Hn Hb]. unfold ParseInt.
  assert (unsigned_val (Itoa n) = Some n) as Hu.
  { rewrite Itoa_nonneg, unsigned_val_pretty_N by done. f_equal. lia. }
  pose proof (Itoa_digits n Hn) as Hd.
  assert (0 ≤ 2 ^ (bits - 1))%Z by (apply Z.pow_nonneg; lia).
  destruct (Itoa n) as [|a s] eqn:E; [done|].
  simpl in Hd. apply andb_true_iff in Hd as [Ha _].
  assert (match String a s with
          | String "-"%char s' => Z.opp <$> unsigned_val s'
          | String "+"%char s' => unsigned_val s'
          | _ => unsigned_val (String a s)
          end = Some n) as ->.
  { rewrite Hu. destruct a as [[] [] [] [] [] [] [] []]; done. }
  by rewrite (proj2 (Z.leb_le _ _)), (proj2 (Z.ltb_lt _ _)) by lia.
Qed.

Lemma Atoi_Itoa n : (0 ≤ n < 2 ^ 63)%Z → Atoi (Itoa n) = Some n.
Proof. intros. unfold Atoi. apply ParseInt_Itoa. lia. Qed.

(** A successfully parsed number is in range. *)
Lemma ParseInt_range s bits n :
  ParseInt s bits = Some n → (- 2 ^ (bits - 1) ≤ n < 2 ^ (bits - 1))%Z.
Proof.
  unfold ParseInt. set (v := match s with "" => _ | _ => _ end). destruct v; [|done].
  case_match; [|done]. intros; simplify_eq. bool_hyps. lia.
Qed.

(** Sorted strings: the head is a least element, and nothing is lost. *)
Lemma sort_strings_perm l : sort_strings l ≡ₚ l.
Proof. apply merge_sort_Permutation. Qed.
Lemma sort_strings_elem l s : s ∈ sort_strings l ↔ s ∈ l.
Proof. by rewrite sort_strings_perm. Qed.
Lemma sort_strings_head l s rest x :
  sort_strings l = s :: rest → x ∈ l → String.le s x.
Proof.
  intros E Hx. assert (StronglySorted String.le (sort_strings l)) as Hs.
  { apply StronglySorted_merge_sort; apply _. }
  rewrite E in Hs. apply (sort_strings_elem l) in Hx. rewrite E in Hx.
  inversion Hs as [|?? _ Hall]; subst. rewrite Forall_forall in Hall.
  apply elem_of_cons in Hx as [->|Hx]; [done|]. by apply Hall.
Qed.

#[export] Hint Resolve Itoa_digits Itoa_no_space Itoa_nonempty : go.

(** ** Lemmas: trimming *)
Lemma no_space_lacks_nl s : no_space s = true → lacks "010" s = true.
Proof.
  apply str_forall_impl. intros a Ha. apply negb_true_iff, bool_decide_eq_false. by intros ->.
Qed.
Lemma trim_right_no_space t : no_space t = true → trim_right t = t.
Proof.
  induction t as [|a t IH]; [done|]. unfold no_space; simpl. intros. bool_hyps.
  rewrite IH by done. match goal with H : Ascii.is_space a = false |- _ => rewrite H end.
  by rewrite andb_false_r.
Qed.
(** A string that ends in a non-empty word is not trimmed on the right. *)
Lemma trim_right_word s t : t ≠ "" → no_space t = true → trim_right (s +:+ t) = s +:+ t.
Proof.
  intros Hne Ht. induction s as [|a s IH]; [by rewrite str_app_nil_l, trim_right_no_space|].
  rewrite str_app_cons. simpl. rewrite IH. rewrite bool_decide_false; [done|].
  destruct s; [by rewrite str_app_nil_l|]. by rewrite str_app_cons.
Qed.
Lemma trim_left_word s t : s ≠ "" → no_space s = true → trim_left (s +:+ t) = s +:+ t.
Proof.
  destruct s as [|a s]; [done|]. unfold no_space; simpl. intros _ H. bool_hyps.
  rewrite str_app_cons. simpl. match goal with H : Ascii.is_space a = false |- _ => by rewrite H end.
Qed.

(** The first and the last item of a join. *)
Lemma join_head sep s l : ∃ t, join sep (s :: l) = s +:+ t.
Proof.
  destruct l as [|s' l]; [exists ""; by rewrite str_app_nil_r|].
  by exists (sep +:+ join sep (s' :: l)).
Qed.
Lemma join_last sep l s : ∃ u, join sep (l ++ [s]) = u +:+ s.
Proof.
  induction l as [|x l [u IH]]; [by exists ""|]. simpl.
  destruct (l ++ [s]) as [|y l'] eqn:E; [by destruct l|]. exists (x +:+ sep +:+ u).
  rewrite IH. by rewrite <-!str_app_assoc.
Qed.
Lemma join_forall (P : byte → bool) sep l :
  str_forall P sep = true → Forall (λ s, str_forall P s = true) l → str_forall P (join sep l) = true.
Proof.
  intros Hsep. induction l as [|s l IH]; [done|]; intros [Hs Hl]%Forall_cons.
  destruct l as [|s' l]; [done|]. change (join sep (s :: s' :: l)) with (s +:+ sep +:+ join sep (s' :: l)).
  by rewrite !str_forall_app, Hs, Hsep, IH.
Qed.
