(* ===== verification/Float64.v ===== *)
(** * Float64: Go's float64 (strconv.ParseFloat, the operators, the builtin min and max)

    The telemetry computes rates in float64.  A float64 is a [spec_float] of precision 53 and
    maximal exponent 1024, the Standard Library's executable specification of IEEE 754 binary64
    (which keeps no NaN payload; neither does the code).

    [ParseFloat] follows Go's grammar: an optional sign, decimal or hexadecimal digits with at most
    one point, an optional exponent (mandatory in hexadecimal), underscores between digits, or one
    of the words inf, infinity and nan.  The value is rounded once, to nearest even. *)

From S2P Require Import Prelude GoStd.
From Stdlib Require Export SpecFloat.

Definition float64 : Type := spec_float.
#[global] Instance float64_eq_dec : EqDecision spec_float.
Proof. solve_decision. Defined.
#[global] Instance float64_inhabited : Inhabited spec_float := populate (S754_zero false).

Definition f64_add : float64 → float64 → float64 := SFadd 53 1024.
Definition f64_sub : float64 → float64 → float64 := SFsub 53 1024.
Definition f64_mul : float64 → float64 → float64 := SFmul 53 1024.
Definition f64_div : float64 → float64 → float64 := SFdiv 53 1024.
(** [float64(n)] of an integer. *)
Definition f64_of_Z (n : Z) : float64 := binary_normalize 53 1024 n 0 false.
Definition f64_zero : float64 := S754_zero false.
Definition f64_one : float64 := f64_of_Z 1.
(** [x < y], [x > y] and [x <= y]: false when one of them is NaN. *)
Definition f64_ltb : float64 → float64 → bool := SFltb.
Definition f64_leb : float64 → float64 → bool := SFleb.

(** The builtins [min] and [max]: NaN when an argument is NaN, and -0 below +0. *)
Definition f64_negative (x : float64) : bool :=
  match x with S754_zero s | S754_infinity s | S754_finite s _ _ => s | S754_nan => false end.
Definition f64_min (x y : float64) : float64 :=
  match SFcompare x y with
  | None => S754_nan
  | Some Lt => x
  | Some Gt => y
  | Some Eq => if f64_negative y then y else x
  end.
Definition f64_max (x y : float64) : float64 :=
  match SFcompare x y with
  | None => S754_nan
  | Some Lt => y
  | Some Gt => x
  | Some Eq => if f64_negative x then y else x
  end.

(** [Duration.Seconds]: whole seconds and the rest, each exact, then added. *)
Definition Seconds (d : Z) : float64 :=
  f64_add (f64_of_Z (Z.quot d 1000000000)) (f64_div (f64_of_Z (Z.rem d 1000000000)) (f64_of_Z 1000000000)).

(** ** strconv.ParseFloat *)

Definition hexDigitVal (a : byte) : option Z :=
  let n := Z.of_N (Stdlib.Strings.Ascii.N_of_ascii (lower_byte a)) in
  if ((97 <=? n) && (n <=? 102))%Z%bool then Some (n - 87)%Z else None.
(** The value of a mantissa digit in base 10 or 16. *)
Definition mantDigit (hex : bool) (a : byte) : option Z :=
  match digit_val a with Some d => Some d | None => if hex then hexDigitVal a else None end.

(** What has been read of a mantissa: the digits as one integer, how many of them followed the
    point, whether a point and whether a digit was seen. *)
Record Mantissa := { mant_val : Z; mant_frac : Z; mant_dot : bool; mant_digits : bool }.
Definition mant0 : Mantissa := {| mant_val := 0; mant_frac := 0; mant_dot := false; mant_digits := false |}.
Fixpoint readMantissa (hex : bool) (m : Mantissa) (s : string) : Mantissa * string :=
  match s with
  | "" => (m, "")
  | String a s' =>
      if a == "_"%char then readMantissa hex m s'
      else if a == "."%char then
        if mant_dot m then (m, s)
        else readMantissa hex {| mant_val := mant_val m; mant_frac := 0; mant_dot := true; mant_digits := mant_digits m |} s'
      else
        match mantDigit hex a with
        | Some d =>
            readMantissa hex {| mant_val := mant_val m * (if hex then 16 else 10) + d;
                                mant_frac := if mant_dot m then mant_frac m + 1 else mant_frac m;
                                mant_dot := mant_dot m; mant_digits := true |} s'
        | None => (m, s)
        end
  end.

(** The digits of an exponent: it stops growing at ten thousand. *)
Fixpoint readExpDigits (e : Z) (s : string) : Z * string :=
  match s with
  | "" => (e, "")
  | String a s' =>
      if a == "_"%char then readExpDigits e s'
      else match digit_val a with
           | Some d => readExpDigits (if (e <? 10000)%Z then e * 10 + d else e)%Z s'
           | None => (e, s)
           end
  end.
Definition startsWithDigit (s : string) : bool := match s with String a _ => is_digit a | "" => false end.
(** The optional exponent and the rest of the text; [None] is a syntax error. *)
Definition readExponent (hex : bool) (s : string) : option (Z * string) :=
  match s with
  | String a s' =>
      if lower_byte a == (if hex then "p" else "e")%char then
        let '(neg, s'') := match s' with
                           | String "+"%char t => (false, t)
                           | String "-"%char t => (true, t)
                           | _ => (false, s')
                           end in
        if startsWithDigit s'' then
          let '(e, rest) := readExpDigits 0 s'' in Some (if neg : bool then - e else e, rest)%Z
        else None
      else if hex then None else Some (0%Z, s)
  | "" => if hex then None else Some (0%Z, s)
  end.

(** [underscoreOK]: an underscore stands between digits, or between a base prefix and a digit. *)
Inductive Saw := SawStart | SawDigit | SawUnderscore | SawOther.
Fixpoint underscoresFrom (hex : bool) (saw : Saw) (s : string) : bool :=
  match s with
  | "" => match saw with SawUnderscore => false | _ => true end
  | String a s' =>
      if bool_decide (is_Some (mantDigit hex a)) then underscoresFrom hex SawDigit s'
      else if a == "_"%char then match saw with SawDigit => underscoresFrom hex SawUnderscore s' | _ => false end
      else match saw with SawUnderscore => false | _ => underscoresFrom hex SawOther s' end
  end.
Definition cutSign (s : string) : bool * string :=
  match s with
  | String "+"%char t => (false, t)
  | String "-"%char t => (true, t)
  | _ => (false, s)
  end.
(** The text after a base prefix 0x that something follows. *)
Definition cutHex (s : string) : option string :=
  match s with
  | String "0"%char (String x (String a t)) => if lower_byte x == "x"%char then Some (String a t) else None
  | _ => None
  end.
Definition underscoreOK (s : string) : bool :=
  let s := (cutSign s).2 in
  match s with
  | String "0"%char (String x t) =>
      let x := lower_byte x in
      if ((x == "b"%char) || (x == "o"%char) || (x == "x"%char))%bool
      then underscoresFrom (x == "x"%char) SawDigit t else underscoresFrom false SawStart s
  | _ => underscoresFrom false SawStart s
  end.

(** The float64 nearest to [m * 10^e] or [m * 2^e]. *)
Definition roundDecimal (neg : bool) (m e : Z) : float64 :=
  match m with
  | Zpos p =>
      if (0 <=? e)%Z then binary_round 53 1024 neg (Z.to_pos (m * 10 ^ e)) 0
      else f64_div (S754_finite neg p 0) (S754_finite false (Z.to_pos (10 ^ (- e))) 0)
  | _ => S754_zero neg
  end.
Definition roundBinary (neg : bool) (m e : Z) : float64 :=
  match m with Zpos p => binary_round 53 1024 neg p e | _ => S754_zero neg end.

Definition readFloat (s : string) : option float64 :=
  let '(neg, t) := cutSign s in
  let hex := bool_decide (is_Some (cutHex t)) in
  let '(m, t) := readMantissa hex mant0 (default t (cutHex t)) in
  if negb (mant_digits m) then None
  else
    match readExponent hex t with
    | Some (e, "") =>
        if (negb (lacks "_" s) && negb (underscoreOK s))%bool then None
        else Some (if hex then roundBinary neg (mant_val m) (e - 4 * mant_frac m)
                   else roundDecimal neg (mant_val m) (e - mant_frac m))
    | _ => None
    end.
(** The words for infinity and NaN, in any case; NaN takes no sign. *)
Definition special (s : string) : option float64 :=
  let '(neg, t) := cutSign s in
  if bool_decide (to_lower t ∈ ["inf"; "infinity"]) then Some (S754_infinity neg)
  else if to_lower s == "nan" then Some S754_nan
  else None.
(** [None] is an error: the syntax, or a value beyond the largest float64. *)
Definition ParseFloat (s : string) : option float64 :=
  match special s with
  | Some x => Some x
  | None => match readFloat s with Some (S754_infinity _) => None | r => r end
  end.

(** ** Clamping *)

(** [min(max(x, 0), 1)] is NaN for a NaN and lies between 0 and 1 otherwise. *)
Lemma f64_clamp_bounds x (r := f64_min (f64_max x f64_zero) f64_one) :
  (x = S754_nan ∧ r = S754_nan) ∨ (x ≠ S754_nan ∧ f64_leb f64_zero r = true ∧ f64_leb r f64_one = true).
Proof.
  subst r. destruct x as [[]|[]| |[] m e]; try (right; done); [by left|]. right.
  change (f64_max (S754_finite false m e) f64_zero) with (S754_finite false m e).
  assert (f64_one = S754_finite false 4503599627370496 (-52)) as -> by reflexivity.
  split; [done|]. unfold f64_min, f64_leb, SFleb.
  set (one := S754_finite false 4503599627370496 (-52)).
  destruct (SFcompare (S754_finite false m e) one) as [[]|] eqn:E; [change (f64_negative one) with false|..]; cbv iota; rewrite ?E; [done..|discriminate E].
Qed.

(** ** Integers below 2^53 are exact *)

Lemma digits2_size p : digits2_pos p = Pos.size p.
Proof. induction p; simpl; congruence. Qed.
Lemma size_pow2 m k : Z.pos (Pos.size m) = k ↔ (0 < k ∧ 2 ^ (k - 1) ≤ Z.pos m < 2 ^ k)%Z.
Proof.
  pose proof (Pos.size_gt m) as Hg. pose proof (Pos.size_le m) as Hl.
  apply Pos2Z.pos_lt_pos in Hg. apply Pos2Z.pos_le_pos in Hl. rewrite Pos2Z.inj_pow in Hg, Hl.
  change (Z.pos m~0) with (2 * Z.pos m)%Z in Hl.
  assert (2 ^ Z.pos (Pos.size m) = 2 * 2 ^ (Z.pos (Pos.size m) - 1))%Z as Hd.
  { rewrite <- Z.pow_succ_r by lia. f_equal. lia. }
  split; [intros <-; lia|]. intros (Hk & Hl' & Hg').
  assert (2 ^ (Z.pos (Pos.size m) - 1) < 2 ^ k)%Z as H1 by lia. apply Z.pow_lt_mono_r_iff in H1; [|lia|lia].
  assert (2 ^ (k - 1) < 2 ^ Z.pos (Pos.size m))%Z as H2 by lia. apply Z.pow_lt_mono_r_iff in H2; lia.
Qed.
Lemma iter_xO m d : Z.pos (Pos.iter xO m d) = (Z.pos m * 2 ^ Z.pos d)%Z.
Proof.
  induction d as [|d IH] using Pos.peano_ind; [simpl; lia|].
  rewrite Pos.iter_succ. change (Z.pos (Pos.iter xO m d)~0) with (2 * Z.pos (Pos.iter xO m d))%Z.
  rewrite IH, Pos2Z.inj_succ, Z.pow_succ_r by lia. lia.
Qed.

(** Shifting out zeros loses nothing. *)
Lemma iter_pos_iter {A} (f : A → A) n x : iter_pos f n x = Pos.iter f x n.
Proof.
  revert x; induction n as [n IH|n IH|]; intros x; cbn [iter_pos Pos.iter]; rewrite ?IH; [|done..].
  by rewrite <- !Pos.iter_swap.
Qed.
Lemma shr_zeros m n : iter_pos shr_1 n {| shr_m := Z.pos m * 2 ^ Z.pos n; shr_r := false; shr_s := false |} =
  {| shr_m := Z.pos m; shr_r := false; shr_s := false |}.
Proof.
  rewrite iter_pos_iter. induction n as [|n IH] using Pos.peano_ind.
  - change (2 ^ 1)%Z with 2%Z. rewrite Z.mul_comm. done.
  - rewrite Pos.iter_succ_r, Pos2Z.inj_succ, Z.pow_succ_r by lia.
    rewrite <- IH. f_equal. replace (Z.pos m * (2 * 2 ^ Z.pos n))%Z with (2 * (Z.pos m * 2 ^ Z.pos n))%Z by lia.
    destruct (Z.pos m * 2 ^ Z.pos n)%Z as [|q|q] eqn:E; [lia|done|]. exfalso.
    pose proof (Z.pow_pos_nonneg 2 (Z.pos n) ltac:(lia) ltac:(lia)). nia.
Qed.

(** The float64 of an integer does not depend on how many zeros are appended to it: below 2^53
    nothing is rounded. *)
Definition canon (s : bool) (m : positive) : float64 :=
  S754_finite s (Z.to_pos (Z.pos m * 2 ^ (53 - Z.pos (Pos.size m)))) (Z.pos (Pos.size m) - 53).
Lemma shr_0 m e l : fexp 53 1024 (Z.pos (Pos.size m) + e) = e →
  shr_fexp 53 1024 (Z.pos m) e l = (shr_record_of_loc (Z.pos m) l, e).
Proof. intros E. unfold shr_fexp. cbn [Zdigits2]. rewrite digits2_size, E, Z.sub_diag. done. Qed.
Lemma round_aux_canon s m e : Pos.size m = 53%positive → (-1074 ≤ e ≤ 0)%Z →
  binary_round_aux 53 1024 s (Z.pos m) e loc_Exact = S754_finite s m e.
Proof.
  intros Hs He. assert (fexp 53 1024 (Z.pos (Pos.size m) + e) = e) as E by (rewrite Hs; unfold fexp, emin; lia).
  unfold binary_round_aux. rewrite shr_0 by done. cbn [shr_record_of_loc shr_m loc_of_shr_record round_nearest_even].
  rewrite shr_0 by done. cbn [shr_record_of_loc shr_m]. rewrite (proj2 (Z.leb_le _ _)); [done|lia].
Qed.
Lemma round_aux_zeros s m e p : Pos.size m = 53%positive → (-1074 ≤ e ≤ 0)%Z →
  binary_round_aux 53 1024 s (Z.pos m * 2 ^ Z.pos p) (e - Z.pos p) loc_Exact = S754_finite s m e.
Proof.
  intros Hs He. pose proof (round_aux_canon s m e Hs He) as Hc. revert Hc. unfold binary_round_aux.
  assert (shr_fexp 53 1024 (Z.pos m * 2 ^ Z.pos p) (e - Z.pos p) loc_Exact = shr_fexp 53 1024 (Z.pos m) e loc_Exact) as ->; [|done].
  rewrite shr_0 by (rewrite Hs; unfold fexp, emin; lia). unfold shr_fexp.
  assert (Zdigits2 (Z.pos m * 2 ^ Z.pos p) = 53 + Z.pos p)%Z as ->.
  { pose proof (proj1 (size_pow2 m 53) ltac:(by rewrite Hs)) as (_ & H1 & H2). pose proof (Z.pow_pos_nonneg 2 (Z.pos p) ltac:(lia) ltac:(lia)).
    destruct (Z.pos m * 2 ^ Z.pos p)%Z as [|q|q] eqn:E; [lia| |nia]. cbn [Zdigits2]. rewrite digits2_size. apply size_pow2.
    replace (53 + Z.pos p - 1)%Z with (52 + Z.pos p)%Z by lia. rewrite !Z.pow_add_r, <- E by lia.
    split; [lia|]. change (53 - 1)%Z with 52%Z in H1. nia. }
  replace (fexp 53 1024 (53 + Z.pos p + (e - Z.pos p)) - (e - Z.pos p))%Z with (Z.pos p) by (unfold fexp, emin; lia).
  cbn [shr shr_record_of_loc]. rewrite shr_zeros. f_equal. lia.
Qed.
Lemma canon_size m : (Z.pos m < 2 ^ 53)%Z → (0 < Z.pos (Pos.size m) ≤ 53)%Z ∧
  Pos.size (Z.to_pos (Z.pos m * 2 ^ (53 - Z.pos (Pos.size m)))) = 53%positive.
Proof.
  intros Hm. pose proof (proj1 (size_pow2 m _) eq_refl) as (_ & H1 & H2).
  assert (2 ^ (Z.pos (Pos.size m) - 1) < 2 ^ 53)%Z as Hlt by lia. apply Z.pow_lt_mono_r_iff in Hlt; [|lia|lia].
  split; [lia|]. apply Pos2Z.inj, size_pow2.
  pose proof (Z.pow_pos_nonneg 2 (53 - Z.pos (Pos.size m)) ltac:(lia) ltac:(lia)). rewrite Z2Pos.id by nia.
  replace (53 - 1)%Z with ((Z.pos (Pos.size m) - 1) + (53 - Z.pos (Pos.size m)))%Z by lia.
  replace (2 ^ 53)%Z with (2 ^ (Z.pos (Pos.size m) + (53 - Z.pos (Pos.size m))))%Z by (f_equal; lia).
  rewrite !Z.pow_add_r by lia. nia.
Qed.
Lemma binary_round_scaled s m k : (Z.pos m < 2 ^ 53)%Z → (0 ≤ k)%Z →
  binary_round 53 1024 s (Z.to_pos (Z.pos m * 2 ^ k)) (- k) = canon s m.
Proof.
  intros Hm Hk. destruct (canon_size m Hm) as [Hs Hc]. pose proof (Z.pow_pos_nonneg 2 k ltac:(lia) Hk) as Hp.
  set (d := (53 - Z.pos (Pos.size m))%Z) in *. pose proof (Z.pow_pos_nonneg 2 d ltac:(lia) ltac:(lia)).
  unfold binary_round. rewrite digits2_size.
  assert (Z.pos (Pos.size (Z.to_pos (Z.pos m * 2 ^ k))) = Z.pos (Pos.size m) + k)%Z as ->.
  { apply size_pow2. rewrite Z2Pos.id by nia. pose proof (proj1 (size_pow2 m _) eq_refl) as (_ & H1 & H2).
    replace (Z.pos (Pos.size m) + k - 1)%Z with (Z.pos (Pos.size m) - 1 + k)%Z by lia. rewrite !Z.pow_add_r by lia. nia. }
  replace (fexp 53 1024 (Z.pos (Pos.size m) + k + - k)) with (- d)%Z by (unfold fexp, emin, d; lia).
  unfold shl_align, canon. fold d. replace (Z.pos (Pos.size m) - 53)%Z with (- d)%Z by lia.
  destruct (- d - - k)%Z as [|n|n] eqn:E.
  - assert (k = d) as -> by lia. apply round_aux_canon; [done|lia].
  - rewrite Z2Pos.id by nia. replace (Z.pos m * 2 ^ k)%Z with (Z.pos (Z.to_pos (Z.pos m * 2 ^ d)) * 2 ^ Z.pos n)%Z.
    + replace (- k)%Z with (- d - Z.pos n)%Z by lia. apply round_aux_zeros; [done|lia].
    + rewrite Z2Pos.id by nia. rewrite <- Z.mul_assoc, <- Z.pow_add_r by lia. do 2 f_equal. lia.
  - assert (Pos.iter xO (Z.to_pos (Z.pos m * 2 ^ k)) n = Z.to_pos (Z.pos m * 2 ^ d)) as ->.
    { apply Pos2Z.inj. rewrite iter_xO, !Z2Pos.id, <- Z.mul_assoc, <- Z.pow_add_r by (lia || nia). do 2 f_equal. lia. }
    apply round_aux_canon; [done|lia].
Qed.

Lemma f64_of_Z_canon z : (- 2 ^ 53 < z < 2 ^ 53)%Z →
  f64_of_Z z = match z with Z0 => f64_zero | Zpos m => canon false m | Zneg m => canon true m end.
Proof.
  intros Hz. destruct z as [|m|m]; [done|..]; cbn [f64_of_Z binary_normalize];
    [rewrite <- (binary_round_scaled false m 0) by lia|rewrite <- (binary_round_scaled true m 0) by lia];
    by rewrite Z.pow_0_r, Z.mul_1_r.
Qed.
(** A sum of scaled integers, renormalised, is the float64 of the sum. *)
Lemma normalize_scaled z k : (- 2 ^ 53 < z < 2 ^ 53)%Z → (0 ≤ k)%Z →
  binary_normalize 53 1024 (z * 2 ^ k) (- k) false = f64_of_Z z.
Proof.
  intros Hz Hk. rewrite f64_of_Z_canon by done. pose proof (Z.pow_pos_nonneg 2 k ltac:(lia) Hk).
  destruct z as [|m|m]; [done|..].
  - rewrite <- (binary_round_scaled false m k) by lia. destruct (Z.pos m * 2 ^ k)%Z eqn:E; [lia|done|nia].
  - rewrite <- (binary_round_scaled true m k) by lia. change (Z.neg m) with (- Z.pos m)%Z. rewrite Z.mul_opp_l.
    destruct (Z.pos m * 2 ^ k)%Z eqn:E; [lia|done|nia].
Qed.
Lemma shl_align_le m e ez : (ez ≤ e)%Z → Z.pos (fst (shl_align m e ez)) = (Z.pos m * 2 ^ (e - ez))%Z.
Proof.
  intros He. unfold shl_align. destruct (ez - e)%Z as [|d|d] eqn:E; [|lia|].
  - replace (e - ez)%Z with 0%Z by lia. cbn [fst]. lia.
  - cbn [fst]. rewrite iter_xO. do 2 f_equal. lia.
Qed.
Lemma align_canon m ez : (Z.pos m < 2 ^ 53)%Z → (ez ≤ Z.pos (Pos.size m) - 53)%Z →
  Z.pos (fst (shl_align (Z.to_pos (Z.pos m * 2 ^ (53 - Z.pos (Pos.size m)))) (Z.pos (Pos.size m) - 53) ez)) = (Z.pos m * 2 ^ (- ez))%Z.
Proof.
  intros Hm He. destruct (canon_size m Hm) as [Hs _].
  pose proof (Z.pow_pos_nonneg 2 (53 - Z.pos (Pos.size m)) ltac:(lia) ltac:(lia)).
  rewrite shl_align_le, Z2Pos.id, <- Z.mul_assoc, <- Z.pow_add_r by (lia || nia). do 2 f_equal. lia.
Qed.
Lemma canon_exponents a b : (Z.pos a < 2 ^ 53)%Z → (Z.pos b < 2 ^ 53)%Z →
  ∃ k, (0 ≤ k)%Z ∧ Z.min (Z.pos (Pos.size a) - 53) (Z.pos (Pos.size b) - 53) = (- k)%Z.
Proof.
  intros Ha Hb. destruct (canon_size a Ha) as [? _], (canon_size b Hb) as [? _].
  exists (- Z.min (Z.pos (Pos.size a) - 53) (Z.pos (Pos.size b) - 53))%Z. lia.
Qed.

Lemma f64_add_int a b : (0 ≤ a)%Z → (0 ≤ b)%Z → (a + b < 2 ^ 53)%Z → f64_add (f64_of_Z a) (f64_of_Z b) = f64_of_Z (a + b).
Proof.
  intros Ha Hb Hab. destruct a as [|a|a]; [|clear Ha|lia].
  { rewrite Z.add_0_l. rewrite (f64_of_Z_canon b) by lia. by destruct b. }
  destruct b as [|b|b]; [|clear Hb|lia].
  { rewrite Z.add_0_r. rewrite (f64_of_Z_canon (Z.pos a)) by lia. done. }
  rewrite (f64_of_Z_canon (Z.pos a)), (f64_of_Z_canon (Z.pos b)) by lia.
  destruct (canon_exponents a b) as (k & Hk & E); [lia|lia|]. unfold f64_add, canon, SFadd. rewrite E.
  rewrite !align_canon by lia. cbn [cond_Zopp]. rewrite Z.opp_involutive, <- Z.mul_add_distr_r. apply normalize_scaled; lia.
Qed.
Lemma f64_sub_int a b : (0 ≤ a < 2 ^ 53)%Z → (0 ≤ b < 2 ^ 53)%Z → f64_sub (f64_of_Z a) (f64_of_Z b) = f64_of_Z (a - b).
Proof.
  intros Ha Hb. destruct a as [|a|a]; [| |lia].
  { rewrite Z.sub_0_l, (f64_of_Z_canon b), (f64_of_Z_canon (- b)) by lia. destruct b; [done|done|lia]. }
  destruct b as [|b|b]; [| |lia].
  { rewrite Z.sub_0_r. rewrite (f64_of_Z_canon (Z.pos a)) by lia. done. }
  rewrite (f64_of_Z_canon (Z.pos a)), (f64_of_Z_canon (Z.pos b)) by lia.
  destruct (canon_exponents a b) as (k & Hk & E); [lia|lia|]. unfold f64_sub, canon, SFsub. rewrite E.
  rewrite !align_canon by lia. cbn [cond_Zopp]. rewrite Z.opp_involutive, <- Z.mul_sub_distr_r. apply normalize_scaled; lia.
Qed.
Lemma f64_neg_int z : (- 2 ^ 53 < z < 2 ^ 53)%Z → f64_ltb (f64_of_Z z) f64_zero = (z <? 0)%Z.
Proof. intros Hz. rewrite f64_of_Z_canon by done. by destruct z. Qed.
Lemma f64_of_Z_finite z : (- 2 ^ 53 < z < 2 ^ 53)%Z → f64_of_Z z ≠ S754_nan ∧ ∀ s, f64_of_Z z ≠ S754_infinity s.
Proof. intros Hz. rewrite f64_of_Z_canon by done. by destruct z. Qed.

(** ** Parsing integers *)
Lemma digit_not_special a : is_digit a = true → a ≠ "_"%char ∧ a ≠ "."%char ∧ a ≠ "+"%char ∧ a ≠ "-"%char ∧
  lower_byte a ≠ "i"%char ∧ lower_byte a ≠ "n"%char ∧ lower_byte a ≠ "x"%char.
Proof. destruct a as [[] [] [] [] [] [] [] []]; vm_compute; intuition discriminate. Qed.
Lemma readMantissa_digits s m v : mant_dot m = false → digits_val (mant_val m) s = Some v →
  readMantissa false m s =
    ({| mant_val := v; mant_frac := mant_frac m; mant_dot := false; mant_digits := mant_digits m || negb (s == "") |}, "").
Proof.
  revert m; induction s as [|a s IH]; intros m Hd Hv; cbn [readMantissa digits_val] in *.
  - simplify_eq. destruct m; simpl in *. by rewrite Hd, orb_false_r.
  - destruct (digit_val a) as [d|] eqn:Ea; [|done].
    destruct (digit_not_special a) as (H1 & H2 & _); [unfold is_digit, digit_val in *; by destruct (Ascii.is_nat a)|].
    rewrite (bool_decide_eq_false_2 _ H1), (bool_decide_eq_false_2 _ H2). unfold mantDigit. rewrite Ea, IH; [|done|done].
    cbn [mant_frac mant_digits]. rewrite Hd. by rewrite orb_true_r.
Qed.
Lemma cutSign_digit a s : is_digit a = true → cutSign (String a s) = (false, String a s).
Proof. intros H. destruct (digit_not_special a H) as (_ & _ & H1 & H2 & _). by destruct a as [[] [] [] [] [] [] [] []]. Qed.
Lemma special_digit a s : is_digit a = true → special (String a s) = None.
Proof.
  intros H. unfold special. rewrite cutSign_digit by done. destruct (digit_not_special a H) as (_ & _ & _ & _ & H1 & H2 & _).
  cbn [to_lower]. rewrite !bool_decide_eq_false_2; [done|congruence|].
  rewrite !elem_of_cons. intros [?|[?|?%not_elem_of_nil]]; [congruence..|done].
Qed.
Lemma cutHex_digits a s : is_digit a = true → str_forall is_digit s = true → cutHex (String a s) = None.
Proof.
  intros Ha Hs. destruct s as [|x [|b t]]; [by destruct a as [[] [] [] [] [] [] [] []]..|].
  cbn [str_forall] in Hs. apply andb_true_iff in Hs as [Hx _]. destruct (digit_not_special x Hx) as (_ & _ & _ & _ & _ & _ & H).
  unfold cutHex. rewrite (bool_decide_eq_false_2 _ H). by destruct a as [[] [] [] [] [] [] [] []].
Qed.
(** A printed integer below 2^53 is read back as exactly that number. *)
Lemma ParseFloat_Itoa n : (0 ≤ n < 2 ^ 53)%Z → ParseFloat (Itoa n) = Some (f64_of_Z n).
Proof.
  intros Hn. pose proof (Itoa_digits n ltac:(lia)) as Hd. pose proof (Itoa_lacks "_"%char n eq_refl ltac:(lia)) as Hu.
  assert (unsigned_val (Itoa n) = Some n) as Hv.
  { rewrite Itoa_nonneg, unsigned_val_pretty_N by lia. f_equal. lia. }
  destruct (Itoa n) as [|a s] eqn:E; [by apply Itoa_nonempty in E|]. cbn [str_forall] in Hd. apply andb_true_iff in Hd as [Ha Hs].
  unfold ParseFloat, readFloat. rewrite special_digit, cutSign_digit, cutHex_digits by done.
  rewrite (readMantissa_digits _ mant0 n) by done. cbn [default bool_decide]. rewrite Hu. cbn.
  rewrite Z.sub_0_r. destruct (f64_of_Z_finite n) as [_ Hf]; [lia|].
  assert (roundDecimal false n 0 = f64_of_Z n) as ->.
  { destruct n as [|p|p]; [done| |lia]. cbn [roundDecimal Z.leb Z.compare]. by rewrite Z.pow_0_r, Z.mul_1_r. }
  destruct (f64_of_Z n) as [| s'| |] eqn:Ef; [done|by destruct (Hf s')|done|done].
Qed.
