(* ===== verification/Kube.v ===== *)
(** * Kube: the Kubernetes objects the operator reads and writes

    These types belong to client-go / apimachinery, not to the operator.  Each
    record keeps the fields the operator reads or sets; values the operator only
    carries from the spec into an object (tolerations, node affinities)
    are [Opaque], their JSON text. *)

From S2P Require Import Prelude GoStd.

(** A third-party value the operator passes through, as its JSON text. *)
Definition Opaque : Type := string.

Inductive IntOrString := IntVal (n : Z) | StrVal (s : string).

(** [metav1.LabelSelector]. *)
Record LabelSelectorRequirement := {
  lsr_Key : string; lsr_Operator : string; lsr_Values : list string
}.
Record LabelSelector := {
  MatchLabels : gmap string string;
  MatchExpressions : list LabelSelectorRequirement
}.

(** [networkingv1] peers, ports and egress rules. *)
Record NetworkPolicyPeer := {
  PodSelector : option LabelSelector;
  NamespaceSelector : option LabelSelector;
  IPBlock : option Opaque
}.
Record NetworkPolicyPort := {
  np_Protocol : option string; np_Port : option IntOrString; np_EndPort : option Z
}.
Record NetworkPolicyEgressRule := {
  eg_To : list NetworkPolicyPeer; eg_Ports : list NetworkPolicyPort
}.

(** [corev1.ResourceRequirements]; quantities are their value in bytes (or units). *)
Record ResourceRequirements := {
  Limits : gmap string Z; Requests : gmap string Z
}.

(** [metav1.Condition]. Times are nanoseconds. *)
Record Condition := {
  cond_Type : string; cond_Status : string; cond_Reason : string; cond_Message : string;
  cond_ObservedGeneration : Z; cond_LastTransitionTime : Z
}.

(** [corev1.Pod] and [corev1.Node]. *)
Record Pod := {
  pod_Name : string;
  pod_Namespace : string;
  pod_Labels : gmap string string;
  pod_Deleting : bool;                       (* DeletionTimestamp != nil *)
  pod_Phase : string;
  pod_Conditions : list (string * string);   (* (Type, Status) *)
  pod_NodeName : string;
  pod_IP : string
}.
Record Node := {
  node_Labels : gmap string string;
  node_Conditions : list (string * string)
}.

(** [corev1.Secret]. *)
Record Secret := {
  sec_Name : string; sec_Namespace : string; sec_Labels : gmap string string;
  sec_Data : gmap string string
}.

(** Containers and pod templates. *)
Inductive EnvSource :=
  | EnvValue (v : string)
  | EnvSecretKey (secret key : string)
  | EnvFieldRef (path : string).
Record EnvVar := { env_Name : string; env_From : EnvSource }.
Record VolumeMount := { vm_Name : string; vm_MountPath : string; vm_ReadOnly : bool }.
Inductive VolumeSource :=
  | VolConfigMap (name : string) (items : list (string * string))
  | VolSecret (name : string) (items : list (string * string))
  | VolEmptyDir (medium : string) (sizeLimit : option Z).
Record Volume := { vol_Name : string; vol_Source : VolumeSource }.

(** Security contexts: the fields the operator's own default sets; [_Rest] is what else a
    user's context holds. *)
Record SecurityContext := {
  sc_AllowPrivilegeEscalation : option bool;
  sc_RunAsNonRoot : option bool;
  sc_CapabilitiesDrop : list string;
  sc_SeccompProfile : option string;
  sc_Rest : Opaque
}.
Record PodSecurityContext := {
  psc_FSGroup : option Z;
  psc_RunAsUser : option Z;
  psc_RunAsNonRoot : option bool;
  psc_SeccompProfile : option string;
  psc_Rest : Opaque
}.

(** [corev1.ContainerPort] and the probes the operator writes. *)
Record ContainerPort := { cp_Name : string; cp_ContainerPort : Z; cp_Protocol : string }.
Inductive ProbeHandler :=
  | ProbeTCP (port : Z)
  | ProbeExec (command : list string).
Record Probe := {
  pb_Handler : ProbeHandler;
  pb_InitialDelaySeconds : Z; pb_PeriodSeconds : Z; pb_TimeoutSeconds : Z; pb_FailureThreshold : Z
}.

(** The zero value of [corev1.ResourceRequirements]. *)
Definition noResources : ResourceRequirements := {| Limits := ∅; Requests := ∅ |}.

Record Container := {
  ctr_Name : string;
  ctr_Image : string;
  ctr_ImagePullPolicy : string;
  ctr_Command : list string;
  ctr_Args : list string;
  ctr_Env : list EnvVar;
  ctr_Ports : list ContainerPort;
  ctr_Resources : ResourceRequirements;
  ctr_VolumeMounts : list VolumeMount;
  ctr_ReadinessProbe : option Probe;
  ctr_LivenessProbe : option Probe;
  ctr_SecurityContext : option SecurityContext
}.
(** A container that sets nothing else. *)
Definition plainContainer (name image : string) (command : list string) (env : list EnvVar)
    (mounts : list VolumeMount) (sc : option SecurityContext) : Container := {|
  ctr_Name := name; ctr_Image := image; ctr_ImagePullPolicy := ""; ctr_Command := command; ctr_Args := [];
  ctr_Env := env; ctr_Ports := []; ctr_Resources := noResources; ctr_VolumeMounts := mounts;
  ctr_ReadinessProbe := None; ctr_LivenessProbe := None; ctr_SecurityContext := sc |}.
Definition set_ctr_SecurityContext (v : option SecurityContext) (c : Container) : Container := {|
  ctr_Name := ctr_Name c; ctr_Image := ctr_Image c; ctr_ImagePullPolicy := ctr_ImagePullPolicy c;
  ctr_Command := ctr_Command c; ctr_Args := ctr_Args c; ctr_Env := ctr_Env c; ctr_Ports := ctr_Ports c;
  ctr_Resources := ctr_Resources c; ctr_VolumeMounts := ctr_VolumeMounts c;
  ctr_ReadinessProbe := ctr_ReadinessProbe c; ctr_LivenessProbe := ctr_LivenessProbe c;
  ctr_SecurityContext := v |}.

(** Scheduling: the terms the operator writes; [_Rest] is what else a user's value holds. *)
Record PodAffinityTerm := { pat_TopologyKey : string; pat_Selector : LabelSelector }.
Record PodAntiAffinity := {
  paa_Required : list PodAffinityTerm;
  paa_Preferred : list (Z * PodAffinityTerm);
  paa_Rest : Opaque
}.
Record Affinity := {
  aff_NodeAffinity : option Opaque;
  aff_PodAffinity : option Opaque;
  aff_PodAntiAffinity : option PodAntiAffinity
}.
Record TopologySpreadConstraint := {
  tsc_MaxSkew : Z; tsc_TopologyKey : string; tsc_WhenUnsatisfiable : string;
  tsc_LabelSelector : option LabelSelector; tsc_Rest : Opaque
}.

Record PodSpec := {
  ps_RestartPolicy : string;
  ps_InitContainers : list Container;
  ps_Containers : list Container;
  ps_Volumes : list Volume;
  ps_NodeSelector : gmap string string;
  ps_Tolerations : list Opaque;
  ps_Affinity : option Affinity;
  ps_TopologySpreadConstraints : list TopologySpreadConstraint;
  ps_ImagePullSecrets : list string;
  ps_SecurityContext : PodSecurityContext;
  ps_TerminationGracePeriodSeconds : option Z
}.
(** A Job's pod: no scheduling constraints. *)
Definition jobPodSpec (inits ctrs : list Container) (vols : list Volume) (pulls : list string)
    (sc : PodSecurityContext) : PodSpec := {|
  ps_RestartPolicy := "OnFailure"; ps_InitContainers := inits; ps_Containers := ctrs; ps_Volumes := vols;
  ps_NodeSelector := ∅; ps_Tolerations := []; ps_Affinity := None; ps_TopologySpreadConstraints := [];
  ps_ImagePullSecrets := pulls; ps_SecurityContext := sc; ps_TerminationGracePeriodSeconds := None |}.

Record PodTemplateSpec := {
  pt_Labels : gmap string string; pt_Annotations : gmap string string; pt_Spec : PodSpec
}.

(** [batchv1.Job].  The API server defaults [spec.backoffLimit], so it is never nil. *)
Record Job := {
  job_Name : string;
  job_Namespace : string;
  job_Labels : gmap string string;
  job_BackoffLimit : Z;
  job_TTLSecondsAfterFinished : option Z;
  job_PodLabels : gmap string string;
  job_PodSpec : PodSpec;
  job_Succeeded : Z;                         (* status *)
  job_Failed : Z                             (* status *)
}.

(** [batchv1.CronJob]. *)
Record CronJobSpec := {
  cjs_Schedule : string;
  cjs_ConcurrencyPolicy : string;
  cjs_JobLabels : gmap string string;
  cjs_PodLabels : gmap string string;
  cjs_PodSpec : PodSpec
}.
Record CronJob := {
  cj_Name : string; cj_Namespace : string; cj_Labels : gmap string string;
  cj_Annotations : gmap string string; cj_Spec : CronJobSpec
}.

(** [corev1.PersistentVolumeClaim]; a claim template has no namespace. *)
Record PersistentVolumeClaim := {
  pvc_Name : string; pvc_Namespace : string; pvc_Labels : gmap string string;
  pvc_AccessModes : list string; pvc_StorageClassName : option string; pvc_Requests : gmap string Z
}.

(** [appsv1.StatefulSet]. *)
Record StatefulSet := {
  sts_Name : string;
  sts_Namespace : string;
  sts_Labels : gmap string string;
  sts_Annotations : gmap string string;
  sts_Generation : Z;
  sts_Replicas : option Z;                   (* spec.* from here on *)
  sts_ServiceName : string;
  sts_PodManagementPolicy : string;
  sts_UpdateStrategy : string;
  sts_Selector : gmap string string;
  sts_Template : PodTemplateSpec;
  sts_VolumeClaimTemplates : list PersistentVolumeClaim;
  sts_ObservedGeneration : Z;                (* status.* from here on *)
  sts_ReadyReplicas : Z;
  sts_UpdatedReplicas : Z;
  sts_CurrentRevision : string;
  sts_UpdateRevision : string
}.
(** The zero value of [appsv1.StatefulSet], and one of which only the size and status matter. *)
Definition zeroPodSpec : PodSpec := {|
  ps_RestartPolicy := ""; ps_InitContainers := []; ps_Containers := []; ps_Volumes := []; ps_NodeSelector := ∅;
  ps_Tolerations := []; ps_Affinity := None; ps_TopologySpreadConstraints := []; ps_ImagePullSecrets := [];
  ps_SecurityContext := {| psc_FSGroup := None; psc_RunAsUser := None; psc_RunAsNonRoot := None;
                           psc_SeccompProfile := None; psc_Rest := "" |};
  ps_TerminationGracePeriodSeconds := None |}.
Definition zeroTemplate : PodTemplateSpec := {| pt_Labels := ∅; pt_Annotations := ∅; pt_Spec := zeroPodSpec |}.
Definition stsOfStatus (name ns : string) (gen : Z) (replicas : option Z) (observed ready updated : Z)
    (current update : string) : StatefulSet := {|
  sts_Name := name; sts_Namespace := ns; sts_Labels := ∅; sts_Annotations := ∅; sts_Generation := gen;
  sts_Replicas := replicas; sts_ServiceName := ""; sts_PodManagementPolicy := ""; sts_UpdateStrategy := "";
  sts_Selector := ∅; sts_Template := zeroTemplate; sts_VolumeClaimTemplates := [];
  sts_ObservedGeneration := observed; sts_ReadyReplicas := ready; sts_UpdatedReplicas := updated;
  sts_CurrentRevision := current; sts_UpdateRevision := update |}.
Definition zeroSts : StatefulSet := stsOfStatus "" "" 0 None 0 0 0 "" "".

(** [corev1.Service] and [corev1.ConfigMap]. *)
Record ServicePort := { sp_Name : string; sp_Port : Z; sp_TargetPort : IntOrString; sp_Protocol : string }.
Record Service := {
  svc_Name : string; svc_Namespace : string; svc_Labels : gmap string string;
  svc_Type : string; svc_ClusterIP : string; svc_PublishNotReadyAddresses : bool;
  svc_Selector : gmap string string; svc_Ports : list ServicePort
}.
Record ConfigMap := {
  cm_Name : string; cm_Namespace : string; cm_Labels : gmap string string; cm_Data : gmap string string
}.

(** [policyv1.PodDisruptionBudget]. *)
Record PodDisruptionBudgetSpec := {
  pdbs_MinAvailable : option IntOrString;
  pdbs_MaxUnavailable : option IntOrString;
  pdbs_Selector : option LabelSelector
}.
Record PodDisruptionBudget := {
  pdb_Name : string; pdb_Namespace : string; pdb_Labels : gmap string string; pdb_Spec : PodDisruptionBudgetSpec
}.

(** [networkingv1.NetworkPolicy]. *)
Record NetworkPolicyIngressRule := { ig_From : list NetworkPolicyPeer; ig_Ports : list NetworkPolicyPort }.
Record NetPolSpec := {
  nps_PodSelector : LabelSelector;
  nps_PolicyTypes : list string;
  nps_Ingress : list NetworkPolicyIngressRule;
  nps_Egress : list NetworkPolicyEgressRule
}.
Record NetworkPolicy := {
  npol_Name : string; npol_Namespace : string; npol_Labels : gmap string string; npol_Spec : NetPolSpec
}.

(** Decoded JSON: what an unstructured object holds. *)
#[local] Unset Elimination Schemes.
Inductive JSON :=
  | JNull
  | JBool (b : bool)
  | JNum (n : Z)
  | JStr (s : string)
  | JArr (l : list JSON)
  | JObj (m : list (string * JSON)).
#[local] Set Elimination Schemes.
(** The Prometheus operator's ServiceMonitor, as an unstructured object. *)
Record ServiceMonitor := {
  sm_Name : string; sm_Namespace : string; sm_Labels : gmap string string; sm_Spec : JSON
}.

(** Errors of the API client: the operator tells NotFound and NoMatch from the rest. *)
Inductive KubeErr :=
  | NotFound
  | Conflict
  | NoMatch                                  (* the kind is not installed *)
  | KubeOther (msg : string).

Definition IsNotFound (e : KubeErr) : bool := match e with NotFound => true | _ => false end.

#[global] Instance KubeErr_eq_dec : EqDecision KubeErr.
Proof. solve_decision. Defined.
#[global] Instance Condition_eq_dec : EqDecision Condition.
Proof. solve_decision. Defined.
(** Equality is decidable on everything the operator compares. *)
#[global] Instance IntOrString_eq_dec : EqDecision IntOrString.
Proof. solve_decision. Defined.
#[global] Instance LabelSelectorRequirement_eq_dec : EqDecision LabelSelectorRequirement.
Proof. solve_decision. Defined.
#[global] Instance LabelSelector_eq_dec : EqDecision LabelSelector.
Proof. solve_decision. Defined.
#[global] Instance ServicePort_eq_dec : EqDecision ServicePort.
Proof. solve_decision. Defined.
#[global] Instance Service_eq_dec : EqDecision Service.
Proof. solve_decision. Defined.
#[global] Instance NetworkPolicyPeer_eq_dec : EqDecision NetworkPolicyPeer.
Proof. solve_decision. Defined.
#[global] Instance NetworkPolicyPort_eq_dec : EqDecision NetworkPolicyPort.
Proof. solve_decision. Defined.
#[global] Instance NetworkPolicyEgressRule_eq_dec : EqDecision NetworkPolicyEgressRule.
Proof. solve_decision. Defined.
#[global] Instance NetworkPolicyIngressRule_eq_dec : EqDecision NetworkPolicyIngressRule.
Proof. solve_decision. Defined.
#[global] Instance NetPolSpec_eq_dec : EqDecision NetPolSpec.
Proof. solve_decision. Defined.
#[global] Instance ResourceRequirements_eq_dec : EqDecision ResourceRequirements.
Proof. solve_decision. Defined.
#[global] Instance EnvSource_eq_dec : EqDecision EnvSource.
Proof. solve_decision. Defined.
#[global] Instance EnvVar_eq_dec : EqDecision EnvVar.
Proof. solve_decision. Defined.
#[global] Instance VolumeMount_eq_dec : EqDecision VolumeMount.
Proof. solve_decision. Defined.
#[global] Instance VolumeSource_eq_dec : EqDecision VolumeSource.
Proof. solve_decision. Defined.
#[global] Instance Volume_eq_dec : EqDecision Volume.
Proof. solve_decision. Defined.
#[global] Instance SecurityContext_eq_dec : EqDecision SecurityContext.
Proof. solve_decision. Defined.
#[global] Instance PodSecurityContext_eq_dec : EqDecision PodSecurityContext.
Proof. solve_decision. Defined.
#[global] Instance ContainerPort_eq_dec : EqDecision ContainerPort.
Proof. solve_decision. Defined.
#[global] Instance ProbeHandler_eq_dec : EqDecision ProbeHandler.
Proof. solve_decision. Defined.
#[global] Instance Probe_eq_dec : EqDecision Probe.
Proof. solve_decision. Defined.
#[global] Instance Container_eq_dec : EqDecision Container.
Proof. solve_decision. Defined.
#[global] Instance PodAffinityTerm_eq_dec : EqDecision PodAffinityTerm.
Proof. solve_decision. Defined.
#[global] Instance PodAntiAffinity_eq_dec : EqDecision PodAntiAffinity.
Proof. solve_decision. Defined.
#[global] Instance Affinity_eq_dec : EqDecision Affinity.
Proof. solve_decision. Defined.
#[global] Instance TopologySpreadConstraint_eq_dec : EqDecision TopologySpreadConstraint.
Proof. solve_decision. Defined.
#[global] Instance PodSpec_eq_dec : EqDecision PodSpec.
Proof. solve_decision. Defined.
#[global] Instance PodTemplateSpec_eq_dec : EqDecision PodTemplateSpec.
Proof. solve_decision. Defined.
