(* ===== verification/Effects.v ===== *)
(** * Effects: the operator's calls to the outside world

    Every reconcile step talks to two outside parties: the Kubernetes API server
    (client-go) and Valkey pods (go-redis); the kubectl plugin talks to the API server
    and to the host it runs on.  Neither is under src/, so a call is
    an operation [Op] of a free monad [prog] and its answer is left to the
    environment: nothing is assumed about it.  [exec p tr a] says that [p] can run
    with the trace [tr] of operations and answers and return [a]; a safety theorem
    quantifies over every trace, that is over every behaviour of the API server
    and of the pods.  [run] executes a program against a concrete environment (a
    handler over a world), and [run_exec] ties the two together.

    Left out: logging, closing a client, and the writes of [Status().Patch] back
    into the in-memory object other than the fields just set. *)

From S2P Require Import Prelude GoStd Float64 Kube Api.

(** An error value is its message. *)
Definition error : Type := string.

(** ** go-redis *)

(** The options [dialReplClient] connects with. *)
Record DialOpts := {
  d_Host : string;
  d_Port : Z;
  d_Password : string;
  d_TLS : bool;
  d_ClientCert : option string;
  d_Timeout : Z                              (* nanoseconds *)
}.

(** What a command answers ([Cmd.Val()]). *)
#[local] Unset Elimination Schemes.
Inductive Reply :=
  | RStr (s : string)
  | RInt (n : Z)
  | RArr (l : list string)
  | RMap (m : list (string * string))
  | RReplies (l : list Reply).                         (* an array of arrays or maps *)
#[local] Set Elimination Schemes.

(** ** Operations and their answers *)

(** What the kubectl plugin creates and lists: a Job under a name prefix the API server completes,
    and events. *)
Record ManualJob := {
  mj_GenerateName : string; mj_Namespace : string; mj_Labels : gmap string string;
  mj_Annotations : gmap string string; mj_PodLabels : gmap string string; mj_PodSpec : PodSpec
}.
Record KubeEvent := { kev_Involved : string; kev_Rest : Opaque }.   (* involvedObject.name *)

(** The kinds of object that are only created, read, updated and deleted whole. *)
Inductive Kind := KService | KConfigMap | KPDB | KNetPol | KCronJob | KServiceMonitor.
Definition obj (k : Kind) : Type :=
  match k with
  | KService => Service
  | KConfigMap => ConfigMap
  | KPDB => PodDisruptionBudget
  | KNetPol => NetworkPolicy
  | KCronJob => CronJob
  | KServiceMonitor => ServiceMonitor
  end.

(** What the operator's process keeps in memory between passes (telemetry.go): the last active-time
    reading of a pod, and the zone of a node with the time it was read. *)
Record threadSample := { ts_at : Z; ts_activeUsec : float64; ts_threads : Z }.
Record zoneEntry := { ze_zone : string; ze_at : Z }.

Inductive Op :=
  (* go-redis *)
  | OPing (o : DialOpts)                               (* NewClient and PING *)
  | OInfo (o : DialOpts) (section : string)
  | ODBSize (o : DialOpts)
  | ODo (o : DialOpts) (args : list string)
  (* the API server *)
  | OGetPod (ns name : string)
  | OGetNode (name : string)
  | OListPods (ns : string) (matching : gmap string string)
  | ODeletePod (ns name : string)
  | OGetSts (ns name : string)
  | ODeleteSts (ns name : string)
  | ODeleteSvc (ns name : string)
  | OGetSecret (ns name : string)
  | OCreateSecret (s : Secret)
  | OUpdateSecret (s : Secret)
  | OGetCluster (ns name : string)
  | OReadCluster (ns name : string)                    (* uncached: r.APIReader *)
  | OUpdateStatus (vc : ValkeyCluster)                 (* r.Status().Update *)
  | OGetACL (ns name : string)
  | OPatchACL (base new : ValkeyACL)
  | OGetJob (ns name : string)
  | OCreateJob (j : Job)
  | ODeleteJob (ns name : string)
  | OPatchStatus (base new : ValkeyCluster)
  | OUpdateCluster (vc : ValkeyCluster)                (* r.Update; answers the stored object *)
  | OListClusters (ns : string)
  | OCreateSts (s : StatefulSet)                       (* answers the stored object *)
  | OUpdateSts (s : StatefulSet)                       (* answers the stored object *)
  | OGet (k : Kind) (ns name : string)
  | OCreate (k : Kind) (o : obj k)
  | OUpdate (k : Kind) (o : obj k)
  | ODelete (k : Kind) (ns name : string)
  | OListPVCs (ns : string) (matching : gmap string string)
  | OPatchPVC (base new : PersistentVolumeClaim)
  | OPatchPod (base new : Pod)
  (* time, randomness, metrics, crypto *)
  | ONow
  | OSleep (d : Z)                                     (* answers: the context is done *)
  | ORandomPassword
  | OX509KeyPair (cert key : string)
  | OTLSDial (host : string) (port : Z) (cert : option string)  (* answers the peer's certificates *)
  | OMetricInc (name : string) (labels : list string)
  | OMetricSet (name : string) (labels : list string) (v : Z)
  | OMetricSetFloat (name : string) (labels : list string) (v : float64)
  | OMetricDelete (name : string) (labels : list string)        (* DeleteLabelValues *)
  (* the process's own maps, each under its mutex: one critical section applies a function and
     answers the map it found *)
  | OSamples (f : gmap string threadSample → gmap string threadSample)
  | OZones (f : gmap string zoneEntry → gmap string zoneEntry)
  (* controllerutil.SetControllerReference on an object in memory *)
  | OSetControllerReference (owner object : string)
  (* the kubectl plugin: the API server *)
  | OPatchCluster (base new : ValkeyCluster)
  | OCreateManualJob (j : ManualJob)                   (* answers the name *)
  | OListSts (ns : string) (matching : gmap string string)
  | OList (k : Kind) (ns : string) (matching : gmap string string)
  | OListEvents (ns : string)
  (* the kubectl plugin: its host *)
  | OKubeconfig                                        (* load it *)
  | ONewClient                                         (* client.New *)
  | OContextNamespace
  | OPrint (text : string)
  | OMkdirAll (dir : string)
  | OWriteFile (path data : string) (perm : Z)
  | OLookPath (file : string)
  | OExec (path : string) (args : list string).

Definition ans (op : Op) : Type :=
  match op with
  | OPing _ => bool
  | OInfo _ _ => error + string
  | ODBSize _ => error + Z
  | ODo _ _ => error + Reply
  | OGetPod _ _ => KubeErr + Pod
  | OGetNode _ => KubeErr + Node
  | OListPods _ _ => KubeErr + list Pod
  | ODeletePod _ _ => option KubeErr
  | OGetSts _ _ => KubeErr + StatefulSet
  | ODeleteSts _ _ => option KubeErr
  | ODeleteSvc _ _ => option KubeErr
  | OGetSecret _ _ => KubeErr + Secret
  | OCreateSecret _ => option KubeErr
  | OUpdateSecret _ => option KubeErr
  | OGetCluster _ _ => KubeErr + ValkeyCluster
  | OReadCluster _ _ => KubeErr + ValkeyCluster
  | OUpdateStatus _ => option KubeErr
  | OGetACL _ _ => KubeErr + ValkeyACL
  | OPatchACL _ _ => option KubeErr
  | OGetJob _ _ => KubeErr + Job
  | OCreateJob _ => option KubeErr
  | ODeleteJob _ _ => option KubeErr
  | OPatchStatus _ _ => option KubeErr
  | OUpdateCluster _ => KubeErr + ValkeyCluster
  | OListClusters _ => KubeErr + list ValkeyCluster
  | OCreateSts _ => KubeErr + StatefulSet
  | OUpdateSts _ => KubeErr + StatefulSet
  | OGet k _ _ => KubeErr + obj k
  | OCreate _ _ => option KubeErr
  | OUpdate _ _ => option KubeErr
  | ODelete _ _ _ => option KubeErr
  | OListPVCs _ _ => KubeErr + list PersistentVolumeClaim
  | OPatchPVC _ _ => option KubeErr
  | OPatchPod _ _ => option KubeErr
  | ONow => Z
  | OSleep _ => bool
  | ORandomPassword => error + string
  | OX509KeyPair _ _ => option string
  | OTLSDial _ _ _ => error + list string
  | OMetricInc _ _ => unit
  | OMetricSet _ _ _ => unit
  | OMetricSetFloat _ _ _ => unit
  | OMetricDelete _ _ => unit
  | OSamples _ => gmap string threadSample
  | OZones _ => gmap string zoneEntry
  | OSetControllerReference _ _ => option KubeErr
  | OPatchCluster _ _ => option KubeErr
  | OCreateManualJob _ => KubeErr + string
  | OListSts _ _ => KubeErr + list StatefulSet
  | OList k _ _ => KubeErr + list (obj k)
  | OListEvents _ => KubeErr + list KubeEvent
  | OKubeconfig => option error
  | ONewClient => option error
  | OContextNamespace => error + string
  | OPrint _ => option error
  | OMkdirAll _ => option error
  | OWriteFile _ _ _ => option error
  | OLookPath _ => error + string
  | OExec _ _ => option error
  end.

(** ** Programs *)
Inductive prog (A : Type) : Type :=
  | Ret (a : A)
  | Perform (op : Op) (k : ans op → prog A).
Arguments Ret {_} _.
Arguments Perform {_} _ _.

#[global] Instance prog_ret : MRet prog := λ A a, Ret a.
#[global] Instance prog_bind : MBind prog := λ A B f,
  fix go p := match p with Ret a => f a | Perform op k => Perform op (λ x, go (k x)) end.

Definition perform (op : Op) : prog (ans op) := Perform op Ret.

(** [for _, x := range l { s = f(s, x) }]. *)
Fixpoint foldM {S A} (f : S → A → prog S) (s : S) (l : list A) : prog S :=
  match l with
  | [] => mret s
  | x :: l' => s' ← f s x; foldM f s' l'
  end.
(** [for _, x := range l { out = append(out, f(x)) }]. *)
Fixpoint mapP {A B} (f : A → prog B) (l : list A) : prog (list B) :=
  match l with
  | [] => mret []
  | x :: l' => y ← f x; ys ← mapP f l'; mret (y :: ys)
  end.

(** ** Executions *)

(** An event is an operation and the answer it got. *)
Inductive Event := Ev (op : Op) (x : ans op).

Definition ev_op (e : Event) : Op := match e with Ev op _ => op end.

Fixpoint exec {A} (p : prog A) (tr : list Event) (a : A) : Prop :=
  match p with
  | Ret b => tr = [] ∧ b = a
  | Perform op k => ∃ x tr', tr = Ev op x :: tr' ∧ exec (k x) tr' a
  end.

Lemma exec_ret {A} (b a : A) tr : exec (mret b) tr a ↔ tr = [] ∧ b = a.
Proof. done. Qed.
Lemma exec_perform op tr a : exec (perform op) tr a ↔ tr = [Ev op a].
Proof.
  unfold perform; simpl. split.
  - by intros (x & ? & -> & -> & ->).
  - intros ->. by exists a, [].
Qed.
Lemma exec_bind {A B} (p : prog A) (f : A → prog B) tr b :
  exec (p ≫= f) tr b ↔ ∃ tr1 tr2 a, tr = tr1 ++ tr2 ∧ exec p tr1 a ∧ exec (f a) tr2 b.
Proof.
  revert tr; induction p as [a|op k IH]; intros tr.
  - simpl. split.
    + intros H. by exists [], tr, a.
    + by intros (tr1 & tr2 & a' & -> & [-> ->] & ?).
  - simpl. split.
    + intros (x & tr' & -> & H). apply IH in H as (tr1 & tr2 & a & -> & H1 & H2).
      exists (Ev op x :: tr1), tr2, a. eauto 10.
    + intros (tr1 & tr2 & a & -> & (x & tr' & -> & H1) & H2).
      exists x, (tr' ++ tr2). split; [done|]. apply IH. eauto 10.
Qed.

#[global] Arguments prog_bind : simpl never.
#[global] Arguments prog_ret : simpl never.
#[global] Arguments perform : simpl never.

(** Take an execution apart along the program. *)
Ltac exec_step :=
  match goal with
  | H : exec (mret _) _ _ |- _ => apply exec_ret in H as [??]
  | H : exec (Ret _) _ _ |- _ => destruct H as [??]
  | H : exec (perform _) _ _ |- _ => apply exec_perform in H
  | H : exec (_ ≫= _) _ _ |- _ =>
      let t1 := fresh "tr" in let t2 := fresh "tr" in let a := fresh "a" in
      let H1 := fresh "Hx" in let H2 := fresh "Hx" in
      apply exec_bind in H as (t1 & t2 & a & ? & H1 & H2)
  end; simplify_eq.
Ltac exec_inv := repeat (exec_step; try rewrite app_nil_r in *; try rewrite app_nil_l in *).

(** ** A Hoare logic on traces

    [spec p P Q]: whatever the environment answers, every event of [p] satisfies
    [P] and the value it returns satisfies [Q]. *)
Definition spec {A} (p : prog A) (P : Event → Prop) (Q : A → Prop) : Prop :=
  ∀ tr a, exec p tr a → Forall P tr ∧ Q a.

Section spec.
Context (P : Event → Prop).

Lemma spec_ret {A} (Q : A → Prop) a : Q a → spec (mret a) P Q.
Proof. intros HQ tr b [-> <-]%exec_ret. auto. Qed.

Lemma spec_perform op (Q : ans op → Prop) :
  (∀ x, P (Ev op x) ∧ Q x) → spec (perform op) P Q.
Proof. intros H tr a ->%exec_perform. destruct (H a). auto. Qed.

Lemma spec_bind {A B} (p : prog A) (f : A → prog B) Q R :
  spec p P Q → (∀ a, Q a → spec (f a) P R) → spec (p ≫= f) P R.
Proof.
  intros Hp Hf tr b (tr1 & tr2 & a & -> & H1 & H2)%exec_bind.
  destruct (Hp _ _ H1) as [? HQ]. destruct (Hf _ HQ _ _ H2). split; [|done].
  by apply Forall_app.
Qed.

Lemma spec_mono {A} (P' : Event → Prop) (p : prog A) (Q Q' : A → Prop) :
  spec p P Q → (∀ e, P e → P' e) → (∀ a, Q a → Q' a) → spec p P' Q'.
Proof.
  intros H HP HQ tr a E. destruct (H _ _ E). split; [|auto]. by eapply Forall_impl.
Qed.

Lemma spec_and {A} (p : prog A) (Q Q' : A → Prop) :
  spec p P Q → spec p P Q' → spec p P (λ a, Q a ∧ Q' a).
Proof. intros H H' tr a E. destruct (H _ _ E), (H' _ _ E). auto. Qed.

Lemma spec_foldM {S A} (f : S → A → prog S) s l (I : S → Prop) :
  I s → (∀ s x, x ∈ l → I s → spec (f s x) P I) → spec (foldM f s l) P I.
Proof.
  revert s; induction l as [|x l IH]; intros s Hs Hf; simpl; [by apply spec_ret|].
  eapply spec_bind; [apply Hf; [constructor|done]|]. intros s' Hs'. apply IH; [done|].
  intros ???. apply Hf. by constructor.
Qed.

Lemma spec_mapP {A B} (f : A → prog B) l (Q : A → B → Prop) :
  (∀ x, x ∈ l → spec (f x) P (Q x)) → spec (mapP f l) P (Forall2 Q l).
Proof.
  induction l as [|x l IH]; intros Hf; simpl; [by apply spec_ret|].
  eapply spec_bind; [apply Hf; constructor|]. intros y Hy.
  eapply spec_bind; [apply IH; intros; apply Hf; by constructor|]. intros ys Hys.
  apply spec_ret. by constructor.
Qed.
End spec.

(** Operations that only look: they change neither a pod nor an API object. *)
Definition reads (op : Op) : bool :=
  match op with
  | OPing _ | OInfo _ _ | ODBSize _ | OGetPod _ _ | OGetNode _ | OListPods _ _ | OGetSts _ _
  | OGetSecret _ _ | OGetCluster _ _ | OReadCluster _ _ | OGetACL _ _ | OGetJob _ _ | OListClusters _ | OGet _ _ _ | OListPVCs _ _ | OTLSDial _ _ _ | ONow | OSleep _ | ORandomPassword | OX509KeyPair _ _
  | OMetricInc _ _ | OMetricSet _ _ _ | OMetricSetFloat _ _ _ | OMetricDelete _ _ | OSamples _ | OZones _
  | OSetControllerReference _ _ | OListSts _ _ | OList _ _ _ | OListEvents _ | OKubeconfig | ONewClient | OContextNamespace
  | OPrint _ | OMkdirAll _ | OWriteFile _ _ _ | OLookPath _ => true
  | _ => false
  end.
(** An event predicate that says nothing about reads. *)
Class IgnoresReads (P : Event → Prop) : Prop :=
  ignores_reads : ∀ op x, reads op = true → P (Ev op x).

Lemma spec_read (P : Event → Prop) `{!IgnoresReads P} op (Q : ans op → Prop) :
  reads op = true → (∀ x, Q x) → spec (perform op) P Q.
Proof. intros Hr HQ. apply spec_perform. intros x. split; [by apply ignores_reads|done]. Qed.

Lemma spec_bind_op {B} (P : Event → Prop) op (f : ans op → prog B) R :
  (∀ x, P (Ev op x)) → (∀ x, spec (f x) P R) → spec (perform op ≫= f) P R.
Proof.
  intros HP Hf. eapply (spec_bind _ _ _ (λ _, True)); [apply spec_perform; auto|auto].
Qed.

(** Pass one operation of a program: a read needs no argument. *)
Ltac spec_op :=
  match goal with
  | |- spec (mbind _ (perform ?op)) ?P _ =>
      apply (spec_bind_op P op); [try (intros; by apply ignores_reads)|]
  | |- spec (perform ?op) ?P _ =>
      first [apply (spec_read P op); [reflexivity|] | apply (spec_perform P op)]
  end.

(** ** Executing against a concrete environment *)
Section run.
Context {W : Type} (handle : ∀ op, W → ans op * W).

Fixpoint run {A} (p : prog A) (w : W) : A * W :=
  match p with
  | Ret a => (a, w)
  | Perform op k => let '(x, w') := handle op w in run (k x) w'
  end.
(** The events of that execution. *)
Fixpoint trace {A} (p : prog A) (w : W) : list Event :=
  match p with
  | Ret _ => []
  | Perform op k => let '(x, w') := handle op w in Ev op x :: trace (k x) w'
  end.

Lemma run_exec {A} (p : prog A) w : exec p (trace p w) (run p w).1.
Proof.
  revert w; induction p as [a|op k IH]; intros w; simpl; [done|].
  destruct (handle op w) as [x w'] eqn:E. exists x, (trace (k x) w'). auto.
Qed.

Lemma run_bind {A B} (p : prog A) (f : A → prog B) w :
  run (p ≫= f) w = let '(a, w') := run p w in run (f a) w'.
Proof.
  revert w; induction p as [a|op k IH]; intros w; [done|]; simpl.
  destruct (handle op w) as [x w']. apply IH.
Qed.
Lemma trace_bind {A B} (p : prog A) (f : A → prog B) w :
  trace (p ≫= f) w = trace p w ++ let '(a, w') := run p w in trace (f a) w'.
Proof.
  revert w; induction p as [a|op k IH]; intros w; [done|]; simpl.
  destruct (handle op w) as [x w']. by rewrite IH.
Qed.
(** [I] holds before, between and after the operations of the execution. *)
Fixpoint always (I : W → Prop) {A} (p : prog A) (w : W) : Prop :=
  I w ∧ match p with
        | Ret _ => True
        | Perform op k => let '(x, w') := handle op w in always I (k x) w'
        end.
Lemma always_trace (I : W → Prop) {A} (p : prog A) w :
  Forall (λ e, ∀ w, I w → I (handle (ev_op e) w).2) (trace p w) → I w → always I p w ∧ I (run p w).2.
Proof.
  revert w; induction p as [a|op k IH]; intros w; simpl; [by auto|].
  destruct (handle op w) as [x w'] eqn:E. intros [Hop Hk]%Forall_cons HI. simpl in Hop.
  specialize (Hop w HI). rewrite E in Hop. destruct (IH x w' Hk Hop). auto.
Qed.

Lemma run_perform op w : run (perform op) w = handle op w.
Proof. unfold perform. simpl. by destruct (handle op w). Qed.
Lemma trace_perform op w : trace (perform op) w = [Ev op (handle op w).1].
Proof. unfold perform. simpl. by destruct (handle op w). Qed.
End run.

(** Every program can run to its end, whatever the first answers were: a trace is
    never stuck as long as the environment answers. *)
#[global] Instance ans_inhabited op : Inhabited (ans op).
Proof. destruct op; simpl; apply _ || (apply populate; first [exact (inl "") | exact (inl NotFound)]). Defined.

Lemma exec_total {A} (p : prog A) : ∃ tr a, exec p tr a.
Proof.
  exists (trace (W:=()) (λ op w, (inhabitant, w)) p tt),
         (run (W:=()) (λ op w, (inhabitant, w)) p tt).1.
  apply run_exec.
Qed.

#[global] Arguments exec {_} : simpl never.
