(* ===== verification/Naming.v ===== *)
(** * Naming: the names the operator derives from a ValkeyCluster

    The helpers of [resources.go], [failover.go], [rollout.go], [cluster.go] and
    [cluster_pershard.go] that name StatefulSets, Services, Secrets and pods, that
    enumerate the data pods of both Cluster layouts (one StatefulSet, or one per
    shard), and that read names and ordinals back out of DNS names. *)

From S2P Require Import Prelude GoStd Kube Api.

(** ** Constants (resources.go) *)
Definition valkeyPort : Z := 6379.
Definition valkeyTLSPort : Z := 6380.
Definition clusterBusPort : Z := 16379.
Definition restartAnnotation : string := "valkey.wellcake.io/restart".
Definition reshardAnnotation : string := "valkey.wellcake.io/reshard".
Definition failoverAnnotation : string := "valkey.wellcake.io/failover".
Definition failoverTargetAnnotation : string := "valkey.wellcake.io/failover-target".
Definition rotatePasswordAnnotation : string := "valkey.wellcake.io/rotate-password".
Definition hibernateAnnotation : string := "valkey.wellcake.io/hibernate".
Definition proactiveRolloutAnnotation : string := "valkey.wellcake.io/proactive-rollout".
Definition componentLabel : string := "app.kubernetes.io/component".
Definition nameLabel : string := "app.kubernetes.io/name".
Definition instanceLabel : string := "app.kubernetes.io/instance".
Definition partOfLabel : string := "app.kubernetes.io/part-of".
Definition managedByLabel : string := "app.kubernetes.io/managed-by".
Definition shardLabel : string := "cache.wellcake.io/shard".
Definition secretKeyPassword : string := "password".
Definition appValkey : string := "valkey".
Definition operatorName : string := "valkey-operator".
Definition componentSentinel : string := "sentinel".
Definition valueTrue : string := "true".
Definition roleMaster : string := "master".
Definition roleSlave : string := "slave".
Definition envValkeyPassword : string := "VALKEY_PASSWORD".
Definition shellCmd : string := "/bin/sh".
Definition tlsVolumeName : string := "tls".
Definition tlsMountPath : string := "/etc/valkey/tls".
Definition ControllerRevisionHashLabelKey : string := "controller-revision-hash".

(** ** Names (resources.go) *)
Definition labelsFor (vc : ValkeyCluster) : gmap string string :=
  list_to_map [(nameLabel, appValkey); (instanceLabel, vcName vc); (partOfLabel, operatorName);
               (managedByLabel, operatorName); (componentLabel, to_lower (Spec_Topology (Spec vc)))].
Definition podLabelsFor (vc : ValkeyCluster) (labels : gmap string string) : gmap string string :=
  if bool_decide (Spec_PodLabels (Spec vc) = ∅) then labels
  else labels ∪ Spec_PodLabels (Spec vc).
Definition tlsEnabled (vc : ValkeyCluster) : bool :=
  match Spec_TLS (Spec vc) with Some t => TLS_Enabled t | None => false end.
(** [port := valkeyPort; if tlsEnabled(vc) { port = valkeyTLSPort }]. *)
Definition dataPort (vc : ValkeyCluster) : Z := if tlsEnabled vc then valkeyTLSPort else valkeyPort.
Definition headlessServiceName (vc : ValkeyCluster) : string := vcName vc +:+ "-headless".
Definition clientServiceName (vc : ValkeyCluster) : string := vcName vc.
Definition internalEndpoint (vc : ValkeyCluster) : string :=
  clientServiceName vc +:+ "." +:+ vcNamespace vc +:+ ".svc:" +:+ Itoa (dataPort vc).
Definition statefulSetName (vc : ValkeyCluster) : string := vcName vc.
Definition configMapName (vc : ValkeyCluster) : string := vcName vc +:+ "-config".
Definition passwordSecretName (vc : ValkeyCluster) : string := vcName vc +:+ "-auth".
Definition authSecretName (vc : ValkeyCluster) : string :=
  match Spec_Auth (Spec vc) with
  | Some a => if Auth_ExistingSecret a != "" then Auth_ExistingSecret a else passwordSecretName vc
  | None => passwordSecretName vc
  end.
Definition hibernated (vc : ValkeyCluster) : bool := annotation vc hibernateAnnotation == valueTrue.
Definition tlsSecretName (vc : ValkeyCluster) : string :=
  match Spec_TLS (Spec vc) with
  | Some t => if TLS_ExistingSecret t != "" then TLS_ExistingSecret t else vcName vc +:+ "-tls"
  | None => vcName vc +:+ "-tls"
  end.
Definition topologyReplicates (vc : ValkeyCluster) : bool :=
  Spec_Topology (Spec vc) != TopologyStandalone.

(** The format string with [%s-%d.%s.%s.svc.cluster.local] used for every pod. *)
Definition fqdn (sts : string) (ord : Z) (headless ns : string) : string :=
  sts +:+ "-" +:+ Itoa ord +:+ "." +:+ headless +:+ "." +:+ ns +:+ ".svc.cluster.local".

Definition podName (vc : ValkeyCluster) (ord : Z) : string :=
  statefulSetName vc +:+ "-" +:+ Itoa ord.
Definition ordinalFromPodName (name sts : string) : option Z :=
  let suffix := trim_prefix name (sts +:+ "-") in
  if suffix == name then None else ParseInt suffix 32.

(** ** Sizes: [int32] arithmetic wraps. *)
Definition replicasPerShardOf (vc : ValkeyCluster) : Z := default 0%Z (Spec_ReplicasPerShard (Spec vc)).
Definition shardCountOf (vc : ValkeyCluster) : Z := default 0%Z (Spec_Shards (Spec vc)).
Definition totalReplicas (vc : ValkeyCluster) : Z :=
  if Spec_Topology (Spec vc) != TopologyCluster then Spec_Replicas (Spec vc)
  else wrap32 (default 0%Z (Spec_Shards (Spec vc)) *
               wrap32 (1 + default 0%Z (Spec_ReplicasPerShard (Spec vc))))%Z.
Definition statefulSetReplicas (vc : ValkeyCluster) : Z :=
  let desired := totalReplicas vc in
  if ((Spec_Topology (Spec vc) == TopologyCluster) &&
      (desired <? Status_LastAppliedReplicas (Status vc))%Z)%bool
  then Status_LastAppliedReplicas (Status vc)
  else desired.

(** ** The per-shard layout (cluster_pershard.go) *)
Definition perShardEnabled (vc : ValkeyCluster) : bool :=
  ((Spec_Topology (Spec vc) == TopologyCluster) && default false (Spec_PerShardWorkload (Spec vc)))%bool.
Definition shardStsName (vc : ValkeyCluster) (shard : Z) : string := vcName vc +:+ "-sh" +:+ Itoa shard.
Definition shardHeadlessName (vc : ValkeyCluster) (shard : Z) : string := vcName vc +:+ "-sh" +:+ Itoa shard.
Definition shardLabelsFor (vc : ValkeyCluster) (shard : Z) : gmap string string :=
  <[shardLabel := Itoa shard]> (labelsFor vc).
Definition oldShardsOf (vc : ValkeyCluster) : Z :=
  let perSts := wrap32 (1 + replicasPerShardOf vc) in
  if perSts == 0%Z then 0%Z else Z.quot (Status_LastAppliedReplicas (Status vc)) perSts.

Record podRef := { ref_host : string; ref_shard : Z; ref_ord : Z }.

Definition clusterDataPods (vc : ValkeyCluster) : list podRef :=
  let ns := vcNamespace vc in
  if perShardEnabled vc then
    let perSts := wrap32 (1 + replicasPerShardOf vc) in
    s ← zrange 0 (shardCountOf vc);
    (λ o, {| ref_host := fqdn (shardStsName vc s) o (shardHeadlessName vc s) ns;
             ref_shard := s; ref_ord := o |}) <$> zrange 0 perSts
  else
    (λ i, {| ref_host := fqdn (statefulSetName vc) i (headlessServiceName vc) ns;
             ref_shard := (-1)%Z; ref_ord := i |}) <$> zrange 0 (totalReplicas vc).
Definition clusterAnyPodHost (vc : ValkeyCluster) : string :=
  match clusterDataPods vc with [] => "" | p :: _ => ref_host p end.
Definition podFQDN (vc : ValkeyCluster) (podName : string) : string :=
  let hl := if perShardEnabled vc then
              match last_index_byte "-" podName with
              | Some (S i) => str_take (S i) podName
              | _ => headlessServiceName vc
              end
            else headlessServiceName vc in
  podName +:+ "." +:+ hl +:+ "." +:+ vcNamespace vc +:+ ".svc.cluster.local".
Definition shardPodHosts (vc : ValkeyCluster) (shard : Z) : list string :=
  (λ o, fqdn (shardStsName vc shard) o (shardHeadlessName vc shard) (vcNamespace vc))
    <$> zrange 0 (wrap32 (1 + replicasPerShardOf vc)).

(** [podNameFromFQDN] (cluster.go). *)
Definition podNameFromFQDN (s : string) : string :=
  let s := match index_byte ":" s with Some i => str_take i s | None => s end in
  match index_byte "." s with Some i => str_take i s | None => s end.

(** ** Lemmas *)

(** DNS-1123 labels, as the API server requires of names and namespaces: no dot and
    no colon (the only two bytes the name readers look for). *)
Definition dns_label (s : string) : bool := (lacks "." s && lacks ":" s)%bool.
Definition well_named (vc : ValkeyCluster) : Prop :=
  dns_label (vcName vc) = true ∧ dns_label (vcNamespace vc) = true.

Lemma dns_label_app s t : dns_label (s +:+ t) = (dns_label s && dns_label t)%bool.
Proof.
  unfold dns_label. rewrite !lacks_app.
  by destruct (lacks "." s), (lacks ":" s), (lacks "." t), (lacks ":" t).
Qed.
Lemma dns_label_Itoa n : (0 ≤ n)%Z → dns_label (Itoa n) = true.
Proof. intros. unfold dns_label. by rewrite !Itoa_lacks. Qed.
#[export] Hint Resolve dns_label_Itoa : go.

Lemma podNameFromFQDN_app p rest :
  dns_label p = true → lacks ":" rest = true →
  podNameFromFQDN (p +:+ "." +:+ rest) = p.
Proof.
  unfold dns_label. intros Hp Hr. bool_hyps. unfold podNameFromFQDN.
  rewrite (index_byte_lacks ":").
  - change ("." +:+ rest) with (String "." rest). rewrite index_byte_app by done.
    apply str_take_app.
  - rewrite !lacks_app, Hr. by destruct (lacks ":" p).
Qed.

(** Reading the pod name out of the host name the operator built for it. *)
Lemma podNameFromFQDN_fqdn sts o hl ns :
  dns_label sts = true → (0 ≤ o)%Z → dns_label hl = true → dns_label ns = true →
  podNameFromFQDN (fqdn sts o hl ns) = sts +:+ "-" +:+ Itoa o.
Proof.
  intros Hs Ho Hh Hn. unfold fqdn.
  replace (sts +:+ "-" +:+ Itoa o +:+ "." +:+ hl +:+ "." +:+ ns +:+ ".svc.cluster.local")
    with ((sts +:+ "-" +:+ Itoa o) +:+ "." +:+ (hl +:+ "." +:+ ns +:+ ".svc.cluster.local"))
    by (by rewrite <-!str_app_assoc).
  apply podNameFromFQDN_app.
  - rewrite !dns_label_app, Hs, dns_label_Itoa by done. done.
  - rewrite !lacks_app. unfold dns_label in *. bool_hyps.
    repeat match goal with H : lacks ":" _ = true |- _ => rewrite H; clear H end. done.
Qed.

Lemma str_app_inj_l s t u : s +:+ t = s +:+ u → t = u.
Proof. induction s as [|a s IH]; [done|]. rewrite !str_app_cons. intros. simplify_eq. auto. Qed.

(** Two ordinals of the same set, or two shards, never share a pod name. *)
Lemma ord_name_inj sts o o' : sts +:+ "-" +:+ Itoa o = sts +:+ "-" +:+ Itoa o' → o = o'.
Proof. intros H%str_app_inj_l%str_app_inj_l. by apply Itoa_inj. Qed.

Lemma shard_name_inj vc s o s' o' :
  (0 ≤ s)%Z → (0 ≤ s')%Z →
  shardStsName vc s +:+ "-" +:+ Itoa o = shardStsName vc s' +:+ "-" +:+ Itoa o' → s = s' ∧ o = o'.
Proof.
  intros Hs Hs' H. unfold shardStsName in H. rewrite <-!str_app_assoc in H.
  apply str_app_inj_l, str_app_inj_l in H.
  change ("-" +:+ Itoa o) with (String "-" (Itoa o)) in H.
  change ("-" +:+ Itoa o') with (String "-" (Itoa o')) in H.
  pose proof (cut_byte_app "-" (Itoa s) (Itoa o) (Itoa_lacks "-" _ eq_refl Hs)) as H1.
  pose proof (cut_byte_app "-" (Itoa s') (Itoa o') (Itoa_lacks "-" _ eq_refl Hs')) as H2.
  rewrite H in H1. rewrite H1 in H2. by simplify_eq.
Qed.

Lemma shardStsName_label vc s : well_named vc → (0 ≤ s)%Z → dns_label (shardStsName vc s) = true.
Proof.
  intros [Hn _] Hs. unfold shardStsName. by rewrite !dns_label_app, Hn, dns_label_Itoa.
Qed.
Lemma headlessServiceName_label vc : well_named vc → dns_label (headlessServiceName vc) = true.
Proof. intros [Hn _]. unfold headlessServiceName. by rewrite dns_label_app, Hn. Qed.
#[export] Hint Resolve shardStsName_label headlessServiceName_label : go.

(** The pod a [podRef] denotes, and the two name functions on it. *)
Definition ref_pod (vc : ValkeyCluster) (p : podRef) : string :=
  (if perShardEnabled vc then shardStsName vc (ref_shard p) else statefulSetName vc)
    +:+ "-" +:+ Itoa (ref_ord p).

Lemma elem_of_clusterDataPods vc p :
  p ∈ clusterDataPods vc ↔
  (if perShardEnabled vc then
     (0 ≤ ref_shard p < shardCountOf vc)%Z ∧ (0 ≤ ref_ord p < wrap32 (1 + replicasPerShardOf vc))%Z ∧
     ref_host p = fqdn (shardStsName vc (ref_shard p)) (ref_ord p)
                       (shardHeadlessName vc (ref_shard p)) (vcNamespace vc)
   else
     ref_shard p = (-1)%Z ∧ (0 ≤ ref_ord p < totalReplicas vc)%Z ∧
     ref_host p = fqdn (statefulSetName vc) (ref_ord p) (headlessServiceName vc) (vcNamespace vc)).
Proof.
  unfold clusterDataPods. destruct (perShardEnabled vc).
  - rewrite list_elem_of_bind. split.
    + intros (s & (o & -> & Ho%elem_of_zrange)%list_elem_of_fmap & Hs%elem_of_zrange); auto.
    + destruct p as [h s o]; simpl. intros (Hs & Ho & ->). exists s.
      split; [|by apply elem_of_zrange]. apply list_elem_of_fmap. exists o.
      by rewrite elem_of_zrange.
  - rewrite list_elem_of_fmap. split.
    + intros (i & -> & Hi%elem_of_zrange); auto.
    + destruct p as [h s o]; simpl. intros (-> & Ho & ->). exists o.
      by rewrite elem_of_zrange.
Qed.

Lemma clusterDataPods_name vc p :
  well_named vc → p ∈ clusterDataPods vc → podNameFromFQDN (ref_host p) = ref_pod vc p.
Proof.
  intros Hw Hp. pose proof Hw as [Hn Hns]. apply elem_of_clusterDataPods in Hp.
  unfold ref_pod. destruct (perShardEnabled vc); destruct Hp as (Hs & Ho & ->);
    apply podNameFromFQDN_fqdn; auto with go; try lia.
  - apply shardStsName_label; [done|lia].
  - by apply shardStsName_label; [|lia].
Qed.

Lemma podFQDN_ref vc p :
  p ∈ clusterDataPods vc → podFQDN vc (ref_pod vc p) = ref_host p.
Proof.
  intros Hp. apply elem_of_clusterDataPods in Hp.
  unfold podFQDN, ref_pod. destruct (perShardEnabled vc); destruct Hp as (Hs & Ho & ->).
  - assert (last_index_byte "-" (shardStsName vc (ref_shard p) +:+ "-" +:+ Itoa (ref_ord p)) =
            Some (String.length (shardStsName vc (ref_shard p)))) as ->.
    { apply last_index_byte_app, Itoa_lacks; [done|lia]. }
    destruct (String.length (shardStsName vc (ref_shard p))) as [|n] eqn:E.
    { unfold shardStsName in E. destruct (vcName vc); discriminate. }
    rewrite <-E, str_take_app. unfold fqdn, shardHeadlessName, shardStsName.
    by rewrite <-!str_app_assoc.
  - unfold fqdn. by rewrite <-!str_app_assoc.
Qed.

Lemma ref_pod_inj vc p q :
  p ∈ clusterDataPods vc → q ∈ clusterDataPods vc → ref_pod vc p = ref_pod vc q → p = q.
Proof.
  intros Hp%elem_of_clusterDataPods Hq%elem_of_clusterDataPods. unfold ref_pod.
  destruct p as [h s o], q as [h' s' o'].
  destruct (perShardEnabled vc); simpl in *; destruct Hp as (Hs & Ho & ->), Hq as (Hs' & Ho' & ->).
  - intros [-> ->]%shard_name_inj; [done|lia|lia].
  - intros ->%ord_name_inj. by subst.
Qed.

Lemma NoDup_clusterDataPods vc : NoDup (clusterDataPods vc).
Proof.
  unfold clusterDataPods. destruct (perShardEnabled vc).
  - apply NoDup_bind; [| |apply NoDup_zrange].
    + intros s s' p Hs Hs' (o & -> & _)%list_elem_of_fmap (o' & ? & _)%list_elem_of_fmap.
      by simplify_eq.
    + intros s _. apply NoDup_fmap_2; [|apply NoDup_zrange]. intros o o' ?. by simplify_eq.
  - apply NoDup_fmap_2; [|apply NoDup_zrange]. intros o o' ?. by simplify_eq.
Qed.

Lemma length_clusterDataPods vc :
  Spec_Topology (Spec vc) = TopologyCluster → (0 ≤ shardCountOf vc)%Z → (0 ≤ replicasPerShardOf vc)%Z →
  is_int32 (1 + replicasPerShardOf vc) → is_int32 (shardCountOf vc * (1 + replicasPerShardOf vc)) →
  length (clusterDataPods vc) = Z.to_nat (totalReplicas vc) ∧
  totalReplicas vc = (shardCountOf vc * (1 + replicasPerShardOf vc))%Z.
Proof.
  intros HT Hs Hr H1 H2.
  assert (totalReplicas vc = (shardCountOf vc * (1 + replicasPerShardOf vc))%Z) as Htot.
  { unfold totalReplicas. rewrite HT. rewrite bool_decide_true by done. simpl.
    unfold shardCountOf, replicasPerShardOf in *.
    rewrite (wrap32_small (1 + _)) by done. by rewrite wrap32_small. }
  split; [|done]. unfold clusterDataPods. rewrite (wrap32_small (1 + replicasPerShardOf vc)) by done.
  destruct (perShardEnabled vc).
  - assert (∀ l, length (s ← l;
       (λ o, {| ref_host := fqdn (shardStsName vc s) o (shardHeadlessName vc s) (vcNamespace vc);
                ref_shard := s; ref_ord := o |}) <$> zrange 0 (1 + replicasPerShardOf vc)) =
       length l * Z.to_nat (1 + replicasPerShardOf vc)) as Hlen.
    { induction l as [|s l IH]; [done|]. simpl.
      rewrite length_app, length_fmap, length_zrange, Z.sub_0_r. f_equal. exact IH. }
    rewrite Hlen, length_zrange, Htot, Z.sub_0_r. rewrite Z2Nat.inj_mul; lia.
  - by rewrite length_fmap, length_zrange, Z.sub_0_r.
Qed.

Lemma ordinalFromPodName_podName vc i :
  (0 ≤ i < 2 ^ 31)%Z → ordinalFromPodName (podName vc i) (statefulSetName vc) = Some i.
Proof.
  intros Hi. unfold ordinalFromPodName, podName, trim_prefix.
  rewrite str_app_assoc, strip_prefix_app. rewrite bool_decide_false.
  - apply ParseInt_Itoa. lia.
  - intros E. apply (f_equal String.length) in E. revert E. rewrite !str_length_app. simpl. lia.
Qed.

(** ** Properties *)

(** Reading a name back out of a pod's host name, and dialing a pod known by name,
    are inverse on every data pod of a Cluster, in both layouts. *)
Theorem clusterDataPods_roundtrip vc p :
  well_named vc → p ∈ clusterDataPods vc →
  podFQDN vc (podNameFromFQDN (ref_host p)) = ref_host p ∧
  podNameFromFQDN (podFQDN vc (ref_pod vc p)) = ref_pod vc p.
Proof.
  intros Hw Hp. rewrite podFQDN_ref by done. rewrite (clusterDataPods_name vc) by done.
  by rewrite podFQDN_ref.
Qed.

Lemma NoDup_hosts vc : well_named vc → NoDup (ref_host <$> clusterDataPods vc).
Proof.
  intros Hw. apply NoDup_fmap_2_strong; [|apply NoDup_clusterDataPods].
  intros p q Hp Hq E. apply (ref_pod_inj vc); [done..|].
  rewrite <-!(clusterDataPods_name vc) by done. by rewrite E.
Qed.

(** The enumeration of data pods lists exactly [shards * (1 + replicasPerShard)]
    pods, with pairwise different host names, in both layouts. *)
Theorem clusterDataPods_enumerates vc :
  well_named vc →
  Spec_Topology (Spec vc) = TopologyCluster → (0 ≤ shardCountOf vc)%Z → (0 ≤ replicasPerShardOf vc)%Z →
  is_int32 (1 + replicasPerShardOf vc) → is_int32 (shardCountOf vc * (1 + replicasPerShardOf vc)) →
  NoDup (ref_host <$> clusterDataPods vc) ∧
  length (clusterDataPods vc) = Z.to_nat (shardCountOf vc * (1 + replicasPerShardOf vc)).
Proof.
  intros Hw HT Hs Hr H1 H2. destruct (length_clusterDataPods vc HT Hs Hr H1 H2) as [Hl Ht].
  split; [by apply NoDup_hosts|by rewrite Hl, Ht].
Qed.

(** ** A concrete cluster in the per-shard layout *)
Definition demoSharded : ValkeyCluster :=
  newCluster "demo" "ns" (set_Spec_PerShardWorkload (Some true) (set_Spec_ReplicasPerShard (Some 1%Z)
    (set_Spec_Shards (Some 3%Z) (set_Spec_Topology TopologyCluster zeroSpec)))).
Example demoSharded_pods :
  podNameFromFQDN <$> (ref_host <$> clusterDataPods demoSharded) =
  ["demo-sh0-0"; "demo-sh0-1"; "demo-sh1-0"; "demo-sh1-1"; "demo-sh2-0"; "demo-sh2-1"].
Proof. vm_compute. reflexivity. Qed.

Lemma clusterDataPods_roundtrip_witness :
  let p := {| ref_host := "demo-sh2-1.demo-sh2.ns.svc.cluster.local"; ref_shard := 2; ref_ord := 1 |} in
  podFQDN demoSharded (podNameFromFQDN (ref_host p)) = ref_host p ∧
  podNameFromFQDN (podFQDN demoSharded (ref_pod demoSharded p)) = ref_pod demoSharded p.
Proof.
  apply (clusterDataPods_roundtrip demoSharded); [split; reflexivity|].
  vm_compute. repeat (first [apply list_elem_of_here | apply list_elem_of_further]).
Defined.

Lemma clusterDataPods_enumerates_witness :
  NoDup (ref_host <$> clusterDataPods demoSharded) ∧ length (clusterDataPods demoSharded) = 6.
Proof.
  apply (clusterDataPods_enumerates demoSharded); [split; reflexivity|reflexivity|..];
    unfold is_int32; apply (bool_decide_unpack _); vm_compute; exact I.
Defined.
