(* ===== verification/Failover.v ===== *)
(** * Failover: the Replication topology's failover logic (failover.go, tls_reload.go)

    The client wrapper [replClient], the survey of the pods, the failover decision
    ([reconcileFailover] with its debounce and its empty-master guard), the manual
    failover, and what they send to the pods. *)

From S2P Require Import Prelude GoStd Kube Api Effects Naming.

(** ** Clients *)

(** [failoverDownAfter]: 20 s, in nanoseconds. *)
Definition second : Z := 1000000000.
Definition failoverDownAfter : Z := (20 * second)%Z.

(** [loadMTLSClientCert] (tls_reload.go). *)
Definition loadMTLSClientCert (vc : ValkeyCluster) : prog (option string) :=
  match Spec_TLS (Spec vc) with
  | Some t =>
      if (negb (tlsEnabled vc) || negb (TLS_MutualTLS t))%bool then mret None
      else
        r ← perform (OGetSecret (vcNamespace vc) (tlsSecretName vc));
        match r with
        | inl _ => mret None
        | inr sec => perform (OX509KeyPair (map_get (sec_Data sec) "tls.crt") (map_get (sec_Data sec) "tls.key"))
        end
  | None => mret None
  end.

(** A [replClient] is the options it was opened with. *)
Definition replClient : Type := DialOpts.
(** Without TLS the client certificate is not used. *)
Definition dialReplClient (host : string) (port : Z) (password : string) (useTLS : bool)
    (clientCert : option string) (timeout : Z) : prog (option replClient) :=
  let o := {| d_Host := host; d_Port := port; d_Password := password; d_TLS := useTLS;
              d_ClientCert := if useTLS then clientCert else None; d_Timeout := timeout |} in
  ok ← perform (OPing o);
  mret (if ok : bool then Some o else None).

(** [rdb.Do(...).Err()]: [None] is success. *)
Definition do_err (c : replClient) (args : list string) : prog (option error) :=
  r ← perform (ODo c args);
  mret (match r with inl e => Some e | inr _ => None end).
(** [rdb.Do(...).Text()]. *)
Definition do_text (c : replClient) (args : list string) : prog (error + string) :=
  r ← perform (ODo c args);
  mret (match r with
        | inl e => inl e
        | inr (RStr s) => inr s
        | inr _ => inl "redis: unexpected type for Text"
        end).

(** The [key:value] lines of an INFO answer; [skip] tells the lines to leave out. *)
Definition add_info_line (skip : string → bool) (out : gmap string string) (line0 : string) : gmap string string :=
  let line := trim_space line0 in
  if skip line then out
  else match index_byte ":" line with
       | Some (S i) => <[str_take (S i) line := trim_space (str_drop (S (S i)) line)]> out
       | _ => out
       end.
Definition parseInfo (res : string) : gmap string string :=
  foldl (add_info_line (λ line, (line == "") || has_prefix line "#")%bool) ∅ (split_byte "010" res).
Definition parseClusterInfo (res : string) : gmap string string :=
  foldl (add_info_line (λ line, line == "")) ∅ (split_byte "010" res).

Definition infoSection (c : replClient) (section : string) : prog (error + gmap string string) :=
  r ← perform (OInfo c section);
  mret (match r with inl e => inl e | inr res => inr (parseInfo res) end).
Definition info (c : replClient) : prog (error + gmap string string) := infoSection c "replication".
Definition dbsize (c : replClient) : prog (error + Z) := perform (ODBSize c).

Definition replicaOfNoOne (c : replClient) : prog (option error) := do_err c ["REPLICAOF"; "NO"; "ONE"].
Definition replicaOf (c : replClient) (host : string) (port : Z) : prog (option error) :=
  do_err c ["REPLICAOF"; host; Itoa port].
Definition configSet (c : replClient) (param value : string) : prog (option error) :=
  do_err c ["CONFIG"; "SET"; param; value].
Definition aclSetDefaultPassword (c : replClient) (password : string) : prog (option error) :=
  do_err c ["ACL"; "SETUSER"; "default"; "resetpass"; ">" +:+ password].
Definition aclAddDefaultPassword (c : replClient) (password : string) : prog (option error) :=
  do_err c ["ACL"; "SETUSER"; "default"; ">" +:+ password].
Definition aclSetManagedUser (c : replClient) (name rules password : string) (additive : bool) : prog (option error) :=
  do_err c (["ACL"; "SETUSER"; name; "on"] ++ (if additive then [] else ["resetpass"]) ++
            [">" +:+ password] ++ fields rules).
Definition aclSave (c : replClient) : prog (option error) := do_err c ["ACL"; "SAVE"].
(** [timeout.Milliseconds()] truncates. *)
Definition clientPauseWrite (c : replClient) (timeout : Z) : prog (option error) :=
  do_err c ["CLIENT"; "PAUSE"; Itoa (Z.quot timeout 1000000); "WRITE"].
Definition clientUnpause (c : replClient) : prog (option error) := do_err c ["CLIENT"; "UNPAUSE"].
Definition clusterNodes (c : replClient) : prog (error + string) := do_text c ["CLUSTER"; "NODES"].
Definition clusterFailover (c : replClient) : prog (option error) := do_err c ["CLUSTER"; "FAILOVER"].
Definition clusterFailoverTakeover (c : replClient) : prog (option error) :=
  do_err c ["CLUSTER"; "FAILOVER"; "TAKEOVER"].
Definition clusterInfoMap (c : replClient) : prog (error + gmap string string) :=
  r ← do_text c ["CLUSTER"; "INFO"];
  mret (match r with inl e => inl e | inr res => inr (parseClusterInfo res) end).
Definition sentinelFailover (c : replClient) (masterName : string) : prog (option error) :=
  do_err c ["SENTINEL"; "FAILOVER"; masterName].

(** [dialReplClient(ctx, host, port, password, tlsEnabled(vc), loadMTLSClientCert(ctx, r, vc), t)],
    the call every caller makes. *)
Definition dialPod (vc : ValkeyCluster) (host : string) (port : Z) (password : string) (timeout : Z) :
    prog (option replClient) :=
  cert ← loadMTLSClientCert vc;
  dialReplClient host port password (tlsEnabled vc) cert timeout.

(** ** The survey *)
Record podRole := {
  pr_ordinal : Z;
  pr_host : string;
  pr_role : string;
  pr_masterHost : string;
  pr_masterPort : Z;
  pr_masterLink : string;
  pr_offset : Z;
  pr_keys : Z;
  pr_reachable : bool
}.

(** The role a pod reports in INFO replication, on top of its ordinal and host. *)
Definition roleOfInfo (ord : Z) (host : string) (m : gmap string string) (keys : Z) : podRole := {|
  pr_ordinal := ord; pr_host := host;
  pr_role := map_get m "role";
  pr_masterHost := map_get m "master_host";
  pr_masterPort := default 0%Z (ParseInt (map_get m "master_port") 32);
  pr_masterLink := map_get m "master_link_status";
  pr_offset := if map_get m "role" == roleMaster then int64_or_zero (map_get m "master_repl_offset")
               else if map_get m "role" == roleSlave then int64_or_zero (map_get m "slave_repl_offset")
               else 0%Z;
  pr_keys := keys; pr_reachable := true |}.

Definition surveyPod (vc : ValkeyCluster) (password : string) (i : Z) : prog podRole :=
  let host := fqdn (statefulSetName vc) i (headlessServiceName vc) (vcNamespace vc) in
  c ← dialPod vc host (dataPort vc) password (2 * second);
  match c with
  | None => mret {| pr_ordinal := i; pr_host := host; pr_role := ""; pr_masterHost := ""; pr_masterPort := 0;
                    pr_masterLink := ""; pr_offset := 0; pr_keys := 0; pr_reachable := false |}
  | Some c =>
      inf ← info c;
      n ← dbsize c;
      mret (roleOfInfo i host (match inf with inr m => m | inl _ => ∅ end)
                       (match n with inr k => k | inl _ => 0%Z end))
  end.
Definition surveyReplication (vc : ValkeyCluster) (password : string) : prog (list podRole) :=
  mapP (surveyPod vc password) (zrange 0 (Spec_Replicas (Spec vc))).

(** ** Choosing pods *)
Definition betterMaster (vc : ValkeyCluster) (a b : podRole) : bool :=
  if pr_keys a != pr_keys b then (pr_keys b <? pr_keys a)%Z
  else
    let aPrimary := podName vc (pr_ordinal a) == Status_Primary (Status vc) in
    let bPrimary := podName vc (pr_ordinal b) == Status_Primary (Status vc) in
    if negb (Bool.eqb aPrimary bPrimary) then aPrimary
    else (pr_ordinal a <? pr_ordinal b)%Z.
(** [masters[0]] panics on an empty slice; the caller has checked it is not. *)
Definition pickAuthoritativeMaster (vc : ValkeyCluster) (masters : list podRole) : option podRole :=
  foldl (keep_best (betterMaster vc)) None masters.

Definition betterReplica (s b : podRole) : bool :=
  ((pr_keys b <? pr_keys s) || ((pr_keys s =? pr_keys b) && (pr_offset b <? pr_offset s)))%Z%bool.

(** The loop at the head of [reconcileFailover]. *)
Record Tally := { ta_reachable : Z; ta_masters : list podRole; ta_bestReplica : option podRole }.
Definition tally_step (t : Tally) (s : podRole) : Tally :=
  if negb (pr_reachable s) then t
  else
    let n := (ta_reachable t + 1)%Z in
    if pr_role s == roleMaster then
      {| ta_reachable := n; ta_masters := ta_masters t ++ [s]; ta_bestReplica := ta_bestReplica t |}
    else if pr_role s == roleSlave then
      {| ta_reachable := n; ta_masters := ta_masters t;
         ta_bestReplica := keep_best betterReplica (ta_bestReplica t) s |}
    else {| ta_reachable := n; ta_masters := ta_masters t; ta_bestReplica := ta_bestReplica t |}.
Definition tally (survey : list podRole) : Tally :=
  foldl tally_step {| ta_reachable := 0; ta_masters := []; ta_bestReplica := None |} survey.

(** ** Persisting the debounce marker *)
Definition downElapsed (since now threshold : Z) : bool := (threshold <=? now - since)%Z.

(** A failed patch is only logged. *)
Definition setPrimaryDown (vc : ValkeyCluster) (t : option Z) : prog ValkeyCluster :=
  let vc' := with_status vc (set_Status_PrimaryDownSince t) in
  _ ← perform (OPatchStatus vc vc');
  mret vc'.
Definition clearPrimaryDown (vc : ValkeyCluster) : prog ValkeyCluster :=
  match Status_PrimaryDownSince (Status vc) with
  | Some _ => setPrimaryDown vc None
  | None => mret vc
  end.
Definition primaryDownLongEnough (vc : ValkeyCluster) : prog (bool * ValkeyCluster) :=
  match Status_PrimaryDownSince (Status vc) with
  | None =>
      now ← perform ONow;
      vc' ← setPrimaryDown vc (Some now);
      mret (false, vc')
  | Some since =>
      now ← perform ONow;
      mret (downElapsed since now failoverDownAfter, vc)
  end.

(** ** Acting on the pods *)
Definition linkedTo (primary s : podRole) : bool :=
  ((pr_role s == roleSlave) && (pr_masterHost s == pr_host primary) && (pr_masterLink s == "up"))%bool.
Definition enforcePod (vc : ValkeyCluster) (password : string) (primary : podRole) (port : Z) (s : podRole) : prog () :=
  if (negb (pr_reachable s) || (pr_ordinal s == pr_ordinal primary))%bool then mret ()
  else if linkedTo primary s then mret ()
  else
    c ← dialPod vc (pr_host s) port password (2 * second);
    match c with
    | None => mret ()
    | Some c => _ ← replicaOf c (pr_host primary) port; mret ()
    end.
Definition enforceReplication (vc : ValkeyCluster) (password : string) (survey : list podRole)
    (primary : podRole) (port : Z) : prog () :=
  foldM (λ _ s, enforcePod vc password primary port s) () survey.

Definition failoverMetric (vc : ValkeyCluster) (reason : string) : Op :=
  OMetricInc "failoverTotal" [vcNamespace vc; vcName vc; reason].

Definition promoteReplica (vc : ValkeyCluster) (password : string) (survey : list podRole)
    (target : podRole) (port : Z) : prog string :=
  c ← dialPod vc (pr_host target) port password (2 * second);
  match c with
  | None => mret (Status_Primary (Status vc))
  | Some c =>
      e ← replicaOfNoOne c;
      match e with
      | Some _ => mret (Status_Primary (Status vc))
      | None =>
          _ ← perform (failoverMetric vc "promotion");
          _ ← enforceReplication vc password survey target port;
          mret (podName vc (pr_ordinal target))
      end
  end.

(** The tail of the happy path of [reconcileFailover]: adopt [chosen]. *)
Definition adoptMaster (vc : ValkeyCluster) (password : string) (survey : list podRole)
    (chosen : podRole) (port : Z) : prog (string * ValkeyCluster) :=
  let want := podName vc (pr_ordinal chosen) in
  _ ← (if ((Status_Primary (Status vc) != "") && (Status_Primary (Status vc) != want))%bool
       then perform (failoverMetric vc "adoption") else mret ());
  _ ← enforceReplication vc password survey chosen port;
  mret (want, vc).

(** ** The failover decision

    [None] for [pickAuthoritativeMaster] cannot happen behind the length check; it
    stands for the panic of [masters[0]]. *)
Definition reconcileFailover (vc : ValkeyCluster) (password : string) (survey : list podRole) :
    prog (string * ValkeyCluster) :=
  let t := tally survey in
  if (ta_reachable t <? 2)%Z then mret (Status_Primary (Status vc), vc)
  else
    let port := dataPort vc in
    match ta_masters t with
    | _ :: _ =>
        vc ← clearPrimaryDown vc;
        match pickAuthoritativeMaster vc (ta_masters t) with
        | None => mret (Status_Primary (Status vc), vc)
        | Some chosen =>
            match ta_bestReplica t with
            | Some best =>
                if ((pr_keys chosen == 0%Z) && (0 <? pr_keys best)%Z)%bool then
                  p ← promoteReplica vc password survey best port;
                  mret (p, vc)
                else adoptMaster vc password survey chosen port
            | None => adoptMaster vc password survey chosen port
            end
        end
    | [] =>
        match ta_bestReplica t with
        | None => mret (Status_Primary (Status vc), vc)
        | Some best =>
            r ← primaryDownLongEnough vc;
            let '(long, vc) := r in
            if negb long then mret (Status_Primary (Status vc), vc)
            else
              vc ← clearPrimaryDown vc;
              p ← promoteReplica vc password survey best port;
              mret (p, vc)
        end
    end.

(** ** Manual failover *)
Fixpoint findNamed (vc : ValkeyCluster) (targetPod : string) (survey : list podRole) : option podRole :=
  match survey with
  | [] => None
  | s :: rest =>
      if podName vc (pr_ordinal s) == targetPod then
        if (pr_reachable s && (pr_role s == roleSlave))%bool then Some s else None
      else findNamed vc targetPod rest
  end.
Definition higherOffset (s best : podRole) : bool := (pr_offset best <? pr_offset s)%Z.
Definition pickFailoverTarget (vc : ValkeyCluster) (survey : list podRole) (targetPod : string) : option podRole :=
  if targetPod != "" then findNamed vc targetPod survey
  else foldl (λ best s, if (negb (pr_reachable s) || (pr_role s != roleSlave))%bool then best
                        else keep_best higherOffset best s) None survey.

Definition manualFailover (vc : ValkeyCluster) (password : string) (survey : list podRole) (token : string) :
    prog (string * ValkeyCluster) :=
  match pickFailoverTarget vc survey (annotation vc failoverTargetAnnotation) with
  | None => mret ("", vc)
  | Some target =>
      let port := dataPort vc in
      c ← dialPod vc (pr_host target) port password (2 * second);
      match c with
      | None => mret ("", vc)
      | Some c =>
          e ← replicaOfNoOne c;
          match e with
          | Some _ => mret ("", vc)
          | None =>
              _ ← perform (failoverMetric vc "manual");
              _ ← enforceReplication vc password survey target port;
              let vc' := with_status vc (set_Status_LastFailoverToken token) in
              _ ← perform (OPatchStatus vc vc');
              mret (podName vc (pr_ordinal target), vc')
          end
      end
  end.

(** ** Lemmas on the choices *)
Definition isMaster (s : podRole) : bool := (pr_reachable s && (pr_role s == roleMaster))%bool.
Definition isReplica (s : podRole) : bool := (pr_reachable s && (pr_role s == roleSlave))%bool.

Lemma tally_foldl survey t :
  foldl tally_step t survey =
  {| ta_reachable := ta_reachable t + Z.of_nat (length (filter pr_reachable survey));
     ta_masters := ta_masters t ++ filter isMaster survey;
     ta_bestReplica := foldl (keep_best betterReplica) (ta_bestReplica t) (filter isReplica survey) |}.
Proof.
  revert t; induction survey as [|s l IH]; intros [n ms b]; simpl.
  { by rewrite Z.add_0_r, app_nil_r. }
  rewrite IH. unfold tally_step; simpl. rewrite !filter_cons_bool.
  assert (isMaster s = pr_reachable s && (pr_role s == roleMaster))%bool as -> by done.
  assert (isReplica s = pr_reachable s && (pr_role s == roleSlave))%bool as -> by done.
  destruct (pr_reachable s); simpl; [|done].
  case_bool_decide as Em; simpl.
  - rewrite Em. simpl. rewrite <-app_assoc. f_equal. lia.
  - case_bool_decide; simpl; f_equal; lia.
Qed.

Lemma tally_spec survey :
  tally survey =
  {| ta_reachable := Z.of_nat (length (filter pr_reachable survey));
     ta_masters := filter isMaster survey;
     ta_bestReplica := foldl (keep_best betterReplica) None (filter isReplica survey) |}.
Proof. unfold tally. by rewrite tally_foldl. Qed.

Lemma betterReplica_max l r s :
  foldl (keep_best betterReplica) None l = Some r → s ∈ l →
  (pr_keys s < pr_keys r ∨ pr_keys s = pr_keys r ∧ pr_offset s ≤ pr_offset r)%Z.
Proof.
  intros Hr Hs. assert (betterReplica s r = false) as H.
  { eapply keep_best_max; [..|exact Hr|exact Hs]; unfold betterReplica; intros;
      repeat (rewrite ?orb_false_iff, ?orb_true_iff, ?andb_true_iff, ?andb_false_iff in * ); lia. }
  unfold betterReplica in H. rewrite orb_false_iff, andb_false_iff in H. lia.
Qed.

(** The preference order of [betterMaster] spelled out: data first, then the recorded
    primary, then the lowest ordinal. *)
Definition isRecorded (vc : ValkeyCluster) (s : podRole) : bool :=
  podName vc (pr_ordinal s) == Status_Primary (Status vc).
Lemma betterMaster_iff vc a b :
  betterMaster vc a b = true ↔
  (pr_keys b < pr_keys a ∨
   pr_keys a = pr_keys b ∧ isRecorded vc a = true ∧ isRecorded vc b = false ∨
   pr_keys a = pr_keys b ∧ isRecorded vc a = isRecorded vc b ∧ pr_ordinal a < pr_ordinal b)%Z.
Proof.
  unfold betterMaster. fold (isRecorded vc a). fold (isRecorded vc b).
  case_bool_decide as E; simpl.
  - rewrite E. destruct (isRecorded vc a), (isRecorded vc b); simpl;
      rewrite ?Z.ltb_lt; intuition (try lia; try congruence).
  - rewrite Z.ltb_lt. intuition lia.
Qed.
Lemma betterMaster_false vc a b : betterMaster vc a b = false ↔ ¬ betterMaster vc a b = true.
Proof. by rewrite not_true_iff_false. Qed.

Lemma pickAuthoritativeMaster_max vc masters r s :
  pickAuthoritativeMaster vc masters = Some r → s ∈ masters → betterMaster vc s r = false.
Proof.
  intros Hr Hs. eapply keep_best_max; [..|exact Hr|exact Hs].
  - intros x. rewrite betterMaster_false, betterMaster_iff. intuition (try lia; congruence).
  - intros x y z. rewrite !betterMaster_false, !betterMaster_iff.
    destruct (isRecorded vc x), (isRecorded vc y), (isRecorded vc z); intuition (try lia; congruence).
Qed.
Lemma pickAuthoritativeMaster_keys vc masters r s :
  pickAuthoritativeMaster vc masters = Some r → s ∈ masters → (pr_keys s ≤ pr_keys r)%Z.
Proof.
  intros Hr Hs. pose proof (pickAuthoritativeMaster_max vc _ _ _ Hr Hs) as H.
  rewrite betterMaster_false, betterMaster_iff in H. lia.
Qed.

(** ** What each call can do, whatever the environment answers *)
Section calls.
Context (P : Event → Prop) `{!IgnoresReads P}.

Lemma loadMTLSClientCert_spec vc : spec (loadMTLSClientCert vc) P (λ _, True).
Proof.
  unfold loadMTLSClientCert. case_match; [|by apply spec_ret].
  case_match; [by apply spec_ret|].
  spec_op. intros [e|sec]; [by apply spec_ret|]. by spec_op.
Qed.

Lemma dialPod_spec vc host port pw timeout :
  spec (dialPod vc host port pw timeout) P
    (λ c, ∀ o, c = Some o → d_Host o = host ∧ d_Port o = port ∧ d_Password o = pw).
Proof.
  unfold dialPod. eapply spec_bind; [apply loadMTLSClientCert_spec|]. intros cert _.
  unfold dialReplClient. spec_op. intros ok. apply spec_ret. by intros o; destruct ok; intros; simplify_eq.
Qed.

Lemma do_err_bind {B} c args (f : option error → prog B) R :
  (∀ x, P (Ev (ODo c args) x)) → (∀ e, spec (f e) P R) → spec (do_err c args ≫= f) P R.
Proof.
  intros HP Hf. eapply (spec_bind _ _ _ (λ _, True)); [|auto].
  unfold do_err. spec_op; [done|]. intros r. by apply spec_ret.
Qed.

Lemma setPrimaryDown_spec vc t :
  (∀ b n x, P (Ev (OPatchStatus b n) x)) →
  spec (setPrimaryDown vc t) P (λ vc', vc' = with_status vc (set_Status_PrimaryDownSince t)).
Proof.
  intros HP. unfold setPrimaryDown.
  spec_op; [done|]. intros x. by apply spec_ret.
Qed.

Lemma clearPrimaryDown_spec vc :
  (∀ b n x, P (Ev (OPatchStatus b n) x)) →
  spec (clearPrimaryDown vc) P
    (λ vc', vc' = vc ∨ vc' = with_status vc (set_Status_PrimaryDownSince None)).
Proof.
  intros HP. unfold clearPrimaryDown. case_match; [|apply spec_ret; auto].
  eapply spec_mono; [by apply setPrimaryDown_spec|done|auto].
Qed.

(** [enforceReplication] only talks to reachable pods other than the primary that are
    not already linked to it, and only to point them at the primary. *)
Lemma enforceReplication_spec vc pw survey p port :
  (∀ s o x, s ∈ survey → pr_reachable s = true → pr_ordinal s ≠ pr_ordinal p →
     linkedTo p s = false → d_Host o = pr_host s → d_Port o = port →
     P (Ev (ODo o ["REPLICAOF"; pr_host p; Itoa port]) x)) →
  spec (enforceReplication vc pw survey p port) P (λ _, True).
Proof.
  intros HP. unfold enforceReplication. apply spec_foldM; [done|].
  intros _ s Hs _. unfold enforcePod.
  destruct (pr_reachable s) eqn:Hr; simpl; [|by apply spec_ret].
  case_bool_decide as Ho; [by apply spec_ret|].
  destruct (linkedTo p s) eqn:Hl; [by apply spec_ret|].
  eapply spec_bind; [apply dialPod_spec|]. intros [o|] Hdial; [|by apply spec_ret].
  destruct (Hdial o eq_refl) as (Hh & Hp & _).
  unfold replicaOf. apply do_err_bind; [intros x; by eapply HP|intros; by apply spec_ret].
Qed.

Lemma promoteReplica_spec vc pw survey p port :
  (∀ o x, d_Host o = pr_host p → P (Ev (ODo o ["REPLICAOF"; "NO"; "ONE"]) x)) →
  (∀ s o x, s ∈ survey → pr_reachable s = true → pr_ordinal s ≠ pr_ordinal p →
     linkedTo p s = false → d_Host o = pr_host s → d_Port o = port →
     P (Ev (ODo o ["REPLICAOF"; pr_host p; Itoa port]) x)) →
  spec (promoteReplica vc pw survey p port) P
    (λ r, r = podName vc (pr_ordinal p) ∨ r = Status_Primary (Status vc)).
Proof.
  intros H1 H2. unfold promoteReplica. eapply spec_bind; [apply dialPod_spec|].
  intros [o|] Hdial; [|apply spec_ret; auto]. destruct (Hdial o eq_refl) as (Hh & _).
  unfold replicaOfNoOne. apply do_err_bind; [auto|]. intros [e|]; [apply spec_ret; auto|].
  spec_op. intros _.
  eapply spec_bind; [by apply enforceReplication_spec|]. intros _ _. apply spec_ret; auto.
Qed.
End calls.

(** ** The pod a pass may send commands for *)

(** A pod the survey reached and whose role it could read. *)
Definition known (s : podRole) : Prop :=
  pr_reachable s = true ∧ (pr_role s = roleMaster ∨ pr_role s = roleSlave).

(** A primary that is safe to adopt: a known pod that is empty only if every known pod is. *)
Definition safePrimary (survey : list podRole) (p : podRole) : Prop :=
  p ∈ survey ∧ known p ∧ (pr_keys p = 0%Z → ∀ s, s ∈ survey → known s → (pr_keys s ≤ 0)%Z).

(** The only commands of a failover pass whose primary is [p]: promote [p] itself, or point
    a reachable pod that is not [p] and is not linked to [p] yet at [p]. *)
Definition failoverCommand (vc : ValkeyCluster) (survey : list podRole) (p : podRole) (e : Event) : Prop :=
  match ev_op e with
  | ODo o args =>
      (d_Host o = pr_host p ∧ args = ["REPLICAOF"; "NO"; "ONE"]) ∨
      (args = ["REPLICAOF"; pr_host p; Itoa (dataPort vc)] ∧
       ∃ s, s ∈ survey ∧ pr_reachable s = true ∧ pr_ordinal s ≠ pr_ordinal p ∧
            linkedTo p s = false ∧ d_Host o = pr_host s)
  | ODeletePod _ _ | ODeleteSts _ _ | ODeleteSvc _ _ | OUpdateSecret _ | OCreateJob _ | ODeleteJob _ _ => False
  | _ => True
  end.
(** No command at all. *)
Definition noCommand (e : Event) : Prop :=
  match ev_op e with
  | ODo _ _ | ODeletePod _ _ | ODeleteSts _ _ | ODeleteSvc _ _ | OUpdateSecret _ | OCreateJob _ | ODeleteJob _ _ => False
  | _ => True
  end.

#[global] Instance failoverCommand_reads vc survey p : IgnoresReads (failoverCommand vc survey p).
Proof. by intros []. Qed.
#[global] Instance noCommand_reads : IgnoresReads noCommand.
Proof. by intros []. Qed.

Lemma isMaster_known s : isMaster s = true → known s.
Proof. unfold isMaster, known. intros. bool_hyps. auto. Qed.
Lemma isReplica_known s : isReplica s = true → known s.
Proof. unfold isReplica, known. intros. bool_hyps. auto. Qed.
Lemma known_cases s : known s → isMaster s = true ∨ isReplica s = true.
Proof.
  unfold known, isMaster, isReplica. intros [-> [->| ->]]; simpl; auto.
Qed.

(** The best replica is safe when no master has data. *)
Lemma bestReplica_safe survey b :
  foldl (keep_best betterReplica) None (filter isReplica survey) = Some b →
  (pr_keys b = 0%Z → ∀ m, m ∈ survey → isMaster m = true → (pr_keys m ≤ 0)%Z) →
  safePrimary survey b.
Proof.
  intros Hb Hm. pose proof (keep_best_elem _ _ _ Hb) as [Hrep Hin]%elem_of_filter_bool.
  split_and!; [done|by apply isReplica_known|]. intros H0 s Hs [Hk|Hk]%known_cases; [by apply Hm|].
  assert (s ∈ filter isReplica survey) as Hsf by (apply elem_of_filter_bool; auto).
  pose proof (betterReplica_max _ _ _ Hb Hsf). lia.
Qed.

(** The chosen master is safe when the guard did not fire. *)
Lemma chosen_safe vc survey c :
  pickAuthoritativeMaster vc (filter isMaster survey) = Some c →
  (∀ b, foldl (keep_best betterReplica) None (filter isReplica survey) = Some b →
        ((pr_keys c == 0%Z) && (0 <? pr_keys b)%Z)%bool = false) →
  safePrimary survey c.
Proof.
  intros Hc Hg. pose proof (keep_best_elem _ _ _ Hc) as [Hm Hin]%elem_of_filter_bool.
  split_and!; [done|by apply isMaster_known|]. intros H0 s Hs [Hk|Hk]%known_cases.
  - rewrite <-H0. eapply pickAuthoritativeMaster_keys; [exact Hc|]. apply elem_of_filter_bool; auto.
  - assert (s ∈ filter isReplica survey) as Hsf by (apply elem_of_filter_bool; auto).
    destruct (foldl (keep_best betterReplica) None (filter isReplica survey)) as [b|] eqn:Hb.
    + specialize (Hg b eq_refl). rewrite H0 in Hg. simpl in Hg. bool_hyps.
      pose proof (betterReplica_max _ _ _ Hb Hsf). lia.
    + apply keep_best_none in Hb. rewrite Hb in Hsf. by apply elem_of_nil in Hsf.
Qed.

(** What a pass leaves behind: the commands are those of [p], and the pod it reports as
    primary is [p] or the one recorded before. *)
Definition failoverPass (vc : ValkeyCluster) (survey : list podRole) (p : podRole)
    (tr : list Event) (r : string * ValkeyCluster) : Prop :=
  safePrimary survey p ∧ Forall (failoverCommand vc survey p) tr ∧
  (r.1 = podName vc (pr_ordinal p) ∨ r.1 = Status_Primary (Status vc)).

Lemma promote_pass vc vc0 pw survey b tr r :
  Meta vc = Meta vc0 → Spec vc = Spec vc0 → Status_Primary (Status vc) = Status_Primary (Status vc0) →
  safePrimary survey b →
  exec (p ← promoteReplica vc pw survey b (dataPort vc0); mret (p, vc)) tr r →
  failoverPass vc0 survey b tr r.
Proof.
  intros HM HS HP Hsafe Hx. split; [done|].
  assert (∀ o, podName vc o = podName vc0 o) as Hpn
    by (intros; unfold podName, statefulSetName; by rewrite HM).
  eapply (spec_bind (failoverCommand vc0 survey b) _ _ _
            (λ x, x.1 = podName vc0 (pr_ordinal b) ∨ x.1 = Status_Primary (Status vc0))
            (promoteReplica_spec _ vc pw survey b (dataPort vc0) _ _)); [|exact Hx].
  intros q Hq. apply spec_ret. rewrite Hpn, HP in Hq. exact Hq.
Unshelve.
  - intros o x Ho. left. auto.
  - intros s o x ?????. intros ?. right. split; [done|]. exists s. auto.
Qed.

Lemma set_PrimaryDownSince_Primary t st :
  Status_Primary (set_Status_PrimaryDownSince t st) = Status_Primary st.
Proof. by destruct st. Qed.

Lemma clear_exec vc tr vc' :
  exec (clearPrimaryDown vc) tr vc' →
  Forall noCommand tr ∧ Meta vc' = Meta vc ∧ Spec vc' = Spec vc ∧
  Status_Primary (Status vc') = Status_Primary (Status vc).
Proof.
  intros Hx. destruct (clearPrimaryDown_spec noCommand vc ltac:(done) _ _ Hx) as [? [-> | ->]];
    [auto|]. simpl. by rewrite set_PrimaryDownSince_Primary.
Qed.

Lemma primaryDownLongEnough_exec vc tr r :
  exec (primaryDownLongEnough vc) tr r ↔
  match Status_PrimaryDownSince (Status vc) with
  | None => ∃ now e, let vc' := with_status vc (set_Status_PrimaryDownSince (Some now)) in
      tr = [Ev ONow now; Ev (OPatchStatus vc vc') e] ∧ r = (false, vc')
  | Some since => ∃ now, tr = [Ev ONow now] ∧ r = (downElapsed since now failoverDownAfter, vc)
  end.
Proof.
  unfold primaryDownLongEnough, setPrimaryDown. destruct (Status_PrimaryDownSince (Status vc)).
  - split; [intros; exec_inv; eauto|]. intros (now & -> & ->).
    by eexists now, _.
  - split; [intros; exec_inv; eauto|]. intros (now & e & -> & ->).
    eexists now, _. split; [done|]. eexists e, _. split; [done|]. done.
Qed.

Lemma noCommand_failover vc survey p tr :
  Forall noCommand tr → Forall (failoverCommand vc survey p) tr.
Proof. intros H. eapply Forall_impl; [exact H|]. by intros [[] ?]. Qed.
Lemma failoverPass_pre vc survey p tr1 tr2 r :
  Forall noCommand tr1 → failoverPass vc survey p tr2 r → failoverPass vc survey p (tr1 ++ tr2) r.
Proof.
  intros H1 (Hs & H2 & H3). split_and!; [done| |done].
  apply Forall_app. split; [by apply noCommand_failover|done].
Qed.

Lemma adopt_pass vc vc0 pw survey c tr r :
  Meta vc = Meta vc0 → safePrimary survey c →
  exec (adoptMaster vc pw survey c (dataPort vc0)) tr r → failoverPass vc0 survey c tr r.
Proof.
  intros HM Hsafe Hx. split; [done|]. revert tr r Hx.
  change (spec (adoptMaster vc pw survey c (dataPort vc0)) (failoverCommand vc0 survey c)
            (λ r, r.1 = podName vc0 (pr_ordinal c) ∨ r.1 = Status_Primary (Status vc0))).
  unfold adoptMaster. eapply (spec_bind _ _ _ (λ _, True)).
  { case_match; [by spec_op|by apply spec_ret]. }
  intros _ _. eapply (spec_bind _ _ _ (λ _, True)).
  { apply enforceReplication_spec; [apply _|]. intros s o x ??????. right. split; [done|]. exists s. auto. }
  intros _ _. apply spec_ret. left. unfold podName, statefulSetName. by rewrite HM.
Qed.

(** C1: whatever the pods and the API server answer, one failover pass works for a
    single primary: either it sends nothing, or there is one pod [p] such that every
    command of the pass either promotes [p] or points a reachable pod that is not yet
    linked to [p] at [p]; [p] was reachable, and [p] holds no data only if no pod with a
    readable role holds data (the empty-master guard: replicas are never pointed at an
    empty primary while one of them still holds the dataset). *)
Theorem failover_single_safe_primary vc pw survey tr r :
  exec (reconcileFailover vc pw survey) tr r →
  (Forall noCommand tr ∧ r.1 = Status_Primary (Status vc)) ∨ ∃ p, failoverPass vc survey p tr r.
Proof.
  unfold reconcileFailover. rewrite tally_spec; simpl. intros Hx.
  case_match; [left; exec_inv; auto|].
  destruct (filter isMaster survey) as [|m ms] eqn:Em.
  - destruct (foldl _ None (filter isReplica survey)) as [b|] eqn:Hb; [|left; exec_inv; auto].
    assert (safePrimary survey b) as Hsafe.
    { apply bestReplica_safe; [done|]. intros _ m Hm Him. exfalso.
      assert (m ∈ filter isMaster survey) as Hmf by (by apply elem_of_filter_bool).
      rewrite Em in Hmf. by apply elem_of_nil in Hmf. }
    apply exec_bind in Hx as (tr1 & tr2 & [long vc1] & -> & Hd & Hx).
    assert (Forall noCommand tr1 ∧ Meta vc1 = Meta vc ∧ Spec vc1 = Spec vc ∧
            Status_Primary (Status vc1) = Status_Primary (Status vc)) as (Hn & HM & HS & HP).
    { apply primaryDownLongEnough_exec in Hd. destruct (Status_PrimaryDownSince (Status vc)); deex;
        simplify_eq; simpl; rewrite ?set_PrimaryDownSince_Primary; split_and!; repeat constructor. }
    destruct long; simpl in Hx; [|left; exec_inv; simpl; rewrite ?app_nil_r; auto].
    apply exec_bind in Hx as (tr3 & tr4 & vc2 & -> & (Hn2 & HM2 & HS2 & HP2)%clear_exec & Hx).
    right. exists b. apply failoverPass_pre; [done|]. apply failoverPass_pre; [done|].
    eapply promote_pass; [..|exact Hx]; congruence.
  - apply exec_bind in Hx as (tr3 & tr4 & vc2 & -> & (Hn2 & HM2 & HS2 & HP2)%clear_exec & Hx).
    rewrite <-Em in Hx.
    destruct (pickAuthoritativeMaster vc2 (filter isMaster survey)) as [c|] eqn:Hc;
      [|left; exec_inv; simpl; rewrite ?app_nil_r; auto].
    right. destruct (foldl _ None (filter isReplica survey)) as [b|] eqn:Hb.
    + destruct ((pr_keys c == 0%Z) && (0 <? pr_keys b)%Z)%bool eqn:Hg.
      * exists b. apply failoverPass_pre; [done|]. eapply promote_pass; [..|exact Hx]; try congruence.
        apply bestReplica_safe; [done|]. bool_hyps. lia.
      * exists c. apply failoverPass_pre; [done|]. eapply adopt_pass; [..|exact Hx]; try congruence.
        eapply chosen_safe; [exact Hc|]. congruence.
    + exists c. apply failoverPass_pre; [done|]. eapply adopt_pass; [..|exact Hx]; try congruence.
      eapply chosen_safe; [exact Hc|]. congruence.
Qed.

(** With fewer than two reachable pods a pass does nothing at all: no command, no status
    write, and the recorded primary stands. *)
Theorem failover_quiet vc pw survey tr r :
  length (filter pr_reachable survey) < 2 → exec (reconcileFailover vc pw survey) tr r →
  tr = [] ∧ r = (Status_Primary (Status vc), vc).
Proof.
  intros Hl. unfold reconcileFailover. rewrite tally_spec; simpl.
  rewrite (proj2 (Z.ltb_lt _ _)) by lia. intros. by exec_inv.
Qed.

(** The debounce.  When no master answers (and at least two pods do, one a replica), the
    first miss only records the time in status; later misses do nothing until 20 s have
    passed since that time; then the marker is cleared and the best replica is promoted. *)
Theorem failover_debounce vc pw survey tr r best :
  2 ≤ length (filter pr_reachable survey) → filter isMaster survey = [] →
  foldl (keep_best betterReplica) None (filter isReplica survey) = Some best →
  exec (reconcileFailover vc pw survey) tr r →
  match Status_PrimaryDownSince (Status vc) with
  | None => ∃ now e, let vc' := with_status vc (set_Status_PrimaryDownSince (Some now)) in
      tr = [Ev ONow now; Ev (OPatchStatus vc vc') e] ∧ r = (Status_Primary (Status vc), vc')
  | Some since => ∃ now tr', tr = Ev ONow now :: tr' ∧
      if decide (now - since < 20 * second)%Z
      then tr' = [] ∧ r = (Status_Primary (Status vc), vc)
      else ∃ e tr'', let vc' := with_status vc (set_Status_PrimaryDownSince None) in
           tr' = Ev (OPatchStatus vc vc') e :: tr'' ∧ r.2 = vc' ∧
           exec (promoteReplica vc' pw survey best (dataPort vc)) tr'' r.1
  end.
Proof.
  intros Hl Hm Hb. unfold reconcileFailover. rewrite tally_spec; simpl.
  rewrite (proj2 (Z.ltb_ge _ _)) by lia. rewrite Hm, Hb. intros Hx.
  apply exec_bind in Hx as (tr1 & tr2 & [long vc1] & -> & Hd%primaryDownLongEnough_exec & Hx).
  destruct (Status_PrimaryDownSince (Status vc)) as [since|] eqn:HD; deex; simplify_eq.
  - eexists _, _. split; [done|]. unfold downElapsed, failoverDownAfter in Hx.
    case_decide as Ht.
    + rewrite (proj2 (Z.leb_gt _ _)) in Hx by lia. simpl in Hx. by exec_inv.
    + rewrite (proj2 (Z.leb_le _ _)) in Hx by lia. simpl in Hx.
      unfold clearPrimaryDown in Hx. rewrite HD in Hx. unfold setPrimaryDown in Hx.
      apply exec_bind in Hx as (tr3 & tr4 & vc2 & -> & Hc & Hx). exec_inv. simpl.
      eexists _, _. split_and!; [done|done|]. by rewrite ?app_nil_r.
  - simpl in Hx. exec_inv. eexists _, _. split; [done|]. simpl. by rewrite set_PrimaryDownSince_Primary.
Qed.

(** The authoritative master is the one with the most keys, then the recorded primary,
    then the lowest ordinal; with distinct ordinals that is one pod, whatever the order in
    which the masters were surveyed. *)
Theorem pickAuthoritativeMaster_spec vc masters masters' r r' :
  masters ≡ₚ masters' → NoDup (pr_ordinal <$> masters) →
  pickAuthoritativeMaster vc masters = Some r → pickAuthoritativeMaster vc masters' = Some r' →
  r = r' ∧ r ∈ masters ∧
  ∀ s, s ∈ masters → (pr_keys s < pr_keys r ∨
    pr_keys s = pr_keys r ∧ (isRecorded vc s = true → isRecorded vc r = true) ∧
    (isRecorded vc s = isRecorded vc r → pr_ordinal r ≤ pr_ordinal s))%Z.
Proof.
  intros HP Hnd Hr Hr'. pose proof (keep_best_elem _ _ _ Hr) as Hin.
  pose proof (keep_best_elem _ _ _ Hr') as Hin'. rewrite <-HP in Hin'.
  assert (∀ s, s ∈ masters → betterMaster vc s r = false) as Hmax
    by (intros; by eapply pickAuthoritativeMaster_max).
  assert (betterMaster vc r r' = false) as H1.
  { eapply pickAuthoritativeMaster_max; [exact Hr'|]. by rewrite <-HP. }
  split_and!; [|done|].
  - pose proof (Hmax _ Hin') as H2. rewrite betterMaster_false, betterMaster_iff in H1, H2.
    assert (pr_ordinal r = pr_ordinal r') as Ho.
    { destruct (isRecorded vc r), (isRecorded vc r'); lia || (exfalso; lia) ||
      (exfalso; destruct (Z.eq_dec (pr_keys r) (pr_keys r')); intuition lia). }
    by eapply (NoDup_fmap_eq pr_ordinal).
  - intros s Hs. pose proof (Hmax s Hs) as H2. rewrite betterMaster_false, betterMaster_iff in H2.
    destruct (isRecorded vc s), (isRecorded vc r); intuition (try lia; try congruence).
    all: destruct (Z.eq_dec (pr_keys s) (pr_keys r)); intuition (try lia; try congruence).
Qed.

Lemma findNamed_Some vc name survey t :
  findNamed vc name survey = Some t →
  t ∈ survey ∧ isReplica t = true ∧ podName vc (pr_ordinal t) = name.
Proof.
  induction survey as [|s l IH]; simpl; [done|]. case_bool_decide.
  - case_match; [|done]. intros; simplify_eq. split_and!; [constructor|done|done].
  - intros (?&?&?)%IH. split_and!; [by constructor|done|done].
Qed.

Lemma pickFailoverTarget_Some vc survey name t :
  pickFailoverTarget vc survey name = Some t →
  t ∈ survey ∧ isReplica t = true ∧ (name ≠ "" → podName vc (pr_ordinal t) = name) ∧
  (name = "" → ∀ s, s ∈ survey → isReplica s = true → (pr_offset s ≤ pr_offset t)%Z).
Proof.
  unfold pickFailoverTarget. case_bool_decide as E; simpl.
  - assert (∀ acc, foldl (λ best s, if (negb (pr_reachable s) || (pr_role s != roleSlave))%bool then best
        else keep_best higherOffset best s) acc survey =
        foldl (keep_best higherOffset) acc (filter isReplica survey)) as ->.
    { intros acc. rewrite <-foldl_keep_best_filter. revert acc.
      induction survey as [|s l IH]; intros acc; [done|]; simpl. unfold isReplica at 2.
      by destruct (pr_reachable s), (bool_decide (pr_role s = roleSlave)); simpl; rewrite IH. }
    intros Ht. pose proof (keep_best_elem _ _ _ Ht) as [Hr Hin]%elem_of_filter_bool.
    split_and!; [done|done|done|]. intros _ s Hs Hsr.
    assert (higherOffset s t = false) as H.
    { eapply keep_best_max; [..|exact Ht|by apply elem_of_filter_bool];
        unfold higherOffset; intros; bool_hyps; lia. }
    unfold higherOffset in H. bool_hyps. lia.
  - intros (?&?&?)%findNamed_Some. split_and!; done || (by intros).
Qed.

(** A manual failover runs once per request.  It acts only on a reachable replica (the
    one the request names, or the one with the highest offset), and the request's token is
    recorded exactly when the promotion succeeded, after every other command; otherwise
    the object is untouched and the request stays pending. *)
Theorem manualFailover_once vc pw survey token tr r vc' :
  exec (manualFailover vc pw survey token) tr (r, vc') →
  (r = "" ∧ vc' = vc ∧
     Forall (λ e, match ev_op e with
                  | OPatchStatus _ _ => False
                  | ODo _ args => args = ["REPLICAOF"; "NO"; "ONE"]
                  | _ => True end) tr) ∨
  (∃ t tr0 e, pickFailoverTarget vc survey (annotation vc failoverTargetAnnotation) = Some t ∧
     t ∈ survey ∧ isReplica t = true ∧
     (annotation vc failoverTargetAnnotation ≠ "" → r = annotation vc failoverTargetAnnotation) ∧
     r = podName vc (pr_ordinal t) ∧
     vc' = with_status vc (set_Status_LastFailoverToken token) ∧
     tr = tr0 ++ [Ev (OPatchStatus vc vc') e] ∧ Forall (failoverCommand vc survey t) tr0).
Proof.
  set (Quiet := λ e, match ev_op e with
                  | OPatchStatus _ _ => False
                  | ODo _ args => args = ["REPLICAOF"; "NO"; "ONE"]
                  | _ => True end).
  assert (IgnoresReads Quiet) by (by intros []).
  unfold manualFailover. destruct (pickFailoverTarget _ _ _) as [t|] eqn:Ht; intros Hx;
    [|exec_inv; by left].
  apply pickFailoverTarget_Some in Ht as (Hin & Hr & Hname & _).
  apply exec_bind in Hx as (tr1 & tr2 & c & -> & Hd & Hx).
  pose proof (dialPod_spec Quiet _ _ _ _ _ _ _ Hd) as [Hq1 _].
  pose proof (dialPod_spec (failoverCommand vc survey t) _ _ _ _ _ _ _ Hd) as [Hf1 Hc].
  destruct c as [c|]; [|left; exec_inv; by rewrite ?app_nil_r].
  destruct (Hc c eq_refl) as (Hh & _). unfold replicaOfNoOne, do_err in Hx.
  apply exec_bind in Hx as (tr3 & tr4 & oe & -> & Hp & Hx).
  apply exec_bind in Hp as (tr5 & tr6 & [err|rep] & -> & ->%exec_perform & [-> <-]%exec_ret).
  { left. exec_inv. split_and!; [done..|]. rewrite ?app_nil_r. apply Forall_app.
    split; [done|]. by repeat constructor. }
  apply exec_bind in Hx as (tr7 & tr8 & [] & -> & ->%exec_perform & Hx).
  apply exec_bind in Hx as (tr9 & tr10 & [] & -> & He & Hx).
  apply exec_bind in Hx as (tr11 & tr12 & pe & -> & ->%exec_perform & [-> ?]%exec_ret). simplify_eq.
  right. eexists t, (tr1 ++ [_] ++ [_] ++ tr9), _. split_and!; try done.
  - by rewrite <-!app_assoc.
  - assert (Forall (failoverCommand vc survey t) tr9).
    { eapply (enforceReplication_spec (failoverCommand vc survey t)); [|exact He].
      intros s o x ??????. right. split; [done|]. exists s. auto. }
    rewrite !Forall_app. split_and!; try done; repeat (constructor; try done).
Qed.

(** ** A simulated fleet: the pass converges

    Pods of a fleet answer [PING] when they are up, and obey [REPLICAOF]: a pod told to
    replicate becomes a replica of that host and takes over its dataset (a full resync). *)
Record FleetPod := { fp_up : bool; fp_role : string; fp_master : string; fp_keys : Z }.
Definition Fleet : Type := gmap string FleetPod.

Definition fleet_up (w : Fleet) (host : string) : bool :=
  match w !! host with Some f => fp_up f | None => false end.
Definition fleet_keys (w : Fleet) (host : string) : Z :=
  match w !! host with Some f => fp_keys f | None => 0%Z end.
Definition fleet_do (w : Fleet) (host : string) (args : list string) : Fleet :=
  if fleet_up w host then
    if decide (args = ["REPLICAOF"; "NO"; "ONE"]) then
      <[host := {| fp_up := true; fp_role := roleMaster; fp_master := ""; fp_keys := fleet_keys w host |}]> w
    else match args with
    | ["REPLICAOF"; m; _] =>
        <[host := {| fp_up := true; fp_role := roleSlave; fp_master := m; fp_keys := fleet_keys w m |}]> w
    | _ => w
    end
  else w.
(** The environment: no TLS Secret, the clock stands at [now], patches succeed. *)
Definition fleet_handle (now : Z) (op : Op) : Fleet → ans op * Fleet :=
  match op return Fleet → ans op * Fleet with
  | OPing o => λ w, (fleet_up w (d_Host o), w)
  | ODo o args => λ w, (inr (RStr "OK"), fleet_do w (d_Host o) args)
  | ONow => λ w, (now, w)
  | OPatchStatus _ _ => λ w, (None, w)
  | OMetricInc _ _ => λ w, (tt, w)
  | _ => λ w, (inhabitant, w)
  end.

(** The survey [s] describes the fleet [w]. *)
Definition observed (w : Fleet) (s : podRole) : Prop :=
  pr_reachable s = fleet_up w (pr_host s) ∧
  (pr_reachable s = true → ∃ f, w !! pr_host s = Some f ∧ fp_up f = true ∧
     fp_role f = pr_role s ∧ (pr_role s = roleSlave → fp_master f = pr_masterHost s) ∧ fp_keys f = pr_keys s).

(** [s] follows the primary [p] in the fleet. *)
Definition follows (w : Fleet) (p s : podRole) : Prop :=
  ∃ f, w !! pr_host s = Some f ∧ fp_up f = true ∧ fp_role f = roleSlave ∧ fp_master f = pr_host p.

Section fleet.
Context (now : Z).
Abbreviation frun := (run (fleet_handle now)).

Lemma frun_dialPod vc host port pw t w :
  ∃ o, d_Host o = host ∧
    frun (dialPod vc host port pw t) w = (if fleet_up w host then Some o else None, w).
Proof.
  unfold dialPod. rewrite run_bind.
  assert (∃ c, frun (loadMTLSClientCert vc) w = (c, w)) as [cert ->].
  { unfold loadMTLSClientCert. destruct (Spec_TLS (Spec vc)); [|by eexists].
    case_match; by eexists. }
  unfold dialReplClient. eexists. split; [|done]. done.
Qed.

Definition enforce_effect (p : podRole) (port : Z) (w : Fleet) (s : podRole) : Fleet :=
  if (negb (pr_reachable s) || (pr_ordinal s == pr_ordinal p) || linkedTo p s)%bool then w
  else fleet_do w (pr_host s) ["REPLICAOF"; pr_host p; Itoa port].

Lemma frun_enforcePod vc pw p port s w :
  frun (enforcePod vc pw p port s) w = (tt, enforce_effect p port w s).
Proof.
  unfold enforcePod, enforce_effect.
  destruct (negb (pr_reachable s) || (pr_ordinal s == pr_ordinal p))%bool; [done|]; simpl.
  destruct (linkedTo p s); [done|]. rewrite run_bind.
  destruct (frun_dialPod vc (pr_host s) port pw (2 * second) w) as (o & Ho & ->).
  destruct (fleet_up w (pr_host s)) eqn:Hup; simpl.
  - by rewrite Ho.
  - unfold fleet_do. by rewrite Hup.
Qed.

Lemma frun_enforceReplication vc pw survey p port w :
  frun (enforceReplication vc pw survey p port) w = (tt, foldl (enforce_effect p port) w survey).
Proof.
  unfold enforceReplication. revert w.
  induction survey as [|s l IH]; intros w; [done|].
  simpl. rewrite run_bind, frun_enforcePod. apply IH.
Qed.

Lemma fleet_do_replicaof vc w h m :
  fleet_do w h ["REPLICAOF"; m; Itoa (dataPort vc)] =
  if fleet_up w h then
    <[h := {| fp_up := true; fp_role := roleSlave; fp_master := m; fp_keys := fleet_keys w m |}]> w
  else w.
Proof.
  unfold fleet_do. destruct (fleet_up w h); [|done]. case_decide as E; [|done].
  simplify_eq. exfalso. unfold dataPort in *. by destruct (tlsEnabled vc).
Qed.

Lemma enforce_effect_other vc p w s h :
  h ≠ pr_host s → enforce_effect p (dataPort vc) w s !! h = w !! h.
Proof.
  intros Hh. unfold enforce_effect. case_match; [done|]. rewrite fleet_do_replicaof.
  destruct (fleet_up w (pr_host s)); [|done]. by apply lookup_insert_ne.
Qed.
Lemma enforce_effects_other vc p survey w h :
  h ∉ pr_host <$> survey → foldl (enforce_effect p (dataPort vc)) w survey !! h = w !! h.
Proof.
  revert w; induction survey as [|s l IH]; intros w Hh; [done|]; simpl in *.
  rewrite not_elem_of_cons in Hh. destruct Hh as [Hh Hl].
  rewrite IH by done. by apply enforce_effect_other.
Qed.

Lemma observed_ext w w' s : w' !! pr_host s = w !! pr_host s → observed w s → observed w' s.
Proof. unfold observed, fleet_up. by intros ->. Qed.

(** One re-pointing pass over a faithful survey: every reachable pod but the primary
    follows it, and the primary is untouched. *)
Lemma enforce_converges vc p survey w :
  NoDup (pr_host <$> survey) → (∀ s, s ∈ survey → pr_ordinal s ≠ pr_ordinal p → observed w s) →
  (∀ s, s ∈ survey → pr_host s = pr_host p → pr_ordinal s = pr_ordinal p) →
  let w' := foldl (enforce_effect p (dataPort vc)) w survey in
  w' !! pr_host p = w !! pr_host p ∧
  ∀ s, s ∈ survey → pr_reachable s = true → pr_ordinal s ≠ pr_ordinal p → follows w' p s.
Proof.
  revert w; induction survey as [|x l IH]; intros w Hnd Hobs Hp; [split; [done|]; intros s Hs; inversion Hs|].
  simpl in Hnd. apply NoDup_cons in Hnd as [Hx Hnd]. simpl. set (w1 := enforce_effect p (dataPort vc) w x).
  destruct (IH w1) as [IH1 IH2]; [done| |intros; apply Hp; [by constructor|done]|].
  { intros s Hs ?. apply (observed_ext w); [|apply Hobs; [by constructor|done]].
    apply enforce_effect_other. intros E. apply Hx. rewrite <-E. by apply list_elem_of_fmap_2. }
  split.
  - rewrite IH1. unfold w1. destruct (decide (pr_host p = pr_host x)) as [E|E].
    + unfold enforce_effect. rewrite (bool_decide_true (pr_ordinal x = _)).
      * by rewrite orb_true_r.
      * apply Hp; [constructor|done].
    + by apply enforce_effect_other.
  - intros s [->|Hs]%elem_of_cons Hr Ho; [|by apply IH2].
    assert (foldl (enforce_effect p (dataPort vc)) w1 l !! pr_host x = w1 !! pr_host x) as E
      by (by apply enforce_effects_other).
    unfold follows. rewrite E. unfold w1, enforce_effect. rewrite Hr, bool_decide_false by done. simpl.
    destruct (Hobs x) as [Hup Hf]; [constructor|done|]. rewrite Hr in Hup. destruct (Hf Hr) as (f & Ef & ? & ? & Hm & ?).
    destruct (linkedTo p x) eqn:Hl.
    + unfold linkedTo in Hl. bool_hyps. exists f. rewrite Ef. split_and!; try congruence. rewrite Hm; congruence.
    + rewrite fleet_do_replicaof, <-Hup. eexists. split; [apply lookup_insert_eq|done].
Qed.

Lemma frun_promoteReplica vc pw survey b w :
  fleet_up w (pr_host b) = true →
  frun (promoteReplica vc pw survey b (dataPort vc)) w =
  (podName vc (pr_ordinal b),
   foldl (enforce_effect b (dataPort vc)) (fleet_do w (pr_host b) ["REPLICAOF"; "NO"; "ONE"]) survey).
Proof.
  intros Hup. unfold promoteReplica. rewrite run_bind.
  destruct (frun_dialPod vc (pr_host b) (dataPort vc) pw (2 * second) w) as (o & Ho & ->).
  rewrite Hup. cbv beta iota. unfold replicaOfNoOne, do_err. rewrite !run_bind.
  unfold perform at 1. simpl. rewrite Ho. unfold perform. simpl.
  rewrite run_bind. simpl. by rewrite run_bind, frun_enforceReplication.
Qed.

(** The fleet after a pass whose primary is [p]. *)
Definition converged (survey : list podRole) (p : podRole) (w' : Fleet) : Prop :=
  (∃ f, w' !! pr_host p = Some f ∧ fp_up f = true ∧ fp_role f = roleMaster ∧ fp_keys f = pr_keys p) ∧
  ∀ s, s ∈ survey → pr_reachable s = true → pr_ordinal s ≠ pr_ordinal p → follows w' p s.

Lemma host_ordinal survey p s :
  NoDup (pr_host <$> survey) → p ∈ survey → s ∈ survey → pr_host s = pr_host p → s = p.
Proof. intros Hnd Hp Hs E. by eapply NoDup_fmap_eq. Qed.

Lemma adopt_converged vc survey c w :
  NoDup (pr_host <$> survey) → (∀ s, s ∈ survey → observed w s) → c ∈ survey → isMaster c = true →
  converged survey c (foldl (enforce_effect c (dataPort vc)) w survey).
Proof.
  intros Hnd Hobs Hc Hm. unfold isMaster in Hm. bool_hyps.
  destruct (enforce_converges vc c survey w) as [E HF]; [done|auto| |].
  { intros s Hs ?. f_equal. by eapply host_ordinal. }
  split; [|done]. rewrite E. destruct (Hobs c Hc) as [_ Hf].
  destruct Hf as (f & ? & ? & ? & ? & ?); [done|]. exists f. split_and!; congruence.
Qed.

Lemma promote_converged vc survey b w :
  NoDup (pr_host <$> survey) → (∀ s, s ∈ survey → observed w s) → b ∈ survey → isReplica b = true →
  fleet_up w (pr_host b) = true ∧
  converged survey b (foldl (enforce_effect b (dataPort vc))
                        (fleet_do w (pr_host b) ["REPLICAOF"; "NO"; "ONE"]) survey).
Proof.
  intros Hnd Hobs Hb Hm. unfold isReplica in Hm. bool_hyps.
  destruct (Hobs b Hb) as [Hup Hf]. destruct Hf as (f & Ef & Hfu & _ & _ & Hk); [done|].
  assert (fleet_up w (pr_host b) = true) as Hup' by congruence. split; [done|].
  set (w1 := fleet_do w (pr_host b) ["REPLICAOF"; "NO"; "ONE"]).
  assert (w1 = <[pr_host b := {| fp_up := true; fp_role := roleMaster; fp_master := "";
                                 fp_keys := fleet_keys w (pr_host b) |}]> w) as E1.
  { unfold w1, fleet_do. rewrite Hup'. by rewrite decide_True by done. }
  destruct (enforce_converges vc b survey w1) as [E HF]; [done| | |].
  - intros s Hs Ho. apply (observed_ext w); [|by apply Hobs]. rewrite E1. apply lookup_insert_ne.
    intros Eh. apply Ho. f_equal. by eapply host_ordinal.
  - intros s Hs ?. f_equal. by eapply host_ordinal.
  - split; [|done]. rewrite E, E1. eexists. split; [apply lookup_insert_eq|]. split_and!; [done..|].
    simpl. unfold fleet_keys. by rewrite Ef.
Qed.

Lemma frun_clearPrimaryDown vc w :
  ∃ vc', frun (clearPrimaryDown vc) w = (vc', w) ∧ Meta vc' = Meta vc ∧ Spec vc' = Spec vc ∧
    Status_PrimaryDownSince (Status vc') = None.
Proof.
  unfold clearPrimaryDown. destruct (Status_PrimaryDownSince (Status vc)) eqn:E; [|by exists vc].
  eexists. split; [done|]. simpl. by destruct (Status vc).
Qed.

Lemma frun_adoptMaster vc pw survey c w :
  frun (adoptMaster vc pw survey c (dataPort vc)) w =
  ((podName vc (pr_ordinal c), vc), foldl (enforce_effect c (dataPort vc)) w survey).
Proof.
  unfold adoptMaster. rewrite run_bind.
  replace (frun (if _ : bool then perform (failoverMetric vc "adoption") else _) w) with (tt, w)
    by (by case_match).
  rewrite run_bind, frun_enforceReplication. done.
Qed.

(** What a pass that ends on the primary [p] guarantees. *)
Definition settles (vc : ValkeyCluster) (survey : list podRole) (out : (string * ValkeyCluster) * Fleet) : Prop :=
  ∃ p, safePrimary survey p ∧ out.1.1 = podName vc (pr_ordinal p) ∧ converged survey p out.2 ∧
       Status_PrimaryDownSince (Status out.1.2) = None.

Section settles.
Context (vc : ValkeyCluster) (survey : list podRole) (w : Fleet).
Hypothesis hosts : NoDup (pr_host <$> survey).
Hypothesis faithful : ∀ s, s ∈ survey → observed w s.

Lemma settles_promote vc2 pw b :
  Meta vc2 = Meta vc → Spec vc2 = Spec vc → Status_PrimaryDownSince (Status vc2) = None →
  b ∈ survey → isReplica b = true → safePrimary survey b →
  settles vc survey (frun (p ← promoteReplica vc2 pw survey b (dataPort vc); mret (p, vc2)) w).
Proof.
  intros HM HS HD Hin Hb Hsafe. rewrite run_bind.
  replace (dataPort vc) with (dataPort vc2) by (unfold dataPort, tlsEnabled; by rewrite HS).
  destruct (promote_converged vc2 survey b w) as [Hup Hconv]; [done..|].
  rewrite frun_promoteReplica by done. exists b. split_and!; [done| |done|done].
  simpl. unfold podName, statefulSetName. by rewrite HM.
Qed.

Lemma settles_adopt vc2 pw c :
  Meta vc2 = Meta vc → Spec vc2 = Spec vc → Status_PrimaryDownSince (Status vc2) = None →
  c ∈ survey → isMaster c = true → safePrimary survey c →
  settles vc survey (frun (adoptMaster vc2 pw survey c (dataPort vc)) w).
Proof.
  intros HM HS HD Hin Hc Hsafe.
  replace (dataPort vc) with (dataPort vc2) by (unfold dataPort, tlsEnabled; by rewrite HS).
  rewrite frun_adoptMaster. exists c. split_and!; [done| |by apply adopt_converged|done].
  simpl. unfold podName, statefulSetName. by rewrite HM.
Qed.
End settles.
End fleet.


(** ** A concrete fleet

    Three pods; pod 0 is the recorded primary.  [demoOutage]: pod 0 is down and the debounce
    is over.  [demoEmpty]: pod 0 came back empty and masters itself. *)
Definition demo : ValkeyCluster :=
  with_status (newCluster "demo" "ns" (set_Spec_Replicas 3%Z (set_Spec_Topology TopologyReplication zeroSpec)))
    (set_Status_Primary "demo-0").
Definition demoDown : ValkeyCluster := with_status demo (set_Status_PrimaryDownSince (Some 1%Z)).
Definition demoHost (i : Z) : string := fqdn "demo" i "demo-headless" "ns".
Definition demoRole (i : Z) (role mhost : string) (offset keys : Z) (up : bool) : podRole := {|
  pr_ordinal := i; pr_host := demoHost i; pr_role := role; pr_masterHost := mhost; pr_masterPort := 6379;
  pr_masterLink := if role == roleSlave then "up" else ""; pr_offset := offset; pr_keys := keys;
  pr_reachable := up |}.
Definition demoOutage : list podRole :=
  [demoRole 0 "" "" 0 0 false; demoRole 1 roleSlave (demoHost 0) 70 5 true;
   demoRole 2 roleSlave (demoHost 0) 90 5 true].
Definition demoEmpty : list podRole :=
  [demoRole 0 roleMaster "" 1 0 true; demoRole 1 roleSlave (demoHost 0) 70 5 true;
   demoRole 2 roleSlave (demoHost 0) 90 5 true].
Definition demoFleet (survey : list podRole) : Fleet :=
  list_to_map ((λ s, (pr_host s, {| fp_up := pr_reachable s; fp_role := pr_role s;
                                    fp_master := pr_masterHost s; fp_keys := pr_keys s |})) <$> survey).
Definition demoNow : Z := (30 * second)%Z.
Definition demoRun (vc : ValkeyCluster) (survey : list podRole) : (string * ValkeyCluster) * Fleet :=
  run (fleet_handle demoNow) (reconcileFailover vc "pw" survey) (demoFleet survey).
Definition demoTrace (vc : ValkeyCluster) (survey : list podRole) : list Event :=
  trace (fleet_handle demoNow) (reconcileFailover vc "pw" survey) (demoFleet survey).

Lemma demo_exec vc survey :
  exec (reconcileFailover vc "pw" survey) (demoTrace vc survey) (demoRun vc survey).1.
Proof. apply run_exec. Qed.

(** Pod 0 came back empty: the pass promotes pod 2 and re-points the others. *)
Example demoEmpty_promotes :
  (demoRun demo demoEmpty).1.1 = "demo-2" ∧
  (fp_master <$> (demoRun demo demoEmpty).2 !! demoHost 0) = Some (demoHost 2).
Proof. vm_compute. done. Qed.

Lemma failover_single_safe_primary_witness :
  (Forall noCommand (demoTrace demo demoEmpty) ∧ (demoRun demo demoEmpty).1.1 = "demo-0") ∨
  ∃ p, failoverPass demo demoEmpty p (demoTrace demo demoEmpty) (demoRun demo demoEmpty).1.
Proof. apply (failover_single_safe_primary demo "pw" demoEmpty _ _ (demo_exec demo demoEmpty)). Defined.

Lemma failover_quiet_witness :
  demoTrace demo (take 2 demoOutage) = [] ∧ (demoRun demo (take 2 demoOutage)).1 = ("demo-0", demo).
Proof.
  apply (failover_quiet demo "pw" (take 2 demoOutage)); [vm_compute; lia|].
  apply demo_exec.
Defined.

Lemma failover_debounce_witness :
  ∃ now tr', demoTrace demoDown demoOutage = Ev ONow now :: tr' ∧
    if decide (now - 1 < 20 * second)%Z
    then tr' = [] ∧ (demoRun demoDown demoOutage).1 = ("demo-0", demoDown)
    else ∃ e tr'', let vc' := with_status demoDown (set_Status_PrimaryDownSince None) in
         tr' = Ev (OPatchStatus demoDown vc') e :: tr'' ∧ (demoRun demoDown demoOutage).1.2 = vc' ∧
         exec (promoteReplica vc' "pw" demoOutage (demoRole 2 roleSlave (demoHost 0) 90 5 true) 6379) tr''
           (demoRun demoDown demoOutage).1.1.
Proof.
  apply (failover_debounce demoDown "pw" demoOutage _ _ (demoRole 2 roleSlave (demoHost 0) 90 5 true));
    [vm_compute; lia|reflexivity|reflexivity|]. apply demo_exec.
Defined.


(** Two masters after a split: pod 1 kept the data. *)
Definition demoSplit : list podRole :=
  [demoRole 0 roleMaster "" 10 2 true; demoRole 1 roleMaster "" 70 5 true; demoRole 2 roleMaster "" 80 5 true].
Lemma pickAuthoritativeMaster_spec_witness :
  demoRole 1 roleMaster "" 70 5 true = demoRole 1 roleMaster "" 70 5 true ∧
  demoRole 1 roleMaster "" 70 5 true ∈ demoSplit ∧
  ∀ s, s ∈ demoSplit → (pr_keys s < 5 ∨
    pr_keys s = 5 ∧ (isRecorded demo s = true → isRecorded demo (demoRole 1 roleMaster "" 70 5 true) = true) ∧
    (isRecorded demo s = isRecorded demo (demoRole 1 roleMaster "" 70 5 true) → 1 ≤ pr_ordinal s))%Z.
Proof.
  apply (pickAuthoritativeMaster_spec demo demoSplit (rev demoSplit)).
  - apply Permutation_rev.
  - apply (bool_decide_unpack _); vm_compute; exact I.
  - reflexivity.
  - reflexivity.
Defined.

Definition manualTrace : list Event :=
  trace (fleet_handle demoNow) (manualFailover demo "pw" demoEmpty "t1") (demoFleet demoEmpty).
Definition manualRun : string * ValkeyCluster :=
  (run (fleet_handle demoNow) (manualFailover demo "pw" demoEmpty "t1") (demoFleet demoEmpty)).1.
Example manualRun_promotes : manualRun.1 = "demo-2" ∧ Status_LastFailoverToken (Status manualRun.2) = "t1".
Proof. vm_compute. done. Qed.

Lemma manualFailover_once_witness :
  (manualRun.1 = "" ∧ manualRun.2 = demo ∧
     Forall (λ e, match ev_op e with
                  | OPatchStatus _ _ => False
                  | ODo _ args => args = ["REPLICAOF"; "NO"; "ONE"]
                  | _ => True end) manualTrace) ∨
  (∃ t tr0 e, pickFailoverTarget demo demoEmpty (annotation demo failoverTargetAnnotation) = Some t ∧
     t ∈ demoEmpty ∧ isReplica t = true ∧
     (annotation demo failoverTargetAnnotation ≠ "" → manualRun.1 = annotation demo failoverTargetAnnotation) ∧
     manualRun.1 = podName demo (pr_ordinal t) ∧
     manualRun.2 = with_status demo (set_Status_LastFailoverToken "t1") ∧
     manualTrace = tr0 ++ [Ev (OPatchStatus demo manualRun.2) e] ∧
     Forall (failoverCommand demo demoEmpty t) tr0).
Proof.
  apply (manualFailover_once demo "pw" demoEmpty "t1" manualTrace manualRun.1 manualRun.2).
  exact (run_exec (fleet_handle demoNow) (manualFailover demo "pw" demoEmpty "t1") (demoFleet demoEmpty)).
Defined.
