(* ===== verification/Rollout.v ===== *)
(** * Rollout: the proactive rolling restart (rollout.go)

    Under [updateStrategy: OnDelete] the operator restarts stale pods itself, one at a
    time: [nextRolloutStep] decides for the Replication and Sentinel topologies,
    [nextClusterRolloutStep] for the Cluster topology, and the [drive*] functions act on
    the decision.  [surveyCluster], which [driveClusterRollout] calls, is in [ClusterNodes]. *)

From S2P Require Import Prelude GoStd Kube Api Effects Naming Failover.

Definition proactiveRolloutEnabled (vc : ValkeyCluster) : bool :=
  match ParseBool (annotation vc proactiveRolloutAnnotation) with Some v => v | None => false end.

Record rolloutPod := { rp_name : string; rp_ordinal : Z; rp_revision : string; rp_ready : bool }.

Inductive rolloutKind := rolloutNone | rolloutWait | rolloutRollReplica | rolloutPromote.
Record rolloutAction := { ra_kind : rolloutKind; ra_pod : string }.

#[global] Instance rolloutPod_eq_dec : EqDecision rolloutPod.
Proof. solve_decision. Defined.
#[global] Instance rolloutKind_eq_dec : EqDecision rolloutKind.
Proof. solve_decision. Defined.

(** [sort.Slice(stale, by ordinal)]. *)
Definition ordinal_le (a b : rolloutPod) : Prop := (rp_ordinal a ≤ rp_ordinal b)%Z.
#[global] Instance ordinal_le_dec : RelDecision ordinal_le.
Proof. intros a b. unfold ordinal_le. apply _. Defined.
#[global] Instance ordinal_le_total : Total ordinal_le.
Proof. intros a b. unfold ordinal_le. lia. Qed.
#[global] Instance ordinal_le_trans : Transitive ordinal_le.
Proof. intros a b c. unfold ordinal_le. lia. Qed.

Definition isStale (rev : string) (p : rolloutPod) : bool := rp_revision p != rev.

Definition nextRolloutStep (pods : list rolloutPod) (desiredRevision primary : string) : rolloutAction :=
  if ((length pods == 0) || (desiredRevision == ""))%bool then {| ra_kind := rolloutNone; ra_pod := "" |}
  else
    let stale := filter (isStale desiredRevision) pods in
    let allReady := forallb rp_ready pods in
    if length stale == 0 then {| ra_kind := rolloutNone; ra_pod := "" |}
    else if negb allReady then {| ra_kind := rolloutWait; ra_pod := "" |}
    else
      match filter (λ p, rp_name p != primary) (merge_sort ordinal_le stale) with
      | p :: _ => {| ra_kind := rolloutRollReplica; ra_pod := rp_name p |}
      | [] => {| ra_kind := rolloutPromote; ra_pod := primary |}
      end.

(** ** Reading the pods *)
Definition podIsReady (p : Pod) : bool :=
  match filter (λ c, c.1 == "Ready") (pod_Conditions p) with
  | c :: _ => c.2 == "True"
  | [] => false
  end.

(** The rollout view of the pods of the StatefulSet [sts]. *)
Definition rolloutPodOf (sts : string) (p : Pod) : option rolloutPod :=
  if pod_Deleting p then None
  else match ordinalFromPodName (pod_Name p) sts with
       | None => None
       | Some ord => Some {| rp_name := pod_Name p; rp_ordinal := ord;
                             rp_revision := map_get (pod_Labels p) ControllerRevisionHashLabelKey;
                             rp_ready := podIsReady p |}
       end.
Definition listRolloutPods (vc : ValkeyCluster) : prog (KubeErr + list rolloutPod) :=
  r ← perform (OListPods (vcNamespace vc) {[instanceLabel := vcName vc]});
  mret (match (r : KubeErr + list Pod) with
        | inl e => inl e
        | inr items => inr (omap (rolloutPodOf (statefulSetName vc)) items)
        end).

Definition deletePodByName (vc : ValkeyCluster) (name : string) : prog (option KubeErr) :=
  e ← perform (ODeletePod (vcNamespace vc) name);
  mret (match e with
        | Some e => if IsNotFound e then None else Some e
        | None => None
        end).

(** ** Replication topology *)
Definition freshReady (pods : list rolloutPod) (desiredRevision primary : string) (ord : Z) : bool :=
  existsb (λ p, ((rp_revision p == desiredRevision) && rp_ready p && (rp_name p != primary) &&
                 (rp_ordinal p == ord))%bool) pods.
Definition bestRolloutTarget (survey : list podRole) (pods : list rolloutPod)
    (desiredRevision primary : string) : option podRole :=
  foldl (λ best s, if (negb (pr_reachable s) || (pr_role s != roleSlave) ||
                       negb (freshReady pods desiredRevision primary (pr_ordinal s)))%bool then best
                   else keep_best higherOffset best s) None survey.

(** Returns the primary, whether a rollout is in progress, and the error. *)
Definition driveReplicationRollout (vc : ValkeyCluster) (password : string) (survey : list podRole) :
    prog (string * bool * option KubeErr) :=
  let primary := Status_Primary (Status vc) in
  r ← perform (OGetSts (vcNamespace vc) (statefulSetName vc));
  match r with
  | inl err => mret (primary, false, Some err)
  | inr sts =>
      let desiredRevision := sts_UpdateRevision sts in
      if desiredRevision == "" then mret (primary, false, None)
      else
        l ← listRolloutPods vc;
        match l with
        | inl err => mret (primary, false, Some err)
        | inr pods =>
            if (wrap32 (Z.of_nat (length pods)) <? totalReplicas vc)%Z then mret (primary, true, None)
            else
              let action := nextRolloutStep pods desiredRevision primary in
              match ra_kind action with
              | rolloutNone => mret (primary, false, None)
              | rolloutWait => mret (primary, true, None)
              | rolloutRollReplica =>
                  e ← deletePodByName vc (ra_pod action);
                  mret (primary, true, e)
              | rolloutPromote =>
                  match bestRolloutTarget survey pods desiredRevision primary with
                  | None => mret (primary, true, None)
                  | Some target =>
                      newPrimary ← promoteReplica vc password survey target (dataPort vc);
                      e ← deletePodByName vc (ra_pod action);
                      mret (newPrimary, true, e)
                  end
              end
        end
  end.

(** ** Cluster topology: the decision *)
Record clusterShard := { cs_primary : string; cs_replicas : list string }.
Inductive clusterRolloutKind :=
  | clusterRolloutNone | clusterRolloutWait | clusterRolloutRollReplica
  | clusterRolloutFailover | clusterRolloutRollMaster.
Record clusterRolloutAction := { cra_kind : clusterRolloutKind; cra_pod : string }.

(** [rev[name]] and [ready[name]]: the maps built from the pods (the last pod of a name wins). *)
Definition revMap (pods : list rolloutPod) : gmap string string :=
  foldl (λ m p, <[rp_name p := rp_revision p]> m) ∅ pods.
Definition readyMap (pods : list rolloutPod) : gmap string bool :=
  foldl (λ m p, <[rp_name p := rp_ready p]> m) ∅ pods.

Definition primary_le (a b : clusterShard) : Prop := String.le (cs_primary a) (cs_primary b).
#[global] Instance primary_le_dec : RelDecision primary_le.
Proof. intros a b. unfold primary_le. apply _. Defined.
#[global] Instance primary_le_total : Total primary_le.
Proof. intros a b. unfold primary_le. apply total. apply _. Qed.
#[global] Instance primary_le_trans : Transitive primary_le.
Proof. intros a b c. unfold primary_le. apply transitivity. Qed.

(** The loop over the shards, ordered by primary: the first stale master decides. *)
Fixpoint handOverShard (rev : gmap string string) (ready : gmap string bool) (desiredRevision : string)
    (ordered : list clusterShard) : clusterRolloutAction :=
  match ordered with
  | [] => {| cra_kind := clusterRolloutNone; cra_pod := "" |}
  | s :: rest =>
      if map_get rev (cs_primary s) == desiredRevision then handOverShard rev ready desiredRevision rest
      else
        match filter (λ rp, ((map_get rev rp == desiredRevision) && default false (ready !! rp))%bool) (cs_replicas s) with
        | rp :: _ => {| cra_kind := clusterRolloutFailover; cra_pod := rp |}
        | [] =>
            if length (cs_replicas s) == 0
            then {| cra_kind := clusterRolloutRollMaster; cra_pod := cs_primary s |}
            else {| cra_kind := clusterRolloutWait; cra_pod := "" |}
        end
  end.

Definition nextClusterRolloutStep (pods : list rolloutPod) (shards : list clusterShard)
    (desiredRevision : string) : clusterRolloutAction :=
  if ((length pods == 0) || (desiredRevision == "") || (length shards == 0))%bool
  then {| cra_kind := clusterRolloutNone; cra_pod := "" |}
  else
    let rev := revMap pods in
    let ready := readyMap pods in
    if negb (existsb (isStale desiredRevision) pods) then {| cra_kind := clusterRolloutNone; cra_pod := "" |}
    else if negb (forallb rp_ready pods) then {| cra_kind := clusterRolloutWait; cra_pod := "" |}
    else
      let staleReplicas := filter (λ rp, map_get rev rp != desiredRevision) (s ← shards; cs_replicas s) in
      match sort_strings staleReplicas with
      | rp :: _ => {| cra_kind := clusterRolloutRollReplica; cra_pod := rp |}
      | [] => handOverShard rev ready desiredRevision (merge_sort primary_le shards)
      end.

Definition rolloutRoleLabel (k : clusterRolloutKind) : string :=
  match k with clusterRolloutRollMaster => roleMaster | _ => "replica" end.

(** [clusterFailoverOnPod]: the error of the dial, or of CLUSTER FAILOVER. *)
Definition clusterFailoverOnPod (vc : ValkeyCluster) (password pod : string) : prog (option error) :=
  c ← dialPod vc (podFQDN vc pod) (dataPort vc) password (3 * second);
  match c with
  | None => mret (Some ("dial " +:+ pod +:+ " for CLUSTER FAILOVER failed"))
  | Some c => clusterFailover c
  end.

(** ** The Replication decision *)
Lemma isStale_spec rev p : isStale rev p = true ↔ rp_revision p ≠ rev.
Proof. unfold isStale. by rewrite negb_true_iff, bool_decide_eq_false. Qed.

Definition rolloutDecision (pods : list rolloutPod) (rev primary : string) (a : rolloutAction) : Prop :=
  match ra_kind a with
  | rolloutNone => rev = "" ∨ ∀ p, p ∈ pods → rp_revision p = rev
  | rolloutWait => rev ≠ "" ∧ (∃ p, p ∈ pods ∧ rp_revision p ≠ rev) ∧ ∃ p, p ∈ pods ∧ rp_ready p = false
  | rolloutRollReplica =>
      rev ≠ "" ∧ (∀ p, p ∈ pods → rp_ready p = true) ∧
      ∃ p, p ∈ pods ∧ ra_pod a = rp_name p ∧ rp_revision p ≠ rev ∧ rp_name p ≠ primary ∧
           ∀ q, q ∈ pods → rp_revision q ≠ rev → rp_name q ≠ primary → (rp_ordinal p ≤ rp_ordinal q)%Z
  | rolloutPromote =>
      rev ≠ "" ∧ (∀ p, p ∈ pods → rp_ready p = true) ∧ ra_pod a = primary ∧
      (∃ p, p ∈ pods ∧ rp_revision p ≠ rev) ∧ (∀ p, p ∈ pods → rp_revision p ≠ rev → rp_name p = primary)
  end.

Lemma no_stale rev pods :
  filter (isStale rev) pods = [] ↔ ∀ p, p ∈ pods → rp_revision p = rev.
Proof.
  split.
  - intros E p Hp. destruct (decide (rp_revision p = rev)) as [|Hs]; [done|].
    assert (p ∈ filter (isStale rev) pods) as Hin by (rewrite elem_of_filter_bool, isStale_spec; auto).
    rewrite E in Hin. by apply elem_of_nil in Hin.
  - intros H. apply elem_of_nil_inv. intros p. rewrite elem_of_filter_bool, isStale_spec.
    intros [Hs Hp]. by apply Hs, H.
Qed.


(** The head of the sorted stale pods that are not the primary is the lowest of them. *)
Lemma filter_sorted_head (P : rolloutPod → bool) l p rest :
  filter P (merge_sort ordinal_le l) = p :: rest →
  p ∈ l ∧ P p = true ∧ ∀ q, q ∈ l → P q = true → ordinal_le p q.
Proof.
  intros E. assert (p ∈ filter P (merge_sort ordinal_le l)) as [HP Hp]%elem_of_filter_bool
    by (rewrite E; constructor).
  rewrite (merge_sort_Permutation ordinal_le l) in Hp. split_and!; [done..|].
  intros q Hq HPq. assert (q ∈ p :: rest) as Hin.
  { rewrite <-E, elem_of_filter_bool. split; [done|]. by rewrite (merge_sort_Permutation ordinal_le l). }
  assert (StronglySorted ordinal_le (p :: rest)) as Hs.
  { rewrite <-E. apply StronglySorted_filter_bool, StronglySorted_merge_sort; apply _. }
  inversion Hs as [|?? _ Hall]; subst. rewrite Forall_forall in Hall.
  apply elem_of_cons in Hin as [->|Hin]; [unfold ordinal_le; lia|by apply Hall].
Qed.

Lemma nextRolloutStep_decides pods rev primary :
  rolloutDecision pods rev primary (nextRolloutStep pods rev primary).
Proof.
  unfold nextRolloutStep, rolloutDecision.
  destruct pods as [|p0 pods0]; [right; intros p Hp; inversion Hp|]. set (pods := p0 :: pods0).
  rewrite bool_decide_false by done. simpl (false || _)%bool.
  case_bool_decide as Hrev; [by left|].
  destruct (filter (isStale rev) pods) as [|s ss] eqn:Es; [right; by apply no_stale|].
  rewrite bool_decide_false by done. rewrite <-Es.
  assert (∃ p, p ∈ pods ∧ rp_revision p ≠ rev) as Hst.
  { assert (s ∈ filter (isStale rev) pods) as [H1 H2]%elem_of_filter_bool by (rewrite Es; constructor).
    exists s. by rewrite <-isStale_spec. }
  destruct (forallb rp_ready pods) eqn:Hr; simpl.
  - rewrite forallb_elem in Hr.
    destruct (filter (λ p, rp_name p != primary) _) as [|p rest] eqn:Ef; simpl; split_and!; try done.
    + intros p Hp Hs. destruct (decide (rp_name p = primary)) as [|Hn]; [done|].
      assert (p ∈ filter (λ p, rp_name p != primary) (merge_sort ordinal_le (filter (isStale rev) pods))) as Hin.
      { rewrite elem_of_filter_bool, negb_true_iff, bool_decide_eq_false. split; [done|].
        rewrite (merge_sort_Permutation ordinal_le), elem_of_filter_bool, isStale_spec. auto. }
      rewrite Ef in Hin. by apply elem_of_nil in Hin.
    + apply filter_sorted_head in Ef as ([Hs Hp]%elem_of_filter_bool & Hn & Hmin).
      rewrite isStale_spec in Hs. rewrite negb_true_iff, bool_decide_eq_false in Hn.
      exists p. split_and!; [done..|]. intros q Hq Hqs Hqn. apply Hmin.
      * by rewrite elem_of_filter_bool, isStale_spec.
      * by rewrite negb_true_iff, bool_decide_eq_false.
  - by apply forallb_false_elem in Hr.
Qed.

(** The decision of [nextRolloutStep] on every branch.  [None]: nothing is stale.
    [Wait]: a stale pod exists but some pod is not Ready.  [RollReplica]: every pod is
    Ready, and the pod named is the stale non-primary pod of lowest ordinal.  [Promote]:
    every pod is Ready and the primary is the only stale pod.  The cases exclude each
    other, so each condition is also sufficient for its decision. *)
Theorem nextRolloutStep_spec pods rev primary :
  rolloutDecision pods rev primary (nextRolloutStep pods rev primary) ∧
  ∀ a, rolloutDecision pods rev primary a → ra_kind a = ra_kind (nextRolloutStep pods rev primary).
Proof.
  pose proof (nextRolloutStep_decides pods rev primary) as H. split; [done|].
  set (d := nextRolloutStep pods rev primary) in *. intros a Ha.
  unfold rolloutDecision in *. destruct (ra_kind a), (ra_kind d); try done; exfalso;
    repeat match goal with H : _ ∨ _ |- _ => destruct H end; deex; simplify_eq;
    repeat match goal with
    | Hr : ∀ p, p ∈ _ → rp_ready p = true, Hp : ?p ∈ _, Hn : rp_ready ?p = false |- _ =>
        rewrite (Hr _ Hp) in Hn; discriminate
    | Hf : ∀ p, p ∈ _ → rp_revision p = _, Hp : ?p ∈ _, Hn : rp_revision ?p ≠ _ |- _ => by apply Hn, Hf
    | Hq : ∀ p, p ∈ _ → rp_revision p ≠ _ → rp_name p = _, Hp : ?p ∈ _, Hn : rp_revision ?p ≠ _,
      Hm : rp_name ?p ≠ _ |- _ => by apply Hm, Hq
    end; auto.
Qed.

(** ** The rollout as a step relation

    The StatefulSet controller recreates a deleted pod on the new revision, not Ready yet,
    and pods become Ready at any time.  The operator acts as [nextRolloutStep] says; on
    [Promote] the new primary is a fresh, Ready pod other than the old one
    (see [bestRolloutTarget_spec]). *)
Record RolloutState := { rs_pods : list rolloutPod; rs_primary : string }.

Definition update_pod (name : string) (f : rolloutPod → rolloutPod) (pods : list rolloutPod) : list rolloutPod :=
  (λ p, if rp_name p == name then f p else p) <$> pods.
Definition recreated (rev : string) (p : rolloutPod) : rolloutPod :=
  {| rp_name := rp_name p; rp_ordinal := rp_ordinal p; rp_revision := rev; rp_ready := false |}.
Definition settled (p : rolloutPod) : rolloutPod :=
  {| rp_name := rp_name p; rp_ordinal := rp_ordinal p; rp_revision := rp_revision p; rp_ready := true |}.

Inductive rollout_step (rev : string) : relation RolloutState :=
  | step_roll st :
      ra_kind (nextRolloutStep (rs_pods st) rev (rs_primary st)) = rolloutRollReplica →
      rollout_step rev st
        {| rs_pods := update_pod (ra_pod (nextRolloutStep (rs_pods st) rev (rs_primary st))) (recreated rev) (rs_pods st);
           rs_primary := rs_primary st |}
  | step_promote st t :
      ra_kind (nextRolloutStep (rs_pods st) rev (rs_primary st)) = rolloutPromote →
      t ∈ rs_pods st → rp_revision t = rev → rp_ready t = true → rp_name t ≠ rs_primary st →
      rollout_step rev st
        {| rs_pods := update_pod (rs_primary st) (recreated rev) (rs_pods st); rs_primary := rp_name t |}
  | step_settle st p :
      p ∈ rs_pods st → rp_ready p = false →
      rollout_step rev st {| rs_pods := update_pod (rp_name p) settled (rs_pods st); rs_primary := rs_primary st |}.

(** At every moment of the rollout: the same pods, the primary is one of them and is
    Ready, and at most one pod is not Ready. *)
Definition count (P : rolloutPod → bool) (pods : list rolloutPod) : nat := length (filter P pods).
Definition unready (p : rolloutPod) : bool := negb (rp_ready p).
Record rollout_inv (names : list string) (st : RolloutState) : Prop := {
  ri_names : rp_name <$> rs_pods st = names;
  ri_nodup : NoDup names;
  ri_primary : ∃ p, p ∈ rs_pods st ∧ rp_name p = rs_primary st ∧ rp_ready p = true;
  ri_unready : count unready (rs_pods st) ≤ 1
}.

Lemma update_pod_names name f pods :
  (∀ p, rp_name (f p) = rp_name p) → rp_name <$> update_pod name f pods = rp_name <$> pods.
Proof.
  intros Hf. unfold update_pod. rewrite <-list_fmap_compose. apply list_fmap_ext.
  intros i p _. simpl. by case_bool_decide.
Qed.
Lemma update_pod_other name f pods p :
  p ∈ pods → rp_name p ≠ name → p ∈ update_pod name f pods.
Proof.
  intros Hp Hn. unfold update_pod. apply list_elem_of_fmap. exists p. by rewrite bool_decide_false.
Qed.
Lemma update_pod_absent name f pods : name ∉ rp_name <$> pods → update_pod name f pods = pods.
Proof.
  intros Hn. unfold update_pod. induction pods as [|q l IH]; [done|]; simpl.
  rewrite fmap_cons, not_elem_of_cons in Hn. destruct Hn as [Hq Hl].
  rewrite bool_decide_false by done. f_equal. by apply IH.
Qed.

(** Updating one pod changes a count by that pod's contribution. *)
Lemma count_update P f pods p :
  NoDup (rp_name <$> pods) → p ∈ pods →
  count P (update_pod (rp_name p) f pods) + Nat.b2n (P p) = count P pods + Nat.b2n (P (f p)).
Proof.
  intros Hnd Hp. induction pods as [|q l IH]; [by apply elem_of_nil in Hp|].
  rewrite fmap_cons in Hnd. apply NoDup_cons in Hnd as [Hq Hnd]. unfold count in *.
  change (update_pod (rp_name p) f (q :: l)) with
    ((if rp_name q == rp_name p then f q else q) :: update_pod (rp_name p) f l).
  rewrite !filter_cons_bool. apply elem_of_cons in Hp as [->|Hp].
  - rewrite bool_decide_true by done. rewrite update_pod_absent by done.
    destruct (P (f q)), (P q); simpl; lia.
  - rewrite bool_decide_false.
    + specialize (IH Hnd Hp). destruct (P q); simpl; lia.
    + intros E. apply Hq. rewrite E. by apply list_elem_of_fmap_2.
Qed.

Lemma all_ready_count pods : (∀ p, p ∈ pods → rp_ready p = true) → count unready pods = 0.
Proof.
  intros H. unfold count. replace (filter unready pods) with (@nil rolloutPod); [done|]. symmetry.
  apply elem_of_nil_inv. intros p [Hu Hp]%elem_of_filter_bool. unfold unready in Hu. by rewrite H in Hu.
Qed.

(** The operator's two acting steps replace one stale pod while every pod is Ready. *)
Lemma acting_counts rev pods p :
  NoDup (rp_name <$> pods) → p ∈ pods → rp_revision p ≠ rev → (∀ q, q ∈ pods → rp_ready q = true) →
  count unready (update_pod (rp_name p) (recreated rev) pods) = 1 ∧
  S (count (isStale rev) (update_pod (rp_name p) (recreated rev) pods)) = count (isStale rev) pods ∧
  count unready pods = 0.
Proof.
  intros Hnd Hp Hs Hr. pose proof (count_update unready (recreated rev) pods p Hnd Hp) as H1.
  pose proof (count_update (isStale rev) (recreated rev) pods p Hnd Hp) as H2.
  pose proof (all_ready_count pods Hr) as H3.
  assert (unready p = false) as Hup by (unfold unready; by rewrite Hr).
  assert (unready (recreated rev p) = true) as Hur by done.
  assert (isStale rev p = true) as Hst by (by apply isStale_spec).
  assert (isStale rev (recreated rev p) = false) as Hfr
    by (unfold isStale, recreated; simpl; by rewrite bool_decide_true).
  rewrite Hst, Hfr in H2. rewrite Hup, Hur in H1. simpl in *. lia.
Qed.

Definition rollout_measure (rev : string) (st : RolloutState) : nat :=
  2 * count (isStale rev) (rs_pods st) + count unready (rs_pods st).

Lemma rollout_step_inv rev names st st' :
  rollout_inv names st → rollout_step rev st st' →
  rollout_inv names st' ∧ rollout_measure rev st' < rollout_measure rev st.
Proof.
  intros [Hn Hnd (p0 & Hp0 & Hpn & Hpr) Hu] Hstep.
  assert (NoDup (rp_name <$> rs_pods st)) as Hnd' by congruence.
  pose proof (nextRolloutStep_decides (rs_pods st) rev (rs_primary st)) as Hd. unfold rolloutDecision in Hd.
  destruct Hstep as [st Hk|st t Hk Ht Htr Htready Htn|st p Hp Hpready]; unfold rollout_measure; simpl.
  - rewrite Hk in Hd. destruct Hd as (_ & Hr & p & Hp & -> & Hs & Hpp & _).
    destruct (acting_counts rev _ p Hnd' Hp Hs Hr) as (H1 & H2 & H3). split; [|lia].
    constructor; simpl; [by rewrite update_pod_names|done| |lia].
    exists p0. split_and!; [|done|done]. apply update_pod_other; [done|congruence].
  - rewrite Hk in Hd. destruct Hd as (_ & Hr & _ & (p & Hp & Hs) & Hall).
    rewrite <-(Hall p Hp Hs).
    destruct (acting_counts rev _ p Hnd' Hp Hs Hr) as (H1 & H2 & H3). split; [|lia].
    constructor; simpl; [by rewrite update_pod_names|done| |lia].
    exists t. split_and!; [|done|done]. apply update_pod_other; [done|]. rewrite (Hall p Hp Hs). done.
  - pose proof (count_update unready settled (rs_pods st) p Hnd' Hp) as H1.
    pose proof (count_update (isStale rev) settled (rs_pods st) p Hnd' Hp) as H2.
    assert (isStale rev (settled p) = isStale rev p) as Hss by done. rewrite Hss in H2.
    assert (unready p = true) as Hup by (unfold unready; by rewrite Hpready).
    assert (unready (settled p) = false) as Hus by done.
    rewrite Hup, Hus in H1. simpl in H1. split; [|lia].
    constructor; simpl; [by rewrite update_pod_names|done| |lia].
    exists p0. split_and!; [|done|done]. apply update_pod_other; [done|].
    intros E. assert (p0 = p) as ->; [|congruence]. by eapply (NoDup_fmap_eq rp_name).
Qed.


(** A state with something left to do can step. *)
Lemma rollout_progress rev names st :
  rev ≠ "" → 2 ≤ length (rs_pods st) → rollout_inv names st →
  (∃ p, p ∈ rs_pods st ∧ (rp_revision p ≠ rev ∨ rp_ready p = false)) → ∃ st', rollout_step rev st st'.
Proof.
  intros Hrev Hlen [Hn Hnd (p0 & Hp0 & Hpn & Hpr) Hu] (p & Hp & Hcase).
  destruct (forallb rp_ready (rs_pods st)) eqn:Hr.
  2: { apply forallb_false_elem in Hr as (q & Hq & Hqr). eexists. by eapply step_settle. }
  rewrite forallb_elem in Hr. destruct Hcase as [Hs|Hs]; [|by rewrite Hr in Hs].
  pose proof (nextRolloutStep_decides (rs_pods st) rev (rs_primary st)) as Hd. unfold rolloutDecision in Hd.
  destruct (ra_kind (nextRolloutStep (rs_pods st) rev (rs_primary st))) eqn:Hk.
  - destruct Hd as [?|Hd]; [done|]. by apply Hd in Hp.
  - destruct Hd as (_ & _ & q & Hq & Hqr). by rewrite Hr in Hqr.
  - eexists. by eapply step_roll.
  - destruct Hd as (_ & _ & _ & _ & Hall).
    assert (∃ t, t ∈ rs_pods st ∧ rp_name t ≠ rs_primary st) as (t & Ht & Htn).
    { destruct (rs_pods st) as [|a [|b l]] eqn:E; simpl in Hlen; [lia|lia|].
      rewrite <-Hn in Hnd. apply NoDup_cons in Hnd as [Hab _].
      destruct (decide (rp_name a = rs_primary st)) as [Ea|]; [|exists a; split; [constructor|done]].
      exists b. split; [by repeat constructor|]. intros Eb. apply Hab. simpl. rewrite Ea, <-Eb. constructor. }
    eexists. eapply step_promote; [done|exact Ht| |by apply Hr|done].
    destruct (decide (rp_revision t = rev)) as [|Hts]; [done|]. by apply Hall in Ht.
Qed.


(** ** Acting on the decision *)
Lemma bestRolloutTarget_filter survey pods rev primary :
  bestRolloutTarget survey pods rev primary =
  foldl (keep_best higherOffset) None
    (filter (λ s, (isReplica s && freshReady pods rev primary (pr_ordinal s))%bool) survey).
Proof.
  unfold bestRolloutTarget. rewrite <-foldl_keep_best_filter. generalize (@None podRole).
  induction survey as [|s l IH]; intros acc; [done|]; simpl. unfold isReplica at 2.
  by destruct (pr_reachable s), (bool_decide (pr_role s = roleSlave)),
    (freshReady pods rev primary (pr_ordinal s)); simpl; rewrite IH.
Qed.

(** The promotion target is a reachable replica whose pod is fresh, Ready and not the
    primary, with the highest offset among those. *)
Lemma bestRolloutTarget_spec survey pods rev primary t :
  bestRolloutTarget survey pods rev primary = Some t →
  t ∈ survey ∧ isReplica t = true ∧
  (∃ p, p ∈ pods ∧ rp_ordinal p = pr_ordinal t ∧ rp_revision p = rev ∧ rp_ready p = true ∧ rp_name p ≠ primary) ∧
  (∀ s, s ∈ survey → isReplica s = true → freshReady pods rev primary (pr_ordinal s) = true →
        (pr_offset s ≤ pr_offset t)%Z).
Proof.
  rewrite bestRolloutTarget_filter. intros Ht.
  pose proof (keep_best_elem _ _ _ Ht) as [[Hr Hf]%andb_true_iff Hin]%elem_of_filter_bool.
  split_and!; [done..| |].
  - unfold freshReady in Hf. apply existsb_elem in Hf as (p & Hp & H). exists p. bool_hyps. auto.
  - intros s Hs Hsr Hsf. assert (higherOffset s t = false) as H.
    { eapply keep_best_max; [..|exact Ht|]; [unfold higherOffset; intros; bool_hyps; lia..|].
      apply elem_of_filter_bool. by rewrite Hsr, Hsf. }
    unfold higherOffset in H. bool_hyps. lia.
Qed.

Definition noDelete (e : Event) : Prop := match ev_op e with ODeletePod _ _ => False | _ => True end.
#[global] Instance noDelete_reads : IgnoresReads noDelete.
Proof. by intros []. Qed.

Lemma promoteReplica_noDelete vc pw survey b port tr r :
  exec (promoteReplica vc pw survey b port) tr r → Forall noDelete tr.
Proof. intros Hx. by eapply (promoteReplica_spec noDelete). Qed.

(** The delete a rollout pass may end with, and why: the pods listed in the pass are all
    there and all Ready, and the deleted one is stale; it is not the primary, or it is the
    primary, every other pod is fresh, and the promotion of a target was attempted first. *)
Definition justifiedDelete (vc : ValkeyCluster) (survey : list podRole) (rev : string)
    (pods : list rolloutPod) (name : string) : Prop :=
  rev ≠ "" ∧ (totalReplicas vc ≤ wrap32 (Z.of_nat (length pods)))%Z ∧
  (∀ p, p ∈ pods → rp_ready p = true) ∧
  (∃ p, p ∈ pods ∧ rp_revision p ≠ rev ∧ (name ≠ Status_Primary (Status vc) → rp_name p = name)) ∧
  (name = Status_Primary (Status vc) →
   (∀ p, p ∈ pods → rp_revision p ≠ rev → rp_name p = name) ∧
   ∃ t, bestRolloutTarget survey pods rev name = Some t).

Lemma deletePodByName_exec vc name tr r :
  exec (deletePodByName vc name) tr r → ∃ e, tr = [Ev (ODeletePod (vcNamespace vc) name) e].
Proof. unfold deletePodByName. intros. exec_inv. eauto. Qed.

(** One pass of [driveReplicationRollout] deletes at most one pod, as its last
    operation, and only a pod that the pass itself saw as stale among a complete, fully
    Ready set; the primary only when it is the last stale pod and a fresh replica was
    found to promote. *)
Theorem driveReplicationRollout_deletes vc pw survey tr r :
  exec (driveReplicationRollout vc pw survey) tr r →
  Forall noDelete tr ∨
  ∃ tr0 sts items name e,
    tr = tr0 ++ [Ev (ODeletePod (vcNamespace vc) name) e] ∧ Forall noDelete tr0 ∧
    Ev (OGetSts (vcNamespace vc) (statefulSetName vc)) (inr sts) ∈ tr0 ∧
    Ev (OListPods (vcNamespace vc) {[instanceLabel := vcName vc]}) (inr items) ∈ tr0 ∧
    justifiedDelete vc survey (sts_UpdateRevision sts) (omap (rolloutPodOf (statefulSetName vc)) items) name.
Proof.
  unfold driveReplicationRollout. intros Hx.
  apply exec_bind in Hx as (tr1 & tr2 & [err|sts] & -> & ->%exec_perform & Hx);
    [left; exec_inv; by repeat constructor|].
  case_bool_decide as Hrev; [left; exec_inv; by repeat constructor|].
  apply exec_bind in Hx as (tr3 & tr4 & l & -> & Hlist & Hx).
  unfold listRolloutPods in Hlist.
  apply exec_bind in Hlist as (tr5 & tr6 & ri & -> & ->%exec_perform & [-> <-]%exec_ret).
  destruct ri as [err|items]; [left; exec_inv; by repeat constructor|].
  set (rev := sts_UpdateRevision sts) in *. set (pods := omap (rolloutPodOf (statefulSetName vc)) items) in *.
  destruct (wrap32 (Z.of_nat (length pods)) <? totalReplicas vc)%Z eqn:Hlen; [left; exec_inv; by repeat constructor|].
  apply Z.ltb_ge in Hlen.
  pose proof (nextRolloutStep_decides pods rev (Status_Primary (Status vc))) as Hd. unfold rolloutDecision in Hd.
  destruct (ra_kind (nextRolloutStep pods rev (Status_Primary (Status vc)))) eqn:Hk;
    [left; exec_inv; by repeat constructor..| |].
  - right. destruct Hd as (_ & Hr & p & Hp & Ep & Hs & Hpn & _).
    apply exec_bind in Hx as (tr7 & tr8 & e & -> & [e' ->]%deletePodByName_exec & [-> _]%exec_ret).
    eexists [_; _], sts, items, _, e'. split_and!; [done|by repeat constructor|by repeat constructor..|].
    split_and!; [done..| |].
    + exists p. split_and!; [done..|]. congruence.
    + intros E. congruence.
  - destruct Hd as (_ & Hr & Ep & (p & Hp & Hs) & Hall).
    destruct (bestRolloutTarget survey pods rev _) as [t|] eqn:Ht; [|left; exec_inv; by repeat constructor].
    right. apply exec_bind in Hx as (tr7 & tr8 & np & -> & Hpr%promoteReplica_noDelete & Hx).
    apply exec_bind in Hx as (tr9 & tr10 & e & -> & [e' ->]%deletePodByName_exec & [-> _]%exec_ret).
    eexists ([_; _] ++ tr7), sts, items, _, e'. split_and!.
    + rewrite <-app_assoc. simpl. done.
    + apply Forall_app. split; [by repeat constructor|done].
    + by repeat constructor.
    + by repeat constructor.
    + rewrite Ep. split_and!; [done..| |].
      * exists p. split_and!; done.
      * intros _. split; [done|]. by exists t.
Qed.

(** A constant environment: StatefulSet [sts], pods [items], no pod answers PING. *)
Definition rollout_handle (sts : StatefulSet) (items : list Pod) (op : Op) : () → ans op * () :=
  match op return () → ans op * () with
  | OPing _ => λ w, (false, w)
  | OGetSts _ _ => λ w, (inr sts, w)
  | OListPods _ _ => λ w, (inr items, w)
  | ODeletePod _ _ => λ w, (None, w)
  | _ => λ w, (inhabitant, w)
  end.
Definition demoPod (i : Z) (rev : string) : Pod := {|
  pod_Name := podName demo i; pod_Namespace := "ns"; pod_Deleting := false; pod_Phase := "Running";
  pod_Labels := {[ControllerRevisionHashLabelKey := rev]}; pod_Conditions := [("Ready", "True")];
  pod_NodeName := ""; pod_IP := "" |}.
Definition demoSts : StatefulSet := stsOfStatus "demo" "ns" 2 (Some 3%Z) 2 3 2 "old" "new".
Definition demoPods : list Pod := [demoPod 0 "old"; demoPod 1 "new"; demoPod 2 "new"].
Definition demoLive : list podRole :=
  [demoRole 0 roleMaster "" 90 5 true; demoRole 1 roleSlave (demoHost 0) 70 5 true;
   demoRole 2 roleSlave (demoHost 0) 90 5 true].
Definition rolloutTrace (survey : list podRole) : list Event :=
  trace (rollout_handle demoSts demoPods) (driveReplicationRollout demo "pw" survey) tt.

Lemma driveReplicationRollout_deletes_witness :
  Forall noDelete (rolloutTrace demoLive) ∨
  ∃ tr0 sts items name e,
    rolloutTrace demoLive = tr0 ++ [Ev (ODeletePod "ns" name) e] ∧ Forall noDelete tr0 ∧
    Ev (OGetSts "ns" "demo") (inr sts) ∈ tr0 ∧
    Ev (OListPods "ns" {[instanceLabel := "demo"]}) (inr items) ∈ tr0 ∧
    justifiedDelete demo demoLive (sts_UpdateRevision sts) (omap (rolloutPodOf (statefulSetName demo)) items) name.
Proof.
  apply (driveReplicationRollout_deletes demo "pw" demoLive _
           (run (rollout_handle demoSts demoPods) (driveReplicationRollout demo "pw" demoLive) tt).1).
  apply run_exec.
Defined.

(** The promotion's outcome is not checked: when the replica to promote cannot be reached,
    the pass sends no REPLICAOF at all and still deletes the primary's pod. *)
Example rollout_deletes_unpromoted_primary :
  Forall (λ e, match ev_op e with ODo _ _ => False | _ => True end) (rolloutTrace demoLive) ∧
  last (ev_op <$> rolloutTrace demoLive) = Some (ODeletePod "ns" "demo-0").
Proof. split; [vm_compute; by repeat constructor|reflexivity]. Qed.

Definition demoState : RolloutState := {|
  rs_pods := [ {| rp_name := "demo-0"; rp_ordinal := 0; rp_revision := "old"; rp_ready := true |};
               {| rp_name := "demo-1"; rp_ordinal := 1; rp_revision := "old"; rp_ready := true |} ];
  rs_primary := "demo-0" |}.
Definition demoState1 : RolloutState := {|
  rs_pods := [ {| rp_name := "demo-0"; rp_ordinal := 0; rp_revision := "old"; rp_ready := true |};
               {| rp_name := "demo-1"; rp_ordinal := 1; rp_revision := "new"; rp_ready := false |} ];
  rs_primary := "demo-0" |}.

Lemma demoState_step : rollout_step "new" demoState demoState1.
Proof. apply (step_roll "new" demoState). reflexivity. Qed.



(** ** The Cluster decision *)
Lemma foldl_insert_lookup {A} (f : rolloutPod → A) pods (m : gmap string A) n v :
  foldl (λ m p, <[rp_name p := f p]> m) m pods !! n = Some v →
  m !! n = Some v ∨ ∃ p, p ∈ pods ∧ rp_name p = n ∧ f p = v.
Proof.
  revert m; induction pods as [|q l IH]; intros m; simpl; [auto|].
  intros [H|(p & ? & ? & ?)]%IH; [|right; exists p; split_and!; [by constructor|done|done]].
  apply lookup_insert_Some in H as [[<- <-]|[_ H]]; [|auto]. right. exists q. split_and!; [constructor|done|done].
Qed.
Lemma foldl_insert_is_Some {A} (f : rolloutPod → A) pods (m : gmap string A) n :
  (is_Some (m !! n) ∨ n ∈ rp_name <$> pods) → is_Some (foldl (λ m p, <[rp_name p := f p]> m) m pods !! n).
Proof.
  revert m; induction pods as [|q l IH]; intros m; simpl.
  - intros [?|H]; [done|]. by apply elem_of_nil in H.
  - intros H. apply IH. rewrite elem_of_cons in H.
    destruct (decide (n = rp_name q)) as [->|Hn]; [left; rewrite lookup_insert_eq; eauto|].
    rewrite lookup_insert_ne by done. tauto.
Qed.

(** A pod known at the desired revision is one of the pods, hence Ready when they all are. *)
Lemma fresh_ready pods rev n :
  rev ≠ "" → (∀ p, p ∈ pods → rp_ready p = true) → map_get (revMap pods) n = rev →
  default false (readyMap pods !! n) = true.
Proof.
  intros Hrev Hr Hm. unfold map_get in Hm.
  destruct (revMap pods !! n) as [v|] eqn:E; [|by rewrite <-Hm in Hrev]. unfold revMap in E.
  apply foldl_insert_lookup in E as [E|(p & Hp & <- & _)]; [by rewrite lookup_empty in E|].
  destruct (foldl_insert_is_Some rp_ready pods ∅ (rp_name p)) as [b Hb].
  { right. by apply list_elem_of_fmap_2. }
  unfold readyMap. rewrite Hb. simpl.
  apply foldl_insert_lookup in Hb as [Hb|(q & Hq & _ & <-)]; [by rewrite lookup_empty in Hb|]. by apply Hr.
Qed.

Definition clusterDecision (pods : list rolloutPod) (shards : list clusterShard) (rev : string)
    (a : clusterRolloutAction) : Prop :=
  let stale n := map_get (revMap pods) n ≠ rev in
  let allReady := ∀ p, p ∈ pods → rp_ready p = true in
  let replicasFresh := ∀ s n, s ∈ shards → n ∈ cs_replicas s → ¬ stale n in
  match cra_kind a with
  | clusterRolloutNone =>
      rev = "" ∨ shards = [] ∨ (∀ p, p ∈ pods → rp_revision p = rev) ∨
      (replicasFresh ∧ ∀ s, s ∈ shards → ¬ stale (cs_primary s))
  | clusterRolloutWait => (∃ p, p ∈ pods ∧ rp_revision p ≠ rev) ∧ ∃ p, p ∈ pods ∧ rp_ready p = false
  | clusterRolloutRollReplica =>
      allReady ∧ stale (cra_pod a) ∧ (∃ s, s ∈ shards ∧ cra_pod a ∈ cs_replicas s) ∧
      ∀ s n, s ∈ shards → n ∈ cs_replicas s → stale n → String.le (cra_pod a) n
  | clusterRolloutFailover =>
      allReady ∧ replicasFresh ∧ ∃ s, s ∈ shards ∧ stale (cs_primary s) ∧ cra_pod a ∈ cs_replicas s
  | clusterRolloutRollMaster =>
      allReady ∧ replicasFresh ∧ ∃ s, s ∈ shards ∧ stale (cs_primary s) ∧
        cs_replicas s = [] ∧ cra_pod a = cs_primary s
  end.

Lemma handOverShard_spec pods rev shards :
  rev ≠ "" → (∀ p, p ∈ pods → rp_ready p = true) →
  (∀ s n, s ∈ shards → n ∈ cs_replicas s → map_get (revMap pods) n = rev) →
  let a := handOverShard (revMap pods) (readyMap pods) rev shards in
  match cra_kind a with
  | clusterRolloutNone => ∀ s, s ∈ shards → map_get (revMap pods) (cs_primary s) = rev
  | clusterRolloutFailover =>
      ∃ s, s ∈ shards ∧ map_get (revMap pods) (cs_primary s) ≠ rev ∧ cra_pod a ∈ cs_replicas s
  | clusterRolloutRollMaster =>
      ∃ s, s ∈ shards ∧ map_get (revMap pods) (cs_primary s) ≠ rev ∧ cs_replicas s = [] ∧ cra_pod a = cs_primary s
  | _ => False
  end.
Proof.
  intros Hrev Hr. induction shards as [|s l IH]; intros Hf; simpl.
  { intros s Hs. by apply elem_of_nil in Hs. }
  case_bool_decide as Hp.
  - assert (∀ s n, s ∈ l → n ∈ cs_replicas s → map_get (revMap pods) n = rev) as Hf'
      by (intros ????; eapply Hf; [by constructor|done]).
    specialize (IH Hf'). simpl in IH. destruct (cra_kind _); try done.
    + intros s' [->|?]%elem_of_cons; [done|by apply IH].
    + destruct IH as (s' & ? & ?). exists s'. split; [by constructor|done].
    + destruct IH as (s' & ? & ?). exists s'. split; [by constructor|done].
  - destruct (filter _ (cs_replicas s)) as [|rp rest] eqn:E; simpl.
    + destruct (cs_replicas s) as [|n ns] eqn:En; simpl; [exists s; split_and!; [constructor|done..]|].
      assert (map_get (revMap pods) n = rev) as Hn
        by (eapply (Hf s); [constructor|rewrite En; constructor]).
      rewrite filter_cons_bool in E. rewrite Hn, bool_decide_true in E by done. simpl in E.
      by rewrite (fresh_ready pods rev n) in E.
    + exists s. split_and!; [constructor|done|].
      assert (rp ∈ rp :: rest) as Hin by constructor. rewrite <-E in Hin.
      by apply elem_of_filter_bool in Hin as [_ ?].
Qed.

(** The Cluster rollout decides safely.  A replica is rolled only when every pod is Ready;
    a master is touched only when every replica of every shard is fresh: by a CLUSTER
    FAILOVER on a replica of the same shard, or directly only when its shard has no
    replica at all; and [Wait] means that some pod is not Ready. *)
Theorem nextClusterRolloutStep_spec pods shards rev :
  clusterDecision pods shards rev (nextClusterRolloutStep pods shards rev).
Proof.
  unfold nextClusterRolloutStep.
  destruct (decide (length pods = 0)) as [Hl|Hl].
  { rewrite bool_decide_true by done. unfold clusterDecision; simpl. right; right; left.
    apply nil_length_inv in Hl as ->. intros p Hp. by apply elem_of_nil in Hp. }
  rewrite (bool_decide_false (length pods = 0)) by done. simpl (false || _)%bool.
  case_bool_decide as Hrev; [unfold clusterDecision; simpl; by left|]. simpl (false || _)%bool.
  case_bool_decide as Hsh; [unfold clusterDecision; simpl; right; left; by destruct shards|].
  destruct (existsb (isStale rev) pods) eqn:Hex; simpl negb; cbv iota.
  2: { unfold clusterDecision; simpl. right; right; left. intros p Hp. destruct (decide (rp_revision p = rev)) as [|Hs]; [done|].
       rewrite <-isStale_spec in Hs. assert (existsb (isStale rev) pods = true); [|congruence].
       apply existsb_elem. eauto. }
  apply existsb_elem in Hex as (p & Hp & Hps%isStale_spec).
  destruct (forallb rp_ready pods) eqn:Hr; simpl negb; cbv iota.
  2: { unfold clusterDecision; simpl. apply forallb_false_elem in Hr. split; eauto. }
  rewrite forallb_elem in Hr.
  destruct (sort_strings _) as [|rp rest] eqn:Es.
  - assert (∀ s n, s ∈ shards → n ∈ cs_replicas s → map_get (revMap pods) n = rev) as Hf.
    { intros s n Hs Hn. destruct (decide (map_get (revMap pods) n = rev)) as [|Hst]; [done|].
      assert (n ∈ @nil string) as Hin; [|by apply elem_of_nil in Hin].
      rewrite <-Es, sort_strings_elem, elem_of_filter_bool, negb_true_iff, bool_decide_eq_false.
      split; [done|]. apply list_elem_of_bind. eauto. }
    assert (∀ s, s ∈ merge_sort primary_le shards ↔ s ∈ shards) as HP
      by (intros s; by rewrite (merge_sort_Permutation primary_le shards)).
    pose proof (handOverShard_spec pods rev (merge_sort primary_le shards) Hrev Hr) as Ha.
    simpl in Ha. assert (∀ s n, s ∈ merge_sort primary_le shards → n ∈ cs_replicas s → map_get (revMap pods) n = rev)
      as Hf' by (intros s n Hs%HP; by apply Hf).
    specialize (Ha Hf'). unfold clusterDecision. destruct (cra_kind _); try done.
    + right; right; right. split; [intros s n ?? Hn; by apply Hn, (Hf s)|].
      intros s Hs%HP Hn. by apply Hn, Ha.
    + destruct Ha as (s & ?%HP & ?). split_and!; [done|intros ? n ?? Hn; by eapply Hn, Hf|by exists s].
    + destruct Ha as (s & ?%HP & ?). split_and!; [done|intros ? n ?? Hn; by eapply Hn, Hf|by exists s].
  - assert (rp ∈ rp :: rest) as Hin by constructor.
    rewrite <-Es, sort_strings_elem, elem_of_filter_bool, negb_true_iff, bool_decide_eq_false in Hin.
    destruct Hin as [Hst (s & Hrp & Hs)%list_elem_of_bind]. unfold clusterDecision; simpl. split_and!; [done|done|by exists s|].
    intros s' n Hs' Hn Hns. eapply sort_strings_head; [exact Es|].
    rewrite elem_of_filter_bool, negb_true_iff, bool_decide_eq_false. split; [done|].
    apply list_elem_of_bind. eauto.
Qed.
