(* ===== verification/ClusterNodes.v ===== *)
(** * ClusterNodes: the Cluster topology as the operator sees it (cluster.go)

    [parseClusterNodes] reads CLUSTER NODES, [surveyCluster] turns it into one record per
    shard and [fillReplicaLag] adds the replication lag; [driveClusterRollout] (rollout.go)
    acts on that view.  The reference text of CLUSTER NODES is [printNodes], from the
    format [parseClusterNodes] documents. *)

From S2P Require Import Prelude GoStd Kube Api Effects Naming Failover Rollout.

Record clusterNode := {
  cn_id : string;
  cn_podName : string;
  cn_flags : list string;
  cn_masterID : string;
  cn_slots : list string;
  cn_linkState : string
}.

Definition nodeIsMaster (n : clusterNode) : bool := bool_decide (roleMaster ∈ cn_flags n).
Definition nodeIsHealthy (n : clusterNode) : bool :=
  if cn_linkState n != "connected" then false
  else negb (existsb (λ f, (f == "fail") || (f == "fail?") || (f == "noaddr"))%bool (cn_flags n)).

(** One line of CLUSTER NODES; [None] when it has fewer than eight fields. *)
Definition parseNodeLine (line : string) : option clusterNode :=
  match fields line with
  | id :: addr :: flags :: master :: _ping :: _pong :: _epoch :: link :: rest =>
      Some {| cn_id := id;
              cn_podName := match cut_byte "," addr with
                            | Some (_, after) => podNameFromFQDN after
                            | None => match cut_byte "@" addr with
                                      | Some (before, _) => podNameFromFQDN before
                                      | None => ""
                                      end
                            end;
              cn_flags := split_byte "," flags;
              cn_masterID := if master != "-" then master else "";
              cn_slots := filter (λ tok, negb (has_prefix tok "[")) rest;
              cn_linkState := link |}
  | _ => None
  end.
Definition parseClusterNodes (raw : string) : list clusterNode :=
  omap parseNodeLine (split_byte "010" (trim_space raw)).

(** [slotsCount]: [int32] sums wrap. *)
Definition slotsOfToken (t : string) : Z :=
  match index_byte "-" t with
  | Some (S i) =>
      match Atoi (str_take (S i) t), Atoi (str_drop (S (S i)) t) with
      | Some lo, Some hi => if (lo <=? hi)%Z then wrap32 (wrap64 (hi - lo + 1)) else 0%Z
      | _, _ => 0%Z
      end
  | _ => match Atoi t with Some _ => 1%Z | None => 0%Z end
  end.
Definition slotsCount (tokens : list string) : Z :=
  foldl (λ total t, wrap32 (total + slotsOfToken t)) 0%Z tokens.

(** ** The shards of a node list: the two loops of [surveyCluster] *)
Definition set_Replicas_Health (reps : list string) (h : string) (s : ShardStatus) : ShardStatus := {|
  Shard_Index := Shard_Index s; Shard_Primary := Shard_Primary s; Shard_PrimaryNodeID := Shard_PrimaryNodeID s;
  Shard_Replicas := reps; Shard_SlotRanges := Shard_SlotRanges s; Shard_SlotCount := Shard_SlotCount s;
  Shard_Health := h; Shard_PrimaryOffset := Shard_PrimaryOffset s;
  Shard_ReplicaOffsets := Shard_ReplicaOffsets s; Shard_MaxLagBytes := Shard_MaxLagBytes s |}.

Definition masterShard (idx : Z) (n : clusterNode) : ShardStatus := {|
  Shard_Index := idx; Shard_Primary := cn_podName n; Shard_PrimaryNodeID := cn_id n;
  Shard_Replicas := []; Shard_SlotRanges := cn_slots n; Shard_SlotCount := slotsCount (cn_slots n);
  Shard_Health := if negb (nodeIsHealthy n) then ShardHealthDown else ShardHealthReady;
  Shard_PrimaryOffset := 0; Shard_ReplicaOffsets := []; Shard_MaxLagBytes := 0 |}.

(** First loop: [shards] and [byID] (master ID to shard index). *)
Definition addMaster (st : list ShardStatus * gmap string nat) (n : clusterNode) : list ShardStatus * gmap string nat :=
  let '(shards, byID) := st in
  if negb (nodeIsMaster n) then st
  else (shards ++ [masterShard (Z.of_nat (length shards)) n], <[cn_id n := length shards]> byID).
(** Second loop: attach one replica. *)
Definition attachReplica (n : clusterNode) (s : ShardStatus) : ShardStatus :=
  set_Replicas_Health (Shard_Replicas s ++ [cn_podName n])
    (if (negb (nodeIsHealthy n) && (Shard_Health s == ShardHealthReady))%bool
     then ShardHealthDegraded else Shard_Health s) s.
Definition addReplica (byID : gmap string nat) (shards : list ShardStatus) (n : clusterNode) : list ShardStatus :=
  if (nodeIsMaster n || (cn_masterID n == ""))%bool then shards
  else match byID !! cn_masterID n with
       | None => shards
       | Some sIdx => alter (attachReplica n) sIdx shards
       end.
Definition shardsOfNodes (nodes : list clusterNode) : list ShardStatus :=
  let '(shards, byID) := foldl addMaster ([], ∅) nodes in
  foldl (addReplica byID) shards nodes.

(** ** Replication lag *)
Definition set_Lag (po : Z) (ros : list ReplicaOffset) (lag : Z) (s : ShardStatus) : ShardStatus := {|
  Shard_Index := Shard_Index s; Shard_Primary := Shard_Primary s; Shard_PrimaryNodeID := Shard_PrimaryNodeID s;
  Shard_Replicas := Shard_Replicas s; Shard_SlotRanges := Shard_SlotRanges s; Shard_SlotCount := Shard_SlotCount s;
  Shard_Health := Shard_Health s; Shard_PrimaryOffset := po;
  Shard_ReplicaOffsets := ros; Shard_MaxLagBytes := lag |}.
(** [if v, ok := info[k]; ok { if n, err := ParseInt(v); err == nil { x = n } }]. *)
Definition info_int64 (m : gmap string string) (k : string) (dflt : Z) : Z :=
  match m !! k with
  | Some v => match ParseInt v 64 with Some n => n | None => dflt end
  | None => dflt
  end.
Definition replicaLag (vc : ValkeyCluster) (password : string) (primaryOffset : Z)
    (acc : list ReplicaOffset * Z) (pod : string) : prog (list ReplicaOffset * Z) :=
  rc ← dialPod vc (podFQDN vc pod) (dataPort vc) password (2 * second);
  match rc with
  | None => mret acc
  | Some rc =>
      ri ← info rc;
      mret (match ri with
            | inl _ => acc
            | inr m =>
                let off := info_int64 m "slave_repl_offset" 0 in
                let lag := wrap64 (primaryOffset - off) in
                (acc.1 ++ [{| RO_Pod := pod; RO_Offset := off |}], if (acc.2 <? lag)%Z then lag else acc.2)
            end)
  end.
Definition fillShardLag (vc : ValkeyCluster) (password : string) (s : ShardStatus) : prog ShardStatus :=
  if ((Shard_Health s == ShardHealthDown) || (Shard_Primary s == ""))%bool then mret s
  else
    pc ← dialPod vc (podFQDN vc (Shard_Primary s)) (dataPort vc) password (2 * second);
    match pc with
    | None => mret s
    | Some pc =>
        pi ← info pc;
        match pi with
        | inl _ => mret s
        | inr m =>
            let po := info_int64 m "master_repl_offset" (Shard_PrimaryOffset s) in
            r ← foldM (replicaLag vc password po) (Shard_ReplicaOffsets s, 0%Z) (Shard_Replicas s);
            mret (set_Lag po r.1 r.2 s)
        end
    end.
Definition fillReplicaLag (vc : ValkeyCluster) (password : string) (shards : list ShardStatus) : prog (list ShardStatus) :=
  mapP (fillShardLag vc password) shards.

Definition surveyCluster (vc : ValkeyCluster) (password : string) : prog (list ShardStatus) :=
  c ← dialPod vc (clusterAnyPodHost vc) (dataPort vc) password (3 * second);
  match c with
  | None => mret []
  | Some c =>
      raw ← clusterNodes c;
      match raw with
      | inl _ => mret []
      | inr raw => fillReplicaLag vc password (shardsOfNodes (parseClusterNodes raw))
      end
  end.

(** ** The Cluster rollout pass (rollout.go) *)
Definition driveClusterRollout (vc : ValkeyCluster) (password : string) : prog (bool * option KubeErr) :=
  r ← perform (OGetSts (vcNamespace vc) (statefulSetName vc));
  match r with
  | inl err => mret (false, Some err)
  | inr sts =>
      let desiredRevision := sts_UpdateRevision sts in
      if desiredRevision == "" then mret (false, None)
      else
        l ← listRolloutPods vc;
        match l with
        | inl err => mret (false, Some err)
        | inr pods =>
            if (wrap32 (Z.of_nat (length pods)) <? totalReplicas vc)%Z then mret (true, None)
            else if negb (existsb (isStale desiredRevision) pods) then mret (false, None)
            else
              shardStatuses ← surveyCluster vc password;
              if length shardStatuses == 0 then mret (true, None)
              else
                let shards := (λ s, {| cs_primary := Shard_Primary s; cs_replicas := Shard_Replicas s |}) <$> shardStatuses in
                let action := nextClusterRolloutStep pods shards desiredRevision in
                match cra_kind action with
                | clusterRolloutNone => mret (false, None)
                | clusterRolloutWait => mret (true, None)
                | clusterRolloutRollReplica | clusterRolloutRollMaster =>
                    e ← deletePodByName vc (cra_pod action);
                    mret (true, e)
                | clusterRolloutFailover =>
                    _ ← clusterFailoverOnPod vc password (cra_pod action);
                    mret (true, None)
                end
        end
  end.

Definition summarizeShards (shards : list ShardStatus) : Z * list string :=
  foldl (λ acc s, if Shard_Health s == ShardHealthReady then (wrap32 (acc.1 + 1), acc.2)
                  else (acc.1, acc.2 ++ [Itoa (Shard_Index s) +:+ ":" +:+ Shard_Health s])) (0%Z, []) shards.

(** ** Round trip: CLUSTER NODES text *)

Definition word (s : string) : Prop := s ≠ "" ∧ no_space s = true.

(** The parts of a line the operator does not keep: the address before the comma, the rest
    of the announced host name after the pod name, and the ping, pong and epoch fields. *)
Record nodeText := { nt_addr : string; nt_domain : string; nt_ping : string; nt_pong : string; nt_epoch : string }.

Definition nodeWords (t : nodeText) (n : clusterNode) : list string :=
  [cn_id n; nt_addr t +:+ "," +:+ cn_podName n +:+ "." +:+ nt_domain t; join "," (cn_flags n);
   if cn_masterID n == "" then "-" else cn_masterID n; nt_ping t; nt_pong t; nt_epoch t; cn_linkState n] ++ cn_slots n.
Definition printNode (tn : nodeText * clusterNode) : string := join " " (nodeWords tn.1 tn.2).
Definition printNodes (l : list (nodeText * clusterNode)) : string := join nl (printNode <$> l).

(** Well-formed lines: every field is a word, and the separators of the inner lists do not
    occur inside their items. *)
Record wfNode (tn : nodeText * clusterNode) : Prop := {
  wn_id : word (cn_id tn.2);
  wn_addr : no_space (nt_addr tn.1) = true ∧ lacks "," (nt_addr tn.1) = true;
  wn_pod : no_space (cn_podName tn.2) = true ∧ dns_label (cn_podName tn.2) = true;
  wn_domain : no_space (nt_domain tn.1) = true ∧ lacks ":" (nt_domain tn.1) = true;
  wn_flags : cn_flags tn.2 ≠ [] ∧ Forall (λ f, word f ∧ lacks "," f = true) (cn_flags tn.2);
  wn_master : cn_masterID tn.2 ≠ "-" ∧ no_space (cn_masterID tn.2) = true;
  wn_times : word (nt_ping tn.1) ∧ word (nt_pong tn.1) ∧ word (nt_epoch tn.1);
  wn_link : word (cn_linkState tn.2);
  wn_slots : Forall (λ s, word s ∧ has_prefix s "[" = false) (cn_slots tn.2)
}.

Lemma no_space_join l : Forall (λ f, word f ∧ lacks "," f = true) l → no_space (join "," l) = true.
Proof.
  induction l as [|s l IH]; [done|]; intros [[[_ Hs] _] Hl]%Forall_cons.
  destruct l as [|s' l]; [done|].
  change (join "," (s :: s' :: l)) with (s +:+ "," +:+ join "," (s' :: l)).
  by rewrite !no_space_app, Hs, IH.
Qed.
Lemma word_app_l s t : word s → no_space t = true → word (s +:+ t).
Proof.
  intros [Hne Hs] Ht. split; [|by rewrite no_space_app, Hs, Ht].
  destruct s; [done|]. by rewrite str_app_cons.
Qed.
Lemma word_app_r s t : no_space s = true → word t → word (s +:+ t).
Proof.
  intros Hs [Hne Ht]. split; [|by rewrite no_space_app, Hs, Ht].
  destruct s; [done|]. by rewrite str_app_cons.
Qed.

Lemma nodeWords_words tn : wfNode tn → Forall word (nodeWords tn.1 tn.2).
Proof.
  intros [Hid [Ha _] [Hp _] [Hd _] [Hfne Hf] [_ Hm] (Ht1 & Ht2 & Ht3) Hl Hs]. unfold nodeWords.
  apply Forall_app. split.
  - repeat (apply Forall_cons; split); try done.
    + apply word_app_r; [done|]. apply word_app_l; [done|]. by rewrite !no_space_app, Hp, Hd.
    + split; [|by apply no_space_join]. destruct (cn_flags tn.2) as [|f fs]; [done|].
      apply Forall_cons in Hf as [[[Hne _] _] _].
      destruct fs as [|f' fs]; [done|]. change (join "," (f :: f' :: fs)) with (f +:+ ("," +:+ join "," (f' :: fs))).
      destruct f; [done|]. by rewrite str_app_cons.
    + case_bool_decide; [done|]. done.
  - eapply Forall_impl; [exact Hs|]. by intros s [? _].
Qed.

Lemma filter_slots (l : list string) :
  Forall (λ s, word s ∧ has_prefix s "[" = false) l → filter (λ tok, negb (has_prefix tok "[")) l = l.
Proof.
  induction 1 as [|s l [_ Hs] _ IH]; [done|]. by rewrite filter_cons_bool, Hs, IH.
Qed.

Lemma parseNodeLine_print tn : wfNode tn → parseNodeLine (printNode tn) = Some tn.2.
Proof.
  intros Hwf. pose proof (nodeWords_words tn Hwf) as Hw.
  unfold parseNodeLine, printNode. rewrite fields_join by done. unfold nodeWords.
  destruct Hwf as [Hid [Ha Hac] [Hp Hpl] [Hd Hdc] [Hfne Hf] [Hmd Hm] _ Hl Hs].
  change ("," +:+ cn_podName tn.2 +:+ "." +:+ nt_domain tn.1)
    with (String "," (cn_podName tn.2 +:+ "." +:+ nt_domain tn.1)).
  simpl. rewrite cut_byte_app by done. rewrite podNameFromFQDN_app by done.
  change "," with (String "," ""). rewrite split_byte_join; [|done|].
  2: { eapply Forall_impl; [exact Hf|]. by intros s [_ ?]. }
  rewrite filter_slots by done. destruct tn as [t [id pod flags mid slots link]]; simpl in *.
  do 2 f_equal. destruct (decide (mid = "")) as [->|Hne].
  - done.
  - rewrite (bool_decide_false (mid = "")) by done. by rewrite bool_decide_false.
Qed.

Lemma printNode_nl tn : wfNode tn → lacks "010" (printNode tn) = true.
Proof.
  intros Hw%nodeWords_words. apply join_forall; [done|].
  eapply Forall_impl; [exact Hw|]. intros s [_ Hs]. by apply no_space_lacks_nl.
Qed.

(** A printed line starts and ends with a word. *)
Lemma printNode_ends tn :
  wfNode tn → (∃ s t, word s ∧ printNode tn = s +:+ t) ∧ (∃ u s, word s ∧ printNode tn = u +:+ s).
Proof.
  intros Hwf. pose proof (nodeWords_words tn Hwf) as Hw. unfold printNode. split.
  - destruct (nodeWords tn.1 tn.2) as [|s l] eqn:E; [done|]. apply Forall_cons in Hw as [Hs _].
    destruct (join_head " " s l) as [t ->]. eauto.
  - destruct (exists_last (l:=nodeWords tn.1 tn.2)) as (l & s & E); [done|]. rewrite E in *.
    apply Forall_app in Hw as [_ [Hs _]%Forall_cons]. destruct (join_last " " l s) as [u ->]. eauto.
Qed.

Lemma printNodes_trimmed l : Forall wfNode l → trim_space (printNodes l) = printNodes l.
Proof.
  intros Hl. unfold printNodes, trim_space. destruct l as [|x l]; [done|].
  assert (trim_left (join nl (printNode <$> x :: l)) = join nl (printNode <$> x :: l)) as ->.
  { rewrite fmap_cons. apply Forall_cons in Hl as [Hx _].
    destruct (printNode_ends x Hx) as [(s & t & [Hne Hs] & E) _].
    destruct (join_head nl (printNode x) (printNode <$> l)) as [r ->].
    rewrite E, <-str_app_assoc. by apply trim_left_word. }
  destruct (exists_last (l:=x :: l)) as (l' & y & E); [done|]. rewrite E in *.
  apply Forall_app in Hl as [_ [Hy _]%Forall_cons].
  destruct (printNode_ends y Hy) as [_ (u & s & [Hne Hs] & Ey)].
  rewrite fmap_app. simpl. destruct (join_last nl (printNode <$> l') (printNode y)) as [r ->].
  rewrite Ey, str_app_assoc. by apply trim_right_word.
Qed.


(** ** Slot counts *)
Definition printRange (r : Z * Z) : string :=
  if (r.1 =? r.2)%Z then Itoa r.1 else Itoa r.1 +:+ "-" +:+ Itoa r.2.
Definition rangeSize (r : Z * Z) : Z := (r.2 - r.1 + 1)%Z.
Definition validRange (r : Z * Z) : Prop := (0 ≤ r.1 ≤ r.2 ∧ r.2 < 2 ^ 31 - 1)%Z.

Lemma Itoa_length_pos n : ∃ k, String.length (Itoa n) = S k.
Proof. pose proof (Itoa_nonempty n). destruct (Itoa n); [done|]. by eexists. Qed.

Lemma slotsOfToken_print r : validRange r → slotsOfToken (printRange r) = rangeSize r.
Proof.
  intros [[H0 H1] H2]. unfold slotsOfToken, printRange, rangeSize. destruct (r.1 =? r.2)%Z eqn:E.
  - apply Z.eqb_eq in E. rewrite index_byte_lacks by (apply Itoa_lacks; [done|lia]).
    rewrite Atoi_Itoa by lia. lia.
  - change ("-" +:+ Itoa r.2) with (String "-" (Itoa r.2)).
    rewrite index_byte_app by (apply Itoa_lacks; [done|lia]).
    destruct (Itoa_length_pos r.1) as [k Ek]. rewrite Ek. rewrite <-Ek at 1. rewrite str_take_app.
    assert (str_drop (S (S k)) (Itoa r.1 +:+ String "-" (Itoa r.2)) = Itoa r.2) as ->.
    { replace (S (S k)) with (String.length (Itoa r.1 +:+ "-")) by (rewrite str_length_app; simpl; lia).
      replace (Itoa r.1 +:+ String "-" (Itoa r.2)) with ((Itoa r.1 +:+ "-") +:+ Itoa r.2)
        by (by rewrite <-str_app_assoc). apply str_drop_app. }
    rewrite !Atoi_Itoa by lia. rewrite (proj2 (Z.leb_le _ _)) by lia.
    rewrite wrap64_small by (unfold is_int64; lia). apply wrap32_small. unfold is_int32. lia.
Qed.

Fixpoint sumZ (l : list Z) : Z := match l with [] => 0%Z | x :: l' => (x + sumZ l')%Z end.

Lemma rangeSize_pos r : validRange r → (0 < rangeSize r)%Z.
Proof. intros [? ?]. unfold rangeSize. lia. Qed.

Lemma slotsCount_acc l total :
  Forall validRange l → (0 ≤ total)%Z → (total + sumZ (rangeSize <$> l) < 2 ^ 31)%Z →
  foldl (λ total t, wrap32 (total + slotsOfToken t)) total (printRange <$> l) = (total + sumZ (rangeSize <$> l))%Z.
Proof.
  intros Hl. revert total. induction Hl as [|r l Hr Hl IH]; intros total Ht Hs; [simpl; lia|].
  rewrite !fmap_cons in *. cbn [sumZ foldl] in *.
  assert (0 ≤ sumZ (rangeSize <$> l))%Z as Hpos.
  { clear -Hl. induction Hl as [|x l Hx _ IH]; [done|]. rewrite fmap_cons. cbn [sumZ].
    apply rangeSize_pos in Hx. lia. }
  pose proof (rangeSize_pos r Hr).
  rewrite slotsOfToken_print by done. rewrite wrap32_small by (unfold is_int32; lia).
  rewrite IH; lia.
Qed.

(** The slot total of a shard is the number of slots its ranges cover (each token [N] or
    [N-M]), as long as the total fits an [int32]; for the 16384 slots of a cluster it does. *)
Theorem slotsCount_print l :
  Forall validRange l → (sumZ (rangeSize <$> l) < 2 ^ 31)%Z →
  slotsCount (printRange <$> l) = sumZ (rangeSize <$> l).
Proof. intros. unfold slotsCount. by rewrite slotsCount_acc. Qed.

(** ** The shard view *)

(** The replicas of a master, and the shard record the view should hold for it. *)
Definition replicasOf (nodes : list clusterNode) (m : clusterNode) : list clusterNode :=
  filter (λ n, (negb (nodeIsMaster n) && (cn_masterID n == cn_id m))%bool) nodes.
Definition shardOf (nodes : list clusterNode) (i : nat) (m : clusterNode) : ShardStatus := {|
  Shard_Index := Z.of_nat i; Shard_Primary := cn_podName m; Shard_PrimaryNodeID := cn_id m;
  Shard_Replicas := cn_podName <$> replicasOf nodes m;
  Shard_SlotRanges := cn_slots m; Shard_SlotCount := slotsCount (cn_slots m);
  Shard_Health := if negb (nodeIsHealthy m) then ShardHealthDown
                  else if forallb nodeIsHealthy (replicasOf nodes m) then ShardHealthReady
                  else ShardHealthDegraded;
  Shard_PrimaryOffset := 0; Shard_ReplicaOffsets := []; Shard_MaxLagBytes := 0 |}.

Lemma addMaster_fold nodes shards byID :
  (∀ id i, byID !! id = Some i → i < length shards) →
  NoDup ((Shard_PrimaryNodeID <$> shards) ++ (cn_id <$> filter nodeIsMaster nodes)) →
  (∀ id i, byID !! id = Some i ↔ (Shard_PrimaryNodeID <$> shards) !! i = Some id) →
  ∃ byID', foldl addMaster (shards, byID) nodes =
    (shards ++ imap (λ i, masterShard (Z.of_nat (length shards + i))) (filter nodeIsMaster nodes), byID') ∧
    ∀ id i, byID' !! id = Some i ↔
      ((Shard_PrimaryNodeID <$> shards) ++ (cn_id <$> filter nodeIsMaster nodes)) !! i = Some id.
Proof.
  revert shards byID; induction nodes as [|n l IH]; intros shards byID Hlt Hnd Hid.
  { exists byID. rewrite !app_nil_r. split; [done|]. exact Hid. }
  simpl. rewrite filter_cons_bool in *. destruct (nodeIsMaster n) eqn:Hn; simpl; [|by apply IH].
  set (s := masterShard (Z.of_nat (length shards)) n).
  rewrite fmap_cons in Hnd.
  assert (Shard_PrimaryNodeID s = cn_id n) as Hs by done.
  destruct (IH (shards ++ [s]) (<[cn_id n := length shards]> byID)) as (byID' & HF & HB).
  - intros id i. rewrite lookup_insert_Some, length_app. simpl. intros [[_ <-]|[_ ?%Hlt]]; lia.
  - rewrite fmap_app. simpl. rewrite <-app_assoc. simpl. by rewrite ?Hs.
  - intros id i. rewrite fmap_app. simpl. rewrite ?Hs, lookup_insert_Some, Hid, lookup_snoc_Some, length_fmap.
    split; [intros [[<- <-]|[Hne Hi]]; [by right|left]|intros [[Hl Hi]|[-> ->]]; [right|by left]].
    + split; [|done]. apply lookup_lt_Some in Hi. by rewrite length_fmap in Hi.
    + split; [|done]. intros <-. apply NoDup_app in Hnd as (_ & Hdis & _).
      eapply (Hdis (cn_id n)); [|constructor]. by eapply list_elem_of_lookup_2.
  - exists byID'. rewrite HF. split.
    + rewrite <-app_assoc. simpl. f_equal. f_equal. f_equal; [unfold s; by rewrite Nat.add_0_r|].
      apply imap_ext. intros i x _. simpl. f_equal. rewrite length_app. simpl. lia.
    + intros id i. rewrite HB, fmap_app. simpl. by rewrite <-app_assoc, ?Hs.
Qed.

(** The replicas attached to shard [i] by the second loop. *)
Definition attachedTo (byID : gmap string nat) (i : nat) (n : clusterNode) : bool :=
  (negb (nodeIsMaster n) && (cn_masterID n != "") && bool_decide (byID !! cn_masterID n = Some i))%bool.

Lemma addReplica_fold byID nodes shards i :
  foldl (addReplica byID) shards nodes !! i =
  (λ s, foldl (λ s n, attachReplica n s) s (filter (attachedTo byID i) nodes)) <$> shards !! i.
Proof.
  revert shards; induction nodes as [|n l IH]; intros shards; simpl.
  { by destruct (shards !! i). }
  rewrite IH, filter_cons_bool. unfold addReplica.
  assert (attachedTo byID i n = (negb (nodeIsMaster n) && (cn_masterID n != "") &&
            bool_decide (byID !! cn_masterID n = Some i))%bool) as -> by done.
  destruct (nodeIsMaster n); simpl; [done|]. case_bool_decide; simpl; [done|].
  destruct (byID !! cn_masterID n) as [k|] eqn:Ek; simpl.
  - destruct (decide (i = k)) as [->|Hik].
    + rewrite bool_decide_true by done. rewrite list_lookup_alter_eq. by destruct (shards !! k).
    + rewrite bool_decide_false by congruence. by rewrite list_lookup_alter_ne.
  - done.
Qed.

Lemma attach_all i m reps :
  foldl (λ s n, attachReplica n s) (masterShard i m) reps =
  set_Replicas_Health (cn_podName <$> reps)
    (if negb (nodeIsHealthy m) then ShardHealthDown
     else if forallb nodeIsHealthy reps then ShardHealthReady else ShardHealthDegraded) (masterShard i m).
Proof.
  induction reps as [|n reps IH] using rev_ind.
  - unfold masterShard, set_Replicas_Health. simpl. by destruct (negb (nodeIsHealthy m)).
  - rewrite foldl_app, IH. simpl. unfold attachReplica at 1. rewrite fmap_app, forallb_app.
    unfold set_Replicas_Health; simpl. f_equal.
    destruct (negb (nodeIsHealthy m)); simpl; [by rewrite andb_false_r|].
    destruct (forallb nodeIsHealthy reps), (nodeIsHealthy n); simpl; try done.
Qed.

(** C40: the shard view is faithful to the node list.  When master identities are distinct and
    non-empty, [surveyCluster] builds exactly one record per master, in order, holding its
    pod, identity and slots, the pods of exactly the replicas that name it as their master,
    and the health: Down when the master is unhealthy, otherwise Degraded when one of its
    replicas is, otherwise Ready. *)
Theorem shardsOfNodes_spec nodes :
  NoDup (cn_id <$> filter nodeIsMaster nodes) → "" ∉ cn_id <$> filter nodeIsMaster nodes →
  shardsOfNodes nodes = imap (shardOf nodes) (filter nodeIsMaster nodes).
Proof.
  intros Hnd Hne. unfold shardsOfNodes.
  destruct (addMaster_fold nodes [] ∅) as (byID & -> & HB); [done|done| |].
  { intros id i. rewrite lookup_empty. split; [done|]. by destruct i. }
  simpl in *. apply list_eq. intros i. rewrite addReplica_fold, !list_lookup_imap.
  destruct (filter nodeIsMaster nodes !! i) as [m|] eqn:Em; simpl; [|done]. f_equal.
  assert (filter (attachedTo byID i) nodes = replicasOf nodes m) as ->.
  { unfold replicasOf. apply list_filter_iff. intros n. rewrite !Is_true_true. unfold attachedTo.
    rewrite !andb_true_iff, negb_true_iff, !bool_decide_eq_true, negb_true_iff, bool_decide_eq_false, HB.
    rewrite list_lookup_fmap, Em. simpl. split.
    - intros [[Hm _] Hid]. simplify_eq. by rewrite Hid.
    - intros [Hm Hid]. rewrite Hid. split_and!; [done| |done]. intros E. apply Hne. rewrite <-E.
      apply list_elem_of_fmap_2. by eapply list_elem_of_lookup_2. }
  by rewrite attach_all.
Qed.

(** Readiness summary: the ready count and the list of the others partition the shards. *)
Lemma summarizeShards_fold shards acc :
  (0 ≤ acc.1)%Z → (acc.1 + Z.of_nat (length shards) < 2 ^ 31)%Z →
  foldl (λ acc s, if Shard_Health s == ShardHealthReady then (wrap32 (acc.1 + 1), acc.2)
                  else (acc.1, acc.2 ++ [Itoa (Shard_Index s) +:+ ":" +:+ Shard_Health s])) acc shards =
  ((acc.1 + Z.of_nat (length (filter (λ s, Shard_Health s == ShardHealthReady) shards)))%Z,
   acc.2 ++ ((λ s, Itoa (Shard_Index s) +:+ ":" +:+ Shard_Health s) <$>
             filter (λ s, Shard_Health s != ShardHealthReady) shards)).
Proof.
  revert acc; induction shards as [|s l IH]; intros [n bad] H0 Hn; simpl in *.
  { by rewrite Z.add_0_r, app_nil_r. }
  rewrite !filter_cons_bool. case_bool_decide; simpl.
  - rewrite wrap32_small by (unfold is_int32; lia). rewrite IH; simpl; [|lia..]. f_equal. lia.
  - rewrite IH; simpl; [|lia..]. by rewrite <-app_assoc.
Qed.
Lemma summarizeShards_spec shards :
  (Z.of_nat (length shards) < 2 ^ 31)%Z →
  summarizeShards shards =
  (Z.of_nat (length (filter (λ s, Shard_Health s == ShardHealthReady) shards)),
   (λ s, Itoa (Shard_Index s) +:+ ":" +:+ Shard_Health s) <$> filter (λ s, Shard_Health s != ShardHealthReady) shards).
Proof. intros. unfold summarizeShards. by rewrite summarizeShards_fold. Qed.

(** ** A concrete cluster: two masters, one replica that has failed *)
Definition demoNodes : list clusterNode :=
  [ {| cn_id := "a1"; cn_podName := "c-0"; cn_flags := ["myself"; "master"]; cn_masterID := "";
       cn_slots := ["0-8191"]; cn_linkState := "connected" |};
    {| cn_id := "b2"; cn_podName := "c-1"; cn_flags := ["master"]; cn_masterID := "";
       cn_slots := ["8192-16382"; "16383"]; cn_linkState := "connected" |};
    {| cn_id := "d3"; cn_podName := "c-2"; cn_flags := ["slave"; "fail"]; cn_masterID := "a1";
       cn_slots := []; cn_linkState := "disconnected" |} ].
Definition demoText : nodeText := {|
  nt_addr := "10.0.0.1:6379@16379"; nt_domain := "c-headless.ns.svc.cluster.local";
  nt_ping := "0"; nt_pong := "1700000000"; nt_epoch := "1" |}.
Example demoText_parses : parseClusterNodes (printNodes ((demoText,.) <$> demoNodes)) = demoNodes.
Proof. vm_compute. reflexivity. Qed.


Lemma slotsCount_print_witness :
  slotsCount (printRange <$> [(8192, 16382); (16383, 16383)]%Z) = sumZ (rangeSize <$> [(8192, 16382); (16383, 16383)]%Z).
Proof.
  apply slotsCount_print; [repeat (apply Forall_cons; split); try apply Forall_nil; try exact I;
    (split; simpl; lia)|]. vm_compute. reflexivity.
Defined.

Lemma shardsOfNodes_spec_witness :
  shardsOfNodes demoNodes = imap (shardOf demoNodes) (filter nodeIsMaster demoNodes).
Proof.
  apply shardsOfNodes_spec; apply (bool_decide_unpack _); vm_compute; exact I.
Defined.
Example demoNodes_health :
  Shard_Health <$> shardsOfNodes demoNodes = [ShardHealthDegraded; ShardHealthReady] ∧
  Shard_SlotCount <$> shardsOfNodes demoNodes = [8192; 8192]%Z.
Proof. vm_compute. done. Qed.
