(* ===== verification/Status.v ===== *)
(** * Status: conditions and the status writes (resources.go, valkeycluster_controller.go, cluster.go)

    Conditions go through apimachinery's [meta.SetStatusCondition], which is not
    under src/: it is the operation of the class [ConditionLib], whose two laws
    are that function's documented behaviour.  [apimachinery] is an instance. *)

From S2P Require Import Prelude GoStd Kube Api Effects Naming Failover ClusterNodes.

(** ** Go errors: an API error, another error by its message, or either one wrapped by
    [fmt.Errorf("...: %w", err)]. *)
Inductive GoErr :=
  | EKube (e : KubeErr)
  | EMsg (msg : string)
  | EWrap (context : string) (e : GoErr).

(** What a reconcile helper returns: [ctrl.Result] (its [RequeueAfter], the only field the
    operator sets), the error, and the object as the helper left it. *)
Record Outcome := { out_Requeue : Z; out_err : option GoErr; out_vc : ValkeyCluster }.
(** [result.IsZero()]. *)
Definition resultIsZero (o : Outcome) : bool := out_Requeue o == 0%Z.
Definition ok (vc : ValkeyCluster) : Outcome := {| out_Requeue := 0; out_err := None; out_vc := vc |}.
Definition requeue (d : Z) (vc : ValkeyCluster) : Outcome := {| out_Requeue := d; out_err := None; out_vc := vc |}.
Definition failed (e : GoErr) (vc : ValkeyCluster) : Outcome := {| out_Requeue := 0; out_err := Some e; out_vc := vc |}.
(** [return ctrl.Result{RequeueAfter: d}, err]. *)
Definition returning (d : Z) (err : option KubeErr) (vc : ValkeyCluster) : Outcome :=
  {| out_Requeue := d; out_err := EKube <$> err; out_vc := vc |}.

(** ** meta.SetStatusCondition *)
Definition findCondition (t : string) (cs : list Condition) : option Condition :=
  list_find (λ c, cond_Type c = t) cs ≫= λ p, Some p.2.
Definition at_time (t : Z) (c : Condition) : Condition := {|
  cond_Type := cond_Type c; cond_Status := cond_Status c; cond_Reason := cond_Reason c;
  cond_Message := cond_Message c; cond_ObservedGeneration := cond_ObservedGeneration c;
  cond_LastTransitionTime := t |}.
(** The condition to store when [old] is what the list held: every field is the new one's,
    but the transition time moves only with the status. *)
Definition transition (old : option Condition) (c : Condition) : Condition :=
  match old with
  | Some o => if cond_Status o == cond_Status c then at_time (cond_LastTransitionTime o) c else c
  | None => c
  end.

Class ConditionLib := {
  SetStatusCondition : list Condition → Condition → list Condition;
  SetStatusCondition_same cs c :
    findCondition (cond_Type c) (SetStatusCondition cs c) = Some (transition (findCondition (cond_Type c) cs) c);
  SetStatusCondition_other cs c t :
    t ≠ cond_Type c → findCondition t (SetStatusCondition cs c) = findCondition t cs
}.

Definition ConditionTrue : string := "True".
Definition ConditionFalse : string := "False".

Definition condStatus (b : bool) : string := if b then ConditionTrue else ConditionFalse.

Section status.
Context `{ConditionLib}.

Definition setCondition (conds : list Condition) (c : Condition) : list Condition :=
  SetStatusCondition conds c.

(** [setCondition(&st.Conditions, metav1.Condition{..., LastTransitionTime: metav1.Now()})]. *)
Definition stampCondition (st : ValkeyClusterStatus) (type status reason msg : string) (gen : Z) : prog ValkeyClusterStatus :=
  now ← perform ONow;
  mret (set_Status_Conditions (setCondition (Status_Conditions st)
    {| cond_Type := type; cond_Status := status; cond_Reason := reason; cond_Message := msg;
       cond_ObservedGeneration := gen; cond_LastTransitionTime := now |}) st).

Definition setReadyCondition (st : ValkeyClusterStatus) (ready : bool) (reason msg : string) : prog ValkeyClusterStatus :=
  stampCondition st ConditionReady (condStatus ready) reason msg (Status_ObservedGeneration st).

Definition setPhase (vc : ValkeyCluster) (reason msg : string) : prog Outcome :=
  let st := set_Status_ObservedGeneration (vcGeneration vc) (set_Status_Phase PhaseFailed (Status vc)) in
  st ← stampCondition st ConditionAvailable ConditionFalse reason msg 0%Z;
  st ← setReadyCondition st false reason msg;
  let vc' := with_status vc (λ _, st) in
  err ← perform (OPatchStatus vc vc');
  mret (returning 0 err vc').

(** [updateStatus] (Replication, Standalone and Sentinel). [replicas] is [*sts.Spec.Replicas]. *)
Definition phaseOf (sts : StatefulSet) (replicas : Z) : ValkeyClusterPhase :=
  if ((sts_ReadyReplicas sts == replicas) && (0 <? sts_ReadyReplicas sts)%Z)%bool then PhaseReady
  else if (0 <? sts_ReadyReplicas sts)%Z then PhaseUpdating
  else PhaseCreating.
Definition updateStatus (vc : ValkeyCluster) (sts : StatefulSet) (observedPrimary : string) : prog Outcome :=
  let replicas := default 0%Z (sts_Replicas sts) in
  let phase := phaseOf sts replicas in
  let primary := if ((observedPrimary == "") && (0 <? sts_ReadyReplicas sts)%Z)%bool
                 then sts_Name sts +:+ "-0" else observedPrimary in
  let st := set_Status_ObservedGeneration (vcGeneration vc) (set_Status_InternalEndpoint (internalEndpoint vc)
            (set_Status_Primary primary (set_Status_ReadyReplicas (sts_ReadyReplicas sts)
            (set_Status_Phase phase (Status vc))))) in
  let msg := Itoa (sts_ReadyReplicas sts) +:+ "/" +:+ Itoa replicas +:+ " ready, primary=" +:+ primary in
  st ← stampCondition st ConditionAvailable (condStatus (phase == PhaseReady)) phase msg (vcGeneration vc);
  st ← setReadyCondition st (phase == PhaseReady) phase msg;
  let vc' := with_status vc (λ _, st) in
  err ← perform (OPatchStatus vc vc');
  mret (returning 0 err vc').

(** [recordShards] (metrics.go): reset the four buckets, then count. *)
Definition recordShards (namespace cluster : string) (shards : list ShardStatus) : prog () :=
  _ ← foldM (λ _ h, perform (OMetricSet "shardsHealthGauge" [namespace; cluster; h] 0)) ()
        [ShardHealthReady; ShardHealthDegraded; ShardHealthDown; ShardHealthUnknown];
  foldM (λ _ s, perform (OMetricInc "shardsHealthGauge" [namespace; cluster; Shard_Health s])) () shards.

(** The phase, reason and message [updateClusterStatus] computes. *)
Definition clusterPhase (vc : ValkeyCluster) (readyReplicas : Z) (allReady : bool) (readyShards : Z) :
    ValkeyClusterPhase * string * string :=
  if negb allReady then
    (PhaseCreating, "PodsNotReady", Itoa readyReplicas +:+ "/" +:+ Itoa (totalReplicas vc) +:+ " pods ready")
  else if negb (Status_ClusterInitialized (Status vc)) then
    (PhaseCreating, "Bootstrapping", "Running valkey-cli --cluster create")
  else
    (PhaseReady, "Ready", "Cluster of " +:+ Itoa (shardCountOf vc) +:+ " shards is ready (" +:+
       Itoa readyShards +:+ " healthy)").

(** The ShardsHealthy condition, written when the survey saw a shard. *)
Definition stampShards (vc : ValkeyCluster) (st : ValkeyClusterStatus) (shardDetails : list ShardStatus) :
    prog ValkeyClusterStatus :=
  let '(readyShards, degraded) := summarizeShards shardDetails in
  if length shardDetails == 0 then mret st
  else if length degraded == 0 then
    stampCondition st ConditionShardsHealthy ConditionTrue "AllHealthy"
      (Itoa readyShards +:+ " shards healthy") (vcGeneration vc)
  else
    stampCondition st ConditionShardsHealthy ConditionFalse "ShardsNotHealthy"
      ("unhealthy shards: " +:+ join ", " degraded) (vcGeneration vc).

Definition updateClusterStatus (vc : ValkeyCluster) (readyReplicas : Z) (allReady : bool)
    (shardDetails : list ShardStatus) : prog Outcome :=
  let readyShards := (summarizeShards shardDetails).1 in
  let '(phase, reason, msg) := clusterPhase vc readyReplicas allReady readyShards in
  let st := set_Status_Phase phase (set_Status_ReadyShards readyShards (set_Status_ShardDetails shardDetails
            (set_Status_ObservedGeneration (vcGeneration vc) (set_Status_InternalEndpoint (internalEndpoint vc)
            (set_Status_ReadyReplicas readyReplicas (set_Status_Shards (shardCountOf vc) (Status vc))))))) in
  _ ← recordShards (vcNamespace vc) (vcName vc) shardDetails;
  st ← stampCondition st ConditionAvailable (condStatus (phase == PhaseReady)) reason msg (vcGeneration vc);
  st ← setReadyCondition st (phase == PhaseReady) reason msg;
  st ← stampShards vc st shardDetails;
  let vc' := with_status vc (λ _, st) in
  err ← perform (OPatchStatus vc vc');
  mret (returning 0 err vc').

(** ** What a stamp does *)

(** In [cs'] the condition [t] has the given status and generation; its transition time is
    the old one when the status did not flip, and a clock reading of [tr] otherwise. *)
Definition stamped (tr : list Event) (cs cs' : list Condition) (t status : string) (gen : Z) : Prop :=
  ∃ c, findCondition t cs' = Some c ∧ cond_Status c = status ∧ cond_ObservedGeneration c = gen ∧
    match findCondition t cs with
    | Some o => if cond_Status o == status then cond_LastTransitionTime c = cond_LastTransitionTime o
                else Ev ONow (cond_LastTransitionTime c) ∈ tr
    | None => Ev ONow (cond_LastTransitionTime c) ∈ tr
    end.

Lemma stamped_mono tr tr' cs0 cs1 cs2 cs3 t status gen :
  stamped tr cs1 cs2 t status gen → (∀ e, e ∈ tr → e ∈ tr') →
  findCondition t cs0 = findCondition t cs1 → findCondition t cs3 = findCondition t cs2 →
  stamped tr' cs0 cs3 t status gen.
Proof.
  intros (c & Hc & Hs & Hg & Ht) Hi E0 E3. exists c. rewrite E3, E0. split_and!; [done..|].
  destruct (findCondition t cs1) as [o|]; [|auto]. destruct (bool_decide _); auto.
Qed.

(** A status that differs from another only in its conditions. *)
Definition sameButConditions (st st' : ValkeyClusterStatus) : Prop :=
  st' = set_Status_Conditions (Status_Conditions st') st.
Lemma sameButConditions_refl st : sameButConditions st st.
Proof. by destruct st. Qed.
Lemma sameButConditions_trans st1 st2 st3 :
  sameButConditions st1 st2 → sameButConditions st2 st3 → sameButConditions st1 st3.
Proof. unfold sameButConditions. intros -> ->. by destruct st1, st3. Qed.

Lemma stampCondition_exec st t s r m g tr st' :
  exec (stampCondition st t s r m g) tr st' →
  stamped tr (Status_Conditions st) (Status_Conditions st') t s g ∧ sameButConditions st st' ∧
  (∀ t', t' ≠ t → findCondition t' (Status_Conditions st') = findCondition t' (Status_Conditions st)) ∧
  Forall (λ e, reads (ev_op e) = true) tr.
Proof.
  unfold stampCondition. intros Hx. exec_inv.
  assert (∀ cs : list Condition, Status_Conditions (set_Status_Conditions cs st) = cs) as HC by (by destruct st).
  split_and!.
  - rewrite HC. eexists. unfold setCondition. split.
    { match goal with |- findCondition _ (SetStatusCondition ?cs ?c) = _ =>
        rewrite (SetStatusCondition_same cs c : findCondition t _ = _) end. reflexivity. }
    unfold transition. simpl. destruct (findCondition t (Status_Conditions st)) as [o|]; [|by simpl; rewrite list_elem_of_singleton].
    case_bool_decide as E; simpl; by rewrite ?list_elem_of_singleton.
  - unfold sameButConditions. by rewrite HC.
  - intros t' Ht'. rewrite HC. by apply SetStatusCondition_other.
  - by constructor.
Qed.

(** The Available and Ready conditions, stamped one after the other. *)
Definition readiness (tr : list Event) (st st' : ValkeyClusterStatus) (up : bool) (genA genR : Z) : Prop :=
  stamped tr (Status_Conditions st) (Status_Conditions st') ConditionAvailable (condStatus up) genA ∧
  stamped tr (Status_Conditions st) (Status_Conditions st') ConditionReady (condStatus up) genR.

Lemma readiness_exec st up s r m g tr1 tr2 st1 st2 :
  s = condStatus up →
  exec (stampCondition st ConditionAvailable s r m g) tr1 st1 →
  exec (setReadyCondition st1 up r m) tr2 st2 →
  readiness (tr1 ++ tr2) st st2 up g (Status_ObservedGeneration st) ∧ sameButConditions st st2 ∧
  (∀ t', t' ≠ ConditionAvailable → t' ≠ ConditionReady →
     findCondition t' (Status_Conditions st2) = findCondition t' (Status_Conditions st)) ∧
  Forall (λ e, reads (ev_op e) = true) (tr1 ++ tr2).
Proof.
  intros -> (HA & HsA & HoA & HrA)%stampCondition_exec (HR & HsR & HoR & HrR)%stampCondition_exec.
  split_and!.
  - split.
    + eapply stamped_mono; [exact HA|set_solver|done|by apply HoR].
    + assert (Status_ObservedGeneration st1 = Status_ObservedGeneration st) as <-.
      { rewrite HsA. by destruct st. }
      eapply stamped_mono; [exact HR|set_solver|symmetry; by apply HoA|done].
  - eauto using sameButConditions_trans.
  - intros t' ??. rewrite HoR, HoA by done. done.
  - by apply Forall_app.
Qed.

(** ** The three status writers *)

(** A write [vc → vc'] with trace [tr]: one patch, of the status alone, and otherwise reads. *)
Definition statusWrite (vc : ValkeyCluster) (tr : list Event) (o : Outcome) : Prop :=
  (∃ tr0 err, tr = tr0 ++ [Ev (OPatchStatus vc (out_vc o)) err] ∧
     Forall (λ e, reads (ev_op e) = true) tr0 ∧ out_err o = EKube <$> err) ∧
  out_Requeue o = 0%Z ∧ Meta (out_vc o) = Meta vc ∧ Spec (out_vc o) = Spec vc.

Lemma recordShards_exec ns n l tr a :
  exec (recordShards ns n l) tr a → Forall (λ e, reads (ev_op e) = true) tr.
Proof.
  intros Hx. refine (proj1 ((_ : spec (recordShards ns n l) _ (λ _, True)) tr a Hx)). unfold recordShards.
  eapply (spec_bind _ _ _ (λ _, True)); [|intros _ _]; apply spec_foldM; [done| |done|];
    intros;
    match goal with |- spec (perform ?op) ?P ?Q => by apply (spec_perform P op Q) end.
Qed.

Lemma summarizeShards_degraded l :
  (summarizeShards l).2 = (λ s, Itoa (Shard_Index s) +:+ ":" +:+ Shard_Health s) <$>
    filter (λ s, Shard_Health s ≠ ShardHealthReady) l.
Proof.
  unfold summarizeShards. set (g := λ s, _ +:+ _).
  enough (∀ acc : Z * list string, (foldl (λ acc s, if Shard_Health s == ShardHealthReady then (wrap32 (acc.1 + 1), acc.2)
    else (acc.1, acc.2 ++ [g s])) acc l).2 = acc.2 ++ (g <$> filter (λ s, Shard_Health s ≠ ShardHealthReady) l)) as E.
  { by rewrite E. }
  induction l as [|s l IH]; intros acc; simpl; [by rewrite app_nil_r|].
  rewrite IH. rewrite filter_cons. case_bool_decide as E.
  - by rewrite decide_False by (intros ?; done).
  - rewrite decide_True by done. simpl. by rewrite <-app_assoc.
Qed.

(** The status the ShardsHealthy condition must have. *)
Definition allShardsReady (l : list ShardStatus) : bool :=
  bool_decide (Forall (λ s, Shard_Health s = ShardHealthReady) l).

Lemma degraded_none l : bool_decide (length (summarizeShards l).2 = 0) = allShardsReady l.
Proof.
  rewrite summarizeShards_degraded, length_fmap. unfold allShardsReady. apply bool_decide_ext.
  rewrite length_zero_iff_nil. induction l as [|s l IH]; [done|].
  rewrite filter_cons, Forall_cons, <-IH. case_decide; naive_solver.
Qed.

Lemma stampShards_exec vc st l tr st' :
  exec (stampShards vc st l) tr st' →
  (if l is [] then findCondition ConditionShardsHealthy (Status_Conditions st') =
                   findCondition ConditionShardsHealthy (Status_Conditions st)
   else stamped tr (Status_Conditions st) (Status_Conditions st') ConditionShardsHealthy
          (condStatus (allShardsReady l)) (vcGeneration vc)) ∧
  sameButConditions st st' ∧
  (∀ t', t' ≠ ConditionShardsHealthy →
     findCondition t' (Status_Conditions st') = findCondition t' (Status_Conditions st)) ∧
  Forall (λ e, reads (ev_op e) = true) tr.
Proof.
  unfold stampShards. pose proof (degraded_none l) as Hd.
  destruct (summarizeShards l) as [n deg]. simpl in Hd. rewrite Hd. clear Hd.
  destruct l as [|s l]; simpl.
  - intros Hx. exec_inv. split_and!; [done|apply sameButConditions_refl|done|done].
  - destruct (allShardsReady (s :: l)); intros Hx%stampCondition_exec; apply Hx.
Qed.

(** The Cluster status write reports what was observed.  The phase is Ready exactly when
    every wanted pod is ready and the cluster is formed; Available and Ready follow the phase,
    ShardsHealthy the health of every surveyed shard (and is left alone when nothing was
    surveyed); every transition time moves only when the status flips; the markers other
    components own are not touched, and there is one patch, of the status alone. *)
Theorem updateClusterStatus_readiness vc n allReady shards tr o :
  exec (updateClusterStatus vc n allReady shards) tr o →
  let st := Status vc in let st' := Status (out_vc o) in
  statusWrite vc tr o ∧
  (Status_Phase st' = PhaseReady ↔ allReady = true ∧ Status_ClusterInitialized st = true) ∧
  readiness tr st st' (Status_Phase st' == PhaseReady) (vcGeneration vc) (vcGeneration vc) ∧
  (shards ≠ [] → stamped tr (Status_Conditions st) (Status_Conditions st') ConditionShardsHealthy
                   (condStatus (allShardsReady shards)) (vcGeneration vc)) ∧
  (∀ t, t ∉ [ConditionAvailable; ConditionReady; ConditionShardsHealthy] ∨ shards = [] ∧ t = ConditionShardsHealthy →
     findCondition t (Status_Conditions st') = findCondition t (Status_Conditions st)) ∧
  Status_LastAppliedReplicas st' = Status_LastAppliedReplicas st ∧
  Status_ClusterInitialized st' = Status_ClusterInitialized st ∧
  Status_QuorumDownSince st' = Status_QuorumDownSince st.
Proof.
  unfold updateClusterStatus. destruct (clusterPhase _ _ _ _) as [[phase reason] msg] eqn:EP.
  set (st0 := set_Status_Phase _ _). intros Hx. exec_inv.
  apply recordShards_exec in Hx0.
  destruct (readiness_exec _ _ _ _ _ _ _ _ _ _ eq_refl Hx Hx1) as ([HA HR] & HsR & HoR & HrR).
  apply stampShards_exec in Hx2 as (HS & HsS & HoS & HrS).
  pose proof (sameButConditions_trans _ _ _ HsR HsS) as Hsame. clear Hx Hx1 HsR HsS.
  assert (Status_Conditions st0 = Status_Conditions (Status vc)) as EC by (unfold st0; by destruct (Status vc)).
  assert (Status_ObservedGeneration st0 = vcGeneration vc) as EG by (unfold st0; by destruct (Status vc)).
  rewrite EG in HR. rewrite EC in *. cbn [out_vc returning with_status Status].
  assert (Status_Phase a2 = phase) as EPh by (rewrite Hsame; unfold st0; by destruct (Status vc)).
  rewrite EPh. split_and!.
  - split; [|done]. exists (tr0 ++ tr ++ tr1 ++ tr2), a3. rewrite <-!app_assoc. split_and!; [done| |done].
    apply Forall_app in HrR as [??]. by rewrite !Forall_app.
  - clear -EP. unfold clusterPhase in EP.
    destruct allReady, (Status_ClusterInitialized (Status vc)); simpl in EP; injection EP as <- <- <-;
      (split; [intros Hp; first [done|discriminate Hp]|intros [??]; done]).
  - split; (eapply stamped_mono; [first [exact HA|exact HR]|set_solver|done|by apply HoS]).
  - intros Hne. destruct shards; [done|]. eapply stamped_mono; [exact HS|set_solver| |done].
    symmetry. by apply HoR.
  - intros t [Ht|[-> ->]]; [|by rewrite HS, HoR].
    rewrite HoS, HoR by set_solver. done.
  - rewrite Hsame. unfold st0. by destruct (Status vc).
  - rewrite Hsame. unfold st0. by destruct (Status vc).
  - rewrite Hsame. unfold st0. by destruct (Status vc).
Qed.

Lemma phaseOf_spec sts n :
  (phaseOf sts n = PhaseReady ↔ sts_ReadyReplicas sts = n ∧ (0 < sts_ReadyReplicas sts)%Z) ∧
  (phaseOf sts n = PhaseCreating ↔ (sts_ReadyReplicas sts ≤ 0)%Z).
Proof.
  unfold phaseOf. destruct (Z.ltb_spec 0 (sts_ReadyReplicas sts)); case_bool_decide; simpl;
    (split; split; intros; first [done|lia|discriminate]).
Qed.

(** The status write of the other topologies.  Ready means every replica of the
    StatefulSet is ready (and there is at least one), Updating that some are, Creating that
    none is; Available and Ready follow; the primary is the observed one, and pod 0 only as
    a hint when nothing was observed and a pod is ready. *)
Theorem updateStatus_readiness vc sts observed tr o :
  exec (updateStatus vc sts observed) tr o →
  let st := Status vc in let st' := Status (out_vc o) in
  statusWrite vc tr o ∧
  (Status_Phase st' = PhaseReady ↔
     sts_ReadyReplicas sts = default 0%Z (sts_Replicas sts) ∧ (0 < sts_ReadyReplicas sts)%Z) ∧
  (Status_Phase st' = PhaseCreating ↔ (sts_ReadyReplicas sts ≤ 0)%Z) ∧
  readiness tr st st' (Status_Phase st' == PhaseReady) (vcGeneration vc) (vcGeneration vc) ∧
  (∀ t, t ∉ [ConditionAvailable; ConditionReady] →
     findCondition t (Status_Conditions st') = findCondition t (Status_Conditions st)) ∧
  (observed ≠ "" ∨ (sts_ReadyReplicas sts ≤ 0)%Z → Status_Primary st' = observed) ∧
  (observed = "" → (0 < sts_ReadyReplicas sts)%Z → Status_Primary st' = sts_Name sts +:+ "-0").
Proof.
  unfold updateStatus. set (st0 := set_Status_ObservedGeneration _ _). intros Hx. exec_inv.
  destruct (readiness_exec _ _ _ _ _ _ _ _ _ _ eq_refl Hx0 Hx) as ([HA HR] & Hsame & HoR & HrR).
  assert (Status_Conditions st0 = Status_Conditions (Status vc)) as EC by (unfold st0; by destruct (Status vc)).
  assert (Status_ObservedGeneration st0 = vcGeneration vc) as EG by (unfold st0; by destruct (Status vc)).
  rewrite EG in HR. rewrite EC in *. cbn [out_vc returning with_status Status].
  assert (Status_Phase a0 = phaseOf sts (default 0%Z (sts_Replicas sts))) as EPh
    by (rewrite Hsame; unfold st0; by destruct (Status vc)).
  assert (Status_Primary a0 = if ((observed == "") && (0 <? sts_ReadyReplicas sts)%Z)%bool
    then sts_Name sts +:+ "-0" else observed) as EPr by (rewrite Hsame; unfold st0; by destruct (Status vc)).
  rewrite EPh. split_and!.
  - split; [|done]. exists (tr0 ++ tr), a1. by rewrite <-!app_assoc.
  - apply phaseOf_spec.
  - apply phaseOf_spec.
  - split; (eapply stamped_mono; [first [exact HA|exact HR]|set_solver|done|done]).
  - intros t Ht. apply HoR; set_solver.
  - intros Hobs. rewrite EPr. destruct (Z.ltb_spec 0 (sts_ReadyReplicas sts)); [|by rewrite andb_false_r].
    rewrite bool_decide_false; [done|]. destruct Hobs; [done|lia].
  - intros -> Hr. by rewrite EPr, (proj2 (Z.ltb_lt _ _) Hr).
Qed.

(** [setPhase]: the phase is Failed and both conditions are False.  The Available condition
    carries no observed generation, unlike Ready. *)
Lemma setPhase_exec vc reason msg tr o :
  exec (setPhase vc reason msg) tr o →
  statusWrite vc tr o ∧ Status_Phase (Status (out_vc o)) = PhaseFailed ∧
  readiness tr (Status vc) (Status (out_vc o)) false 0 (vcGeneration vc) ∧
  Status_LastAppliedReplicas (Status (out_vc o)) = Status_LastAppliedReplicas (Status vc) ∧
  Status_ClusterInitialized (Status (out_vc o)) = Status_ClusterInitialized (Status vc) ∧
  Status_LastReshardToken (Status (out_vc o)) = Status_LastReshardToken (Status vc).
Proof.
  unfold setPhase. set (st0 := set_Status_ObservedGeneration _ _). intros Hx. exec_inv.
  destruct (readiness_exec _ false _ _ _ _ _ _ _ _ eq_refl Hx0 Hx) as ([HA HR] & Hsame & HoR & HrR).
  assert (Status_Conditions st0 = Status_Conditions (Status vc)) as EC by (unfold st0; by destruct (Status vc)).
  assert (Status_ObservedGeneration st0 = vcGeneration vc) as EG by (unfold st0; by destruct (Status vc)).
  rewrite EG in HR. rewrite EC in *. cbn [out_vc returning with_status Status].
  split_and!; try (rewrite Hsame; unfold st0; by destruct (Status vc)).
  - split; [|done]. exists (tr0 ++ tr), a1. by rewrite <-!app_assoc.
  - split; (eapply stamped_mono; [first [exact HA|exact HR]|set_solver|done|done]).
Qed.
End status.

(** ** apimachinery's implementation, as an instance *)
Fixpoint setStatusCondition (cs : list Condition) (c : Condition) : list Condition :=
  match cs with
  | [] => [c]
  | o :: cs' => if cond_Type o == cond_Type c then transition (Some o) c :: cs'
                else o :: setStatusCondition cs' c
  end.

Lemma findCondition_cons t o cs :
  findCondition t (o :: cs) = if cond_Type o == t then Some o else findCondition t cs.
Proof.
  unfold findCondition. simpl. case_decide; case_bool_decide; try done.
  by destruct (list_find _ cs) as [[??]|].
Qed.

#[export] Instance apimachinery : ConditionLib.
Proof.
  refine {| SetStatusCondition := setStatusCondition |}.
  - intros cs c. induction cs as [|o cs IH]; simpl; rewrite ?findCondition_cons.
    + by rewrite bool_decide_true.
    + case_bool_decide as E.
      * rewrite findCondition_cons, bool_decide_true; [done|]. unfold transition. by case_bool_decide.
      * by rewrite findCondition_cons, bool_decide_false.
  - intros cs c t Ht. induction cs as [|o cs IH]; simpl; rewrite ?findCondition_cons.
    + by rewrite bool_decide_false.
    + case_bool_decide as E.
      * rewrite findCondition_cons. rewrite (bool_decide_false (cond_Type o = t)) by congruence.
        rewrite bool_decide_false; [done|]. unfold transition. case_bool_decide; simpl; congruence.
      * rewrite findCondition_cons. by case_bool_decide.
Defined.

(** ** A concrete write: a formed six-pod cluster with one degraded shard *)
Definition status_handle (op : Op) : () → ans op * () := λ w,
  (match op return ans op with ONow => 7%Z | _op => inhabitant end, w).
Definition demoFormed : ValkeyCluster :=
  with_status demoSharded (λ st, set_Status_ClusterInitialized true (set_Status_LastAppliedReplicas 6
    (set_Status_Conditions [{| cond_Type := ConditionReady; cond_Status := ConditionTrue; cond_Reason := "Ready";
       cond_Message := ""; cond_ObservedGeneration := 0; cond_LastTransitionTime := 5 |}] st))).
Definition demoShard (i : Z) (health : string) : ShardStatus := {|
  Shard_Index := i; Shard_Primary := ""; Shard_PrimaryNodeID := ""; Shard_Replicas := []; Shard_SlotRanges := [];
  Shard_SlotCount := 0; Shard_Health := health; Shard_PrimaryOffset := 0; Shard_ReplicaOffsets := [];
  Shard_MaxLagBytes := 0 |}.
Definition demoShards : list ShardStatus := [demoShard 0 ShardHealthReady; demoShard 1 ShardHealthDegraded].
Definition demoWrite : prog Outcome := updateClusterStatus demoFormed 6 true demoShards.

(** Ready keeps its transition time 5, ShardsHealthy flips at 7. *)
Lemma updateClusterStatus_readiness_witness :
  let st' := Status (out_vc (run status_handle demoWrite tt).1) in
  Status_Phase st' = PhaseReady ∧
  stamped (trace status_handle demoWrite tt) (Status_Conditions (Status demoFormed)) (Status_Conditions st')
    ConditionShardsHealthy ConditionFalse 1 ∧
  cond_LastTransitionTime <$> findCondition ConditionReady (Status_Conditions st') = Some 5%Z.
Proof.
  destruct (updateClusterStatus_readiness demoFormed 6 true demoShards _ _ (run_exec status_handle demoWrite tt))
    as (_ & HP & _ & HS & _).
  split_and!; [by apply HP|by apply HS|reflexivity].
Defined.

Definition demoUpdateSts : StatefulSet := stsOfStatus "demo" "ns" 1 (Some 3%Z) 1 2 3 "" "".
Lemma updateStatus_readiness_witness :
  let st' := Status (out_vc (run status_handle (updateStatus demo demoUpdateSts "") tt).1) in
  Status_Phase st' ≠ PhaseReady ∧ Status_Primary st' = "demo-0".
Proof.
  destruct (updateStatus_readiness demo demoUpdateSts "" _ _ (run_exec status_handle _ tt))
    as (_ & HP & _ & _ & _ & _ & HH).
  split; [rewrite HP; intros [? _]; discriminate|by apply HH].
Defined.
