(* ===== verification/Jobs.v ===== *)
(** * Jobs: the one-shot Jobs of the Cluster topology
      (cluster.go, cluster_pershard.go, restore_assembly.go)

    Each builder renders a shell script around [valkey-cli --cluster ...] and wraps
    it into a [batchv1.Job].  The scripts are modelled as the text the operator
    writes; what the theorems say about them is which pods they name.  What
    [valkey-cli] does with them is the environment's. *)

From S2P Require Import Prelude GoStd Kube Api Effects Naming.

(** ** Text

    A literal that contains a double quote is written with a backquote in its
    place ([q] puts the quote back); no script of the operator has a backquote. *)
Fixpoint q (s : string) : string :=
  match s with
  | "" => ""
  | String a s' => (if (a =? "`")%char then dq else String a "") +:+ q s'
  end.
(** Each line with its newline. *)
Definition unlines (l : list string) : string := String.concat "" ((λ x, x +:+ nl) <$> l).
(** [strings.Builder] filled by a loop. *)
Definition cat (l : list string) : string := String.concat "" l.

Definition noAuthWarningArgs : string := q " -a `$VALKEY_PASSWORD` --no-auth-warning".
Definition s3EndpointURLFlag : string := q " --endpoint-url `$ENDPOINT_URL`".
Definition defaultAWSCLIImage : string := "amazon/aws-cli:2.15.0".
Definition workVolumeName : string := "work".
Definition envAWSAccessKey : string := "AWS_ACCESS_KEY_ID".
Definition envAWSSecretKey : string := "AWS_SECRET_ACCESS_KEY".
Definition envAWSDefaultRegion : string := "AWS_DEFAULT_REGION".
Definition envS3EndpointURL : string := "ENDPOINT_URL".

(** ** Security contexts (resources.go) *)
Definition valkeyRunAsID : Z := 1000.
Definition podSecurityContext (vc : ValkeyCluster) : PodSecurityContext :=
  match Spec_PodSecurityContext (Spec vc) with
  | Some c => c
  | None => {| psc_FSGroup := Some valkeyRunAsID; psc_RunAsUser := Some valkeyRunAsID;
               psc_RunAsNonRoot := Some true; psc_SeccompProfile := Some "RuntimeDefault"; psc_Rest := "" |}
  end.
Definition containerSecurityContext (vc : ValkeyCluster) : SecurityContext :=
  match Spec_ContainerSecurityContext (Spec vc) with
  | Some c => c
  | None => {| sc_AllowPrivilegeEscalation := Some false; sc_RunAsNonRoot := Some true;
               sc_CapabilitiesDrop := ["ALL"]; sc_SeccompProfile := Some "RuntimeDefault"; sc_Rest := "" |}
  end.

(** ** What every builder starts with *)
Definition tlsArgsOf (vc : ValkeyCluster) : string :=
  if tlsEnabled vc then
    " --tls --cert " +:+ tlsMountPath +:+ "/tls.crt --key " +:+ tlsMountPath +:+ "/tls.key --cacert " +:+
    tlsMountPath +:+ "/ca.crt --insecure"
  else "".
Definition pwArgOf (password : string) : string := if password != "" then noAuthWarningArgs else "".
(** The password comes from the operator's own Secret, and the certificate from the TLS one. *)
Definition secretRef (secretName key : string) : EnvSource := EnvSecretKey secretName key.
Definition jobEnv (vc : ValkeyCluster) (password : string) : list EnvVar :=
  if password != "" then
    [{| env_Name := envValkeyPassword; env_From := secretRef (passwordSecretName vc) secretKeyPassword |}]
  else [].
Definition jobVolumes (vc : ValkeyCluster) : list Volume :=
  if tlsEnabled vc then [{| vol_Name := tlsVolumeName; vol_Source := VolSecret (tlsSecretName vc) [] |}] else [].
Definition jobMounts (vc : ValkeyCluster) : list VolumeMount :=
  if tlsEnabled vc then [{| vm_Name := tlsVolumeName; vm_MountPath := tlsMountPath; vm_ReadOnly := true |}] else [].

Definition buildClusterOpJob (vc : ValkeyCluster) (name containerName password script : string) : Job := {|
  job_Name := name; job_Namespace := vcNamespace vc; job_Labels := labelsFor vc;
  job_BackoffLimit := 3; job_TTLSecondsAfterFinished := Some 600%Z;
  job_PodLabels := podLabelsFor vc (labelsFor vc);
  job_PodSpec := jobPodSpec []
    [plainContainer containerName (Spec_Image (Spec vc)) [shellCmd; "-c"; script]
       (jobEnv vc password) (jobMounts vc) (Some (containerSecurityContext vc))]
    (jobVolumes vc) (Spec_ImagePullSecrets (Spec vc)) (podSecurityContext vc);
  job_Succeeded := 0; job_Failed := 0 |}.

Definition asmDetectSnippet (pwArg tlsArgs host : string) (port : Z) : string :=
  unlines [
    q "ASM_FLAG=``";
    "__ver=$(valkey-cli" +:+ pwArg +:+ tlsArgs +:+ " -h " +:+ host +:+ " -p " +:+ Itoa port +:+
      " INFO server 2>/dev/null | sed -n 's/^valkey_version:\([0-9]*\.[0-9]*\).*/\1/p' | tr -d '\r')";
    "__maj=${__ver%%.*}; __min=${__ver#*.}";
    q "if [ `${__maj:-0}` -gt 9 ] 2>/dev/null || { [ `${__maj:-0}` -eq 9 ] && [ `${__min:-0}` -ge 1 ]; } 2>/dev/null; then";
    q "  ASM_FLAG=` --cluster-use-atomic-slot-migration`";
    q "  echo `valkey ${__ver} >= 9.1: resharding via atomic slot migration (ASM)`";
    "fi"].

(** ** Forming the cluster *)

(** [masters] and [replicas] of [buildShardCreateCmds], two Go maps filled by one loop. *)
Definition groupShards (pods : list podRef) : gmap Z string * gmap Z (list string) :=
  foldl (λ acc p, if ref_ord p == 0%Z then (<[ref_shard p := ref_host p]> acc.1, acc.2)
                  else (acc.1, <[ref_shard p := default [] (acc.2 !! ref_shard p) ++ [ref_host p]]> acc.2))
    (∅, ∅) pods.
Definition buildShardCreateCmds (vc : ValkeyCluster) (pods : list podRef) (port : Z) (tlsArgs pwArg : string) : string :=
  let '(masters, replicas) := groupShards pods in
  let master s := default "" (masters !! s) in
  let ms := (λ s, master s +:+ ":" +:+ Itoa port) <$> zrange 0 (shardCountOf vc) in
  "valkey-cli" +:+ pwArg +:+ tlsArgs +:+ " --cluster create " +:+ join " " ms +:+
    " --cluster-replicas 0 --cluster-yes" +:+ nl +:+
  cat (s ← zrange 0 (shardCountOf vc);
    (λ rep, unlines [
      "MID=$(valkey-cli" +:+ pwArg +:+ tlsArgs +:+ " -h " +:+ master s +:+ " -p " +:+ Itoa port +:+ " cluster myid)";
      "valkey-cli" +:+ pwArg +:+ tlsArgs +:+ " --cluster add-node " +:+ rep +:+ ":" +:+ Itoa port +:+ " " +:+
        master s +:+ ":" +:+ Itoa port +:+ q " --cluster-slave --cluster-master-id `$MID`"])
      <$> default [] (replicas !! s)).

Definition buildBootstrapJob (vc : ValkeyCluster) (password name : string) : Job :=
  let port := dataPort vc in
  let tlsArgs := tlsArgsOf vc in
  let pods := clusterDataPods vc in
  let pwArg := pwArgOf password in
  let waitCmd :=
    "for n in" +:+ cat ((λ p, " " +:+ ref_host p) <$> pods) +:+ "; do" +:+ nl +:+
    "  until valkey-cli" +:+ pwArg +:+ tlsArgs +:+ " -h $n -p " +:+ Itoa port +:+ " ping >/dev/null 2>&1; do" +:+ nl +:+
    unlines ["    echo waiting for $n; sleep 2;"; "  done"; "done"] in
  let clusterCmds :=
    if perShardEnabled vc then buildShardCreateCmds vc pods port tlsArgs pwArg
    else "valkey-cli" +:+ pwArg +:+ tlsArgs +:+ " --cluster create " +:+
         join " " ((λ p, ref_host p +:+ ":" +:+ Itoa port) <$> pods) +:+
         " --cluster-replicas " +:+ Itoa (replicasPerShardOf vc) +:+ " --cluster-yes" +:+ nl in
  buildClusterOpJob vc name "bootstrap" password (unlines ["#!/bin/sh"; "set -eu"] +:+ waitCmd +:+ clusterCmds).

(** ** Growing *)

(** Two lines the rebalance loops of both scale-up scripts share. *)
Definition rebalanceLine (pwArg tlsArgs existing : string) : string :=
  "  valkey-cli" +:+ pwArg +:+ tlsArgs +:+ " --cluster rebalance " +:+ existing +:+
  " --cluster-use-empty-masters$ASM_FLAG --cluster-yes || true".
Definition sizeLine (pwArg tlsArgs existingHost : string) (port : Z) : string :=
  "  size=$(valkey-cli" +:+ pwArg +:+ tlsArgs +:+ " -h " +:+ existingHost +:+ " -p " +:+ Itoa port +:+
  " cluster info | tr -d '\r' | awk -F: '/^cluster_size:/{print $2}')".

(** [shardPodHosts(vc, 0)[0]]. *)
Definition shardHead (vc : ValkeyCluster) (s : Z) : string := default "" (head (shardPodHosts vc s)).

Definition buildShardScaleUpScript (vc : ValkeyCluster) (port : Z) (tlsArgs pwArg : string) : string :=
  let existingHost := shardHead vc 0 in
  let existing := existingHost +:+ ":" +:+ Itoa port in
  let new := zrange (oldShardsOf vc) (shardCountOf vc) in
  unlines ["#!/bin/sh"; "set -eu";
    "in_cluster() { valkey-cli" +:+ pwArg +:+ tlsArgs +:+ " -h " +:+ existingHost +:+ " -p " +:+ Itoa port +:+
      q " cluster nodes | grep -q `$1`; }"] +:+
  cat (s ← new; (λ h, "until valkey-cli" +:+ pwArg +:+ tlsArgs +:+ " -h " +:+ h +:+ " -p " +:+ Itoa port +:+
    " ping >/dev/null 2>&1; do echo waiting " +:+ h +:+ "; sleep 2; done" +:+ nl) <$> shardPodHosts vc s) +:+
  cat ((λ s, let master := shardHead vc s +:+ ":" +:+ Itoa port in
    "in_cluster " +:+ shardHead vc s +:+ " || valkey-cli" +:+ pwArg +:+ tlsArgs +:+ " --cluster add-node " +:+
      master +:+ " " +:+ existing +:+ nl +:+
    cat ((λ rep, unlines [
      "MID=$(valkey-cli" +:+ pwArg +:+ tlsArgs +:+ " -h " +:+ shardHead vc s +:+ " -p " +:+ Itoa port +:+
        " cluster myid | tr -d '\r')";
      "in_cluster " +:+ rep +:+ " || valkey-cli" +:+ pwArg +:+ tlsArgs +:+ " --cluster add-node " +:+ rep +:+ ":" +:+
        Itoa port +:+ " " +:+ master +:+ q " --cluster-slave --cluster-master-id `$MID`"])
      <$> tail (shardPodHosts vc s))) <$> new) +:+
  (if AutoReshardEnabled (Spec vc) then
     asmDetectSnippet pwArg tlsArgs existingHost port +:+
     unlines ["want_masters=" +:+ Itoa (shardCountOf vc); "for attempt in $(seq 1 12); do";
       rebalanceLine pwArg tlsArgs existing; sizeLine pwArg tlsArgs existingHost port;
       q "  [ `${size:-0}` -ge `$want_masters` ] && break"; "  sleep 5"; "done"]
   else "").

Definition buildScaleUpJob (vc : ValkeyCluster) (password name : string) : Job :=
  let port := dataPort vc in
  let tlsArgs := tlsArgsOf vc in
  let pwArg := pwArgOf password in
  if perShardEnabled vc then
    buildClusterOpJob vc name "scaleup" password (buildShardScaleUpScript vc port tlsArgs pwArg)
  else
    let host i := fqdn (statefulSetName vc) i (headlessServiceName vc) (vcNamespace vc) in
    let existingHost := host 0%Z in
    let existing := existingHost +:+ ":" +:+ Itoa port in
    let addNode i :=
      let newNode := host i +:+ ":" +:+ Itoa port in
      "echo 'adding " +:+ newNode +:+ "'; valkey-cli" +:+ pwArg +:+ tlsArgs +:+ " --cluster add-node " +:+
      newNode +:+ " " +:+ existing +:+ nl in
    buildClusterOpJob vc name "scaleup" password
      (unlines ["#!/bin/sh"; "set -eu"] +:+
       cat (addNode <$> zrange (Status_LastAppliedReplicas (Status vc)) (totalReplicas vc)) +:+
       (if AutoReshardEnabled (Spec vc) then
          asmDetectSnippet pwArg tlsArgs existingHost port +:+
          unlines ["want_masters=" +:+ Itoa (shardCountOf vc); "for attempt in $(seq 1 12); do";
            q "  echo `rebalance attempt $attempt`"; rebalanceLine pwArg tlsArgs existing;
            sizeLine pwArg tlsArgs existingHost port; "  size=${size:-0}";
            q "  echo `cluster_size=$size want=$want_masters`";
            q "  [ `$size` -ge `$want_masters` ] && { echo 'rebalance complete'; break; }"; "  sleep 5"; "done"]
        else "")).

(** ** Shrinking *)
Definition buildShardScaleDownScript (vc : ValkeyCluster) (port : Z) (tlsArgs pwArg : string) : string :=
  let hostBase := shardHead vc 0 in
  let cli := "valkey-cli" +:+ pwArg +:+ tlsArgs in
  let at_base := hostBase +:+ ":" +:+ Itoa port in
  let myid h := cli +:+ " -h " +:+ h +:+ " -p " +:+ Itoa port +:+ " cluster myid | tr -d '\r'" in
  unlines ["#!/bin/sh"; "set -eu"; "KEEP_ID=$(" +:+ myid hostBase +:+ ")"] +:+
  asmDetectSnippet pwArg tlsArgs hostBase port +:+
  unlines [cli +:+ " --cluster fix " +:+ at_base +:+ " --cluster-yes || true"] +:+
  cat ((λ s, unlines ([
      "echo '--- leaving shard " +:+ Itoa s +:+ " ---'";
      "L_ID=$(" +:+ myid (shardHead vc s) +:+ ")";
      "for try in 1 2 3 4 5 6; do";
      "  " +:+ cli +:+ " --cluster reshard " +:+ at_base +:+
        q " --cluster-from `$L_ID` --cluster-to `$KEEP_ID` --cluster-slots 16384$ASM_FLAG --cluster-yes || true";
      "  OWNED=$(" +:+ cli +:+ " -h " +:+ hostBase +:+ " -p " +:+ Itoa port +:+
        q " cluster nodes | awk -v id=`$L_ID` '$1==id' | sed -e 's/.* connected//' -e 's/[[:space:]]//g')";
      q "  [ -z `$OWNED` ] && break";
      q "  echo `reshard incomplete (owns [$OWNED]); fixing open slots and retrying`";
      "  " +:+ cli +:+ " --cluster fix " +:+ at_base +:+ " --cluster-yes || true";
      "  sleep 3";
      "done";
      q "if [ -n `$OWNED` ]; then echo `FATAL: shard " +:+ Itoa s +:+
        q " master still owns slots [$OWNED]; refusing del-node`; exit 1; fi"] ++
    ((λ rep, "RID=$(" +:+ myid rep +:+ "); " +:+ cli +:+ " --cluster del-node " +:+ at_base +:+ q " `$RID` || true")
       <$> tail (shardPodHosts vc s)) ++
    [cli +:+ " --cluster del-node " +:+ at_base +:+ q " `$L_ID`"]))
    <$> zrange (shardCountOf vc) (oldShardsOf vc)).

(** The pods the single-StatefulSet scale-down drains and removes. *)
Definition leavingHosts (vc : ValkeyCluster) : list string :=
  (λ i, fqdn (statefulSetName vc) i (headlessServiceName vc) (vcNamespace vc))
    <$> zrange (totalReplicas vc) (Status_LastAppliedReplicas (Status vc)).

Definition buildScaleDownJob (vc : ValkeyCluster) (password name : string) : Job :=
  let port := dataPort vc in
  let tlsArgs := tlsArgsOf vc in
  let pwArg := pwArgOf password in
  if perShardEnabled vc then
    buildClusterOpJob vc name "scaledown" password (buildShardScaleDownScript vc port tlsArgs pwArg)
  else
    let hostBase := fqdn (statefulSetName vc) 0 (headlessServiceName vc) (vcNamespace vc) in
    let existing := hostBase +:+ ":" +:+ Itoa port in
    let leaving := cat ((λ h, " " +:+ h) <$> leavingHosts vc) in
    let cli := "valkey-cli" +:+ pwArg +:+ tlsArgs in
    let nodes := cli +:+ " -h $HOST -p " +:+ Itoa port +:+ " cluster nodes" in
    let script :=
      unlines ["#!/bin/sh"; "set -eu"; "HOST=" +:+ hostBase] +:+
      asmDetectSnippet pwArg tlsArgs "$HOST" port +:+
      unlines [
        "REMAINING_MASTER_ID=$(" +:+ nodes +:+ " | awk '/myself/ {print $1; exit}')";
        q "if [ -z `$REMAINING_MASTER_ID` ]; then";
        q "  echo `no surviving master found`; exit 1";
        "fi";
        q "echo `remaining master (pod-0): $REMAINING_MASTER_ID`";
        "for L in" +:+ leaving +:+ "; do";
        q "  echo `--- leaving $L ---`";
        "  L_ID=$(" +:+ nodes +:+ q " | awk -v p=`$L` '$2 ~ p {print $1; exit}')";
        q "  if [ -z `$L_ID` ]; then";
        q "    echo `node $L not in cluster, skipping`; continue";
        "  fi";
        "  # Reshard everything it owns away (best-effort: a no-op on an already-empty";
        "  # master can exit non-zero, which is fine — the ownership gate below is the";
        "  # authoritative safety check).";
        "  " +:+ cli +:+ " --cluster reshard " +:+ existing +:+ " \";
        q "    --cluster-from `$L_ID` --cluster-to `$REMAINING_MASTER_ID` \";
        "    --cluster-slots 16384$ASM_FLAG --cluster-yes || true";
        "  # SAFETY GATE: refuse to remove a master that still owns slots. Deleting it";
        "  # (and, once this Job succeeds, the StatefulSet pod behind it) would orphan";
        "  # those slots and lose their data. Fail the Job loudly so the operator leaves";
        "  # LastAppliedReplicas — and therefore the StatefulSet size — untouched.";
        "  OWNED=$(" +:+ nodes +:+ q " | awk -v id=`$L_ID` '$1==id' | sed -e 's/.* connected//' -e 's/[[:space:]]//g')";
        q "  if [ -n `$OWNED` ]; then";
        q "    echo `FATAL: $L ($L_ID) still owns slots [$OWNED] after reshard; refusing del-node to avoid data loss`";
        "    exit 1";
        "  fi";
        "  " +:+ cli +:+ " --cluster del-node " +:+ existing +:+ q " `$L_ID`";
        "done"] +:+
      (if AutoReshardEnabled (Spec vc) then
         unlines ["echo 'rebalancing surviving masters'";
           cli +:+ " --cluster rebalance " +:+ existing +:+ "$ASM_FLAG --cluster-yes"]
       else "") in
    buildClusterOpJob vc name "scaledown" password script.

(** ** Resharding on request *)
Definition buildReshardJob (vc : ValkeyCluster) (password name : string) : Job :=
  let port := dataPort vc in
  let tlsArgs := tlsArgsOf vc in
  let pwArg := pwArgOf password in
  let existingHost := fqdn (statefulSetName vc) 0 (headlessServiceName vc) (vcNamespace vc) in
  buildClusterOpJob vc name "reshard" password
    (unlines ["#!/bin/sh"; "set -eu"] +:+ asmDetectSnippet pwArg tlsArgs existingHost port +:+
     unlines ["echo 'rebalancing'";
       "valkey-cli" +:+ pwArg +:+ tlsArgs +:+ " --cluster rebalance " +:+ existingHost +:+ ":" +:+ Itoa port +:+
       " --cluster-use-empty-masters$ASM_FLAG --cluster-yes"]).

(** ** Re-assembling a restored cluster (restore_assembly.go) *)

(** [strings.Replace(s, old, new, 1)]. *)
Fixpoint replaceFirst (s old new : string) : string :=
  match strip_prefix old s with
  | Some rest => new +:+ rest
  | None => match s with "" => "" | String a s' => String a (replaceFirst s' old new) end
  end.
Definition clusterRestoreManifestKey (sourceKey : string) : string :=
  if contains sourceKey "shard-{shard}.rdb" then replaceFirst sourceKey "shard-{shard}.rdb" "manifest.txt"
  else replaceFirst sourceKey "{shard}.rdb" "manifest.txt".

(** The body of the assembly script: it has no format verb. *)
Definition assemblyBody : string := unlines [
  "";
  "# 1) wait until every node answers PING (the restore pods may still be settling)";
  "i=0";
  q "while [ `$i` -lt `$TOTAL` ]; do";
  q "  until VC -h `$(node `$i`)` -p `$PORT` ping >/dev/null 2>&1; do echo `waiting $(node `$i`)`; sleep 2; done";
  "  i=$((i + 1))";
  "done";
  "# 2) per master (from manifest): give it the slots it must own that the restored";
  "#    RDB didn't already claim. A cluster-master RDB carries slot ownership ONLY";
  "#    for data-bearing slots (Valkey AUX slot-info), so on load the node owns a";
  "#    SPARSE subset of its range — ADDSLOTSRANGE over the whole range would fail";
  q "#    (`Slot N is already busy`). We compute the gap (manifest slots MINUS the";
  "#    already-owned ones) and add only those, as collapsed contiguous ranges. The";
  "#    config epoch is left as-is: it's carried distinct per shard from the source";
  "#    RDBs, and SET-CONFIG-EPOCH rejects an already-non-zero epoch (collisions, if";
  "#    any, are auto-resolved by gossip after MEET).";
  "expand() { tr ',' '\n' | awk -F- 'NF==2{for(k=$1;k<=$2;k++)print k; next}{print $1}'; }";
  "while read -r LINE; do";
  q "  case `$LINE` in \#*|``) continue ;; esac";
  q "  IDX=$(printf '%s\n' `$LINE` | awk '{print $1}' | sed 's/^shard-//')";
  q "  SLOTS=$(printf '%s\n' `$LINE` | awk '{print $3}')";
  q "  [ -n `$SLOTS` ] || { echo `FATAL: shard $IDX has no slots in manifest`; exit 1; }";
  q "  MH=`$(node `$IDX`)`";
  q "  printf '%s' `$SLOTS` | expand | sort -n > /tmp/want.$IDX";
  q "  VC -h `$MH` -p `$PORT` cluster nodes | tr -d '\r' \";
  q "    | awk '/myself/{for(j=9;j<=NF;j++){if($j ~ /^[0-9]+-[0-9]+$/){split($j,r,`-`);for(k=r[1];k<=r[2];k++)print k}else if($j ~ /^[0-9]+$/)print $j}}' \";
  "    | sort -n > /tmp/have.$IDX";
  "  awk 'NR==FNR{h[$1]=1;next} !($1 in h){print $1}' /tmp/have.$IDX /tmp/want.$IDX \";
  "    | awk 'NR==1{lo=$1;p=$1;next} $1==p+1{p=$1;next} {print lo,p;lo=$1;p=$1} END{if(NR>0)print lo,p}' \";
  q "    | while read -r a b; do echo `  shard $IDX: addslotsrange $a $b`; VC -h `$MH` -p `$PORT` cluster addslotsrange `$a` `$b`; done";
  "done < /work/manifest.txt";
  "# 3) MEET mesh from pod-0. The node's gossip address has no IP (announce-ip is";
  q "#    unset → `:port@cport,hostname`), and CLUSTER MEET needs an IP, so resolve";
  "#    each pod's FQDN with getent (present in the valkey image) and meet by IP.";
  q "M0=`$(node 0)`";
  "i=1";
  q "while [ `$i` -lt `$TOTAL` ]; do";
  q "  FQ=`$(node `$i`)`";
  q "  IP=$(getent hosts `$FQ` | awk '{print $1; exit}')";
  q "  [ -n `$IP` ] || { echo `FATAL: cannot resolve $FQ`; exit 1; }";
  q "  VC -h `$M0` -p `$PORT` cluster meet `$IP` `$PORT`";
  "  i=$((i + 1))";
  "done";
  "# 4) wait for gossip to converge (pod-0 knows every node)";
  "ok=0; n=0";
  q "while [ `$n` -lt 150 ]; do";
  q "  KN=$(VC -h `$M0` -p `$PORT` cluster info | tr -d '\r' | awk -F: '/cluster_known_nodes:/{print $2+0}')";
  q "  [ `$KN` = `$TOTAL` ] && { ok=1; break; }";
  "  sleep 2; n=$((n + 1))";
  "done";
  q "[ `$ok` = 1 ] || { echo `FATAL: gossip did not converge (${KN:-0}/$TOTAL known)`; exit 1; }";
  "# 5) REPLICATE: replica ordinals (>= SHARDS) attach round-robin to masters.";
  q "o=`$SHARDS`";
  q "while [ `$o` -lt `$TOTAL` ]; do";
  "  SIDX=$(( (o - SHARDS) % SHARDS ))";
  q "  MID=$(VC -h `$(node `$SIDX`)` -p `$PORT` cluster myid | tr -d '\r')";
  q "  [ -n `$MID` ] || { echo `FATAL: empty master id for shard $SIDX`; exit 1; }";
  q "  echo `replica $(node `$o`) -> master shard $SIDX ($MID)`";
  "  # A replica can only replicate a master it has already learned about via gossip.";
  q "  # NB: valkey-cli exits 0 even on an `ERR Unknown node ...` reply, so we must";
  "  # check the reply text (== OK) — not the exit code — and retry (bounded) until";
  "  # gossip converges and the command actually takes.";
  "  rn=0";
  q "  until [ `$(VC -h `$(node `$o`)` -p `$PORT` cluster replicate `$MID` 2>&1 | tr -d '\r')` = `OK` ]; do";
  q "    rn=$((rn + 1)); [ `$rn` -ge 90 ] && { echo `FATAL: replica $(node `$o`) could not replicate $MID`; exit 1; }";
  q "    echo `retry replicate $(node `$o`)`; sleep 2";
  "  done";
  "  o=$((o + 1))";
  "done";
  "# 6) wait for cluster_state:ok with all slots assigned";
  "n=0";
  q "while [ `$n` -lt 150 ]; do";
  q "  INFO=$(VC -h `$M0` -p `$PORT` cluster info | tr -d '\r')";
  q "  ST=$(printf '%s\n' `$INFO` | awk -F: '/cluster_state:/{print $2}')";
  q "  SA=$(printf '%s\n' `$INFO` | awk -F: '/cluster_slots_assigned:/{print $2+0}')";
  q "  if [ `$ST` = ok ] && [ `$SA` = 16384 ]; then echo `cluster assembled: state ok, 16384 slots`; exit 0; fi";
  "  sleep 2; n=$((n + 1))";
  "done";
  q "echo `FATAL: cluster did not reach state ok with all slots`";
  q "VC -h `$M0` -p `$PORT` cluster info || true";
  "exit 1"].

Definition assemblyPodSpec (vc : ValkeyCluster) (password awsImage fetchScript script : string) (awsEnv : list EnvVar) : PodSpec :=
  let work := {| vm_Name := workVolumeName; vm_MountPath := "/work"; vm_ReadOnly := false |} in
  jobPodSpec
    [plainContainer "fetch-manifest" awsImage [shellCmd; "-c"; fetchScript] awsEnv [work] (Some (containerSecurityContext vc))]
    [plainContainer "assemble" (Spec_Image (Spec vc)) [shellCmd; "-c"; script] (jobEnv vc password) (work :: jobMounts vc)
       (Some (containerSecurityContext vc))]
    ({| vol_Name := workVolumeName; vol_Source := VolEmptyDir "" None |} :: jobVolumes vc)
    (Spec_ImagePullSecrets (Spec vc)) (podSecurityContext vc).
(** [rs] is [*vc.Spec.RestoreFrom] and [s3] is [*rs.S3]: the caller is reached only with a
    restore source, and admission requires its S3 block. *)
Definition buildRestoreAssemblyJob (vc : ValkeyCluster) (rs : RestoreSpec) (s3 : S3Spec) (password name : string) : Job :=
  let tlsArgs := tlsArgsOf vc in
  let pwArg := pwArgOf password in
  let header := unlines ["#!/bin/sh"; "set -eu"; "PORT=" +:+ Itoa (dataPort vc); "SHARDS=" +:+ Itoa (shardCountOf vc);
    "TOTAL=" +:+ Itoa (totalReplicas vc);
    q "node() { echo `" +:+ statefulSetName vc +:+ "-$1." +:+ headlessServiceName vc +:+ "." +:+ vcNamespace vc +:+
      q ".svc.cluster.local`; }";
    "VC() { valkey-cli" +:+ pwArg +:+ tlsArgs +:+ q " `$@`; }"] in
  let awsImage := if Restore_AWSCLIImage rs == "" then defaultAWSCLIImage else Restore_AWSCLIImage rs in
  let endpointFlag := if S3_Endpoint s3 != "" then s3EndpointURLFlag else "" in
  let uri := "s3://" +:+ S3_Bucket s3 +:+ "/" +:+ clusterRestoreManifestKey (Restore_SourceKey rs) in
  let fetchScript := unlines ["set -eu"; q "echo `fetching restore manifest " +:+ uri +:+ dq;
    q "aws s3 cp `" +:+ uri +:+ q "` /work/manifest.txt" +:+ endpointFlag;
    q "echo `manifest:`; cat /work/manifest.txt"] in
  let awsEnv := [{| env_Name := envAWSAccessKey; env_From := secretRef (S3_CredentialsSecret s3) envAWSAccessKey |};
    {| env_Name := envAWSSecretKey; env_From := secretRef (S3_CredentialsSecret s3) envAWSSecretKey |};
    {| env_Name := envAWSDefaultRegion; env_From := EnvValue (S3_Region s3) |};
    {| env_Name := "HOME"; env_From := EnvValue "/tmp" |}] ++
    (if S3_Endpoint s3 != "" then [{| env_Name := envS3EndpointURL; env_From := EnvValue (S3_Endpoint s3) |}] else []) in
  {| job_Name := name; job_Namespace := vcNamespace vc; job_Labels := labelsFor vc;
     job_BackoffLimit := 3; job_TTLSecondsAfterFinished := Some 600%Z;
     job_PodLabels := podLabelsFor vc (labelsFor vc);
     job_PodSpec := assemblyPodSpec vc password awsImage fetchScript (header +:+ assemblyBody) awsEnv;
     job_Succeeded := 0; job_Failed := 0 |}.

(** ** Who leaves and who stays *)
Definition leavingPodHosts (vc : ValkeyCluster) : list string :=
  if perShardEnabled vc then s ← zrange (shardCountOf vc) (oldShardsOf vc); shardPodHosts vc s else leavingHosts vc.

(** The sizes a scale-down starts from: the applied size is that of [oldShardsOf] whole shards. *)
Record shrinking (vc : ValkeyCluster) : Prop := {
  sh_cluster : Spec_Topology (Spec vc) = TopologyCluster;
  sh_shards : (0 < shardCountOf vc ≤ oldShardsOf vc)%Z;
  sh_replicas : (0 ≤ replicasPerShardOf vc)%Z;
  sh_per : is_int32 (1 + replicasPerShardOf vc);
  sh_total : is_int32 (oldShardsOf vc * (1 + replicasPerShardOf vc));
  sh_applied : Status_LastAppliedReplicas (Status vc) = (oldShardsOf vc * (1 + replicasPerShardOf vc))%Z
}.
(** The cluster as it was before its spec shrank. *)
Definition asApplied (vc : ValkeyCluster) : ValkeyCluster :=
  with_spec vc (set_Spec_Shards (Some (oldShardsOf vc))).

Lemma zrange_app a b c : (a ≤ b ≤ c)%Z → zrange a c = zrange a b ++ zrange b c.
Proof.
  intros Hb. unfold zrange. replace (Z.to_nat (c - a)) with (Z.to_nat (b - a) + Z.to_nat (c - b)) by lia.
  rewrite seq_app, fmap_app. f_equal. rewrite Nat.add_0_l.
  rewrite <-(Nat.add_0_r (Z.to_nat (b - a))), <-fmap_add_seq, <-list_fmap_compose.
  apply list_fmap_ext. intros i x _. simpl. lia.
Qed.

Lemma asApplied_fields vc :
  Meta (asApplied vc) = Meta vc ∧ Status (asApplied vc) = Status vc ∧ shardCountOf (asApplied vc) = oldShardsOf vc ∧
  replicasPerShardOf (asApplied vc) = replicasPerShardOf vc ∧ perShardEnabled (asApplied vc) = perShardEnabled vc ∧
  Spec_Topology (Spec (asApplied vc)) = Spec_Topology (Spec vc).
Proof.
  unfold asApplied, shardCountOf, replicasPerShardOf, perShardEnabled. cbn. by destruct (Spec vc).
Qed.
Lemma totalReplicas_mul vc :
  Spec_Topology (Spec vc) = TopologyCluster → is_int32 (1 + replicasPerShardOf vc) →
  is_int32 (shardCountOf vc * (1 + replicasPerShardOf vc)) →
  totalReplicas vc = (shardCountOf vc * (1 + replicasPerShardOf vc))%Z.
Proof.
  intros HT H1 H2. unfold totalReplicas. rewrite HT, bool_decide_true by done. cbn [negb].
  unfold shardCountOf, replicasPerShardOf in *. rewrite (wrap32_small (1 + _)) by done. by apply wrap32_small.
Qed.

Lemma fqdn_no_colon vc sts hl o :
  well_named vc → dns_label sts = true → dns_label hl = true → (0 ≤ o)%Z →
  lacks ":" (fqdn sts o hl (vcNamespace vc)) = true.
Proof.
  intros [_ Hns] Hs Hh Ho. unfold fqdn. rewrite !lacks_app, (Itoa_lacks ":") by done.
  unfold dns_label in *. bool_hyps. repeat match goal with E : lacks ":" _ = true |- _ => rewrite E; clear E end. done.
Qed.

Lemma leaving_no_colon vc :
  well_named vc → (0 ≤ shardCountOf vc)%Z → (0 ≤ totalReplicas vc)%Z →
  Forall (λ h, lacks ":" h = true) (leavingPodHosts vc).
Proof.
  intros Hw Hs Ht. rewrite Forall_forall. intros h. unfold leavingPodHosts. destruct (perShardEnabled vc).
  - intros (s & (o & -> & Ho%elem_of_zrange)%list_elem_of_fmap & Hs'%elem_of_zrange)%list_elem_of_bind.
    apply fqdn_no_colon; [done| | |lia]; apply (shardStsName_label vc s); auto; lia.
  - intros (o & -> & Ho%elem_of_zrange)%list_elem_of_fmap.
    apply fqdn_no_colon; [done| |by apply headlessServiceName_label|lia]. by destruct Hw.
Qed.

Lemma hosts_perShard vc :
  perShardEnabled vc = true → (ref_host <$> clusterDataPods vc) = s ← zrange 0 (shardCountOf vc); shardPodHosts vc s.
Proof.
  intros HP. unfold clusterDataPods. rewrite HP. generalize (zrange 0 (shardCountOf vc)). intros l.
  induction l as [|s l IH]; [done|]. cbn. rewrite fmap_app. f_equal; [|exact IH].
  unfold shardPodHosts. by rewrite <-list_fmap_compose.
Qed.
Lemma hosts_single vc :
  perShardEnabled vc = false → (ref_host <$> clusterDataPods vc) =
  (λ i, fqdn (statefulSetName vc) i (headlessServiceName vc) (vcNamespace vc)) <$> zrange 0 (totalReplicas vc).
Proof. intros HP. unfold clusterDataPods. rewrite HP. by rewrite <-list_fmap_compose. Qed.

Lemma asApplied_hosts vc l : (l ≫= shardPodHosts (asApplied vc)) = l ≫= shardPodHosts vc.
Proof.
  destruct (asApplied_fields vc) as (EM & _ & _ & ER & _). induction l as [|s l IH]; [done|]. cbn. f_equal; [|exact IH].
  unfold shardPodHosts, shardStsName, shardHeadlessName. by rewrite EM, ER.
Qed.


(** ** Grouping by shard *)

(** What the loop of [buildShardCreateCmds] does with one pod. *)
Abbreviation groupStep := (λ (acc : gmap Z string * gmap Z (list string)) (p : podRef),
  if ref_ord p == 0%Z then (<[ref_shard p := ref_host p]> acc.1, acc.2)
  else (acc.1, <[ref_shard p := default [] (acc.2 !! ref_shard p) ++ [ref_host p]]> acc.2)).
Abbreviation shardRef vc s := (λ o, {| ref_host := fqdn (shardStsName vc s) o (shardHeadlessName vc s) (vcNamespace vc);
  ref_shard := s; ref_ord := o |}).

Lemma group_replicas vc s os acc :
  Forall (λ o, o ≠ 0%Z) os →
  let r := foldl groupStep acc (shardRef vc s <$> os) in
  r.1 = acc.1 ∧ ∀ t, default [] (r.2 !! t) =
    if decide (t = s) then default [] (acc.2 !! s) ++ (ref_host <$> (shardRef vc s <$> os)) else default [] (acc.2 !! t).
Proof.
  intros Ho. revert acc. induction Ho as [|o os Ho _ IH]; intros acc.
  - cbn. split; [done|]. intros t. case_decide as E; [subst; by rewrite app_nil_r|done].
  - cbn [fmap list_fmap foldl]. cbn [ref_ord ref_shard ref_host]. rewrite (bool_decide_false (o = 0%Z)) by done.
    match goal with |- context [foldl _ ?a _] => destruct (IH a) as [E1 E2] end. split; [done|].
    intros t. rewrite E2. cbn [snd]. case_decide as E; [subst t|].
    + rewrite lookup_insert_eq. cbn. by rewrite <-app_assoc.
    + by rewrite lookup_insert_ne by congruence.
Qed.

Lemma shardPodHosts_cons vc s :
  (0 ≤ replicasPerShardOf vc)%Z → is_int32 (1 + replicasPerShardOf vc) →
  zrange 0 (wrap32 (1 + replicasPerShardOf vc)) = 0%Z :: zrange 1 (1 + replicasPerShardOf vc) ∧
  shardPodHosts vc s = (ref_host (shardRef vc s 0%Z)) :: (ref_host <$> (shardRef vc s <$> zrange 1 (1 + replicasPerShardOf vc))).
Proof.
  intros Hr Hi. unfold shardPodHosts. rewrite wrap32_small by done.
  assert (zrange 0 (1 + replicasPerShardOf vc) = 0%Z :: zrange 1 (1 + replicasPerShardOf vc)) as E.
  { rewrite (zrange_app 0 1) by lia. done. }
  rewrite E. split; [done|]. cbn. f_equal. by rewrite <-list_fmap_compose.
Qed.

Lemma group_block vc s acc :
  (0 ≤ replicasPerShardOf vc)%Z → is_int32 (1 + replicasPerShardOf vc) →
  let r := foldl groupStep acc (shardRef vc s <$> zrange 0 (wrap32 (1 + replicasPerShardOf vc))) in
  (∀ t, r.1 !! t = if decide (t = s) then head (shardPodHosts vc s) else acc.1 !! t) ∧
  (∀ t, default [] (r.2 !! t) =
     if decide (t = s) then default [] (acc.2 !! s) ++ tail (shardPodHosts vc s) else default [] (acc.2 !! t)).
Proof.
  intros Hr Hi r. destruct (shardPodHosts_cons vc s Hr Hi) as [Ez Eh]. unfold r. rewrite Ez, Eh. cbn [head tail].
  rewrite fmap_cons. cbn [foldl]. cbn [ref_ord ref_shard ref_host]. rewrite (bool_decide_true (0 = 0)%Z) by done.
  destruct (group_replicas vc s (zrange 1 (1 + replicasPerShardOf vc))
    (<[s := fqdn (shardStsName vc s) 0 (shardHeadlessName vc s) (vcNamespace vc)]> acc.1, acc.2)) as [E1 E2].
  { apply Forall_forall. intros o Ho%elem_of_zrange. lia. }
  split; [|exact E2]. intros t. rewrite E1. cbn [fst]. case_decide as E; [subst t; apply lookup_insert_eq|].
  by rewrite lookup_insert_ne by congruence.
Qed.

Lemma group_shards vc l acc :
  (0 ≤ replicasPerShardOf vc)%Z → is_int32 (1 + replicasPerShardOf vc) → NoDup l →
  (∀ s, s ∈ l → default [] (acc.2 !! s) = []) →
  let r := foldl groupStep acc (s ← l; shardRef vc s <$> zrange 0 (wrap32 (1 + replicasPerShardOf vc))) in
  ∀ s, (s ∈ l → r.1 !! s = head (shardPodHosts vc s) ∧ default [] (r.2 !! s) = tail (shardPodHosts vc s)) ∧
       (s ∉ l → r.1 !! s = acc.1 !! s ∧ default [] (r.2 !! s) = default [] (acc.2 !! s)).
Proof.
  intros Hr Hi Hl. revert acc. induction Hl as [|s0 l Hs0 Hl IH]; intros acc Hacc r s; [split; [set_solver|done]|].
  unfold r. rewrite bind_cons, foldl_app. pose proof (group_block vc s0 acc Hr Hi) as HB. cbv zeta beta in HB |- *.
  revert HB. generalize (foldl groupStep acc (shardRef vc s0 <$> zrange 0 (wrap32 (1 + replicasPerShardOf vc)))).
  intros acc1 [B1 B2]. destruct (IH acc1) with (s := s) as [IH1 IH2].
  { intros t Ht. rewrite B2. rewrite decide_False by set_solver. apply Hacc. by right. }
  split.
  - intros [->|Hs]%elem_of_cons; [|by apply IH1]. destruct (IH2 Hs0) as [-> ->].
    rewrite B1, B2, !decide_True by done. by rewrite (Hacc s0) by (by left).
  - intros Hs. destruct IH2 as [-> ->]; [set_solver|]. rewrite B1, B2. rewrite !decide_False by set_solver. done.
Qed.

(** The per-shard bootstrap keeps a shard together.  The master the script creates for a shard
    is that shard's pod 0, and the replicas it attaches to it are exactly the other pods of
    the same shard, in order, whatever the number of shards and replicas. *)
Theorem bootstrap_groups_by_shard vc s :
  perShardEnabled vc = true → (0 ≤ replicasPerShardOf vc)%Z → is_int32 (1 + replicasPerShardOf vc) →
  (0 ≤ s < shardCountOf vc)%Z →
  let '(masters, replicas) := groupShards (clusterDataPods vc) in
  masters !! s = head (shardPodHosts vc s) ∧ default [] (replicas !! s) = tail (shardPodHosts vc s) ∧
  head (shardPodHosts vc s) = Some (fqdn (shardStsName vc s) 0 (shardHeadlessName vc s) (vcNamespace vc)).
Proof.
  intros HP Hr Hi Hs. destruct (group_shards vc (zrange 0 (shardCountOf vc)) (∅, ∅) Hr Hi (NoDup_zrange _ _)) with (s := s)
    as [HG _]; [by intros|]. unfold groupShards, clusterDataPods. rewrite HP.
  destruct (foldl _ _ _) as [ms rs]. destruct HG as [H1 H2]; [by apply elem_of_zrange|].
  split_and!; [done|done|]. by destruct (shardPodHosts_cons vc s Hr Hi) as [_ ->].
Qed.

(** ** The restore manifest *)

(** Where [c] first occurs. *)
Lemma index_byte_skip c p s : lacks c p = true → index_byte c (p +:+ s) = (λ i, String.length p + i) <$> index_byte c s.
Proof.
  induction p as [|a p IH]; [intros _; rewrite str_app_nil_l; by destruct (index_byte c s)|]. unfold lacks. cbn. intros. bool_hyps.
  rewrite str_app_cons. cbn. rewrite bool_decide_false by done. rewrite IH by done. by destruct (index_byte c s).
Qed.
Lemma index_byte_first c s t i : index_byte c s = Some i → index_byte c (s +:+ t) = Some i.
Proof.
  revert i; induction s as [|a s IH]; intros i; [done|]. rewrite str_app_cons. cbn.
  case_bool_decide; [done|]. intros (k & Hk & ->)%fmap_Some. by rewrite (IH k).
Qed.

Lemma replaceFirst_eq s old new :
  replaceFirst s old new =
  match strip_prefix old s with
  | Some rest => new +:+ rest
  | None => match s with "" => "" | String a s' => String a (replaceFirst s' old new) end
  end.
Proof. by destruct s. Qed.

(** [old] first occurs in [p +:+ old +:+ t] after [p], if [p] lacks a byte [old] has. *)
Lemma replaceFirst_app c i p old new t :
  index_byte c old = Some i → lacks c p = true → replaceFirst (p +:+ old +:+ t) old new = p +:+ new +:+ t.
Proof.
  intros Hi. induction p as [|a p IH]; intros Hp.
  - rewrite !str_app_nil_l, replaceFirst_eq. by rewrite strip_prefix_app.
  - rewrite !str_app_cons. cbn. destruct (strip_prefix old (String a (p +:+ old +:+ t))) as [r|] eqn:E.
    + exfalso. apply strip_prefix_Some in E. pose proof (index_byte_first c old r i Hi) as E1. rewrite <-E in E1.
      change (String a (p +:+ old +:+ t)) with (String a p +:+ (old +:+ t)) in E1.
      rewrite index_byte_skip, (index_byte_first _ _ _ _ Hi) in E1 by done. cbn in E1. simplify_eq. lia.
    + f_equal. apply IH. unfold lacks in Hp. cbn in Hp. by bool_hyps.
Qed.
Lemma contains_app p sub t : contains (p +:+ sub +:+ t) sub = true.
Proof.
  induction p as [|a p IH].
  - rewrite str_app_nil_l. assert (has_prefix (sub +:+ t) sub = true) as E by (unfold has_prefix; by rewrite strip_prefix_app).
    destruct (sub +:+ t); cbn; by rewrite E.
  - rewrite str_app_cons. cbn. rewrite IH. by rewrite orb_true_r.
Qed.

(** The assembly Job fetches the manifest the backup wrote.  A backup stores
    [<base>-shard-<N>.rdb] for each shard beside [<base>-manifest.txt]; from the restore's
    source key [<base>-shard-{shard}.rdb] the operator derives exactly that manifest's key. *)
Theorem manifestKey_of_backup base :
  lacks "{" base = true →
  clusterRestoreManifestKey (base +:+ "-shard-{shard}.rdb") = base +:+ "-manifest.txt".
Proof.
  intros Hb. unfold clusterRestoreManifestKey.
  replace (base +:+ "-shard-{shard}.rdb") with ((base +:+ "-") +:+ "shard-{shard}.rdb" +:+ "") by (by rewrite <-str_app_assoc).
  rewrite contains_app, (replaceFirst_app "{" 6); [by rewrite <-str_app_assoc|done|].
  rewrite lacks_app, Hb. done.
Qed.

(** ** Concrete Jobs *)
Definition demoShrink : ValkeyCluster :=
  with_status demoSharded (set_Status_LastAppliedReplicas 10).
Lemma bootstrap_groups_by_shard_witness :
  default [] ((groupShards (clusterDataPods demoSharded)).2 !! 1%Z) = ["demo-sh1-1.demo-sh1.ns.svc.cluster.local"].
Proof.
  pose proof (bootstrap_groups_by_shard demoSharded 1) as HG.
  destruct (groupShards (clusterDataPods demoSharded)) as [ms rs].
  destruct HG as (_ & Hr & _); [reflexivity|..]; try (unfold is_int32; apply (bool_decide_unpack _); vm_compute; exact I).
  cbn [snd]. rewrite Hr. reflexivity.
Defined.
Lemma manifestKey_of_backup_witness :
  clusterRestoreManifestKey ("backups/web-20260528-030000" +:+ "-shard-{shard}.rdb") =
  "backups/web-20260528-030000" +:+ "-manifest.txt".
Proof. apply (manifestKey_of_backup "backups/web-20260528-030000"). reflexivity. Defined.

(** The Jobs read the password from the operator's own Secret even when the cluster's
    password is in the user's ([auth.existingSecret]). *)
Example jobs_ignore_existingSecret :
  let vc := with_spec demoSharded (set_Spec_Auth (Some {| Auth_Enabled := None; Auth_ExistingSecret := "mine" |})) in
  authSecretName vc = "mine" ∧ jobEnv vc "pw" = [{| env_Name := envValkeyPassword; env_From := EnvSecretKey "demo-auth" "password" |}].
Proof. vm_compute. auto. Qed.
