(* ===== verification/Recovery.v ===== *)
(** * Recovery: quorum recovery of the Cluster topology (cluster_recovery.go)

    A Cluster that lost the majority of its primaries cannot vote a failover.  After a
    debounce, [maybeRecoverClusterQuorum] fences each dead primary through the API server
    and takes its slots over on a surviving replica (CLUSTER FAILOVER TAKEOVER).  Results
    carry the requeue delay in nanoseconds (0 for none). *)

From S2P Require Import Prelude GoStd Kube Api Effects Naming Failover Rollout ClusterNodes.

Definition quorumRecoveryDownAfter : Z := (45 * second)%Z.
Definition quorumTakeoverAnnotation : string := "valkey.wellcake.io/quorum-takeover".

Record quorumTakeoverTarget := { qt_primaryPod : string; qt_primaryID : string; qt_replicaPod : string }.

Definition quorumRecoveryEnabled (vc : ValkeyCluster) : bool :=
  match ParseBool (annotation vc quorumTakeoverAnnotation) with
  | Some v => v
  | None => Spec_Profile (Spec vc) != ProfileDurable
  end.

Definition countMasters (nodes : list clusterNode) : Z * Z :=
  foldl (λ acc n, if negb (nodeIsMaster n) then acc
                  else ((if nodeIsHealthy n then acc.1 + 1 else acc.1)%Z, (acc.2 + 1)%Z)) (0%Z, 0%Z) nodes.

Definition knownDataPods (vc : ValkeyCluster) : list string :=
  (λ p, podNameFromFQDN (ref_host p)) <$> clusterDataPods vc.
Definition isKnown (vc : ValkeyCluster) (pod : string) : bool := bool_decide (pod ∈ knownDataPods vc).

(** ** Looking at a primary *)
Definition nodeReady (name : string) : prog (KubeErr + bool) :=
  r ← perform (OGetNode name);
  mret (match r with
        | inl e => if IsNotFound e then inr false else inl e
        | inr node => inr (match filter (λ c, c.1 == "Ready") (node_Conditions node) with
                           | c :: _ => c.2 == "True"
                           | [] => false
                           end)
        end).
Definition primaryFencedByK8s (vc : ValkeyCluster) (podName : string) : prog (KubeErr + bool) :=
  r ← perform (OGetPod (vcNamespace vc) podName);
  match r with
  | inl e => mret (if IsNotFound e then inr true else inl e)
  | inr pod =>
      if ((pod_Phase pod != "Running") || negb (podIsReady pod))%bool then mret (inr true)
      else if pod_NodeName pod == "" then mret (inr false)
      else
        ready ← nodeReady (pod_NodeName pod);
        mret (match ready with inl e => inl e | inr b => inr (negb b) end)
  end.
Definition primaryStillServing (vc : ValkeyCluster) (password podName : string) : prog bool :=
  c ← dialPod vc (podFQDN vc podName) (dataPort vc) password (2 * second);
  match c with
  | None => mret false
  | Some c =>
      i ← clusterInfoMap c;
      mret (match i with inl _ => false | inr m => map_get m "cluster_state" == "ok" end)
  end.

(** ** Choosing what to recover *)
Definition takeoverCandidate (vc : ValkeyCluster) (password : string) (acc : string * Z) (rep : clusterNode) :
    prog (string * Z) :=
  if cn_podName rep == "" then mret acc
  else
    rc ← dialPod vc (podFQDN vc (cn_podName rep)) (dataPort vc) password (2 * second);
    match rc with
    | None => mret acc
    | Some rc =>
        i ← info rc;
        mret (match i with
              | inl _ => acc
              | inr m => let off := info_int64 m "slave_repl_offset" 0 in
                         if (acc.2 <? off)%Z then (cn_podName rep, off) else acc
              end)
    end.
Definition pickTakeoverReplica (vc : ValkeyCluster) (password : string) (replicas : list clusterNode) : prog string :=
  r ← foldM (takeoverCandidate vc password) ("", (-1)%Z) replicas;
  mret r.1.

(** [replicasByMaster[id]]. *)
Definition knownReplicasOf (vc : ValkeyCluster) (nodes : list clusterNode) (id : string) : list clusterNode :=
  filter (λ n, (negb (nodeIsMaster n) && (cn_masterID n != "") && isKnown vc (cn_podName n) &&
                (cn_masterID n == id))%bool) nodes.
Definition recoverableShard (vc : ValkeyCluster) (password : string) (nodes : list clusterNode)
    (out : list quorumTakeoverTarget) (n : clusterNode) : prog (list quorumTakeoverTarget) :=
  if (negb (nodeIsMaster n) || nodeIsHealthy n)%bool then mret out
  else if ((cn_podName n == "") || negb (isKnown vc (cn_podName n)))%bool then mret out
  else
    fenced ← primaryFencedByK8s vc (cn_podName n);
    match fenced with
    | inr true =>
        serving ← primaryStillServing vc password (cn_podName n);
        if serving : bool then mret out
        else
          replica ← pickTakeoverReplica vc password (knownReplicasOf vc nodes (cn_id n));
          mret (if replica == "" then out
                else out ++ [{| qt_primaryPod := cn_podName n; qt_primaryID := cn_id n; qt_replicaPod := replica |}])
    | _ => mret out
    end.
Definition recoverableShards (vc : ValkeyCluster) (password : string) (nodes : list clusterNode) :
    prog (list quorumTakeoverTarget) :=
  foldM (recoverableShard vc password nodes) [] nodes.

(** ** The debounce marker *)
Definition setQuorumDown (vc : ValkeyCluster) (t : option Z) : prog ValkeyCluster :=
  let vc' := with_status vc (set_Status_QuorumDownSince t) in
  _ ← perform (OPatchStatus vc vc');
  mret vc'.
Definition clearQuorumDown (vc : ValkeyCluster) : prog ValkeyCluster :=
  match Status_QuorumDownSince (Status vc) with
  | Some _ => setQuorumDown vc None
  | None => mret vc
  end.
Definition quorumDownLongEnough (vc : ValkeyCluster) : prog (bool * ValkeyCluster) :=
  match Status_QuorumDownSince (Status vc) with
  | None =>
      now ← perform ONow;
      vc' ← setQuorumDown vc (Some now);
      mret (false, vc')
  | Some since =>
      now ← perform ONow;
      mret (downElapsed since now quorumRecoveryDownAfter, vc)
  end.

(** ** Acting *)

(** The end of [recoverShard]: the takeover itself. *)
Definition takeOver (vc : ValkeyCluster) (password : string) (port : Z) (replica : string) : prog () :=
  rc ← dialPod vc (podFQDN vc replica) port password (3 * second);
  match rc with
  | None => mret ()
  | Some rc =>
      e ← clusterFailoverTakeover rc;
      match e with
      | Some _ => mret ()
      | None => perform (failoverMetric vc "cluster-takeover")
      end
  end.
Definition recoverShard (vc : ValkeyCluster) (password : string) (port : Z) (t : quorumTakeoverTarget) : prog () :=
  fenced ← primaryFencedByK8s vc (qt_primaryPod t);
  match fenced with
  | inr true =>
      serving ← primaryStillServing vc password (qt_primaryPod t);
      if serving : bool then mret ()
      else
        err ← deletePodByName vc (qt_primaryPod t);
        match err with
        | Some _ => mret ()
        | None =>
            takeOver vc password port (qt_replicaPod t)
        end
  | _ => mret ()
  end.

(** The first pod that answers. *)
Fixpoint dialFirst (vc : ValkeyCluster) (password : string) (pods : list podRef) : prog (option replClient) :=
  match pods with
  | [] => mret None
  | p :: rest =>
      c ← dialPod vc (ref_host p) (dataPort vc) password (2 * second);
      match c with
      | Some c => mret (Some c)
      | None => dialFirst vc password rest
      end
  end.
Definition dialAnyClusterPod (vc : ValkeyCluster) (password : string) : prog (option replClient) :=
  dialFirst vc password (clusterDataPods vc).

(** Returns the requeue delay, whether the reconcile was handled, and the object. *)
Definition maybeRecoverClusterQuorum (vc : ValkeyCluster) (password : string) : prog (Z * bool * ValkeyCluster) :=
  if negb (Status_ClusterInitialized (Status vc)) then mret (0%Z, false, vc)
  else if negb (quorumRecoveryEnabled vc) then
    vc ← clearQuorumDown vc; mret (0%Z, false, vc)
  else
    c ← dialAnyClusterPod vc password;
    match c with
    | None => mret (0%Z, false, vc)
    | Some c =>
        i ← clusterInfoMap c;
        match i with
        | inl _ => mret (0%Z, false, vc)
        | inr m =>
            if map_get m "cluster_state" == "ok" then
              vc ← clearQuorumDown vc; mret (0%Z, false, vc)
            else
              raw ← clusterNodes c;
              match raw with
              | inl _ => mret (0%Z, false, vc)
              | inr raw =>
                  let nodes := parseClusterNodes raw in
                  let '(healthy, total) := countMasters nodes in
                  if ((total == 0%Z) || (total <? healthy * 2)%Z)%bool then mret (0%Z, false, vc)
                  else
                    targets ← recoverableShards vc password nodes;
                    if length targets == 0 then mret (0%Z, false, vc)
                    else
                      r ← quorumDownLongEnough vc;
                      let '(long, vc) := r in
                      if negb long then mret ((10 * second)%Z, true, vc)
                      else
                        _ ← foldM (λ _ t, recoverShard vc password (d_Port c) t) () targets;
                        mret ((5 * second)%Z, true, vc)
              end
        end
    end.

(** ** What each step can do *)
Definition TAKEOVER : list string := ["CLUSTER"; "FAILOVER"; "TAKEOVER"].
(** Neither a pod delete nor a takeover (nor any other change but a status patch). *)
Definition harmless (e : Event) : Prop :=
  match ev_op e with
  | ODo _ args => args = ["CLUSTER"; "INFO"] ∨ args = ["CLUSTER"; "NODES"]
  | OPatchStatus _ _ => True
  | op => reads op = true
  end.
#[global] Instance harmless_reads : IgnoresReads harmless.
Proof. by intros []. Qed.

Lemma do_text_spec (P : Event → Prop) c args :
  (∀ x, P (Ev (ODo c args) x)) → spec (do_text c args) P (λ _, True).
Proof. intros HP. unfold do_text. spec_op; [done|]. intros r. by apply spec_ret. Qed.

Lemma clusterInfoMap_spec c : spec (clusterInfoMap c) harmless (λ _, True).
Proof.
  unfold clusterInfoMap. eapply spec_bind; [apply do_text_spec|intros; by apply spec_ret].
  intros x. by left.
Qed.
Lemma clusterNodes_spec c : spec (clusterNodes c) harmless (λ _, True).
Proof. apply do_text_spec. intros x. by right. Qed.

Lemma info_spec (P : Event → Prop) `{!IgnoresReads P} c : spec (info c) P (λ _, True).
Proof. unfold info, infoSection. spec_op. intros r. by apply spec_ret. Qed.

Lemma primaryFencedByK8s_spec vc pod : spec (primaryFencedByK8s vc pod) harmless (λ _, True).
Proof.
  unfold primaryFencedByK8s. spec_op. intros [e|p]; [by apply spec_ret|].
  case_match; [by apply spec_ret|]. case_match; [by apply spec_ret|].
  eapply (spec_bind _ _ _ (λ _, True)); [|intros; by apply spec_ret].
  unfold nodeReady. spec_op. intros r. by apply spec_ret.
Qed.
Lemma primaryStillServing_spec vc pw pod : spec (primaryStillServing vc pw pod) harmless (λ _, True).
Proof.
  unfold primaryStillServing. eapply spec_bind; [apply dialPod_spec; apply _|]. intros [c|] _; [|by apply spec_ret].
  eapply spec_bind; [apply clusterInfoMap_spec|intros; by apply spec_ret].
Qed.

Lemma pickTakeoverReplica_spec vc pw reps :
  spec (pickTakeoverReplica vc pw reps) harmless
    (λ r, r = "" ∨ ∃ n, n ∈ reps ∧ cn_podName n = r).
Proof.
  unfold pickTakeoverReplica.
  eapply (spec_bind _ _ _ (λ acc, acc.1 = "" ∨ ∃ n, n ∈ reps ∧ cn_podName n = acc.1)).
  2: { intros [r o] H. by apply spec_ret. }
  apply spec_foldM; [by left|]. intros acc rep Hrep Hacc. unfold takeoverCandidate.
  case_match; [by apply spec_ret|]. eapply spec_bind; [apply dialPod_spec; apply _|].
  intros [rc|] _; [|by apply spec_ret]. eapply spec_bind; [apply info_spec; apply _|].
  intros [e|m] _; [by apply spec_ret|]. apply spec_ret. case_match; [|done]. right. eauto.
Qed.

(** A justified target: a down primary that is one of the cluster's data pods, and a known
    replica of exactly that primary. *)
Definition targetOk (vc : ValkeyCluster) (nodes : list clusterNode) (t : quorumTakeoverTarget) : Prop :=
  ∃ n rep, n ∈ nodes ∧ nodeIsMaster n = true ∧ nodeIsHealthy n = false ∧
    cn_podName n = qt_primaryPod t ∧ cn_id n = qt_primaryID t ∧ qt_primaryPod t ∈ knownDataPods vc ∧
    rep ∈ nodes ∧ nodeIsMaster rep = false ∧ cn_masterID rep = cn_id n ∧
    cn_podName rep = qt_replicaPod t ∧ qt_replicaPod t ∈ knownDataPods vc.

Lemma recoverableShards_spec vc pw nodes :
  spec (recoverableShards vc pw nodes) harmless (Forall (targetOk vc nodes)).
Proof.
  apply spec_foldM; [done|]. intros out n Hn Hout. unfold recoverableShard.
  destruct (nodeIsMaster n) eqn:Hm; simpl; [|by apply spec_ret].
  destruct (nodeIsHealthy n) eqn:Hh; [by apply spec_ret|].
  destruct ((cn_podName n == "") || negb (isKnown vc (cn_podName n)))%bool eqn:Hk; [by apply spec_ret|].
  apply orb_false_iff in Hk as [_ Hk%negb_false_iff]. unfold isKnown in Hk. rewrite bool_decide_eq_true in Hk.
  eapply spec_bind; [apply primaryFencedByK8s_spec|]. intros [e|[]] _; try (by apply spec_ret).
  eapply spec_bind; [apply primaryStillServing_spec|]. intros [] _; [by apply spec_ret|].
  eapply spec_bind; [apply pickTakeoverReplica_spec|]. intros r Hr. apply spec_ret.
  case_bool_decide as Er; [done|]. destruct Hr as [?|(rep & Hrep & <-)]; [done|].
  apply elem_of_filter_bool in Hrep as [Hc Hin]. bool_hyps. unfold isKnown in *. bool_hyps.
  apply Forall_app. split; [done|]. repeat constructor. exists n, rep. simpl. split_and!; try done; congruence.
Qed.

(** ** Fencing before taking over *)

(** What the API server said when the fence was found up. *)
Lemma primaryFencedByK8s_true vc pod tr :
  exec (primaryFencedByK8s vc pod) tr (inr true) →
  tr = [Ev (OGetPod (vcNamespace vc) pod) (inl NotFound)] ∨
  ∃ p, (tr = [Ev (OGetPod (vcNamespace vc) pod) (inr p)] ∧
        (pod_Phase p ≠ "Running" ∨ podIsReady p = false)) ∨
       tr = [Ev (OGetPod (vcNamespace vc) pod) (inr p); Ev (OGetNode (pod_NodeName p)) (inl NotFound)] ∨
       ∃ node, tr = [Ev (OGetPod (vcNamespace vc) pod) (inr p); Ev (OGetNode (pod_NodeName p)) (inr node)] ∧
               ("Ready", "True") ∉ take 1 (filter (λ c, c.1 == "Ready") (node_Conditions node)).
Proof.
  unfold primaryFencedByK8s. intros Hx.
  apply exec_bind in Hx as (t1 & t2 & [e|p] & -> & ->%exec_perform & Hx).
  { apply exec_ret in Hx as [-> Hx]. destruct e; simplify_eq/=. by left. }
  right. exists p. destruct ((pod_Phase p != "Running") || negb (podIsReady p))%bool eqn:Hp.
  { apply exec_ret in Hx as [-> _]. left. split; [done|]. apply orb_true_iff in Hp as [Hp|Hp]; bool_hyps; auto. }
  case_bool_decide; [by exec_inv|].
  apply exec_bind in Hx as (t3 & t4 & b & -> & Hn & [-> ?]%exec_ret). unfold nodeReady in Hn.
  apply exec_bind in Hn as (t5 & t6 & [e|node] & -> & ->%exec_perform & [-> <-]%exec_ret).
  - destruct e; simplify_eq/=. right. by left.
  - right. right. exists node. split; [done|]. simplify_eq/=.
    destruct (filter (λ c, c.1 == "Ready") (node_Conditions node)) as [|c cs] eqn:E; simpl; [apply not_elem_of_nil|].
    intros [Hc|Hc]%elem_of_cons; [subst c; done|by apply elem_of_nil in Hc].
Qed.

Definition takeoverEvent (host : string) (e : Event) : Prop :=
  match ev_op e with
  | ODo o args => d_Host o = host ∧ args = TAKEOVER
  | op => reads op = true
  end.
#[global] Instance takeoverEvent_reads host : IgnoresReads (takeoverEvent host).
Proof. by intros []. Qed.

Lemma takeOver_spec vc pw port replica :
  spec (takeOver vc pw port replica) (takeoverEvent (podFQDN vc replica)) (λ _, True).
Proof.
  unfold takeOver. eapply spec_bind; [apply dialPod_spec; apply _|]. intros [rc|] Hc; [|by apply spec_ret].
  destruct (Hc rc eq_refl) as (Hhost & _). unfold clusterFailoverTakeover.
  apply do_err_bind; [intros x; by split|]. intros [e|]; [by apply spec_ret|]. by spec_op.
Qed.

(** C38: fence, then delete, then take over.  Recovering a shard either changes nothing, or it
    first finds the primary fenced by the API server, then finds it not serving, then
    deletes its pod, and only if that delete succeeded (or the pod was gone) sends CLUSTER
    FAILOVER TAKEOVER, to the chosen replica and to nobody else. *)
Theorem recoverShard_fences vc pw port t tr :
  exec (recoverShard vc pw port t) tr () →
  Forall harmless tr ∨
  ∃ trF trS e rest,
    tr = trF ++ trS ++ Ev (ODeletePod (vcNamespace vc) (qt_primaryPod t)) e :: rest ∧
    exec (primaryFencedByK8s vc (qt_primaryPod t)) trF (inr true) ∧
    exec (primaryStillServing vc pw (qt_primaryPod t)) trS false ∧
    Forall (takeoverEvent (podFQDN vc (qt_replicaPod t))) rest ∧
    (rest ≠ [] → e = None ∨ e = Some NotFound).
Proof.
  unfold recoverShard. intros Hx. apply exec_bind in Hx as (trF & t1 & fenced & -> & HF & Hx).
  pose proof (primaryFencedByK8s_spec _ _ _ _ HF) as [HhF _].
  destruct fenced as [?|[]]; [left; exec_inv; by rewrite ?app_nil_r| |left; exec_inv; by rewrite ?app_nil_r].
  apply exec_bind in Hx as (trS & t2 & serving & -> & HS & Hx).
  pose proof (primaryStillServing_spec _ _ _ _ _ HS) as [HhS _].
  destruct serving; [left; exec_inv; rewrite ?app_nil_r; by apply Forall_app|]. right.
  apply exec_bind in Hx as (trD & rest & err & -> & HD & Hx). unfold deletePodByName in HD.
  apply exec_bind in HD as (t3 & t4 & e & -> & ->%exec_perform & [-> <-]%exec_ret).
  exists trF, trS, e, rest. split; [done|]. split_and!; [done..| |].
  - destruct e as [[]|]; simpl in Hx; try (apply exec_ret in Hx as [-> _]; done);
      by apply takeOver_spec in Hx as [? _].
  - destruct e as [[]|]; auto; simpl in Hx; apply exec_ret in Hx as [-> _]; done.
Qed.

Lemma countMasters_spec nodes :
  countMasters nodes =
  (Z.of_nat (length (filter (λ n, (nodeIsMaster n && nodeIsHealthy n)%bool) nodes)),
   Z.of_nat (length (filter nodeIsMaster nodes))).
Proof.
  unfold countMasters.
  assert (∀ acc, foldl (λ acc n, if negb (nodeIsMaster n) then acc
                  else ((if nodeIsHealthy n then acc.1 + 1 else acc.1)%Z, (acc.2 + 1)%Z)) acc nodes =
    ((acc.1 + Z.of_nat (length (filter (λ n, (nodeIsMaster n && nodeIsHealthy n)%bool) nodes)))%Z,
     (acc.2 + Z.of_nat (length (filter nodeIsMaster nodes)))%Z)) as ->; [|done].
  induction nodes as [|n l IH]; intros [h t]; simpl; [by rewrite !Z.add_0_r|].
  rewrite IH, !filter_cons_bool. destruct (nodeIsMaster n), (nodeIsHealthy n); simpl; f_equal; lia.
Qed.

Lemma do_text_exec c args tr r :
  exec (do_text c args) tr (inr r) → tr = [Ev (ODo c args) (inr (RStr r))].
Proof.
  unfold do_text. intros (t1 & t2 & x & -> & ->%exec_perform & [-> Hx]%exec_ret)%exec_bind.
  by destruct x as [?|[]]; simplify_eq.
Qed.
Lemma clusterInfoMap_exec c tr m :
  exec (clusterInfoMap c) tr (inr m) →
  ∃ inf, tr = [Ev (ODo c ["CLUSTER"; "INFO"]) (inr (RStr inf))] ∧ m = parseClusterInfo inf.
Proof.
  unfold clusterInfoMap. intros (t1 & t2 & x & -> & Hx & [-> Hm]%exec_ret)%exec_bind.
  destruct x as [?|inf]; simplify_eq. apply do_text_exec in Hx as ->. eauto.
Qed.

Lemma quorumDownLongEnough_exec vc tr r :
  exec (quorumDownLongEnough vc) tr r →
  Forall harmless tr ∧
  match Status_QuorumDownSince (Status vc) with
  | None => ∃ now, Ev ONow now ∈ tr ∧ r = (false, with_status vc (set_Status_QuorumDownSince (Some now)))
  | Some since => ∃ now, Ev ONow now ∈ tr ∧ r = (downElapsed since now quorumRecoveryDownAfter, vc)
  end.
Proof.
  unfold quorumDownLongEnough, setQuorumDown. destruct (Status_QuorumDownSince (Status vc)); intros; exec_inv;
    (split; [by repeat constructor|]); eexists; (split; [constructor|done]).
Qed.
Lemma clearQuorumDown_exec vc tr vc' :
  exec (clearQuorumDown vc) tr vc' →
  Forall harmless tr ∧ (vc' = vc ∨ vc' = with_status vc (set_Status_QuorumDownSince None)).
Proof.
  unfold clearQuorumDown, setQuorumDown. destruct (Status_QuorumDownSince (Status vc)); intros; exec_inv;
    (split; [by repeat constructor|]); auto.
Qed.

Lemma dialAnyClusterPod_spec vc pw : spec (dialAnyClusterPod vc pw) harmless (λ _, True).
Proof.
  unfold dialAnyClusterPod. induction (clusterDataPods vc) as [|p l IH]; simpl; [by apply spec_ret|].
  eapply spec_bind; [apply dialPod_spec; apply _|]. intros [c|] _; [by apply spec_ret|done].
Qed.

(** When a pass may fence and take over, and on what: [tr0] is what the pass saw before. *)
Definition quorumLost (vc : ValkeyCluster) (tr0 : list Event) (c : replClient)
    (targets : list quorumTakeoverTarget) : Prop :=
  Status_ClusterInitialized (Status vc) = true ∧ quorumRecoveryEnabled vc = true ∧
  (∃ inf, Ev (ODo c ["CLUSTER"; "INFO"]) (inr (RStr inf)) ∈ tr0 ∧
          map_get (parseClusterInfo inf) "cluster_state" ≠ "ok") ∧
  (∃ since now, Status_QuorumDownSince (Status vc) = Some since ∧ Ev ONow now ∈ tr0 ∧
                (45 * second ≤ now - since)%Z) ∧
  ∃ raw, Ev (ODo c ["CLUSTER"; "NODES"]) (inr (RStr raw)) ∈ tr0 ∧
    (let nodes := parseClusterNodes raw in
     filter nodeIsMaster nodes ≠ [] ∧
     2 * length (filter (λ n, (nodeIsMaster n && nodeIsHealthy n)%bool) nodes) ≤ length (filter nodeIsMaster nodes) ∧
     Forall (targetOk vc nodes) targets).

(** Leave an execution that has only returned: the trace so far is harmless. *)
Ltac harmless_exit :=
  left; exec_inv; rewrite ?app_nil_r; rewrite ?Forall_app;
  repeat match goal with |- _ ∧ _ => split end; done.

(** C2: the takeover gate.  A pass of quorum recovery changes nothing outside the status
    unless all of this holds: the cluster is initialised and recovery is enabled for it; a
    pod reported a cluster_state other than ok; in the CLUSTER NODES that pod returned the
    healthy primaries are at most half of all primaries; and the marker in status is at
    least 45 s old.  Then the pass recovers the shards it found, each a down primary that
    is a data pod of this cluster together with a known replica of that very primary. *)
Theorem quorum_takeover_gate vc pw tr dly handled vc' :
  exec (maybeRecoverClusterQuorum vc pw) tr (dly, handled, vc') →
  Forall harmless tr ∨
  ∃ tr0 tr1 c targets,
    tr = tr0 ++ tr1 ∧ Forall harmless tr0 ∧ quorumLost vc tr0 c targets ∧
    exec (foldM (λ _ t, recoverShard vc pw (d_Port c) t) () targets) tr1 () ∧ handled = true ∧ vc' = vc.
Proof.
  unfold maybeRecoverClusterQuorum. intros Hx.
  destruct (Status_ClusterInitialized (Status vc)) eqn:Hinit; simpl in Hx; [|harmless_exit].
  destruct (quorumRecoveryEnabled vc) eqn:Hen; simpl in Hx.
  2: { apply exec_bind in Hx as (t1 & t2 & v & -> & [? _]%clearQuorumDown_exec & Hx). harmless_exit. }
  apply exec_bind in Hx as (t1 & t2 & c & -> & [H1 _]%dialAnyClusterPod_spec & Hx).
  destruct c as [c|]; [|harmless_exit].
  apply exec_bind in Hx as (t3 & t4 & im & -> & Hi & Hx).
  pose proof (clusterInfoMap_spec _ _ _ Hi) as [H3 _].
  destruct im as [?|m]; [harmless_exit|]. apply clusterInfoMap_exec in Hi as (inf & -> & ->).
  case_bool_decide as Hok.
  { apply exec_bind in Hx as (t5 & t6 & v & -> & [? _]%clearQuorumDown_exec & Hx). harmless_exit. }
  apply exec_bind in Hx as (t5 & t6 & rr & -> & Hr & Hx).
  pose proof (clusterNodes_spec _ _ _ Hr) as [H5 _].
  destruct rr as [?|raw]; [harmless_exit|]. apply do_text_exec in Hr as ->.
  rewrite countMasters_spec in Hx. set (nodes := parseClusterNodes raw) in *.
  destruct ((Z.of_nat (length (filter nodeIsMaster nodes)) == 0%Z) || _)%bool eqn:Hgate; [harmless_exit|].
  apply orb_false_iff in Hgate as [Ht Hq]. bool_hyps.
  apply exec_bind in Hx as (t7 & t8 & targets & -> & [H7 Htargets]%recoverableShards_spec & Hx).
  destruct (length targets == 0) eqn:Hlen; [harmless_exit|].
  apply exec_bind in Hx as (t9 & t10 & [long vc1] & -> & [H9 Hd]%quorumDownLongEnough_exec & Hx).
  destruct long; simpl in Hx; [|harmless_exit]. right.
  destruct (Status_QuorumDownSince (Status vc)) as [since|] eqn:Hsince; destruct Hd as (now & Hnow & Hd); simplify_eq.
  apply exec_bind in Hx as (t11 & t12 & [] & -> & Hx & [-> ?]%exec_ret). simplify_eq.
  eexists (t1 ++ [_] ++ [_] ++ t7 ++ t9), t11, c, targets. rewrite app_nil_r. split_and!; try done.
  - by rewrite <-!app_assoc.
  - rewrite !Forall_app. by split_and!.
  - split_and!; [done|done| | |].
    + exists inf. split; [|done]. set_solver.
    + exists since, now. split_and!; [done|set_solver|].
      unfold downElapsed, quorumRecoveryDownAfter in *. destruct (45 * second <=? now - since)%Z eqn:E; [|done]. lia.
    + exists raw. split; [set_solver|]. fold nodes. split_and!; [|lia|done].
      intros E. rewrite E in Ht. done.
Qed.

(** The marker a pass leaves, seen from the marker it found. *)
Definition markerChange (vc : ValkeyCluster) (tr : list Event) (vc' : ValkeyCluster) : Prop :=
  vc' = vc ∨
  (vc' = with_status vc (set_Status_QuorumDownSince None) ∧
   (quorumRecoveryEnabled vc = false ∨
    ∃ c inf, Ev (ODo c ["CLUSTER"; "INFO"]) (inr (RStr inf)) ∈ tr ∧
             map_get (parseClusterInfo inf) "cluster_state" = "ok")) ∨
  (Status_QuorumDownSince (Status vc) = None ∧
   ∃ now, Ev ONow now ∈ tr ∧ vc' = with_status vc (set_Status_QuorumDownSince (Some now))).

Lemma recovery_marker vc pw tr dly handled vc' :
  exec (maybeRecoverClusterQuorum vc pw) tr (dly, handled, vc') → markerChange vc tr vc'.
Proof.
  unfold maybeRecoverClusterQuorum, markerChange. intros Hx.
  destruct (Status_ClusterInitialized (Status vc)); simpl in Hx; [|left; by exec_inv].
  destruct (quorumRecoveryEnabled vc) eqn:Hen; simpl in Hx.
  2: { apply exec_bind in Hx as (t1 & t2 & v & -> & [_ Hv]%clearQuorumDown_exec & Hx).
       exec_inv. destruct Hv as [->| ->]; auto. }
  apply exec_bind in Hx as (t1 & t2 & c & -> & _ & Hx).
  destruct c as [c|]; [|left; by exec_inv]. apply exec_bind in Hx as (t3 & t4 & im & -> & Hi & Hx).
  destruct im as [?|m]; [left; by exec_inv|]. apply clusterInfoMap_exec in Hi as (inf & -> & ->).
  case_bool_decide as Hok.
  { apply exec_bind in Hx as (t5 & t6 & v & -> & [_ Hv]%clearQuorumDown_exec & Hx). exec_inv.
    destruct Hv as [->| ->]; [by left|]. right. left. split; [done|]. right. exists c, inf. set_solver. }
  apply exec_bind in Hx as (t5 & t6 & rr & -> & _ & Hx). destruct rr as [?|raw]; [left; by exec_inv|].
  destruct (countMasters _) as [healthy total]. case_match; [left; by exec_inv|].
  apply exec_bind in Hx as (t7 & t8 & targets & -> & _ & Hx). case_match; [left; by exec_inv|].
  apply exec_bind in Hx as (t9 & t10 & [long vc1] & -> & [_ Hd]%quorumDownLongEnough_exec & Hx).
  assert (vc' = vc1) as -> by (destruct long; simpl in Hx; by exec_inv).
  destruct (Status_QuorumDownSince (Status vc)); destruct Hd as (now & Hnow & Hd); simplify_eq; [by left|].
  right. right. split; [done|]. exists now. set_solver.
Qed.

(** The debounce clock.  A pass clears the marker only when recovery is disabled or a pod
    reported cluster_state:ok, sets it (to the current time) only when it was unset, and
    otherwise leaves the object as it is: a transient error never resets the clock. *)
Theorem quorum_marker vc pw tr dly handled vc' :
  exec (maybeRecoverClusterQuorum vc pw) tr (dly, handled, vc') → markerChange vc tr vc'.
Proof. apply recovery_marker. Qed.

(** ** A concrete outage: two of three primaries are gone *)
Definition demoLost : ValkeyCluster :=
  with_status (newCluster "c" "ns" (set_Spec_ReplicasPerShard (Some 1%Z) (set_Spec_Shards (Some 3%Z)
                 (set_Spec_Profile ProfileCache (set_Spec_Topology TopologyCluster zeroSpec)))))
    (λ s, set_Status_QuorumDownSince (Some 0%Z) (set_Status_ClusterInitialized true s)).
Definition lostNode (i : Z) (flags : list string) (master : string) : nodeText * clusterNode :=
  (demoText, {| cn_id := "id" +:+ Itoa i; cn_podName := "c-" +:+ Itoa i; cn_flags := flags;
                cn_masterID := master; cn_slots := []; cn_linkState := "connected" |}).
Definition lostNodes : string := printNodes
  [lostNode 0 ["master"; "fail"] ""; lostNode 1 ["master"; "fail"] ""; lostNode 2 ["master"] "";
   lostNode 3 ["slave"] "id0"; lostNode 4 ["slave"] "id1"; lostNode 5 ["slave"] "id2"].
Definition lost_handle (op : Op) : () → ans op * () :=
  match op return () → ans op * () with
  | OPing o => λ w, (negb (bool_decide (podNameFromFQDN (d_Host o) ∈ ["c-0"; "c-1"])), w)
  | OInfo _ _ => λ w, (inr ("role:slave" +:+ nl +:+ "slave_repl_offset:10"), w)
  | ODo _ args => λ w, (inr (RStr (if decide (args = ["CLUSTER"; "INFO"]) then "cluster_state:fail"
                                   else if decide (args = ["CLUSTER"; "NODES"]) then lostNodes else "OK")), w)
  | OGetPod _ _ => λ w, (inl NotFound, w)
  | ODeletePod _ _ => λ w, (None, w)
  | ONow => λ w, ((60 * second)%Z, w)
  | OMetricInc _ _ => λ w, (tt, w)
  | _ => λ w, (inhabitant, w)
  end.
Definition lostTrace : list Event := trace lost_handle (maybeRecoverClusterQuorum demoLost "pw") tt.
Definition lostOut : Z * bool * ValkeyCluster := (run lost_handle (maybeRecoverClusterQuorum demoLost "pw") tt).1.

(** Both dead primaries are fenced and taken over, in that order, shard by shard. *)
Example lost_recovers :
  omap (λ e, match ev_op e with
             | ODeletePod _ n => Some ("delete " +:+ n)
             | ODo o args => if decide (args = TAKEOVER) then Some ("takeover " +:+ podNameFromFQDN (d_Host o)) else None
             | _ => None end) lostTrace =
  ["delete c-0"; "takeover c-3"; "delete c-1"; "takeover c-4"].
Proof. vm_compute. reflexivity. Qed.

Lemma quorum_takeover_gate_witness :
  Forall harmless lostTrace ∨
  ∃ tr0 tr1 c targets,
    lostTrace = tr0 ++ tr1 ∧ Forall harmless tr0 ∧ quorumLost demoLost tr0 c targets ∧
    exec (foldM (λ _ t, recoverShard demoLost "pw" (d_Port c) t) () targets) tr1 () ∧
    lostOut.1.2 = true ∧ lostOut.2 = demoLost.
Proof.
  apply (quorum_takeover_gate demoLost "pw" lostTrace lostOut.1.1 lostOut.1.2 lostOut.2).
  exact (run_exec lost_handle (maybeRecoverClusterQuorum demoLost "pw") tt).
Defined.

Lemma quorum_marker_witness : markerChange demoLost lostTrace lostOut.2.
Proof.
  apply (quorum_marker demoLost "pw" lostTrace lostOut.1.1 lostOut.1.2 lostOut.2).
  exact (run_exec lost_handle (maybeRecoverClusterQuorum demoLost "pw") tt).
Defined.

Definition lostTarget : quorumTakeoverTarget :=
  {| qt_primaryPod := "c-0"; qt_primaryID := "id0"; qt_replicaPod := "c-3" |}.
Lemma recoverShard_fences_witness :
  let tr := trace lost_handle (recoverShard demoLost "pw" 6379 lostTarget) tt in
  Forall harmless tr ∨
  ∃ trF trS e rest,
    tr = trF ++ trS ++ Ev (ODeletePod "ns" "c-0") e :: rest ∧
    exec (primaryFencedByK8s demoLost "c-0") trF (inr true) ∧
    exec (primaryStillServing demoLost "pw" "c-0") trS false ∧
    Forall (takeoverEvent (podFQDN demoLost "c-3")) rest ∧
    (rest ≠ [] → e = None ∨ e = Some NotFound).
Proof.
  apply (recoverShard_fences demoLost "pw" 6379 lostTarget).
  change (exec (recoverShard demoLost "pw" 6379 lostTarget)
    (trace lost_handle (recoverShard demoLost "pw" 6379 lostTarget) tt)
    (run lost_handle (recoverShard demoLost "pw" 6379 lostTarget) tt).1). apply run_exec.
Defined.
