(* ===== verification/SentinelRollout.v ===== *)
(** * SentinelRollout: the Sentinel topology's rollout and master handover (rollout_sentinel.go)

    Data pods first (replicas, then the master by a handover the Sentinels carry out), then
    the Sentinel pods.  [wait.PollUntilContextTimeout] is [pollUntil]: it calls the condition
    at once and then once per [poll], at most [timeout / poll + 1] times; [OSleep] answers
    whether the context ended first. *)

From S2P Require Import Prelude GoStd Kube Api Effects Naming Failover Rollout.

Definition sentinelPort : Z := 26379.
Definition sentinelTLSPort : Z := 26380.
Definition sentinelMasterName : string := "mymaster".

Definition anyStale (pods : list rolloutPod) (desiredRevision : string) : bool :=
  existsb (isStale desiredRevision) pods.

Definition reachableMaster (s : podRole) : bool := (pr_reachable s && (pr_role s == roleMaster))%bool.
(** The loop of [sentinelDataMaster]; [master] is the one seen so far. *)
Fixpoint sentinelDataMaster_go (vc : ValkeyCluster) (master : string) (survey : list podRole) : string :=
  match survey with
  | [] => master
  | s :: rest =>
      if reachableMaster s then
        if master != "" then "" else sentinelDataMaster_go vc (podName vc (pr_ordinal s)) rest
      else sentinelDataMaster_go vc master rest
  end.
Definition sentinelDataMaster (vc : ValkeyCluster) (survey : list podRole) : string :=
  sentinelDataMaster_go vc "" survey.
Definition countReachableMasters (survey : list podRole) : Z :=
  foldl (λ n s, if reachableMaster s then (n + 1)%Z else n) 0%Z survey.

Definition sentinelStatefulSetName (vc : ValkeyCluster) : string := vcName vc +:+ "-sentinel".
Definition sentinelPodFQDN (vc : ValkeyCluster) (ord : Z) : string :=
  let sn := sentinelStatefulSetName vc in fqdn sn ord sn (vcNamespace vc).
Definition sentinelListenPort (vc : ValkeyCluster) : Z :=
  if tlsEnabled vc then sentinelTLSPort else sentinelPort.
Definition listSentinelRolloutPods (vc : ValkeyCluster) : prog (KubeErr + list rolloutPod) :=
  r ← perform (OListPods (vcNamespace vc)
                 (<[componentLabel := componentSentinel]> {[instanceLabel := vcName vc]}));
  mret (match (r : KubeErr + list Pod) with
        | inl e => inl e
        | inr items => inr (omap (rolloutPodOf (sentinelStatefulSetName vc)) items)
        end).

(** [vc.Spec.Sentinel.Replicas]; a nil [Sentinel] would panic and is read as 0. *)
Definition sentinelReplicas (vc : ValkeyCluster) : Z :=
  match Spec_Sentinel (Spec vc) with Some s => Sentinel_Replicas s | None => 0%Z end.

Fixpoint tryFailover (vc : ValkeyCluster) (password : string) (lastErr : option error) (ords : list Z) : prog (option error) :=
  match ords with
  | [] => mret lastErr
  | i :: rest =>
      let host := sentinelPodFQDN vc i in
      c ← dialPod vc host (sentinelListenPort vc) password (3 * second);
      match c with
      | None => tryFailover vc password (Some ("dial sentinel " +:+ host +:+ " failed")) rest
      | Some c => sentinelFailover c sentinelMasterName
      end
  end.
Definition issueSentinelFailover (vc : ValkeyCluster) (password : string) : prog (option error) :=
  tryFailover vc password None (zrange 0 (sentinelReplicas vc)).

(** ** Reading the master's INFO replication *)
Definition replicasLinked (info : gmap string string) (want : Z) : bool :=
  match Atoi (map_get info "connected_slaves") with
  | None => false
  | Some n =>
      if (n <? want)%Z then false
      else forallb (λ i, contains (map_get info ("slave" +:+ Itoa i)) "state=online") (zrange 0 n)
  end.
(** The [k=v] items of one [slaveN:] line. *)
Definition slaveFields (line : string) : gmap string string :=
  foldl (λ m kv, match cut_byte "=" kv with Some (k, v) => <[k := v]> m | None => m end) ∅ (split_byte "," line).
Definition slaveCaughtUp (info : gmap string string) (masterOffset i : Z) : bool :=
  let fs := slaveFields (map_get info ("slave" +:+ Itoa i)) in
  match ParseInt (map_get fs "offset") 64 with
  | None => false
  | Some offset => ((map_get fs "state" == "online") && (masterOffset <=? offset)%Z)%bool
  end.
Definition replicasCaughtUp (info : gmap string string) : bool :=
  match ParseInt (map_get info "master_repl_offset") 64 with
  | None => false
  | Some masterOffset =>
      match Atoi (map_get info "connected_slaves") with
      | None => false
      | Some n => if n == 0%Z then false else forallb (slaveCaughtUp info masterOffset) (zrange 0 n)
      end
  end.

(** ** The handover *)
Record handoverTimings := { ht_pause : Z; ht_catchUp : Z; ht_promote : Z; ht_poll : Z }.
Definition sentinelHandoverTimings : handoverTimings := {|
  ht_pause := (15 * second)%Z; ht_catchUp := (5 * second)%Z; ht_promote := (8 * second)%Z;
  ht_poll := 100000000%Z |}.

(** [wait.PollUntilContextTimeout(ctx, poll, timeout, true, cond)], the condition threading [st]. *)
Fixpoint poll_go {S} (tries : nat) (poll : Z) (cond : S → prog (bool * S)) (st : S) : prog (option error * S) :=
  match tries with
  | 0 => mret (Some "context deadline exceeded", st)
  | Datatypes.S tries' =>
      r ← cond st;
      let '(ok, st) := r in
      if ok : bool then mret (None, st)
      else
        stop ← perform (OSleep poll);
        if stop : bool then mret (Some "context deadline exceeded", st) else poll_go tries' poll cond st
  end.
Definition pollUntil {S} (poll timeout : Z) (cond : S → prog (bool * S)) (st : S) : prog (option error * S) :=
  poll_go (Z.to_nat (timeout / poll + 1)) poll cond st.

(** One round over the replicas: the cached clients, and the replica found promoted. *)
Fixpoint findPromoted (dial : string → prog (option replClient)) (hosts : list string)
    (st : gmap string replClient * string) : prog (bool * (gmap string replClient * string)) :=
  match hosts with
  | [] => mret (false, st)
  | h :: rest =>
      let '(replicas, promoted) := st in
      c ← (match replicas !! h with Some c => mret (Some c) | None => dial h end);
      match c with
      | None => findPromoted dial rest st
      | Some c =>
          let st := (<[h := c]> replicas, promoted) in
          i ← info c;
          match i with
          | inr m => if map_get m "role" == roleMaster then mret (true, (<[h := c]> replicas, h))
                     else findPromoted dial rest st
          | inl _ => findPromoted dial rest st
          end
      end
  end.

(** The end of the handover: wait for a promoted replica and point the old master at it. *)
Definition awaitPromotion (dial : string → prog (option replClient)) (mc : replClient)
    (replicaHosts : list string) (port : Z) (t : handoverTimings) : prog (option error) :=
  r ← pollUntil (ht_poll t) (ht_promote t) (findPromoted dial replicaHosts) (∅, "");
  let '(pe, st) := r in
  match pe with
  | Some e => mret (Some ("no replica was promoted: " +:+ e))
  | None =>
      re ← replicaOf mc st.2 port;
      mret (match re with
            | Some e => Some ("REPLICAOF " +:+ st.2 +:+ " on the old master: " +:+ e)
            | None => None
            end)
  end.
(** The part of [handOverMaster] between the pause and its deferred release. *)
Definition handOverPaused (dial : string → prog (option replClient)) (failover : prog (option error))
    (mc : replClient) (replicaHosts : list string) (port : Z) (t : handoverTimings) : prog (option error) :=
  caught ← pollUntil (ht_poll t) (ht_catchUp t)
    (λ _ : (), i ← info mc; mret (match i with inr m => replicasCaughtUp m | inl _ => false end, ())) ();
  match caught.1 with
  | Some e => mret (Some ("the replicas did not catch up with the master: " +:+ e))
  | None =>
      fe ← failover;
      match fe with
      | Some e => if negb (has_prefix e "INPROG") then mret (Some ("SENTINEL FAILOVER: " +:+ e))
                  else awaitPromotion dial mc replicaHosts port t
      | None => awaitPromotion dial mc replicaHosts port t
      end
  end.

Definition handOverMaster (dial : string → prog (option replClient)) (failover : prog (option error))
    (masterHost : string) (replicaHosts : list string) (port : Z) (t : handoverTimings) : prog (option error) :=
  if ((masterHost == "") || (length replicaHosts == 0))%bool
  then mret (Some "no master or no replica to hand over to")
  else
    mc ← dial masterHost;
    match mc with
    | None => mret (Some ("dial master " +:+ masterHost +:+ " failed"))
    | Some mc =>
        i ← info mc;
        if negb (match i with inr m => replicasLinked m (Z.of_nat (length replicaHosts)) | inl _ => false end)
        then mret (Some ("not every replica is linked to the master " +:+ masterHost))
        else
          pe ← clientPauseWrite mc (ht_pause t);
          match pe with
          | Some e => mret (Some ("CLIENT PAUSE: " +:+ e))
          | None =>
              err ← handOverPaused dial failover mc replicaHosts port t;
              uerr ← clientUnpause mc;
              mret (match err, uerr with
                    | Some e, _ => Some e
                    | None, Some ue => Some ("CLIENT UNPAUSE: " +:+ ue)
                    | None, None => None
                    end)
          end
    end.

(** The last surveyed pod named [master] is the master, the other reachable pods the replicas. *)
Definition handoverHosts (vc : ValkeyCluster) (master : string) (survey : list podRole) : string * list string :=
  foldl (λ acc s, if podName vc (pr_ordinal s) == master then (pr_host s, acc.2)
                  else if pr_reachable s then (acc.1, acc.2 ++ [pr_host s]) else acc) ("", []) survey.
Definition sentinelHandover (vc : ValkeyCluster) (password : string) (survey : list podRole) (master : string) :
    prog (option error) :=
  cert ← loadMTLSClientCert vc;
  let dial host := dialReplClient host (dataPort vc) password (tlsEnabled vc) cert (2 * second) in
  let '(masterHost, replicaHosts) := handoverHosts vc master survey in
  handOverMaster dial (issueSentinelFailover vc password) masterHost replicaHosts (dataPort vc) sentinelHandoverTimings.

(** Plane 2 of [driveSentinelRollout]: the Sentinel pods. *)
Definition driveSentinelPlane (vc : ValkeyCluster) : prog (bool * option KubeErr) :=
  r ← perform (OGetSts (vcNamespace vc) (sentinelStatefulSetName vc));
  match r with
  | inl err => mret (false, Some err)
  | inr sts =>
      let senRev := sts_UpdateRevision sts in
      if senRev == "" then mret (false, None)
      else
        l ← listSentinelRolloutPods vc;
        match l with
        | inl err => mret (false, Some err)
        | inr senPods =>
            if (wrap32 (Z.of_nat (length senPods)) <? sentinelReplicas vc)%Z then mret (true, None)
            else
              let action := nextRolloutStep senPods senRev "" in
              match ra_kind action with
              | rolloutWait => mret (true, None)
              | rolloutRollReplica =>
                  e ← deletePodByName vc (ra_pod action);
                  mret (true, e)
              | _ => mret (false, None)
              end
        end
  end.

Definition driveSentinelRollout (vc : ValkeyCluster) (password : string) : prog (bool * option KubeErr) :=
  r ← perform (OGetSts (vcNamespace vc) (statefulSetName vc));
  match r with
  | inl err => mret (false, Some err)
  | inr sts =>
      let dataRev := sts_UpdateRevision sts in
      if dataRev == "" then mret (false, None)
      else
        l ← listRolloutPods vc;
        match l with
        | inl err => mret (false, Some err)
        | inr dataPods =>
            if (wrap32 (Z.of_nat (length dataPods)) <? Spec_Replicas (Spec vc))%Z then mret (true, None)
            else if anyStale dataPods dataRev then
              survey ← surveyReplication vc password;
              let master := sentinelDataMaster vc survey in
              if master == "" then mret (true, None)
              else
                let action := nextRolloutStep dataPods dataRev master in
                match ra_kind action with
                | rolloutWait => mret (true, None)
                | rolloutRollReplica =>
                    e ← deletePodByName vc (ra_pod action);
                    mret (true, e)
                | rolloutPromote =>
                    _ ← sentinelHandover vc password survey (ra_pod action);
                    mret (true, None)
                | rolloutNone => driveSentinelPlane vc
                end
            else driveSentinelPlane vc
        end
  end.

(** ** Soundness of the catch-up test *)

Lemma slaveCaughtUp_iff m off i :
  slaveCaughtUp m off i = true ↔ ∃ o,
    let fs := slaveFields (map_get m ("slave" +:+ Itoa i)) in
    ParseInt (map_get fs "offset") 64 = Some o ∧ map_get fs "state" = "online" ∧ (off ≤ o)%Z.
Proof.
  unfold slaveCaughtUp. destruct (ParseInt _ 64) as [o|] eqn:Eo.
  - rewrite andb_true_iff, bool_decide_eq_true, Z.leb_le. cbv zeta. rewrite ?Eo. split.
    + intros [? ?]. eauto.
    + intros (? & ? & ? & ?). by simplify_eq.
  - split; [done|]. cbv zeta. rewrite ?Eo. by intros (? & ? & _).
Qed.

(** When [replicasCaughtUp] says yes, the master's own INFO lists at least one replica (or a
    negative count), and every replica it lists is online at an offset not below the
    master's. *)
Theorem replicasCaughtUp_sound m :
  replicasCaughtUp m = true ↔
  ∃ off n, ParseInt (map_get m "master_repl_offset") 64 = Some off ∧
    Atoi (map_get m "connected_slaves") = Some n ∧ n ≠ 0%Z ∧
    ∀ i, (0 ≤ i < n)%Z → ∃ o,
      let fs := slaveFields (map_get m ("slave" +:+ Itoa i)) in
      ParseInt (map_get fs "offset") 64 = Some o ∧ map_get fs "state" = "online" ∧ (off ≤ o)%Z.
Proof.
  unfold replicasCaughtUp.
  destruct (ParseInt (map_get m "master_repl_offset") 64) as [off|]; [|by split; [|intros (? & ? & ? & _)]].
  destruct (Atoi (map_get m "connected_slaves")) as [n|]; [|by split; [|intros (? & ? & _ & ? & _)]].
  case_bool_decide as Hn; [split; [done|intros (? & ? & _ & ? & ? & _); congruence]|].
  rewrite forallb_elem. setoid_rewrite elem_of_zrange. setoid_rewrite slaveCaughtUp_iff. split.
  - intros H. exists off, n. auto.
  - intros (? & ? & ? & ? & _ & H). simplify_eq. exact H.
Qed.

(** ** The order of a handover *)
Definition isRead (e : Event) : Prop := reads (ev_op e) = true.
#[global] Instance isRead_reads : IgnoresReads isRead.
Proof. by intros []. Qed.

Definition PAUSE (t : handoverTimings) : list string := ["CLIENT"; "PAUSE"; Itoa (Z.quot (ht_pause t) 1000000); "WRITE"].
Definition UNPAUSE : list string := ["CLIENT"; "UNPAUSE"].

Lemma poll_go_exec {S} tries poll (cond : S → prog (bool * S)) (I : S → Prop) (Good : list Event → S → Prop) :
  (∀ st tr b st', I st → exec (cond st) tr (b, st') →
     Forall isRead tr ∧ I st' ∧ (b = true → Good tr st')) →
  ∀ st tr e st', I st → exec (poll_go tries poll cond st) tr (e, st') →
  Forall isRead tr ∧ (e = None → ∃ tr1 tr2, tr = tr1 ++ tr2 ∧ Good tr2 st').
Proof.
  intros Hc. induction tries as [|n IH]; intros st tr e st' Hst Hx; simpl in Hx.
  { exec_inv. by split. }
  apply exec_bind in Hx as (t1 & t2 & [b st1] & -> & H1 & Hx).
  destruct (Hc _ _ _ _ Hst H1) as (Hr & Hst1 & Hg). destruct b.
  - exec_inv. rewrite ?app_nil_r. split; [done|]. intros _. exists [], t1. auto.
  - apply exec_bind in Hx as (t3 & t4 & stop & -> & ->%exec_perform & Hx).
    assert (Forall isRead [Ev (OSleep poll) stop]) by (by repeat constructor). destruct stop.
    + exec_inv. rewrite ?app_nil_r. split; [by apply Forall_app|done].
    + destruct (IH _ _ _ _ Hst1 Hx) as [Hr4 Hg4]. split; [by rewrite !Forall_app|].
      intros He. destruct (Hg4 He) as (u1 & u2 & -> & Hgood). eexists (t1 ++ [_] ++ u1), u2.
      by rewrite <-!app_assoc.
Qed.

Section handover.
(** Dialing only looks, and yields a client of the host asked for; the failover request is
    any program. *)
Context (dial : string → prog (option replClient)) (failover : prog (option error)).
Hypothesis dial_reads : ∀ h tr c, exec (dial h) tr c → Forall isRead tr ∧ ∀ o, c = Some o → d_Host o = h.
Context (port : Z) (t : handoverTimings).

(** The client [o] answered INFO with role:master during [tr]. *)
Definition sawMaster (h : string) (tr : list Event) : Prop :=
  ∃ o text, d_Host o = h ∧ Ev (OInfo o "replication") (inr text) ∈ tr ∧
            map_get (parseInfo text) "role" = roleMaster.
(** The master [mc] reported every replica caught up in the last event of [tr]. *)
Definition sawCaughtUp (mc : replClient) (tr : list Event) : Prop :=
  ∃ tr0 text, tr = tr0 ++ [Ev (OInfo mc "replication") (inr text)] ∧ replicasCaughtUp (parseInfo text) = true.

Lemma info_exec c tr r :
  exec (info c) tr r → ∃ x, tr = [Ev (OInfo c "replication") x] ∧
    r = match x with inl e => inl e | inr text => inr (parseInfo text) end.
Proof.
  unfold info, infoSection. intros (t1 & t2 & x & -> & ->%exec_perform & [-> <-]%exec_ret)%exec_bind. eauto.
Qed.

Definition clientsOk (st : gmap string replClient * string) : Prop :=
  ∀ h c, st.1 !! h = Some c → d_Host c = h.

Lemma findPromoted_exec hosts st tr b st' :
  clientsOk st → exec (findPromoted dial hosts st) tr (b, st') →
  Forall isRead tr ∧ clientsOk st' ∧ (b = true → st'.2 ∈ hosts ∧ sawMaster st'.2 tr).
Proof.
  revert st tr. induction hosts as [|h rest IH]; intros [reps pr] tr Hok Hx; simpl in Hx.
  { exec_inv. by split_and!. }
  apply exec_bind in Hx as (t1 & t2 & c & -> & Hc & Hx).
  assert (Forall isRead t1 ∧ ∀ o, c = Some o → d_Host o = h) as [H1 Hh].
  { destruct (reps !! h) as [c0|] eqn:E; [|by apply dial_reads]. exec_inv. split; [done|].
    intros o ?. simplify_eq. by eapply (Hok h). }
  destruct c as [c|].
  2: { destruct (IH _ _ Hok Hx) as (H2 & ? & Hb). split_and!; [by apply Forall_app|done|].
       intros (? & o & text & ? & ? & ?)%Hb. split; [by constructor|]. exists o, text. set_solver. }
  specialize (Hh c eq_refl).
  assert (clientsOk (<[h:=c]> reps, pr)) as Hok'.
  { intros h' c'. simpl. rewrite lookup_insert_Some. intros [[<- <-]|[_ ?]]; [done|]. by apply (Hok h'). }
  apply exec_bind in Hx as (t3 & t4 & i & -> & (x & -> & ->)%info_exec & Hx).
  assert (Forall isRead [Ev (OInfo c "replication") x]) by (by repeat constructor).
  assert (exec (findPromoted dial rest (<[h:=c]> reps, pr)) t4 (b, st') →
    Forall isRead (t1 ++ [Ev (OInfo c "replication") x] ++ t4) ∧ clientsOk st' ∧
    (b = true → st'.2 ∈ h :: rest ∧ sawMaster st'.2 (t1 ++ [Ev (OInfo c "replication") x] ++ t4))) as Hcont.
  { intros Hx'. destruct (IH _ _ Hok' Hx') as (H2 & ? & Hb). split_and!; [by rewrite !Forall_app|done|].
    intros (? & o & text & ? & ? & ?)%Hb. split; [by constructor|]. exists o, text. set_solver. }
  destruct x as [e|text]; [by apply Hcont|]. case_bool_decide as Hrole; [|by apply Hcont].
  exec_inv. rewrite ?app_nil_r. split_and!; [by rewrite !Forall_app|done|]. intros _. simpl.
  split; [constructor|]. exists c, text. set_solver.
Qed.

(** What [awaitPromotion] does: reads, then at most one REPLICAOF, sent to the old master,
    naming a replica that reported itself a master. *)
Lemma awaitPromotion_exec mc hosts tr r :
  exec (awaitPromotion dial mc hosts port t) tr r →
  (Forall isRead tr ∧ r ≠ None) ∨
  ∃ trW h x, tr = trW ++ [Ev (ODo mc ["REPLICAOF"; h; Itoa port]) x] ∧ Forall isRead trW ∧
    h ∈ hosts ∧ sawMaster h trW ∧ (r = None → ∃ rep, x = inr rep).
Proof.
  unfold awaitPromotion. intros (t1 & t2 & [pe st] & -> & Hp & Hx)%exec_bind.
  apply (poll_go_exec _ _ _ clientsOk (λ tr st, st.2 ∈ hosts ∧ sawMaster st.2 tr)) in Hp as [H1 Hg];
    [|intros; by eapply findPromoted_exec|done].
  destruct pe as [e|]; [left; exec_inv; by rewrite ?app_nil_r|]. right.
  destruct (Hg eq_refl) as (u1 & u2 & -> & Hin & o & text & Ho & Hev & Hrole).
  unfold replicaOf, do_err in Hx. apply exec_bind in Hx as (t3 & t4 & re & -> & Hre & [-> <-]%exec_ret).
  apply exec_bind in Hre as (t5 & t6 & x & -> & ->%exec_perform & [-> <-]%exec_ret).
  exists (u1 ++ u2), st.2, x. rewrite ?app_nil_r. split_and!; try done.
  - exists o, text. set_solver.
  - destruct x as [?|rep]; [done|]. eauto.
Qed.

(** What happens while the writes are paused: [trC] waits for the catch-up, [trF] is the
    failover request, [trW] waits for the promotion and re-points the old master. *)
Definition pausedPhase (mc : replClient) (hosts : list string) (trC trF trW : list Event) (r : option error) : Prop :=
  Forall isRead trC ∧
  (trF ++ trW ≠ [] ∨ r = None → sawCaughtUp mc trC) ∧
  (trF = [] ∨ ∃ fe, exec failover trF fe) ∧
  ((Forall isRead trW ∧ r ≠ None) ∨
   ∃ trR h x, trW = trR ++ [Ev (ODo mc ["REPLICAOF"; h; Itoa port]) x] ∧ Forall isRead trR ∧
     h ∈ hosts ∧ sawMaster h trR ∧ (r = None → ∃ rep, x = inr rep)).

Lemma handOverPaused_exec mc hosts tr r :
  exec (handOverPaused dial failover mc hosts port t) tr r →
  ∃ trC trF trW, tr = trC ++ trF ++ trW ∧ pausedPhase mc hosts trC trF trW r.
Proof.
  unfold handOverPaused. intros (trC & t2 & [ce []] & -> & Hc & Hx)%exec_bind.
  apply (poll_go_exec _ _ _ (λ _, True) (λ tr _, sawCaughtUp mc tr)) in Hc as [H1 Hg]; [| |done].
  2: { intros [] tr0 b [] _ (u1 & u2 & i & -> & (x & -> & ->)%info_exec & [-> Hb]%exec_ret)%exec_bind.
       split_and!; [by repeat constructor|done|]. intros ->. rewrite ?app_nil_r. exists [].
       destruct x as [?|text]; simplify_eq. by exists text. }
  destruct ce as [e|]; simpl in Hx.
  { apply exec_ret in Hx as [-> <-]. exists trC, [], []. split; [by rewrite ?app_nil_r|].
    split_and!; [done| |by left|left; by split]. by intros [?|?]. }
  destruct (Hg eq_refl) as (u1 & u2 & -> & tr0 & text & -> & Hcu).
  assert (sawCaughtUp mc (u1 ++ tr0 ++ [Ev (OInfo mc "replication") (inr text)])) as Hsaw
    by (exists (u1 ++ tr0), text; by rewrite <-app_assoc).
  apply exec_bind in Hx as (trF & trW & fe & -> & HF & Hx).
  eexists _, trF, trW. split; [done|]. split_and!; [done|done|by right; eexists|].
  destruct fe as [e|]; [destruct (has_prefix e "INPROG"); simpl in Hx|].
  - by apply awaitPromotion_exec in Hx.
  - apply exec_ret in Hx as [-> <-]. by left.
  - by apply awaitPromotion_exec in Hx.
Qed.

(** C3: a master handover keeps its order whatever the pods answer.  Either no command is sent
    to any pod, or the writes of the master are paused (on the master, and after its INFO
    showed every replica linked) and, when the pause was granted, the last operation of the
    handover lifts it, on every path.  In between, the failover is requested only after the
    master reported every replica caught up, and the old master is pointed at a replica
    only after that replica reported itself a master; the handover reports success only if
    that REPLICAOF was accepted. *)
Theorem handOverMaster_order masterHost hosts tr r :
  exec (handOverMaster dial failover masterHost hosts port t) tr r →
  (Forall isRead tr ∧ r ≠ None) ∨
  ∃ mc tr0 text x rest,
    tr = tr0 ++ Ev (ODo mc (PAUSE t)) x :: rest ∧ d_Host mc = masterHost ∧ Forall isRead tr0 ∧
    Ev (OInfo mc "replication") (inr text) ∈ tr0 ∧
    replicasLinked (parseInfo text) (Z.of_nat (length hosts)) = true ∧
    match x with
    | inl _ => rest = [] ∧ r ≠ None
    | inr _ => ∃ trC trF trW err u,
        rest = trC ++ trF ++ trW ++ [Ev (ODo mc UNPAUSE) u] ∧
        pausedPhase mc hosts trC trF trW err ∧ (r = None → err = None ∧ ∃ rep, u = inr rep)
    end.
Proof.
  unfold handOverMaster. destruct (_ || _)%bool; [intros; exec_inv; by left|].
  intros (t1 & t2 & c & -> & [H1 Hh]%dial_reads & Hx)%exec_bind.
  destruct c as [mc|]; [|left; exec_inv; by rewrite ?app_nil_r].
  apply exec_bind in Hx as (t3 & t4 & i & -> & (x & -> & ->)%info_exec & Hx).
  assert (Forall isRead (t1 ++ [Ev (OInfo mc "replication") x])) as H3
    by (apply Forall_app; split; [done|by repeat constructor]).
  destruct x as [e|text]; cbv beta iota delta [negb] in Hx; [left; exec_inv; by rewrite ?app_nil_r|].
  destruct (replicasLinked _ _) eqn:Hl; [|left; exec_inv; by rewrite ?app_nil_r]. right.
  unfold clientPauseWrite, do_err in Hx. apply exec_bind in Hx as (t5 & t6 & pe & -> & Hp & Hx).
  apply exec_bind in Hp as (t7 & t8 & x & -> & ->%exec_perform & [-> <-]%exec_ret).
  exists mc, (t1 ++ [Ev (OInfo mc "replication") (inr text)]), text, x, t6.
  split_and!; [by rewrite <-!app_assoc|by apply Hh|done|set_solver|done|].
  destruct x as [e|rep]; [by exec_inv|].
  apply exec_bind in Hx as (t9 & t10 & err & -> & (trC & trF & trW & -> & Hph)%handOverPaused_exec & Hx).
  apply exec_bind in Hx as (t11 & t12 & ue & -> & Hu & [-> <-]%exec_ret).
  unfold clientUnpause, do_err in Hu.
  apply exec_bind in Hu as (t13 & t14 & u & -> & ->%exec_perform & [-> <-]%exec_ret).
  exists trC, trF, trW, err, u. split_and!; [by rewrite <-!app_assoc|done|].
  destruct err, u as [?|rep']; try done. intros _. eauto.
Qed.
End handover.

(** ** The rollout pass *)
Lemma podName_nonempty vc o : podName vc o ≠ "".
Proof. unfold podName. destruct (statefulSetName vc); done. Qed.

(** A master is named only when exactly one reachable pod reports role:master. *)
Lemma sentinelDataMaster_go_spec vc survey m0 m :
  sentinelDataMaster_go vc m0 survey = m → m ≠ "" →
  (m0 = m ∧ filter reachableMaster survey = []) ∨
  (m0 = "" ∧ ∃ s, filter reachableMaster survey = [s] ∧ m = podName vc (pr_ordinal s)).
Proof.
  revert m0; induction survey as [|s l IH]; intros m0 H Hne; simpl in H; [by left|].
  rewrite filter_cons_bool. destruct (reachableMaster s); [|by apply IH].
  case_bool_decide as E; simpl in H; [subst m0|by subst m].
  right. split; [done|]. exists s. destruct (IH _ H Hne) as [[<- ->]|[E _]]; [done|].
  by apply podName_nonempty in E.
Qed.
Lemma sentinelDataMaster_unique vc survey m :
  sentinelDataMaster vc survey = m → m ≠ "" →
  ∃ s, filter reachableMaster survey = [s] ∧ m = podName vc (pr_ordinal s).
Proof.
  intros H Hne. destruct (sentinelDataMaster_go_spec vc survey "" m H Hne) as [[<- _]|[_ Hs]]; done.
Qed.

Lemma surveyReplication_noDelete vc pw : spec (surveyReplication vc pw) noDelete (λ _, True).
Proof.
  eapply spec_mono; [apply (spec_mapP noDelete _ _ (λ _ _, True))|done|done].
  intros i _. unfold surveyPod. eapply spec_bind; [apply dialPod_spec; apply _|].
  intros [c|] _; [|by apply spec_ret]. unfold info, infoSection.
  eapply (spec_bind _ _ _ (λ _, True)); [spec_op; intros; by apply spec_ret|]. intros inf _.
  unfold dbsize. spec_op. intros n. by apply spec_ret.
Qed.

Lemma issueSentinelFailover_noDelete vc pw : spec (issueSentinelFailover vc pw) noDelete (λ _, True).
Proof.
  unfold issueSentinelFailover. generalize (@None error). induction (zrange 0 (sentinelReplicas vc)) as [|i l IH];
    intros e; simpl; [by apply spec_ret|].
  eapply spec_bind; [apply dialPod_spec; apply _|]. intros [c|] _; [|by apply IH].
  unfold sentinelFailover, do_err. spec_op; [done|]. intros r. by apply spec_ret.
Qed.

Lemma dialReplClient_reads host port pw tls cert timeout tr c :
  exec (dialReplClient host port pw tls cert timeout) tr c → Forall isRead tr ∧ ∀ o, c = Some o → d_Host o = host.
Proof.
  unfold dialReplClient. intros (t1 & t2 & ok & -> & ->%exec_perform & [-> <-]%exec_ret)%exec_bind.
  split; [by repeat constructor|]. intros o Ho. destruct ok; by simplify_eq.
Qed.

Lemma isRead_noDelete tr : Forall isRead tr → Forall noDelete tr.
Proof. intros H. eapply Forall_impl; [exact H|]. by intros [[] ?]. Qed.

Lemma sentinelHandover_noDelete vc pw survey m : spec (sentinelHandover vc pw survey m) noDelete (λ _, True).
Proof.
  unfold sentinelHandover. eapply spec_bind; [apply loadMTLSClientCert_spec; apply _|]. intros cert _.
  destruct (handoverHosts vc m survey) as [mh rhs]. intros tr r Hx. split; [|done].
  apply handOverMaster_order in Hx as [[? _]|(mc & tr0 & text & x & rest & -> & _ & H0 & _ & _ & Hx)];
    [by apply isRead_noDelete| |intros; by eapply dialReplClient_reads].
  apply Forall_app. split; [by apply isRead_noDelete|]. apply Forall_cons. split; [done|].
  destruct x as [e|rep]; [by destruct Hx as [-> _]|].
  destruct Hx as (trC & trF & trW & err & u & -> & (HC & _ & HF & HW) & _).
  rewrite !Forall_app. split_and!; [by apply isRead_noDelete| | |by repeat constructor].
  - destruct HF as [->|(fe & HF)]; [done|]. by apply issueSentinelFailover_noDelete in HF as [? _].
  - destruct HW as [[? _]|(trR & h & y & -> & ? & _)]; [by apply isRead_noDelete|].
    apply Forall_app. split; [by apply isRead_noDelete|by repeat constructor].
Qed.

Lemma rolloutPodOf_name sts (items : list Pod) p :
  p ∈ omap (rolloutPodOf sts) items → is_Some (ordinalFromPodName (rp_name p) sts).
Proof.
  intros (q & Hq & Hp)%list_elem_of_omap. unfold rolloutPodOf in Hp.
  destruct (pod_Deleting q); [done|]. destruct (ordinalFromPodName (pod_Name q) sts) eqn:E; simplify_eq. simpl. by rewrite E.
Qed.

(** A delete of the pass, and why it is safe. *)
Definition sparesMaster (vc : ValkeyCluster) (pw : string) (tr0 : list Event) (name : string) : Prop :=
  (∃ trS survey s, exec (surveyReplication vc pw) trS survey ∧ (∃ t1 t2, tr0 = t1 ++ trS ++ t2) ∧
     filter reachableMaster survey = [s] ∧ name ≠ podName vc (pr_ordinal s)) ∨
  is_Some (ordinalFromPodName name (sentinelStatefulSetName vc)).

Lemma driveSentinelPlane_deletes vc tr r :
  exec (driveSentinelPlane vc) tr r →
  Forall noDelete tr ∨ ∃ tr0 name e, tr = tr0 ++ [Ev (ODeletePod (vcNamespace vc) name) e] ∧
    Forall noDelete tr0 ∧ is_Some (ordinalFromPodName name (sentinelStatefulSetName vc)).
Proof.
  unfold driveSentinelPlane. intros (t1 & t2 & [err|sts] & -> & ->%exec_perform & Hx)%exec_bind;
    [left; exec_inv; by repeat constructor|].
  case_bool_decide; [left; exec_inv; by repeat constructor|].
  apply exec_bind in Hx as (t3 & t4 & l & -> & Hl & Hx). unfold listSentinelRolloutPods in Hl.
  apply exec_bind in Hl as (t5 & t6 & ri & -> & ->%exec_perform & [-> <-]%exec_ret).
  destruct ri as [err|items]; [left; exec_inv; by repeat constructor|].
  case_match; [left; exec_inv; by repeat constructor|].
  set (pods := omap _ items) in *. set (rev := sts_UpdateRevision sts) in *.
  pose proof (nextRolloutStep_decides pods rev "") as Hd. unfold rolloutDecision in Hd.
  destruct (ra_kind (nextRolloutStep pods rev "")); try (left; exec_inv; by repeat constructor).
  destruct Hd as (_ & _ & p & Hp & Ep & _). right.
  apply exec_bind in Hx as (t7 & t8 & e & -> & [e' ->]%deletePodByName_exec & [-> _]%exec_ret).
  eexists [_; _], _, e'. split_and!; [done|by repeat constructor|]. rewrite Ep. by eapply rolloutPodOf_name.
Qed.

(** The Sentinel rollout never deletes the master.  A pass deletes at most one pod, as its
    last operation: a data pod only after a survey of the same pass in which exactly one
    reachable pod reported role:master, and never that pod; otherwise a Sentinel pod. *)
Theorem driveSentinelRollout_spares_master vc pw tr r :
  exec (driveSentinelRollout vc pw) tr r →
  Forall noDelete tr ∨
  ∃ tr0 name e, tr = tr0 ++ [Ev (ODeletePod (vcNamespace vc) name) e] ∧ Forall noDelete tr0 ∧
    sparesMaster vc pw tr0 name.
Proof.
  assert (∀ t0 tr1, Forall noDelete t0 → exec (driveSentinelPlane vc) tr1 r →
    Forall noDelete (t0 ++ tr1) ∨ ∃ tr0 name e, t0 ++ tr1 = tr0 ++ [Ev (ODeletePod (vcNamespace vc) name) e] ∧
      Forall noDelete tr0 ∧ sparesMaster vc pw tr0 name) as Hplane.
  { intros t0 tr1 H0 [?|(tr0 & name & e & -> & ? & ?)]%driveSentinelPlane_deletes; [left; by apply Forall_app|].
    right. exists (t0 ++ tr0), name, e. split_and!; [by rewrite app_assoc|by apply Forall_app|by right]. }
  unfold driveSentinelRollout. intros (t1 & t2 & [err|sts] & -> & ->%exec_perform & Hx)%exec_bind;
    [left; exec_inv; by repeat constructor|].
  case_bool_decide; [left; exec_inv; by repeat constructor|].
  apply exec_bind in Hx as (t3 & t4 & l & -> & Hl & Hx). unfold listRolloutPods in Hl.
  apply exec_bind in Hl as (t5 & t6 & ri & -> & ->%exec_perform & [-> <-]%exec_ret).
  destruct ri as [err|items]; [left; exec_inv; by repeat constructor|].
  case_match; [left; exec_inv; by repeat constructor|].
  set (pods := omap _ items) in *. set (rev := sts_UpdateRevision sts) in *.
  rewrite app_nil_r, app_assoc.
  match goal with |- context [([?a] ++ [?b]) ++ t4] => set (t0 := [a] ++ [b]) end.
  assert (Forall noDelete t0) as Hnd0 by (by repeat constructor).
  destruct (anyStale pods rev); [|by apply Hplane].
  apply exec_bind in Hx as (trS & t7 & survey & -> & HS & Hx).
  pose proof (surveyReplication_noDelete _ _ _ _ HS) as [HnS _].
  rewrite app_assoc. assert (Forall noDelete (t0 ++ trS)) as H1 by (by apply Forall_app).
  case_bool_decide as Hm; [left; exec_inv; by rewrite ?app_nil_r|].
  destruct (sentinelDataMaster_unique vc survey _ eq_refl Hm) as (s & Hs & Em).
  pose proof (nextRolloutStep_decides pods rev (sentinelDataMaster vc survey)) as Hd. unfold rolloutDecision in Hd.
  destruct (ra_kind (nextRolloutStep pods rev (sentinelDataMaster vc survey))).
  - by apply Hplane.
  - left; exec_inv; by rewrite ?app_nil_r.
  - destruct Hd as (_ & _ & p & Hp & Ep & _ & Hpn & _). right.
    apply exec_bind in Hx as (t8 & t9 & e & -> & [e' ->]%deletePodByName_exec & [-> _]%exec_ret).
    exists (t0 ++ trS), (ra_pod (nextRolloutStep pods rev (sentinelDataMaster vc survey))), e'.
    split_and!; [done|done|]. left. exists trS, survey, s. split_and!; [done| |done|congruence].
    exists t0, []. by rewrite ?app_nil_r.
  - left. apply exec_bind in Hx as (t8 & t9 & e & -> & [? _]%sentinelHandover_noDelete & [-> _]%exec_ret).
    rewrite ?app_nil_r. by apply Forall_app.
Qed.

(** ** A concrete Sentinel cluster: only the master is stale *)
Definition demoSentinel : ValkeyCluster :=
  newCluster "demo" "ns" (set_Spec_Sentinel
    (Some {| Sentinel_Replicas := 3; Sentinel_Quorum := 2; Sentinel_Image := "";
             Sentinel_Resources := {| Limits := ∅; Requests := ∅ |};
             Sentinel_DownAfterMilliseconds := 0; Sentinel_FailoverTimeout := 0 |})
    (set_Spec_Replicas 2%Z (set_Spec_Topology TopologySentinel zeroSpec))).
(** The environment: pod 0 is the master until a Sentinel was asked to fail over; the world
    tells whether it was. *)
Definition sentinelInfo (failedOver : bool) (host : string) : string :=
  if Bool.eqb failedOver (podNameFromFQDN host == "demo-0")
  then "role:slave" +:+ nl +:+ "master_host:x"
  else "role:master" +:+ nl +:+ "connected_slaves:1" +:+ nl +:+ "master_repl_offset:50" +:+ nl +:+
       "slave0:ip=10.0.0.2,port=6379,state=online,offset=50,lag=0".
Definition sentinel_handle (stale : bool) (op : Op) : bool → ans op * bool :=
  match op return bool → ans op * bool with
  | OPing _ => λ w, (true, w)
  | OInfo o _ => λ w, (inr (sentinelInfo w (d_Host o)), w)
  | ODBSize _ => λ w, (inr 5%Z, w)
  | ODo _ args => λ w, (inr (RStr "OK"), w || bool_decide (args = ["SENTINEL"; "FAILOVER"; "mymaster"]))
  | OGetSts _ _ => λ w, (inr demoSts, w)
  | OListPods _ _ => λ w, (inr [demoPod 0 "old"; demoPod 1 (if stale then "old" else "new")], w)
  | OSleep _ => λ w, (false, w)
  | _ => λ w, (inhabitant, w)
  end.
Definition sentinelTrace (stale : bool) : list Event :=
  trace (sentinel_handle stale) (driveSentinelRollout demoSentinel "pw") false.

(** Only the master is stale: pause, fail over, re-point, unpause, and no delete. *)
Example handover_commands :
  omap (λ e, match ev_op e with
             | ODo o args => Some (podNameFromFQDN (d_Host o), args)
             | _ => None end) (sentinelTrace false) =
  [("demo-0", ["CLIENT"; "PAUSE"; "15000"; "WRITE"]);
   ("demo-sentinel-0", ["SENTINEL"; "FAILOVER"; "mymaster"]);
   ("demo-0", ["REPLICAOF"; "demo-1.demo-headless.ns.svc.cluster.local"; "6379"]);
   ("demo-0", ["CLIENT"; "UNPAUSE"])] ∧
  Forall noDelete (sentinelTrace false).
Proof. split; [vm_compute; reflexivity|vm_compute; by repeat constructor]. Qed.
(** A replica is stale too: it is rolled first. *)
Example replica_rolled_first : last (ev_op <$> sentinelTrace true) = Some (ODeletePod "ns" "demo-1").
Proof. vm_compute. reflexivity. Qed.

Lemma driveSentinelRollout_spares_master_witness :
  Forall noDelete (sentinelTrace true) ∨
  ∃ tr0 name e, sentinelTrace true = tr0 ++ [Ev (ODeletePod "ns" name) e] ∧ Forall noDelete tr0 ∧
    sparesMaster demoSentinel "pw" tr0 name.
Proof.
  apply (driveSentinelRollout_spares_master demoSentinel "pw" (sentinelTrace true)
           (run (sentinel_handle true) (driveSentinelRollout demoSentinel "pw") false).1).
  apply run_exec.
Defined.

Definition demoDial (h : string) : prog (option replClient) := dialReplClient h 6379 "pw" false None second.
Definition handoverTrace : list Event :=
  trace (sentinel_handle false) (handOverMaster demoDial (issueSentinelFailover demoSentinel "pw")
    (demoHost 0) [demoHost 1] 6379 sentinelHandoverTimings) false.
Definition handoverResult : option error :=
  (run (sentinel_handle false) (handOverMaster demoDial (issueSentinelFailover demoSentinel "pw")
    (demoHost 0) [demoHost 1] 6379 sentinelHandoverTimings) false).1.
Lemma handOverMaster_order_witness :
  (Forall isRead handoverTrace ∧ handoverResult ≠ None) ∨
  ∃ mc tr0 text x rest,
    handoverTrace = tr0 ++ Ev (ODo mc (PAUSE sentinelHandoverTimings)) x :: rest ∧ d_Host mc = demoHost 0 ∧
    Forall isRead tr0 ∧ Ev (OInfo mc "replication") (inr text) ∈ tr0 ∧
    replicasLinked (parseInfo text) 1 = true ∧
    match x with
    | inl _ => rest = [] ∧ handoverResult ≠ None
    | inr _ => ∃ trC trF trW err u,
        rest = trC ++ trF ++ trW ++ [Ev (ODo mc UNPAUSE) u] ∧
        pausedPhase (issueSentinelFailover demoSentinel "pw") 6379 mc [demoHost 1] trC trF trW err ∧
        (handoverResult = None → err = None ∧ ∃ rep, u = inr rep)
    end.
Proof.
  apply (handOverMaster_order demoDial (issueSentinelFailover demoSentinel "pw")
           (λ h tr c, dialReplClient_reads h 6379 "pw" false None second tr c)
           6379 sentinelHandoverTimings (demoHost 0) [demoHost 1] handoverTrace handoverResult).
  apply run_exec.
Defined.
