(* ===== verification/Scaling.v ===== *)
(** * Scaling: forming, growing, shrinking and resharding a Cluster
      (cluster.go, cluster_pershard.go, restore_assembly.go)

    The membership operations run as Jobs: a pass creates the Job, later passes
    look at it, and the pass that sees it succeeded records the result in the
    status ([ClusterInitialized], [LastAppliedReplicas], [LastReshardToken]).
    [statefulSetReplicas] (Naming) reads [LastAppliedReplicas], which is what keeps
    the pods of a shrinking cluster alive until their slots are drained. *)

From S2P Require Import Prelude GoStd Kube Api Effects Naming Failover Rollout ClusterNodes Recovery Status Jobs.

Section scaling.
Context `{ConditionLib}.

(** ** First formation *)
Definition clusterFormed (vc : ValkeyCluster) (password : string) : prog bool :=
  c ← dialPod vc (clusterAnyPodHost vc) (dataPort vc) password (3 * second);
  match c with
  | None => mret false
  | Some c =>
      out ← do_text c ["CLUSTER"; "INFO"];
      match out with
      | inl _ => mret false
      | inr out => mret (contains out "cluster_state:ok" && contains out "cluster_slots_assigned:16384")%bool
      end
  end.

(** The status update shared by every path that declares the cluster formed. *)
Definition markInitialized (vc : ValkeyCluster) (reason msg : string) : prog Outcome :=
  let st := set_Status_LastAppliedReplicas (totalReplicas vc) (set_Status_ClusterInitialized true (Status vc)) in
  st ← stampCondition st ConditionClusterInitialized ConditionTrue reason msg (vcGeneration vc);
  let vc' := with_status vc (λ _, st) in
  err ← perform (OPatchStatus vc vc');
  mret (returning 0 err vc').
Definition adoptFormedCluster (vc : ValkeyCluster) (reason msg : string) : prog Outcome :=
  markInitialized vc reason msg.

(** [controllerutil.SetControllerReference(vc, job, r.Scheme)], then
    [return ctrl.Result{RequeueAfter: d}, r.Create(ctx, job)]. *)
Definition createJob (vc : ValkeyCluster) (job : Job) (d : Z) : prog Outcome :=
  e ← perform (OSetControllerReference (vcName vc) (job_Name job));
  match e with
  | Some err => mret (failed (EKube err) vc)
  | None => err ← perform (OCreateJob job); mret (returning d err vc)
  end.
(** [existing.Status.Failed > *existing.Spec.BackoffLimit]. *)
Definition exhausted (job : Job) : bool := (job_BackoffLimit job <? job_Failed job)%Z.
Definition jobFailedMsg (name : string) : string :=
  "Job " +:+ name +:+ " failed; inspect kubectl logs job/" +:+ name.

Definition runClusterBootstrap (vc : ValkeyCluster) (password : string) : prog Outcome :=
  formed ← clusterFormed vc password;
  if formed : bool then
    adoptFormedCluster vc "AdoptedExisting" "cluster already formed on the data plane; adopted without re-bootstrap"
  else
    let name := vcName vc +:+ "-bootstrap" in
    r ← perform (OGetJob (vcNamespace vc) name);
    match r with
    | inl err => if IsNotFound err then createJob vc (buildBootstrapJob vc password name) 0
                 else mret (failed (EKube err) vc)
    | inr existing =>
        if (0 <? job_Succeeded existing)%Z then
          _ ← perform (OMetricInc "bootstrapTotal" [vcNamespace vc; vcName vc; "success"]);
          markInitialized vc "BootstrapSucceeded" ("Job " +:+ name +:+ " completed")
        else if exhausted existing then
          _ ← perform (OMetricInc "bootstrapTotal" [vcNamespace vc; vcName vc; "failure"]);
          setPhase vc "BootstrapFailed" (jobFailedMsg name)
        else mret (ok vc)
    end.

Definition runClusterRestoreAssembly (vc : ValkeyCluster) (rs : RestoreSpec) (s3 : S3Spec) (password : string) : prog Outcome :=
  formed ← clusterFormed vc password;
  if formed : bool then
    adoptFormedCluster vc "RestoreAssembled" "cluster assembled from restoreFrom adopted"
  else
    let name := vcName vc +:+ "-restore-assembly" in
    r ← perform (OGetJob (vcNamespace vc) name);
    match r with
    | inl err => if IsNotFound err then createJob vc (buildRestoreAssemblyJob vc rs s3 password name) (10 * second)
                 else mret (failed (EKube err) vc)
    | inr existing =>
        if (0 <? job_Succeeded existing)%Z then
          markInitialized vc "RestoreAssembled" ("Job " +:+ name +:+ " assembled the restored cluster")
        else if exhausted existing then mret (requeue (15 * second) vc)
        else mret (requeue (10 * second) vc)
    end.

(** [bootstrapOrRestore] and [reconcileClusterRestore].  The CRD requires
    [restoreFrom.s3]; without it the Go code panics and the manager turns the panic into a
    failed reconcile. *)
Definition bootstrapOrRestore (vc : ValkeyCluster) (password : string) : prog Outcome :=
  match Spec_RestoreFrom (Spec vc) with
  | Some rs =>
      match Restore_S3 rs with
      | Some s3 => runClusterRestoreAssembly vc rs s3 password
      | None => mret (failed (EKube (KubeOther "panic: nil pointer dereference")) vc)
      end
  | None => runClusterBootstrap vc password
  end.

(** ** Growing *)

(** On success: [vc.Status.LastAppliedReplicas = totalReplicas(vc)], patch, delete the Job. *)
Definition recordReplicas (vc : ValkeyCluster) (name : string) : prog Outcome :=
  let vc' := with_status vc (set_Status_LastAppliedReplicas (totalReplicas vc)) in
  err ← perform (OPatchStatus vc vc');
  match err with
  | Some err => mret (failed (EKube err) vc')
  | None => err ← perform (ODeleteJob (vcNamespace vc) name); mret (returning 0 err vc')
  end.

Definition runClusterScaleUp (vc : ValkeyCluster) (password : string) : prog Outcome :=
  let name := vcName vc +:+ "-scaleup" in
  r ← perform (OGetJob (vcNamespace vc) name);
  match r with
  | inl err => if IsNotFound err then createJob vc (buildScaleUpJob vc password name) 0
               else mret (failed (EKube err) vc)
  | inr existing =>
      if (0 <? job_Succeeded existing)%Z then
        _ ← perform (OMetricInc "scaleEventsTotal" [vcNamespace vc; vcName vc; "up"; "success"]);
        recordReplicas vc name
      else if exhausted existing then
        _ ← perform (OMetricInc "scaleEventsTotal" [vcNamespace vc; vcName vc; "up"; "failure"]);
        setPhase vc "ScaleUpFailed" (jobFailedMsg name)
      else mret (ok vc)
  end.

(** ** Shrinking *)

(** [err != nil && !apierrors.IsNotFound(err)]. *)
Definition realError (e : option KubeErr) : option KubeErr :=
  e ≫= λ err, if IsNotFound err then None else Some err.
Definition deleteShard (vc : ValkeyCluster) (s : Z) : prog (option GoErr) :=
  e ← perform (ODeleteSts (vcNamespace vc) (shardStsName vc s));
  match realError e with
  | Some err => mret (Some (EWrap ("delete shard " +:+ Itoa s +:+ " sts") (EKube err)))
  | None =>
      e ← perform (ODeleteSvc (vcNamespace vc) (shardHeadlessName vc s));
      match realError e with
      | Some err => mret (Some (EWrap ("delete shard " +:+ Itoa s +:+ " svc") (EKube err)))
      | None => mret None
      end
  end.
Fixpoint deleteShards (vc : ValkeyCluster) (l : list Z) : prog (option GoErr) :=
  match l with
  | [] => mret None
  | s :: l' => e ← deleteShard vc s; match e with Some _ => mret e | None => deleteShards vc l' end
  end.
Definition deleteLeavingShards (vc : ValkeyCluster) : prog (option GoErr) :=
  deleteShards vc (zrange (shardCountOf vc) (oldShardsOf vc)).

Definition runClusterScaleDown (vc : ValkeyCluster) (password : string) : prog Outcome :=
  let name := vcName vc +:+ "-scaledown" in
  r ← perform (OGetJob (vcNamespace vc) name);
  match r with
  | inl err => if IsNotFound err then createJob vc (buildScaleDownJob vc password name) 0
               else mret (failed (EKube err) vc)
  | inr existing =>
      if (0 <? job_Succeeded existing)%Z then
        _ ← perform (OMetricInc "scaleEventsTotal" [vcNamespace vc; vcName vc; "down"; "success"]);
        e ← (if perShardEnabled vc then deleteLeavingShards vc else mret None);
        match e with
        | Some err => mret (failed err vc)
        | None => recordReplicas vc name
        end
      else if exhausted existing then
        _ ← perform (OMetricInc "scaleEventsTotal" [vcNamespace vc; vcName vc; "down"; "failure"]);
        setPhase vc "ScaleDownFailed" (jobFailedMsg name)
      else mret (ok vc)
  end.

(** ** Resharding on request *)
Definition runClusterReshard (vc : ValkeyCluster) (password token : string) : prog Outcome :=
  let name := vcName vc +:+ "-reshard" in
  r ← perform (OGetJob (vcNamespace vc) name);
  match r with
  | inl err => if IsNotFound err then createJob vc (buildReshardJob vc password name) (5 * second)
               else mret (failed (EKube err) vc)
  | inr existing =>
      if (0 <? job_Succeeded existing)%Z then
        _ ← perform (OMetricInc "scaleEventsTotal" [vcNamespace vc; vcName vc; "reshard"; "success"]);
        let vc' := with_status vc (set_Status_LastReshardToken token) in
        err ← perform (OPatchStatus vc vc');
        match err with
        | Some err => mret (failed (EKube err) vc')
        | None => err ← perform (ODeleteJob (vcNamespace vc) name); mret (returning 0 err vc')
        end
      else if exhausted existing then
        _ ← perform (OMetricInc "scaleEventsTotal" [vcNamespace vc; vcName vc; "reshard"; "failure"]);
        setPhase vc "ReshardFailed" (jobFailedMsg name)
      else mret (requeue (5 * second) vc)
  end.

(** ** The step of the reconcile that runs them *)

(** [err != nil || !result.IsZero()]: the caller returns now. *)
Definition handles (o : Outcome) : bool :=
  (match out_err o with Some _ => true | None => false end || negb (resultIsZero o))%bool.

Definition reshardStep (vc : ValkeyCluster) (password : string) (allReady : bool) : prog (Outcome * bool) :=
  let tok := annotation vc reshardAnnotation in
  if (allReady && (tok != "") && (tok != Status_LastReshardToken (Status vc)))%bool then
    o ← runClusterReshard vc password tok;
    if handles o then mret (o, true) else mret (ok (out_vc o), false)
  else mret (ok vc, false).
Definition scaleDownStep (vc : ValkeyCluster) (password : string) (want : Z) (allReady : bool) : prog (Outcome * bool) :=
  if (want <? Status_LastAppliedReplicas (Status vc))%Z then
    o ← runClusterScaleDown vc password;
    if handles o then mret (o, true) else reshardStep (out_vc o) password allReady
  else reshardStep vc password allReady.
Definition maybeReconcileClusterScaling (vc : ValkeyCluster) (password : string) (want : Z) (allReady : bool) :
    prog (Outcome * bool) :=
  if negb (Status_ClusterInitialized (Status vc)) then mret (ok vc, false)
  else if (allReady && (Status_LastAppliedReplicas (Status vc) <? want)%Z)%bool then
    o ← runClusterScaleUp vc password;
    if handles o then mret (o, true) else scaleDownStep (out_vc o) password want allReady
  else scaleDownStep vc password want allReady.

(** ** The rollout step *)
Definition maybeDriveClusterRollout (vc : ValkeyCluster) (password : string) (want : Z) : prog (Outcome * bool) :=
  if (negb (proactiveRolloutEnabled vc) || negb (Status_ClusterInitialized (Status vc)) ||
      (Status_LastAppliedReplicas (Status vc) != want))%bool
  then mret (ok vc, false)
  else
    r ← driveClusterRollout vc password;
    match r.2 with
    | Some err => mret (failed (EKube err) vc, true)
    | None => if r.1 : bool then mret (requeue (5 * second) vc, true) else mret (ok vc, false)
    end.

(** ** The pass over an ensured workload

    [reconcileCluster] from the point where the workload exists: [ready] is the number of
    ready data pods, [password] the cluster's password.  The steps run in this order, and
    the first that handles the pass ends it. *)
Definition surveyAndReport (vc : ValkeyCluster) (password : string) (ready : Z) (allReady : bool) : prog Outcome :=
  shardDetails ← (if (Status_ClusterInitialized (Status vc) && allReady)%bool then surveyCluster vc password else mret []);
  o ← updateClusterStatus vc ready allReady shardDetails;
  match out_err o with
  | None => if Status_ClusterInitialized (Status (out_vc o)) then mret (requeue (30 * second) (out_vc o)) else mret o
  | Some _ => mret o
  end.
Definition rolloutThenReport (vc : ValkeyCluster) (password : string) (ready want : Z) (allReady : bool) : prog Outcome :=
  r ← maybeDriveClusterRollout vc password want;
  if r.2 : bool then mret r.1 else surveyAndReport (out_vc r.1) password ready allReady.
Definition scaleThenRest (vc : ValkeyCluster) (password : string) (ready want : Z) (allReady : bool) : prog Outcome :=
  r ← maybeReconcileClusterScaling vc password want allReady;
  if r.2 : bool then mret r.1 else rolloutThenReport (out_vc r.1) password ready want allReady.
Definition recoverThenRest (vc : ValkeyCluster) (password : string) (ready want : Z) (allReady : bool) : prog Outcome :=
  r ← maybeRecoverClusterQuorum vc password;
  let '(d, handled, vc) := r in
  if handled : bool then mret (requeue d vc) else scaleThenRest vc password ready want allReady.
Definition clusterPass (vc : ValkeyCluster) (password : string) (ready : Z) : prog Outcome :=
  let want := totalReplicas vc in
  let allReady := ((ready == want) && (0 <? want)%Z)%bool in
  if (negb (Status_ClusterInitialized (Status vc)) && allReady)%bool then
    o ← bootstrapOrRestore vc password;
    if handles o then mret o else recoverThenRest (out_vc o) password ready want allReady
  else recoverThenRest vc password ready want allReady.

(** ** When [LastAppliedReplicas] may change *)

Abbreviation LAR vc := (Status_LastAppliedReplicas (Status vc)).
Abbreviation CI vc := (Status_ClusterInitialized (Status vc)).

(** The pass read a Job with this suffix and saw it succeeded. *)
Definition sawSuccess (vc : ValkeyCluster) (tr : list Event) (suffix : string) : Prop :=
  ∃ job, Ev (OGetJob (vcNamespace vc) (vcName vc +:+ suffix)) (inr job) ∈ tr ∧ (0 < job_Succeeded job)%Z.
(** Every shard the spec no longer wants has had its StatefulSet and Service deleted. *)
Definition leavingDeleted (vc : ValkeyCluster) (tr : list Event) : Prop :=
  ∀ s, (shardCountOf vc ≤ s < oldShardsOf vc)%Z →
    (∃ e, Ev (ODeleteSts (vcNamespace vc) (shardStsName vc s)) e ∈ tr ∧ realError e = None) ∧
    (∃ e, Ev (ODeleteSvc (vcNamespace vc) (shardHeadlessName vc s)) e ∈ tr ∧ realError e = None).
(** A pod reported the cluster formed, or the formation Job succeeded. *)
Definition sawFormed (vc : ValkeyCluster) (tr : list Event) : Prop :=
  (∃ c out, Ev (ODo c ["CLUSTER"; "INFO"]) (inr (RStr out)) ∈ tr ∧
     contains out "cluster_state:ok" = true ∧ contains out "cluster_slots_assigned:16384" = true) ∨
  sawSuccess vc tr "-bootstrap" ∨ sawSuccess vc tr "-restore-assembly".

(** What a step from [vc] to [vc'] with trace [tr] may have done to the applied size. *)
Record applied (vc : ValkeyCluster) (tr : list Event) (vc' : ValkeyCluster) : Prop := {
  ap_meta : Meta vc' = Meta vc;
  ap_spec : Spec vc' = Spec vc;
  ap_init : CI vc = true → CI vc' = true;
  ap_formed : CI vc = false → CI vc' = true → sawFormed vc tr;
  ap_size : LAR vc' = LAR vc ∨
    LAR vc' = totalReplicas vc ∧
    (CI vc = false ∧ CI vc' = true ∨
     (LAR vc < totalReplicas vc)%Z ∧ sawSuccess vc tr "-scaleup" ∨
     (totalReplicas vc < LAR vc)%Z ∧ sawSuccess vc tr "-scaledown" ∧
       (perShardEnabled vc = true → leavingDeleted vc tr))
}.

Lemma sawSuccess_mono vc vc' tr tr' suffix :
  Meta vc' = Meta vc → (∀ e, e ∈ tr → e ∈ tr') → sawSuccess vc tr suffix → sawSuccess vc' tr' suffix.
Proof. intros EM Hi (job & Hj & Hs). exists job. rewrite EM. auto. Qed.
Lemma sawFormed_mono vc vc' tr tr' :
  Meta vc' = Meta vc → (∀ e, e ∈ tr → e ∈ tr') → sawFormed vc tr → sawFormed vc' tr'.
Proof.
  intros EM Hi [(c & out & Hc & Ho)|[Hs|Hs]]; [left; eauto 10|right; left|right; right];
    by eapply sawSuccess_mono.
Qed.
Lemma sameSpec_fns vc vc' :
  Meta vc' = Meta vc → Spec vc' = Spec vc →
  totalReplicas vc' = totalReplicas vc ∧ perShardEnabled vc' = perShardEnabled vc ∧
  shardCountOf vc' = shardCountOf vc ∧ (∀ s, shardStsName vc' s = shardStsName vc s) ∧
  (∀ s, shardHeadlessName vc' s = shardHeadlessName vc s) ∧
  (LAR vc' = LAR vc → oldShardsOf vc' = oldShardsOf vc).
Proof.
  intros EM ES.
  unfold totalReplicas, perShardEnabled, shardCountOf, shardStsName, shardHeadlessName, oldShardsOf, replicasPerShardOf.
  rewrite EM, ES. split_and!; try done. by intros ->.
Qed.

Lemma applied_refl vc tr : applied vc tr vc.
Proof. split; auto. intros E1 E2. congruence. Qed.
Lemma applied_frame vc tr vc' :
  Meta vc' = Meta vc → Spec vc' = Spec vc → LAR vc' = LAR vc → CI vc' = CI vc → applied vc tr vc'.
Proof. intros ??? E. split; auto; rewrite E; congruence. Qed.

Lemma applied_trans vc tr1 vc1 tr2 vc2 tr :
  applied vc tr1 vc1 → applied vc1 tr2 vc2 → (∀ e, e ∈ tr1 ++ tr2 → e ∈ tr) → applied vc tr vc2.
Proof.
  intros [M1 S1 I1 F1 A1] [M2 S2 I2 F2 A2] Hi.
  destruct (sameSpec_fns vc vc1 M1 S1) as (ET & EP & EC & EN & EH & EO).
  assert (∀ e, e ∈ tr1 → e ∈ tr) by set_solver. assert (∀ e, e ∈ tr2 → e ∈ tr) by set_solver.
  split; [congruence|congruence|auto| |].
  - intros E0 E2. destruct (CI vc1) eqn:E1.
    + apply (sawFormed_mono vc vc tr1); auto.
    + apply (sawFormed_mono vc1 vc tr2); auto.
  - destruct A1 as [A1|(A1 & HA1)].
    + destruct A2 as [A2|(A2 & HA2)]; [left; congruence|]. right. rewrite ET in A2. split; [done|].
      rewrite ET, A1, EP in HA2. destruct HA2 as [[? ?]|[[? Hs]|(? & Hs & Hd)]].
      * left. split; [|done]. destruct (CI vc); [|done]. by rewrite I1 in *.
      * right; left. split; [done|]. by apply (sawSuccess_mono vc1 vc tr2).
      * right; right. split_and!; [done|by apply (sawSuccess_mono vc1 vc tr2)|].
        intros HP s Hs'. rewrite <-EC, <-(EO A1) in Hs'. destruct (Hd HP s Hs') as [(e & He & ?) (e' & He' & ?)].
        rewrite EN, M1 in He. rewrite EH, M1 in He'. eauto 10.
    + right. split; [destruct A2 as [A2|[A2 _]]; congruence|].
      destruct HA1 as [[? ?]|[[? Hs]|(? & Hs & Hd)]].
      * left. auto.
      * right; left. split; [done|]. by apply (sawSuccess_mono vc vc tr1).
      * right; right. split_and!; [done|by apply (sawSuccess_mono vc vc tr1)|].
        intros HP s Hs'. destruct (Hd HP s Hs') as [(e & ? & ?) (e' & ? & ?)]. eauto 10.
Qed.

(** ** Step by step *)
Lemma createJob_vc vc job d tr o : exec (createJob vc job d) tr o → out_vc o = vc.
Proof. unfold createJob. intros Hx. exec_inv. case_match; exec_inv; done. Qed.

Lemma setPhase_applied vc reason msg tr o : exec (setPhase vc reason msg) tr o → applied vc tr (out_vc o).
Proof.
  intros (((? & ? & ? & ? & ?) & ? & ? & ?) & _ & _ & ? & ? & _)%setPhase_exec. by apply applied_frame.
Qed.

(** The branches that leave the object alone, and those that only report a failure. *)
Ltac unchanged :=
  exec_inv; repeat match goal with H : exec (createJob _ _ _) _ _ |- _ => rewrite (createJob_vc _ _ _ _ _ H); clear H end;
  apply applied_refl.
Ltac phase_failed :=
  match goal with H : exec (setPhase _ _ _) _ _ |- _ => apply setPhase_applied in H end;
  eapply applied_trans; [apply (applied_refl _ [])|eassumption|set_solver].

Lemma clusterFormed_exec vc password tr b :
  exec (clusterFormed vc password) tr b → b = true → sawFormed vc tr.
Proof.
  unfold clusterFormed. intros Hx ->. exec_inv. destruct a as [c|]; exec_inv.
  unfold do_text in *. exec_inv. repeat case_match; exec_inv. simplify_eq. bool_hyps.
  left. eexists c, _. split; [|done]. rewrite !elem_of_app, !list_elem_of_singleton. auto.
Qed.

Lemma markInitialized_applied vc reason msg tr o tr0 :
  exec (markInitialized vc reason msg) tr o → sawFormed vc tr0 → CI vc = false →
  applied vc (tr0 ++ tr) (out_vc o).
Proof.
  unfold markInitialized. set (st := set_Status_LastAppliedReplicas _ _). intros Hx HF HC. exec_inv.
  apply stampCondition_exec in Hx0 as (_ & Hsame & _ & _). cbn.
  assert (Status_LastAppliedReplicas a = totalReplicas vc) as EL by (rewrite Hsame; unfold st; by destruct (Status vc)).
  assert (Status_ClusterInitialized a = true) as EC by (rewrite Hsame; unfold st; by destruct (Status vc)).
  split; cbn; try done; auto.
  intros _ _. apply (sawFormed_mono vc vc tr0); [done|set_solver|auto].
Qed.

Lemma sawSuccess_mid vc tr1 tr2 suffix job :
  (0 <? job_Succeeded job)%Z = true →
  sawSuccess vc (tr1 ++ Ev (OGetJob (vcNamespace vc) (vcName vc +:+ suffix)) (inr job) :: tr2) suffix.
Proof. intros Hj. exists job. split; [apply elem_of_mid|lia]. Qed.

Lemma bootstrap_applied vc password tr o :
  CI vc = false → exec (runClusterBootstrap vc password) tr o → applied vc tr (out_vc o).
Proof.
  intros HC. unfold runClusterBootstrap. intros Hx. exec_inv. destruct a.
  { eapply markInitialized_applied; [done| |done]. by eapply clusterFormed_exec. }
  exec_inv. destruct a as [err|job].
  { destruct (IsNotFound err); unchanged. }
  destruct (0 <? job_Succeeded job)%Z eqn:HS; [|destruct (exhausted job)]; exec_inv; [| |apply applied_refl].
  - rewrite (app_assoc _ [_]), (app_assoc _ [_]). eapply markInitialized_applied; [done| |done].
    right; left. rewrite <-app_assoc. by apply sawSuccess_mid.
  - phase_failed.
Qed.

Lemma assembly_applied vc rs s3 password tr o :
  CI vc = false → exec (runClusterRestoreAssembly vc rs s3 password) tr o → applied vc tr (out_vc o).
Proof.
  intros HC. unfold runClusterRestoreAssembly. intros Hx. exec_inv. destruct a.
  { eapply markInitialized_applied; [done| |done]. by eapply clusterFormed_exec. }
  exec_inv. destruct a as [err|job].
  { destruct (IsNotFound err); unchanged. }
  destruct (0 <? job_Succeeded job)%Z eqn:HS; [|destruct (exhausted job)]; exec_inv; try apply applied_refl.
  rewrite (app_assoc _ [_]). eapply markInitialized_applied; [done| |done].
  right; right. by apply sawSuccess_mid.
Qed.

Lemma bootstrapOrRestore_applied vc password tr o :
  CI vc = false → exec (bootstrapOrRestore vc password) tr o → applied vc tr (out_vc o).
Proof.
  intros HC. unfold bootstrapOrRestore. repeat case_match; [by apply assembly_applied| |by apply bootstrap_applied].
  intros Hx. exec_inv. apply applied_refl.
Qed.

(** Both scale operations end in [recordReplicas]. *)
Lemma recordReplicas_vc vc name tr o :
  exec (recordReplicas vc name) tr o → out_vc o = with_status vc (set_Status_LastAppliedReplicas (totalReplicas vc)).
Proof. unfold recordReplicas. intros Hx. exec_inv. destruct a; exec_inv; done. Qed.

Lemma recordReplicas_applied vc name tr o tr0 :
  exec (recordReplicas vc name) tr o →
  ((LAR vc < totalReplicas vc)%Z ∧ sawSuccess vc tr0 "-scaleup" ∨
   (totalReplicas vc < LAR vc)%Z ∧ sawSuccess vc tr0 "-scaledown" ∧
     (perShardEnabled vc = true → leavingDeleted vc tr0)) →
  applied vc (tr0 ++ tr) (out_vc o).
Proof.
  intros ->%recordReplicas_vc HA. eapply (applied_trans _ tr0 _ []); [|apply applied_refl|set_solver].
  assert (CI (with_status vc (set_Status_LastAppliedReplicas (totalReplicas vc))) = CI vc) as EC
    by (cbn; by destruct (Status vc)).
  split; [done|done|by rewrite EC|rewrite EC; congruence|]. right.
  split; [cbn; by destruct (Status vc)|]. tauto.
Qed.

Lemma scaleUp_applied vc password tr o :
  (LAR vc < totalReplicas vc)%Z → exec (runClusterScaleUp vc password) tr o → applied vc tr (out_vc o).
Proof.
  intros HL. unfold runClusterScaleUp. intros Hx. exec_inv. destruct a as [err|job].
  { destruct (IsNotFound err); unchanged. }
  destruct (0 <? job_Succeeded job)%Z eqn:HS; [|destruct (exhausted job)]; exec_inv; [| |apply applied_refl].
  - rewrite app_assoc. eapply recordReplicas_applied; [done|]. left. split; [done|].
    by apply (sawSuccess_mid _ []).
  - phase_failed.
Qed.

Lemma deleteShard_exec vc s tr :
  exec (deleteShard vc s) tr None →
  (∃ e, Ev (ODeleteSts (vcNamespace vc) (shardStsName vc s)) e ∈ tr ∧ realError e = None) ∧
  (∃ e, Ev (ODeleteSvc (vcNamespace vc) (shardHeadlessName vc s)) e ∈ tr ∧ realError e = None).
Proof.
  unfold deleteShard. intros Hx. exec_inv. destruct (realError a) eqn:E1; exec_inv.
  destruct (realError a0) eqn:E2; exec_inv.
  split; [exists a|exists a0]; (split; [|done]); set_solver.
Qed.
Lemma deleteShards_exec vc l tr :
  exec (deleteShards vc l) tr None → ∀ s, s ∈ l →
  (∃ e, Ev (ODeleteSts (vcNamespace vc) (shardStsName vc s)) e ∈ tr ∧ realError e = None) ∧
  (∃ e, Ev (ODeleteSvc (vcNamespace vc) (shardHeadlessName vc s)) e ∈ tr ∧ realError e = None).
Proof.
  revert tr; induction l as [|s l IH]; intros tr Hx s' Hs; [set_solver|]. cbn [deleteShards] in Hx.
  apply exec_bind in Hx as (tr1 & tr2 & e & -> & Hx0 & Hx). destruct e; exec_inv. apply deleteShard_exec in Hx0.
  apply elem_of_cons in Hs as [->|Hs].
  - destruct Hx0 as [(e & ? & ?) (e' & ? & ?)]. split; [exists e|exists e']; set_solver.
  - destruct (IH _ Hx _ Hs) as [(e & ? & ?) (e' & ? & ?)]. split; [exists e|exists e']; set_solver.
Qed.
Lemma leavingDeleted_mono vc tr tr' : (∀ e, e ∈ tr → e ∈ tr') → leavingDeleted vc tr → leavingDeleted vc tr'.
Proof. intros Hi Hd s Hs. destruct (Hd s Hs) as [(e & ? & ?) (e' & ? & ?)]. eauto 10. Qed.

Lemma scaleDown_applied vc password tr o :
  (totalReplicas vc < LAR vc)%Z → exec (runClusterScaleDown vc password) tr o → applied vc tr (out_vc o).
Proof.
  intros HL. unfold runClusterScaleDown. intros Hx. exec_inv. destruct a as [err|job].
  { destruct (IsNotFound err); unchanged. }
  destruct (0 <? job_Succeeded job)%Z eqn:HS; [|destruct (exhausted job)]; exec_inv; [|phase_failed|apply applied_refl].
  destruct a0 as [err|]; [unchanged|]. rewrite !app_assoc. eapply recordReplicas_applied; [done|]. right.
  split_and!; [done|rewrite <-!app_assoc; by apply (sawSuccess_mid _ [])|]. intros HP. rewrite HP in Hx.
  eapply leavingDeleted_mono; [|intros s Hs; eapply deleteShards_exec; [exact Hx|by apply elem_of_zrange]].
  set_solver.
Qed.

Lemma reshard_applied vc password tok tr o :
  exec (runClusterReshard vc password tok) tr o → applied vc tr (out_vc o).
Proof.
  unfold runClusterReshard. intros Hx. exec_inv. destruct a as [err|job].
  { destruct (IsNotFound err); unchanged. }
  destruct (0 <? job_Succeeded job)%Z eqn:HS; [|destruct (exhausted job)]; exec_inv; [|phase_failed|apply applied_refl].
  destruct a0; exec_inv; apply applied_frame; try done; cbn; by destruct (Status vc).
Qed.

Lemma reshardStep_applied vc password b tr r :
  exec (reshardStep vc password b) tr r → applied vc tr (out_vc r.1).
Proof.
  unfold reshardStep. case_match; intros Hx; exec_inv; [|apply applied_refl].
  destruct (handles a); exec_inv; cbn; eapply reshard_applied; eassumption.
Qed.
Lemma scaleDownStep_applied vc password b tr r :
  exec (scaleDownStep vc password (totalReplicas vc) b) tr r → applied vc tr (out_vc r.1).
Proof.
  unfold scaleDownStep. case_match; [|apply reshardStep_applied]. intros Hx.
  apply exec_bind in Hx as (tr1 & tr2 & o & -> & Hx0%scaleDown_applied & Hx); [|lia].
  destruct (handles o); exec_inv; [done|].
  apply reshardStep_applied in Hx. eapply applied_trans; eauto.
Qed.
Lemma scaling_applied vc password b tr r :
  exec (maybeReconcileClusterScaling vc password (totalReplicas vc) b) tr r → applied vc tr (out_vc r.1).
Proof.
  unfold maybeReconcileClusterScaling. repeat case_match; intros Hx.
  - exec_inv. apply applied_refl.
  - bool_hyps. apply exec_bind in Hx as (tr1 & tr2 & o & -> & Hx0%scaleUp_applied & Hx); [|lia].
    destruct (handles o); exec_inv; [done|].
    destruct (sameSpec_fns _ _ (ap_meta _ _ _ Hx0) (ap_spec _ _ _ Hx0)) as [ET _]. rewrite <-ET in Hx.
    apply scaleDownStep_applied in Hx. eapply applied_trans; eauto.
  - by eapply scaleDownStep_applied.
Qed.

Lemma rolloutStep_vc vc password want tr r :
  exec (maybeDriveClusterRollout vc password want) tr r → out_vc r.1 = vc.
Proof.
  unfold maybeDriveClusterRollout. case_match; intros Hx; exec_inv; [done|].
  repeat case_match; exec_inv; done.
Qed.

(** Quorum recovery touches only its own marker. *)
Lemma recovery_frame vc password tr d h vc' :
  exec (maybeRecoverClusterQuorum vc password) tr (d, h, vc') →
  Meta vc' = Meta vc ∧ Spec vc' = Spec vc ∧ LAR vc' = LAR vc ∧ CI vc' = CI vc.
Proof.
  intros [->|[[-> _]|(_ & now & _ & ->)]]%recovery_marker; [done| |];
    (split_and!; [done..| |]); cbn; by destruct (Status vc).
Qed.

(** The status report keeps both markers. *)
Lemma updateClusterStatus_frame vc n b shards tr o :
  exec (updateClusterStatus vc n b shards) tr o →
  Meta (out_vc o) = Meta vc ∧ Spec (out_vc o) = Spec vc ∧ LAR (out_vc o) = LAR vc ∧ CI (out_vc o) = CI vc.
Proof.
  unfold updateClusterStatus. destruct (clusterPhase _ _ _ _) as [[??]?].
  set (st0 := set_Status_Phase _ _). intros Hx. exec_inv.
  destruct (readiness_exec _ _ _ _ _ _ _ _ _ _ eq_refl Hx Hx1) as (_ & Hs1 & _).
  apply stampShards_exec in Hx2 as (_ & Hs2 & _). pose proof (sameButConditions_trans _ _ _ Hs1 Hs2) as ->.
  cbn. unfold st0. by destruct (Status vc).
Qed.
Lemma report_applied vc password ready b tr o :
  exec (surveyAndReport vc password ready b) tr o → applied vc tr (out_vc o).
Proof.
  unfold surveyAndReport. intros Hx.
  apply exec_bind in Hx as (tr1 & tr2 & sd & -> & _ & Hx).
  apply exec_bind in Hx as (tr3 & tr4 & o' & -> & (?&?&?&?)%updateClusterStatus_frame & Hx).
  assert (out_vc o = out_vc o') as ->; [|by apply applied_frame].
  repeat case_match; exec_inv; done.
Qed.

Lemma recoverThenRest_applied vc password ready b tr o :
  exec (recoverThenRest vc password ready (totalReplicas vc) b) tr o → applied vc tr (out_vc o).
Proof.
  unfold recoverThenRest. intros Hx.
  apply exec_bind in Hx as (tr1 & tr2 & [[d h] vc1] & -> & (EM & ES & EL & EC)%recovery_frame & Hx).
  eapply (applied_trans _ tr1 vc1 tr2); [by apply applied_frame| |done].
  destruct h; exec_inv; [apply applied_refl|]. unfold scaleThenRest in Hx.
  destruct (sameSpec_fns _ _ EM ES) as [ET _]. rewrite <-ET in Hx.
  apply exec_bind in Hx as (tr3 & tr4 & [o1 h1] & -> & HA%scaling_applied & Hx).
  cbn [fst snd] in *. destruct h1; exec_inv.
  { eapply applied_trans; [done|apply (applied_refl _ [])|set_solver]. }
  eapply applied_trans; [done| |done]. unfold rolloutThenReport in Hx.
  apply exec_bind in Hx as (tr5 & tr6 & [o2 h2] & -> & HR%rolloutStep_vc & Hx).
  cbn [fst snd] in *. rewrite HR in Hx. destruct h2; exec_inv; [rewrite HR; apply applied_refl|].
  apply report_applied in Hx. eapply applied_trans; [apply (applied_refl _ tr5)|done|done].
Qed.

Lemma clusterPass_applied vc password ready tr o :
  exec (clusterPass vc password ready) tr o → applied vc tr (out_vc o).
Proof.
  unfold clusterPass. set (b := ((ready == totalReplicas vc) && _)%bool).
  destruct (CI vc) eqn:HC; simpl; [apply recoverThenRest_applied|].
  destruct b; simpl; [|apply recoverThenRest_applied]. intros Hx.
  apply exec_bind in Hx as (tr1 & tr2 & o1 & -> & HA%bootstrapOrRestore_applied & Hx); [|done].
  destruct (handles o1); exec_inv.
  { eapply applied_trans; [done|apply (applied_refl _ [])|set_solver]. }
  destruct (sameSpec_fns _ _ (ap_meta _ _ _ HA) (ap_spec _ _ _ HA)) as [ET _]. rewrite <-ET in Hx.
  apply recoverThenRest_applied in Hx. eapply applied_trans; eauto.
Qed.

(** ** Properties *)

(** C8: the size of a Cluster moves only on evidence.  Whatever the pods and the API server
    answer, a pass lowers the size the StatefulSet is kept at ([statefulSetReplicas]) only to
    the wanted size, and only when it saw the scale-down Job succeeded and, in the per-shard
    layout, deleted the StatefulSet and Service of every leaving shard (or when it first
    declares the cluster formed, which takes a pod that reports it formed or a succeeded
    formation Job); it raises the applied size only when it saw the scale-up Job succeeded;
    and a formed cluster is never declared unformed. *)
Theorem clusterPass_size vc password ready tr o :
  Spec_Topology (Spec vc) = TopologyCluster →
  exec (clusterPass vc password ready) tr o →
  let vc' := out_vc o in
  Spec vc' = Spec vc ∧
  (CI vc = true → CI vc' = true) ∧ (CI vc = false → CI vc' = true → sawFormed vc tr) ∧
  ((statefulSetReplicas vc' < statefulSetReplicas vc)%Z →
     statefulSetReplicas vc' = totalReplicas vc ∧
     (CI vc = false ∧ sawFormed vc tr ∨
      sawSuccess vc tr "-scaledown" ∧ (perShardEnabled vc = true → leavingDeleted vc tr))) ∧
  ((LAR vc < LAR vc')%Z →
     LAR vc' = totalReplicas vc ∧ (CI vc = false ∧ sawFormed vc tr ∨ sawSuccess vc tr "-scaleup")).
Proof.
  intros HT [EM ES HI HF HA]%clusterPass_applied. cbv zeta.
  destruct (sameSpec_fns _ _ EM ES) as (ET & _). split_and!; [done..| |].
  - unfold statefulSetReplicas. rewrite ES, ET, HT. rewrite bool_decide_true by done. simpl. intros Hlt.
    destruct HA as [HA|[HA HJ]].
    { rewrite HA in Hlt. lia. }
    rewrite HA in *. split; [by rewrite Z.ltb_irrefl|].
    destruct HJ as [[??]|[[? _]|(? & ? & ?)]]; [left; auto| |right; auto].
    exfalso. revert Hlt. rewrite Z.ltb_irrefl. repeat case_match; lia.
  - intros Hlt. destruct HA as [HA|[HA HJ]]; [lia|]. split; [done|].
    destruct HJ as [[??]|[[? ?]|(? & ? & ?)]]; [left; auto|by right|lia].
Qed.

(** The event writes an applied size other than the one it found. *)
Definition resizes (e : Event) : Prop :=
  match ev_op e with OPatchStatus base new => LAR new ≠ LAR base | _ => False end.

Ltac not_resizing :=
  simpl; repeat first [apply Forall_nil; exact I | apply Forall_cons; split; [solve [intros []]|]].

Lemma reads_not_resizes tr : Forall (λ e, reads (ev_op e) = true) tr → Forall (λ e, ¬ resizes e) tr.
Proof. intros Hr. eapply Forall_impl; [exact Hr|]. intros [op x]; unfold resizes; simpl. destruct op; naive_solver. Qed.

Lemma deleteShards_not_resizes vc l tr e :
  exec (deleteShards vc l) tr e → Forall (λ e, ¬ resizes e) tr.
Proof.
  revert tr e; induction l as [|s l IH]; intros tr e Hx; cbn [deleteShards] in Hx; [by exec_inv|].
  apply exec_bind in Hx as (tr1 & tr2 & e' & -> & Hd & Hx). apply Forall_app. split.
  - unfold deleteShard in Hd. exec_inv. do 2 (repeat case_match; exec_inv); not_resizing.
  - destruct e'; exec_inv; [done|eauto].
Qed.

Lemma setPhase_not_resizes vc reason msg tr o :
  exec (setPhase vc reason msg) tr o → Forall (λ e, ¬ resizes e) tr.
Proof.
  intros (((tr0 & err & -> & Hr & _) & _) & _ & _ & HL & _)%setPhase_exec.
  apply Forall_app. split; [by apply reads_not_resizes|]. apply Forall_singleton. unfold resizes; cbn [ev_op]. rewrite HL. auto.
Qed.

Lemma createJob_not_resizes vc job d tr o : exec (createJob vc job d) tr o → Forall (λ e, ¬ resizes e) tr.
Proof. unfold createJob. intros Hx. exec_inv. case_match; exec_inv; not_resizing. Qed.
Lemma not_resized t1 t2 e : Forall (λ e, ¬ resizes e) (t1 ++ e :: t2) → resizes e → False.
Proof. intros Hn He. rewrite Forall_forall in Hn. by apply (Hn e); [apply elem_of_mid|]. Qed.

(** A status write and its answer. *)
Definition patchAnswer (e : Event) : option (ValkeyCluster * ValkeyCluster * option KubeErr) :=
  match e with Ev (OPatchStatus base new) x => Some (base, new, x) | _ => None end.

Lemma recordReplicas_resize vc name o k base new err t2 :
  exec (recordReplicas vc name) (k ++ Ev (OPatchStatus base new) err :: t2) o →
  k = [] ∧ base = vc ∧ LAR new = totalReplicas vc ∧
  (t2 = [] ∧ out_err o = EKube <$> err ∨ err = None ∧ ∃ e, t2 = [Ev (ODeleteJob (vcNamespace vc) name) e]).
Proof.
  unfold recordReplicas. intros Hx. apply exec_bind in Hx as (p & tr2 & er & E & ->%exec_perform & Hx).
  assert (Forall (λ e, patchAnswer e = None) tr2 ∧
    (tr2 = [] ∧ out_err o = EKube <$> er ∨ er = None ∧ ∃ e, tr2 = [Ev (ODeleteJob (vcNamespace vc) name) e])) as [Hn Ht].
  { destruct er; exec_inv; (split; [by repeat constructor|]); [by left|right; eauto]. }
  pose proof (f_equal tail E) as E2. pose proof (f_equal (λ l, patchAnswer <$> head l) E) as E1.
  destruct k as [|x k]; cbn in E1, E2; subst.
  - injection E1 as -> Hnew ->. subst new. cbn. by destruct (Status vc).
  - apply Forall_app in Hn as [_ Hn%Forall_inv]. discriminate.
Qed.

(** The order of a scale-down.  The status write that lowers the applied size (after which
    the pods may go) comes after the answer that the drain Job succeeded and, per shard,
    after the deletion of every leaving shard's StatefulSet and Service, which are found by
    the old size; the Job is deleted only after a successful write. *)
Theorem scaleDown_order vc password tr o t1 base new err t2 :
  exec (runClusterScaleDown vc password) tr o →
  tr = t1 ++ Ev (OPatchStatus base new) err :: t2 → LAR new ≠ LAR base →
  base = vc ∧ LAR new = totalReplicas vc ∧ sawSuccess vc t1 "-scaledown" ∧
  (perShardEnabled vc = true → leavingDeleted vc t1) ∧
  (t2 = [] ∧ out_err o = EKube <$> err ∨
   err = None ∧ ∃ e, t2 = [Ev (ODeleteJob (vcNamespace vc) (vcName vc +:+ "-scaledown")) e]).
Proof.
  unfold runClusterScaleDown. intros Hx -> Hne. change (resizes (Ev (OPatchStatus base new) err)) in Hne.
  apply exec_bind in Hx as (g & tr1 & r & E & Hg%exec_perform & Hx). subst g. symmetry in E.
  assert (Forall (λ e, ¬ resizes e) tr1 → False) as Hstay.
  { intros Hn. eapply not_resized; [|exact Hne]. rewrite <-E. by constructor; [intros ?|]. }
  destruct r as [er|job].
  { exfalso. apply Hstay. destruct (IsNotFound er); [by eapply createJob_not_resizes|by exec_inv]. }
  destruct (0 <? job_Succeeded job)%Z eqn:HS; [|exfalso; apply Hstay; destruct (exhausted job)]; [| |by exec_inv].
  2: { apply exec_bind in Hx as (m & tr2 & [] & -> & ->%exec_perform & Hx%setPhase_not_resizes).
       by constructor; [intros ?|]. }
  apply exec_bind in Hx as (m & tr2 & [] & -> & ->%exec_perform & Hx).
  apply exec_bind in Hx as (trd & tr3 & e & -> & Hd & Hx).
  assert (Forall (λ e, ¬ resizes e) trd) as Hnd.
  { destruct (perShardEnabled vc); [by eapply deleteShards_not_resizes|by exec_inv]. }
  destruct e as [er|]; [exfalso; exec_inv; apply Hstay; by constructor; [intros ?|]|].
  rewrite !app_assoc in E. pose proof E as E0.
  destruct (after_prefix resizes _ _ _ _ _ E) as [k ->];
    [by repeat first [apply Forall_app; split|constructor; [intros ?|]]|done|].
  rewrite <-(app_assoc _ k) in E0. apply app_inv_head in E0. subst tr3.
  apply recordReplicas_resize in Hx as (-> & -> & HL & Ht). rewrite app_nil_r. split_and!; [done|done| | |done].
  - rewrite <-app_assoc. by apply (sawSuccess_mid _ []).
  - intros HP. rewrite HP in Hd. eapply leavingDeleted_mono; [|intros s Hs; eapply deleteShards_exec;
      [exact Hd|by apply elem_of_zrange]]. set_solver.
Qed.

(** ** Formation *)

(** A pod's CLUSTER INFO says the cluster is formed. *)
Definition formedReply (e : Event) : Prop :=
  match e with
  | Ev (ODo _ args) (inr (RStr out)) =>
      args = ["CLUSTER"; "INFO"] ∧ contains out "cluster_state:ok" = true ∧
      contains out "cluster_slots_assigned:16384" = true
  | _ => False
  end.
Definition isRead (e : Event) : Prop := reads (ev_op e) = true.
#[local] Instance isRead_ignores : IgnoresReads isRead.
Proof. intros op x. done. Qed.

Lemma reads_not_formed tr : Forall isRead tr → Forall (λ e, ¬ formedReply e) tr.
Proof. intros Hr. eapply Forall_impl; [exact Hr|]. intros [op x]; unfold isRead; simpl. by destruct op; simpl; auto. Qed.

Lemma clusterFormed_iff vc password tr b :
  exec (clusterFormed vc password) tr b → (b = true ↔ Exists formedReply tr) ∧ ∀ j x, Ev (OCreateJob j) x ∉ tr.
Proof.
  unfold clusterFormed. intros Hx. apply exec_bind in Hx as (tr1 & tr2 & c & -> & Hd & Hx).
  destruct (dialPod_spec isRead vc (clusterAnyPodHost vc) (dataPort vc) password (3 * second) _ _ Hd) as [Hr _].
  assert (∀ j x, Ev (OCreateJob j) x ∉ tr1) as Hc.
  { intros j x Hin. rewrite Forall_forall in Hr. by apply Hr in Hin. }
  rewrite Exists_app. pose proof (reads_not_formed _ Hr) as Hnf%Forall_not_Exists. destruct c as [c|]; [|exec_inv].
  2: { split; [|intros j x; rewrite ?app_nil_r; apply Hc]. split; [done|]. rewrite Exists_nil. tauto. }
  apply exec_bind in Hx as (tr3 & tr4 & out & -> & Ho & Hx). unfold do_text in Ho.
  apply exec_bind in Ho as (tr5 & tr6 & x & -> & ->%exec_perform & [-> <-]%exec_ret).
  rewrite app_nil_r. assert (∀ j y, Ev (OCreateJob j) y ∉ tr1 ++ [Ev (ODo c ["CLUSTER"; "INFO"]) x]) as Hc'.
  { intros j y. rewrite elem_of_app, list_elem_of_singleton. intros [?|?]; [by eapply Hc|done]. }
  destruct x as [?|[out| | | |]]; exec_inv; (split; [|done]); rewrite Exists_cons, Exists_nil; simpl; try naive_solver.
  rewrite andb_true_iff. naive_solver.
Qed.

(** Neither a report of a formed cluster nor a Job creation. *)
Definition quiet (e : Event) : Prop :=
  ¬ formedReply e ∧ match ev_op e with OCreateJob _ => False | _ => True end.
Ltac quiet_list :=
  repeat first [apply Forall_nil; exact I | apply Forall_cons; split; [split; [solve [intros []]|exact I]|]].

Lemma reads_quiet tr : Forall isRead tr → Forall quiet tr.
Proof.
  intros Hr. eapply Forall_impl; [exact Hr|]. intros [op x]; unfold isRead, quiet; simpl. by destruct op; simpl; auto.
Qed.
Lemma write_quiet vc tr o : statusWrite vc tr o → Forall quiet tr.
Proof.
  intros ((tr0 & err & -> & Hr & _) & _). apply Forall_app. split; [by apply reads_quiet|].
  apply Forall_singleton. split; [intros []|exact I].
Qed.
Lemma markInitialized_exec vc reason msg tr o :
  exec (markInitialized vc reason msg) tr o →
  Forall quiet tr ∧ CI (out_vc o) = true ∧ LAR (out_vc o) = totalReplicas vc.
Proof.
  unfold markInitialized. set (st := set_Status_LastAppliedReplicas _ _). intros Hx. exec_inv.
  apply stampCondition_exec in Hx0 as (_ & Hsame & _ & Hr). split; [|rewrite Hsame; unfold st; cbn; by destruct (Status vc)].
  apply Forall_app. split; [by apply reads_quiet|]. apply Forall_singleton. split; [intros []|exact I].
Qed.
Lemma createJob_exec vc job d tr o j x :
  exec (createJob vc job d) tr o → Forall (λ e, ¬ formedReply e) tr ∧ (Ev (OCreateJob j) x ∈ tr → j = job).
Proof.
  unfold createJob. intros Hx. exec_inv. case_match; exec_inv;
    (split; [repeat first [apply Forall_nil; exact I|apply Forall_cons; split; [solve [intros []]|]]|]);
    rewrite ?elem_of_app, ?list_elem_of_singleton; naive_solver.
Qed.

(** The shape of both formation paths, after the question "is it formed already?". *)
Definition gated (vc : ValkeyCluster) (build : string → Job) (suffix : string) (tr : list Event) (o : Outcome) : Prop :=
  (∀ j x, Ev (OCreateJob j) x ∈ tr →
     ¬ Exists formedReply tr ∧ Ev (OGetJob (vcNamespace vc) (vcName vc +:+ suffix)) (inl NotFound) ∈ tr ∧
     j = build (vcName vc +:+ suffix)) ∧
  (Exists formedReply tr → CI (out_vc o) = true ∧ LAR (out_vc o) = totalReplicas vc).

Lemma quiet_no_create tr j x : Forall quiet tr → Ev (OCreateJob j) x ∉ tr.
Proof. rewrite Forall_forall. intros Hq [_ []]%Hq. Qed.
Lemma quiet_not_formed tr : Forall quiet tr → ¬ Exists formedReply tr.
Proof. intros Hq. apply Forall_not_Exists. eapply Forall_impl; [exact Hq|]. by intros e []. Qed.

Lemma gated_adopt vc password build suffix tr1 tr2 reason msg o :
  exec (clusterFormed vc password) tr1 true → exec (markInitialized vc reason msg) tr2 o →
  gated vc build suffix (tr1 ++ tr2) o.
Proof.
  intros [_ Hn]%clusterFormed_iff (Hq & HC & HL)%markInitialized_exec. split; [|done].
  intros j x [Hin|Hin]%elem_of_app; [by apply Hn in Hin|by apply quiet_no_create in Hin].
Qed.
Lemma gated_quiet vc password build suffix tr1 tr2 o :
  exec (clusterFormed vc password) tr1 false → Forall quiet tr2 → gated vc build suffix (tr1 ++ tr2) o.
Proof.
  intros [Hf Hn]%clusterFormed_iff Hq. split.
  - intros j x [Hin|Hin]%elem_of_app; [by apply Hn in Hin|by apply quiet_no_create in Hin].
  - rewrite Exists_app. intros [Hin|Hin]; [by apply Hf in Hin|by apply quiet_not_formed in Hin].
Qed.
Lemma gated_create vc password build suffix tr1 tr2 d o :
  exec (clusterFormed vc password) tr1 false → exec (createJob vc (build (vcName vc +:+ suffix)) d) tr2 o →
  gated vc build suffix (tr1 ++ Ev (OGetJob (vcNamespace vc) (vcName vc +:+ suffix)) (inl NotFound) :: tr2) o.
Proof.
  intros [Hf Hn]%clusterFormed_iff Hx.
  assert (¬ Exists formedReply (tr1 ++ Ev (OGetJob (vcNamespace vc) (vcName vc +:+ suffix)) (inl NotFound) :: tr2)) as HN.
  { rewrite Exists_app, Exists_cons. intros [Hin|[[]|Hin]]; [by apply Hf in Hin|].
    eapply Forall_not_Exists; [|exact Hin]. by eapply (createJob_exec _ _ _ _ _ (build "") None). }
  split; [|tauto]. intros j x Hin. split; [done|]. split; [apply elem_of_mid|].
  apply elem_of_app in Hin as [Hin|[?|Hin]%elem_of_cons]; [by apply Hn in Hin|done|by eapply createJob_exec].
Qed.

Lemma bootstrap_gated vc password tr o :
  exec (runClusterBootstrap vc password) tr o → gated vc (buildBootstrapJob vc password) "-bootstrap" tr o.
Proof.
  unfold runClusterBootstrap. intros Hx. apply exec_bind in Hx as (tr1 & tr2 & [] & -> & Hf & Hx).
  { by eapply gated_adopt. }
  apply exec_bind in Hx as (g & tr3 & r & -> & ->%exec_perform & Hx). destruct r as [err|job].
  { destruct err; simpl in Hx; [by eapply gated_create|..]; exec_inv; (eapply gated_quiet; [done|quiet_list]). }
  eapply gated_quiet; [done|]. constructor; [split; [intros []|exact I]|].
  destruct (0 <? job_Succeeded job)%Z; [|destruct (exhausted job)]; [| |by exec_inv];
    apply exec_bind in Hx as (m & tr4 & [] & -> & ->%exec_perform & Hx); (constructor; [split; [intros []|exact I]|]).
  - by apply markInitialized_exec in Hx as [? _].
  - apply setPhase_exec in Hx as [Hw _]. by eapply write_quiet.
Qed.
Lemma assembly_gated vc rs s3 password tr o :
  exec (runClusterRestoreAssembly vc rs s3 password) tr o →
  gated vc (buildRestoreAssemblyJob vc rs s3 password) "-restore-assembly" tr o.
Proof.
  unfold runClusterRestoreAssembly. intros Hx. apply exec_bind in Hx as (tr1 & tr2 & [] & -> & Hf & Hx).
  { by eapply gated_adopt. }
  apply exec_bind in Hx as (g & tr3 & r & -> & ->%exec_perform & Hx). destruct r as [err|job].
  { destruct err; simpl in Hx; [by eapply gated_create|..]; exec_inv; (eapply gated_quiet; [done|quiet_list]). }
  eapply gated_quiet; [done|]. constructor; [split; [intros []|exact I]|].
  destruct (0 <? job_Succeeded job)%Z; [|destruct (exhausted job)]; [|by exec_inv..].
  by apply markInitialized_exec in Hx as [? _].
Qed.

(** A live cluster is never re-created.  Forming or restoring creates a Job only when no pod
    reported the cluster formed and no such Job exists: the restore Job when a restore is
    asked for, the bootstrap Job otherwise, with the wanted pods.  When a pod does report it
    formed, the cluster is adopted: the flag is set and no Job is created. *)
Theorem bootstrap_gate vc password tr o :
  exec (bootstrapOrRestore vc password) tr o →
  (∀ j x, Ev (OCreateJob j) x ∈ tr →
     ¬ Exists formedReply tr ∧ Ev (OGetJob (vcNamespace vc) (job_Name j)) (inl NotFound) ∈ tr ∧
     (Spec_RestoreFrom (Spec vc) = None ∧ j = buildBootstrapJob vc password (vcName vc +:+ "-bootstrap") ∨
      ∃ rs s3, Spec_RestoreFrom (Spec vc) = Some rs ∧ Restore_S3 rs = Some s3 ∧
        j = buildRestoreAssemblyJob vc rs s3 password (vcName vc +:+ "-restore-assembly"))) ∧
  (Exists formedReply tr → CI (out_vc o) = true ∧ LAR (out_vc o) = totalReplicas vc).
Proof.
  unfold bootstrapOrRestore. destruct (Spec_RestoreFrom (Spec vc)) as [rs|]; [destruct (Restore_S3 rs) as [s3|] eqn:E3|].
  - intros [HC HF]%assembly_gated. split; [|done]. intros j x Hin. destruct (HC j x Hin) as (? & ? & ->). eauto 10.
  - intros Hx. exec_inv. split; [set_solver|by rewrite Exists_nil].
  - intros [HC HF]%bootstrap_gated. split; [|done]. intros j x Hin. destruct (HC j x Hin) as (? & ? & ->). auto.
Qed.

(** ** Resharding *)
Abbreviation reshardToken vc := (Status_LastReshardToken (Status vc)).

Lemma reshard_token vc password tok tr o :
  exec (runClusterReshard vc password tok) tr o →
  Meta (out_vc o) = Meta vc ∧
  (reshardToken (out_vc o) = reshardToken vc ∨ reshardToken (out_vc o) = tok ∧ sawSuccess vc tr "-reshard") ∧
  (∀ j x, Ev (OCreateJob j) x ∈ tr →
     Ev (OGetJob (vcNamespace vc) (vcName vc +:+ "-reshard")) (inl NotFound) ∈ tr ∧
     j = buildReshardJob vc password (vcName vc +:+ "-reshard")).
Proof.
  unfold runClusterReshard. intros Hx. apply exec_bind in Hx as (g & tr3 & r & -> & ->%exec_perform & Hx).
  destruct r as [err|job].
  { destruct err; simpl in Hx; [|exec_inv; split_and!; [done|by left|set_solver]..].
    pose proof Hx as ->%createJob_vc. split_and!; [done|by left|]. intros j x Hin. split; [by left|].
    apply elem_of_cons in Hin as [?|Hin]; [done|]. by eapply createJob_exec. }
  destruct (0 <? job_Succeeded job)%Z eqn:HS; [|destruct (exhausted job)].
  - apply exec_bind in Hx as (m & tr4 & [] & -> & ->%exec_perform & Hx).
    apply exec_bind in Hx as (p & tr5 & e & -> & ->%exec_perform & Hx).
    assert (out_vc o = with_status vc (set_Status_LastReshardToken tok)) as -> by (destruct e; exec_inv; done).
    assert (Forall quiet tr5) as Hq by (destruct e; exec_inv; quiet_list).
    split_and!; [done|right; split; [cbn; by destruct (Status vc)|by apply (sawSuccess_mid _ [])]|].
    intros j x Hin. exfalso. eapply quiet_no_create; [|exact Hin]. simpl. quiet_list. done.
  - apply exec_bind in Hx as (m & tr4 & [] & -> & ->%exec_perform & Hx).
    apply setPhase_exec in Hx as (Hw & _ & _ & _ & _ & ->). split_and!; [apply Hw|by left|].
    intros j x Hin. exfalso. eapply quiet_no_create; [|exact Hin]. simpl. quiet_list. by eapply write_quiet.
  - exec_inv. split_and!; [done|by left|set_solver].
Qed.

(** A reshard request runs once.  A token that is empty or already recorded makes the step do
    nothing; a new one creates the reshard Job only when none exists; the token is recorded
    only when that Job was seen succeeded, and once it is recorded the step does nothing. *)
Theorem reshard_once vc password b tr r :
  exec (reshardStep vc password b) tr r →
  let tok := annotation vc reshardAnnotation in let vc' := out_vc r.1 in
  (b = false ∨ tok = "" ∨ tok = reshardToken vc → tr = [] ∧ vc' = vc ∧ r.2 = false) ∧
  (∀ j x, Ev (OCreateJob j) x ∈ tr →
     b = true ∧ tok ≠ "" ∧ tok ≠ reshardToken vc ∧
     Ev (OGetJob (vcNamespace vc) (vcName vc +:+ "-reshard")) (inl NotFound) ∈ tr ∧
     j = buildReshardJob vc password (vcName vc +:+ "-reshard")) ∧
  (reshardToken vc' ≠ reshardToken vc → reshardToken vc' = tok ∧ sawSuccess vc tr "-reshard") ∧
  (reshardToken vc' = tok → ∀ pw b' tr' r', exec (reshardStep vc' pw b') tr' r' → tr' = [] ∧ out_vc r'.1 = vc').
Proof.
  intros Hx tok vc'.
  assert (∀ v pw b' tr' r', (b' && (annotation v reshardAnnotation != "") &&
    (annotation v reshardAnnotation != reshardToken v))%bool = false →
    exec (reshardStep v pw b') tr' r' → tr' = [] ∧ out_vc r'.1 = v ∧ r'.2 = false) as Hidle.
  { intros v pw b' tr' r' Hb Hx'. unfold reshardStep in Hx'. rewrite Hb in Hx'. by exec_inv. }
  destruct (b && (tok != "") && (tok != reshardToken vc))%bool eqn:Hb.
  - unfold reshardStep in Hx. fold tok in Hx. cbv zeta in Hx. rewrite Hb in Hx. bool_hyps.
    apply exec_bind in Hx as (tr1 & tr2 & o & -> & Hx0 & Hx). apply reshard_token in Hx0 as (EM & Ht & Hc).
    assert (tr2 = [] ∧ vc' = out_vc o) as [-> Ev]. { unfold vc'. destruct (handles o); by exec_inv. }
    rewrite app_nil_r, Ev. clear Hx vc' Ev. split_and!.
    + intros [?|[?|?]]; congruence.
    + intros j x Hin. destruct (Hc j x Hin). auto.
    + intros. by destruct Ht.
    + intros Htok pw b' tr' r' Hx'. apply Hidle in Hx' as (? & ? & _); [auto|].
      unfold annotation in *. rewrite EM. fold tok. rewrite Htok. rewrite (bool_decide_true (tok = tok)) by done.
      by rewrite andb_false_r.
  - apply Hidle in Hx as (-> & Ev & ->); [|done]. subst vc'. rewrite Ev. split_and!; [done|set_solver|done|].
    intros Htok pw b' tr' r' Hx'. apply Hidle in Hx' as (? & ? & _); [auto|]. fold tok. rewrite Htok.
    rewrite (bool_decide_true (tok = tok)) by done. by rewrite andb_false_r.
Qed.

(** ** Convergence against a working API server *)

(** The objects the scaling steps touch, and an API server that stores them. *)
Record ApiWorld := { aw_vc : ValkeyCluster; aw_jobs : gmap (string * string) Job }.
Definition api_handle (op : Op) : ApiWorld → ans op * ApiWorld :=
  match op return ApiWorld → ans op * ApiWorld with
  | OGetJob ns n => λ w, (match aw_jobs w !! (ns, n) with Some j => inr j | None => inl NotFound end, w)
  | OCreateJob j => λ w, (None, {| aw_vc := aw_vc w; aw_jobs := <[(job_Namespace j, job_Name j) := j]> (aw_jobs w) |})
  | ODeleteJob ns n => λ w, (None, {| aw_vc := aw_vc w; aw_jobs := delete (ns, n) (aw_jobs w) |})
  | OPatchStatus _ new => λ w, (None, {| aw_vc := new; aw_jobs := aw_jobs w |})
  | _op => λ w, (inhabitant, w)
  end.
(** The Job controller ran the Job to its end. *)
Definition succeeded (j : Job) : Job := {|
  job_Name := job_Name j; job_Namespace := job_Namespace j; job_Labels := job_Labels j;
  job_BackoffLimit := job_BackoffLimit j; job_TTLSecondsAfterFinished := job_TTLSecondsAfterFinished j;
  job_PodLabels := job_PodLabels j; job_PodSpec := job_PodSpec j; job_Succeeded := 1; job_Failed := 0 |}.
Definition complete (k : string * string) (w : ApiWorld) : ApiWorld :=
  {| aw_vc := aw_vc w; aw_jobs := alter succeeded k (aw_jobs w) |}.

Abbreviation arun := (run api_handle).

Lemma arun_createJob vc job d w :
  arun (createJob vc job d) w =
  (requeue d vc, {| aw_vc := aw_vc w; aw_jobs := <[(job_Namespace job, job_Name job) := job]> (aw_jobs w) |}).
Proof. done. Qed.
Lemma arun_recordReplicas vc name w :
  let vc' := with_status vc (set_Status_LastAppliedReplicas (totalReplicas vc)) in
  arun (recordReplicas vc name) w =
  (ok vc', {| aw_vc := vc'; aw_jobs := delete (vcNamespace vc, name) (aw_jobs w) |}).
Proof. done. Qed.
Lemma arun_deleteShards vc l w : arun (deleteShards vc l) w = (None, w).
Proof. induction l as [|s l IH]; [done|]. exact IH. Qed.

(** The key and the Job of the pending operation. *)
Definition scaleJob (vc : ValkeyCluster) (password : string) : string * Job :=
  if (LAR vc <? totalReplicas vc)%Z then
    (vcName vc +:+ "-scaleup", buildScaleUpJob vc password (vcName vc +:+ "-scaleup"))
  else (vcName vc +:+ "-scaledown", buildScaleDownJob vc password (vcName vc +:+ "-scaledown")).

Lemma scaleJob_key vc password :
  job_Namespace (scaleJob vc password).2 = vcNamespace vc ∧ job_Name (scaleJob vc password).2 = (scaleJob vc password).1.
Proof.
  unfold scaleJob, buildScaleUpJob, buildScaleDownJob. by repeat case_match.
Qed.

Definition noReshard (vc : ValkeyCluster) : Prop :=
  annotation vc reshardAnnotation = "" ∨ annotation vc reshardAnnotation = reshardToken vc.
Lemma arun_reshardStep_idle vc password b w : noReshard vc → arun (reshardStep vc password b) w = ((ok vc, false), w).
Proof.
  intros Hn. unfold reshardStep. destruct Hn as [Hn|Hn]; rewrite Hn.
  - rewrite (bool_decide_true (""="")) by done. by rewrite andb_false_r.
  - rewrite (bool_decide_true (reshardToken vc = reshardToken vc)) by done. by rewrite andb_false_r.
Qed.

Definition scaleOp (vc : ValkeyCluster) (password : string) : prog Outcome :=
  if (LAR vc <? totalReplicas vc)%Z then runClusterScaleUp vc password else runClusterScaleDown vc password.

Lemma arun_scaleOp_start vc password w :
  aw_jobs w !! (vcNamespace vc, (scaleJob vc password).1) = None →
  arun (scaleOp vc password) w =
  (ok vc, {| aw_vc := aw_vc w;
             aw_jobs := <[(vcNamespace vc, (scaleJob vc password).1) := (scaleJob vc password).2]> (aw_jobs w) |}).
Proof.
  intros Hn. pose proof (scaleJob_key vc password) as [En Em]. unfold scaleJob, scaleOp in *.
  destruct (LAR vc <? totalReplicas vc)%Z; cbn [fst snd] in *; unfold runClusterScaleUp, runClusterScaleDown; cbv zeta;
    rewrite run_bind, (run_perform _ (OGetJob _ _)); cbn [api_handle]; rewrite Hn; cbn [IsNotFound]; rewrite arun_createJob, En, Em; done.
Qed.

Lemma arun_scaleOp_done vc password w j :
  aw_jobs w !! (vcNamespace vc, (scaleJob vc password).1) = Some j → job_Succeeded j = 1%Z →
  let vc' := with_status vc (set_Status_LastAppliedReplicas (totalReplicas vc)) in
  arun (scaleOp vc password) w =
  (ok vc', {| aw_vc := vc'; aw_jobs := delete (vcNamespace vc, (scaleJob vc password).1) (aw_jobs w) |}).
Proof.
  intros Hj Hs vc'. unfold scaleJob, scaleOp in *.
  destruct (LAR vc <? totalReplicas vc)%Z; cbn [fst] in *; unfold runClusterScaleUp, runClusterScaleDown; cbv zeta;
    rewrite run_bind, (run_perform _ (OGetJob _ _)); cbn [api_handle]; rewrite Hj, Hs; change (0 <? 1)%Z with true; cbv iota;
    rewrite run_bind, (run_perform _ (OMetricInc _ _)); cbn [api_handle].
  - apply arun_recordReplicas.
  - rewrite run_bind. destruct (perShardEnabled vc).
    + unfold deleteLeavingShards. rewrite arun_deleteShards. apply arun_recordReplicas.
    + apply arun_recordReplicas.
Qed.

(** The scaling step is the pending operation, then the reshard step. *)
Lemma arun_scaling vc password w vc' w' :
  CI vc = true → LAR vc ≠ totalReplicas vc → noReshard vc' →
  totalReplicas vc' = totalReplicas vc → LAR vc' = LAR vc ∨ LAR vc' = totalReplicas vc →
  (LAR vc < totalReplicas vc → LAR vc' ≤ totalReplicas vc)%Z →
  arun (scaleOp vc password) w = (ok vc', w') →
  arun (maybeReconcileClusterScaling vc password (totalReplicas vc) true) w = ((ok vc', false), w').
Proof.
  intros HC Hne Hn Ht HL Hle Hop. unfold scaleOp in Hop. unfold maybeReconcileClusterScaling, scaleDownStep. rewrite HC. cbn [negb andb].
  destruct (Z.ltb_spec (LAR vc) (totalReplicas vc)) as [Hlt|Hge].
  - rewrite run_bind, Hop. cbn [handles ok out_err resultIsZero out_Requeue]. cbn -[reshardStep totalReplicas].
    rewrite (proj2 (Z.ltb_ge _ _)) by lia. by apply arun_reshardStep_idle.
  - rewrite (proj2 (Z.ltb_lt _ _)) by lia. rewrite run_bind, Hop. cbn -[reshardStep]. by apply arun_reshardStep_idle.
Qed.

(** C16: scaling converges.  With an API server that stores what it is told, from any formed
    cluster whose size differs from the wanted one (either direction, either layout), one
    pass creates exactly the Job that moves it there; once the Job controller has run it, the
    next pass records the wanted size, removes the Job and leaves the API server with the
    recorded status; and the StatefulSet size is held until then. *)
Theorem scaling_converges vc password w :
  CI vc = true → LAR vc ≠ totalReplicas vc → noReshard vc →
  Spec_Topology (Spec vc) = TopologyCluster →
  let k := (vcNamespace vc, (scaleJob vc password).1) in
  aw_jobs w !! k = None →
  let pass := maybeReconcileClusterScaling vc password (totalReplicas vc) true in
  let w1 := (arun pass w).2 in
  let r2 := arun pass (complete k w1) in
  aw_jobs w1 = <[k := (scaleJob vc password).2]> (aw_jobs w) ∧
  statefulSetReplicas (out_vc (arun pass w).1.1) = Z.max (LAR vc) (totalReplicas vc) ∧
  LAR (out_vc r2.1.1) = totalReplicas vc ∧ statefulSetReplicas (out_vc r2.1.1) = totalReplicas vc ∧
  aw_vc r2.2 = out_vc r2.1.1 ∧ aw_jobs r2.2 = aw_jobs w.
Proof.
  intros HC Hne Hn HT k Hk pass w1 r2.
  assert (∀ v, Spec_Topology (Spec v) = TopologyCluster → statefulSetReplicas v = Z.max (LAR v) (totalReplicas v)) as Hsts.
  { intros v Hv. unfold statefulSetReplicas. rewrite bool_decide_true by done. simpl. case_match; lia. }
  assert (arun pass w = ((ok vc, false), {| aw_vc := aw_vc w; aw_jobs := <[k := (scaleJob vc password).2]> (aw_jobs w) |})) as E1.
  { apply arun_scaling; auto; [lia|]. by apply arun_scaleOp_start. }
  set (vc' := with_status vc (set_Status_LastAppliedReplicas (totalReplicas vc))).
  assert (LAR vc' = totalReplicas vc) as EL by (unfold vc'; cbn; by destruct (Status vc)).
  assert (noReshard vc') as Hn'. { unfold vc', noReshard in *. cbn. by destruct (Status vc). }
  assert (r2 = ((ok vc', false), {| aw_vc := vc'; aw_jobs := delete k (alter succeeded k (aw_jobs w1)) |})) as E2.
  { apply arun_scaling; auto; [lia|]. refine (arun_scaleOp_done vc password (complete k w1) (succeeded (scaleJob vc password).2) _ eq_refl).
    unfold complete, w1. rewrite E1. cbn [snd aw_jobs]. fold k. by rewrite lookup_alter_eq, lookup_insert_eq. }
  rewrite E2. unfold w1. rewrite E1. cbn [fst snd aw_jobs aw_vc ok out_vc].
  split_and!; [done|by apply Hsts|done| |done|].
  - rewrite Hsts by done. rewrite EL. change (totalReplicas vc') with (totalReplicas vc). lia.
  - rewrite delete_alter, delete_insert_eq, decide_True by done. by apply delete_id.
Qed.
End scaling.

(** ** Concrete runs *)

(** A formed five-shard cluster (one replica per shard, ten pods) asked to go to four shards. *)
Definition demoScale (shards : Z) (perShard : bool) : ValkeyCluster :=
  with_status (newCluster "demo" "ns" (set_Spec_PerShardWorkload (Some perShard)
    (set_Spec_ReplicasPerShard (Some 1%Z) (set_Spec_Shards (Some shards) (set_Spec_Topology TopologyCluster zeroSpec)))))
    (λ st, set_Status_ClusterInitialized true (set_Status_LastAppliedReplicas 10 st)).
Definition demoWorld (vc : ValkeyCluster) : ApiWorld := {| aw_vc := vc; aw_jobs := ∅ |}.
Definition scalePass (vc : ValkeyCluster) : prog (Outcome * bool) :=
  maybeReconcileClusterScaling vc "pw" (totalReplicas vc) true.
Definition downKey : string * string := ("ns", "demo-scaledown").

Lemma scaling_converges_witness :
  let vc := demoScale 4 true in
  let w1 := (run api_handle (scalePass vc) (demoWorld vc)).2 in
  let r2 := run api_handle (scalePass vc) (complete downKey w1) in
  Status_LastAppliedReplicas (Status (out_vc r2.1.1)) = 8%Z ∧ aw_jobs r2.2 = ∅.
Proof.
  destruct (scaling_converges (demoScale 4 true) "pw" (demoWorld (demoScale 4 true))) as (_ & _ & HL & _ & _ & HJ);
    [reflexivity|discriminate|left; reflexivity|reflexivity|reflexivity|]. split; [exact HL|exact HJ].
Defined.

(** A pass that finds the drain Job succeeded. *)
Definition doneWorld (vc : ValkeyCluster) : ApiWorld :=
  complete downKey (run api_handle (scalePass vc) (demoWorld vc)).2.

Lemma clusterPass_size_witness :
  let vc := demoScale 4 true in
  let p := clusterPass vc "pw" 8 in
  sawSuccess vc (trace api_handle p (doneWorld vc)) "-scaledown" ∧
  leavingDeleted vc (trace api_handle p (doneWorld vc)).
Proof.
  destruct (clusterPass_size (demoScale 4 true) "pw" 8 _ _ eq_refl
    (run_exec api_handle (clusterPass (demoScale 4 true) "pw" 8) (doneWorld (demoScale 4 true))))
    as (_ & _ & _ & HD & _).
  destruct HD as [_ [[? _]|[HS HL]]]; [vm_compute; reflexivity|discriminate|]. split; [exact HS|by apply HL].
Defined.

Lemma scaleDown_order_witness :
  let vc := demoScale 4 true in
  let tr := trace api_handle (runClusterScaleDown vc "pw") (doneWorld vc) in
  ∃ t1 base new err t2, tr = t1 ++ Ev (OPatchStatus base new) err :: t2 ∧
    Status_LastAppliedReplicas (Status new) = 8%Z ∧ leavingDeleted vc t1.
Proof.
  intros vc tr.
  set (t1 := take 4 tr).
  set (vc' := with_status vc (set_Status_LastAppliedReplicas 8)).
  assert (tr = t1 ++ Ev (OPatchStatus vc vc') None :: drop 5 tr) as E by (vm_compute; reflexivity).
  destruct (scaleDown_order vc "pw" tr _ t1 vc vc' None (drop 5 tr) (run_exec api_handle _ _) E) as (_ & HL & _ & HD & _);
    [discriminate|]. exists t1, vc, vc', None, (drop 5 tr). split_and!; [exact E|exact HL|by apply HD].
Defined.

Definition demoUnformed : ValkeyCluster := with_status (demoScale 3 false) (λ _, zeroStatus).
Lemma bootstrap_gate_witness :
  let p := bootstrapOrRestore demoUnformed "pw" in
  let tr := trace api_handle p (demoWorld demoUnformed) in
  ∃ j x, Ev (OCreateJob j) x ∈ tr ∧ j = buildBootstrapJob demoUnformed "pw" "demo-bootstrap".
Proof.
  intros p tr. set (j := buildBootstrapJob demoUnformed "pw" "demo-bootstrap"). exists j, None.
  assert (Ev (OCreateJob j) None ∈ tr) as Hin.
  { assert (tr = take (length tr - 1) tr ++ [Ev (OCreateJob j) None]) as E by (vm_compute; reflexivity).
    rewrite E. apply elem_of_app. right. by left. }
  split; [exact Hin|].
  destruct (bootstrap_gate demoUnformed "pw" tr _ (run_exec api_handle p _)) as [HC _].
  by destruct (HC j None Hin) as (_ & _ & [[_ Hj]|(rs & s3 & ? & _)]).
Defined.

(** A reshard request whose Job has run. *)
Definition demoReshard : ValkeyCluster :=
  let vc := demoScale 5 false in
  {| Meta := {| Meta_Name := "demo"; Meta_Namespace := "ns"; Meta_UID := ""; Meta_Generation := 1;
                Meta_Annotations := {[reshardAnnotation := "t1"]}; Meta_Finalizers := []; Meta_Deleting := false |};
     Spec := Spec vc; Status := Status vc |}.
Lemma reshard_once_witness :
  let p := reshardStep demoReshard "pw" true in
  let w := complete ("ns", "demo-reshard") (run api_handle p (demoWorld demoReshard)).2 in
  let vc' := out_vc (run api_handle p w).1.1 in
  Status_LastReshardToken (Status vc') = "t1" ∧
  ∀ tr' r', exec (reshardStep vc' "pw" true) tr' r' → tr' = [].
Proof.
  intros p w vc'. destruct (reshard_once demoReshard "pw" true _ _ (run_exec api_handle p w)) as (_ & _ & HT & HN).
  destruct HT as [HT _]; [vm_compute; discriminate|]. split; [exact HT|].
  intros tr' r' Hx. by destruct (HN HT "pw" true tr' r' Hx).
Defined.

(** The recorded size is the size wanted by the pass that sees the Job succeeded, not the one
    the Job was built for.  Here the drain Job was built for five shards to four; the spec then
    went to three; the next pass lowers the applied size to three shards (six pods), although
    no Job ever named the pods of shard 3 ([demo-6], [demo-7]). *)
Definition drainScript (w : ApiWorld) : string :=
  default "" (j ← aw_jobs w !! downKey; c ← head (ps_Containers (job_PodSpec j)); ctr_Command c !! 2).
Example scaledown_respec_undrained :
  let w := doneWorld (demoScale 4 false) in
  let vc := demoScale 3 false in
  contains (drainScript w) "demo-8.demo-headless" = true ∧ contains (drainScript w) "demo-6.demo-headless" = false ∧
  statefulSetReplicas vc = 10%Z ∧
  statefulSetReplicas (out_vc (run api_handle (scalePass vc) w).1.1) = 6%Z.
Proof. vm_compute. auto. Qed.

(** A scale Job in flight does not end the pass: the step reports [handled = false]. *)
Example scaling_in_flight_unhandled :
  let vc := demoScale 4 false in
  (run api_handle (scalePass vc) (run api_handle (scalePass vc) (demoWorld vc)).2).1.2 = false.
Proof. vm_compute. reflexivity. Qed.
