(* ===== verification/Rotation.v ===== *)
(** * Rotation: in-place password rotation (password_rotation.go, sentinel.go, valkeycluster_controller.go)

    The rotation walks the data pods twice (accept both passwords; then only the
    new one), moves the Sentinels in between, rewrites the Secret when every pod
    enforces the new password, and records the request's token last.

    [retry.RetryOnConflict] is client-go's: it re-runs its function while that
    returns a conflict, at most [retry.DefaultRetry.Steps] times, a parameter here. *)

From S2P Require Import Prelude GoStd Kube Api Effects Naming Failover Rollout SentinelRollout ClusterNodes Status.

Definition sentinelACLUser : string := "sentinel-user".
Definition sentinelACLCommands : string :=
  "+multi +slaveof +ping +exec +subscribe +config|rewrite +role +publish +info +client|setname +client|kill +script|kill".
Definition replicationACLUser : string := "replicator".
Definition replicationACLCommands : string := "+psync +replconf +ping".

Record managedACLUser := { mu_name : string; mu_rules : string }.
Definition managedNonDefaultUsers (vc : ValkeyCluster) : list managedACLUser :=
  (if topologyReplicates vc then [{| mu_name := replicationACLUser; mu_rules := replicationACLCommands |}] else []) ++
  (if Spec_Topology (Spec vc) == TopologySentinel
   then [{| mu_name := sentinelACLUser; mu_rules := "&* " +:+ sentinelACLCommands |}] else []).
Definition isReservedACLUser (name : string) : bool :=
  ((name == "default") || (name == sentinelACLUser) || (name == replicationACLUser))%bool.

(** [generatePassword]: the random source's bytes, base64-encoded and cut to length, are the
    environment's answer. *)
Definition generatePassword : prog (error + string) := perform ORandomPassword.

Definition ensurePasswordSecret (vc : ValkeyCluster) : prog (GoErr + string) :=
  if negb (AuthEnabled (Spec vc)) then mret (inr "")
  else
    let existingSecret := match Spec_Auth (Spec vc) with Some a => Auth_ExistingSecret a | None => "" end in
    if existingSecret != "" then
      r ← perform (OGetSecret (vcNamespace vc) existingSecret);
      mret (match r with inl err => inl (EKube err) | inr sec => inr (map_get (sec_Data sec) secretKeyPassword) end)
    else
      let name := passwordSecretName vc in
      r ← perform (OGetSecret (vcNamespace vc) name);
      match r with
      | inr existing => mret (inr (map_get (sec_Data existing) secretKeyPassword))
      | inl err =>
          if negb (IsNotFound err) then mret (inl (EKube err))
          else
            pw ← generatePassword;
            match pw with
            | inl e => mret (inl (EMsg e))
            | inr pw =>
                let sec := {| sec_Name := name; sec_Namespace := vcNamespace vc; sec_Labels := labelsFor vc;
                              sec_Data := {[secretKeyPassword := pw]} |} in
                e ← perform (OSetControllerReference (vcName vc) name);
                match e with
                | Some err => mret (inl (EKube err))
                | None =>
                    e ← perform (OCreateSecret sec);
                    mret (match e with Some err => inl (EKube err) | None => inr pw end)
                end
            end
      end.

(** ** Rolling one set of pods *)

(** [if err := f(); err != nil { return err }; ...; return g()]. *)
Fixpoint seqErr (l : list (prog (option error))) : prog (option error) :=
  match l with
  | [] => mret None
  | p :: l' => e ← p; match e with Some _ => mret e | None => seqErr l' end
  end.

(** Dial with the old password, then with the new one. *)
Definition dialEither (host : string) (port : Z) (oldPw newPw : string) (useTLS : bool) (cert : option string) :
    prog (option replClient) :=
  c ← dialReplClient host port oldPw useTLS cert (5 * second);
  match c with
  | Some _ => mret c
  | None => dialReplClient host port newPw useTLS cert (5 * second)
  end.

(** The closure [onEachPod] of [applyPasswordToPods]. *)
Fixpoint onEachPod (vc : ValkeyCluster) (oldPw newPw : string) (cert : option string) (pass : string)
    (fn : replClient → prog (option error)) (pods : list podRef) : prog (option GoErr) :=
  match pods with
  | [] => mret None
  | p :: pods' =>
      c ← dialEither (ref_host p) (dataPort vc) oldPw newPw (tlsEnabled vc) cert;
      match c with
      | None => mret (Some (EMsg ("rotate " +:+ ref_host p +:+ ": unreachable with current or new password")))
      | Some c =>
          e ← fn c;
          match e with
          | Some err => mret (Some (EWrap ("rotate " +:+ ref_host p +:+ " (" +:+ pass +:+ ")") (EMsg err)))
          | None => onEachPod vc oldPw newPw cert pass fn pods'
          end
      end
  end.

Definition addNewOn (vc : ValkeyCluster) (newPw : string) (c : replClient) : prog (option error) :=
  seqErr ([aclAddDefaultPassword c newPw] ++
          ((λ u, aclSetManagedUser c (mu_name u) (mu_rules u) newPw true) <$> managedNonDefaultUsers vc) ++
          [configSet c "masterauth" newPw]).
Definition cutoverOn (vc : ValkeyCluster) (newPw : string) (c : replClient) : prog (option error) :=
  seqErr ([aclSetDefaultPassword c newPw] ++
          ((λ u, aclSetManagedUser c (mu_name u) (mu_rules u) newPw false) <$> managedNonDefaultUsers vc) ++
          [configSet c "requirepass" newPw; aclSave c]).

(** ** The Sentinels *)
Definition sentinelCommands (newPw step : string) (c : replClient) : prog (option error) :=
  if step == "add" then do_err c ["ACL"; "SETUSER"; "default"; ">" +:+ newPw]
  else if step == "switch" then
    seqErr [do_err c ["SENTINEL"; "SET"; sentinelMasterName; "auth-pass"; newPw];
            do_err c ["SENTINEL"; "CONFIG"; "SET"; "sentinel-pass"; newPw]]
  else if step == "cutover" then do_err c ["ACL"; "SETUSER"; "default"; "resetpass"; ">" +:+ newPw]
  else mret None.
Fixpoint onEachSentinel (vc : ValkeyCluster) (oldPw newPw step : string) (cert : option string) (ords : list Z) :
    prog (option GoErr) :=
  match ords with
  | [] => mret None
  | i :: ords' =>
      let host := sentinelPodFQDN vc i in
      c ← dialEither host (sentinelListenPort vc) oldPw newPw (tlsEnabled vc) cert;
      match c with
      | None => mret (Some (EMsg ("rotate Sentinel " +:+ host +:+ ": unreachable with current or new password")))
      | Some c =>
          e ← sentinelCommands newPw step c;
          match e with
          | Some err => mret (Some (EWrap ("rotate Sentinel " +:+ host +:+ " (" +:+ step +:+ ")") (EMsg err)))
          | None => onEachSentinel vc oldPw newPw step cert ords'
          end
      end
  end.
Definition rotateSentinelPassword (vc : ValkeyCluster) (oldPw newPw step : string) : prog (option GoErr) :=
  match Spec_Sentinel (Spec vc) with
  | Some s =>
      if Spec_Topology (Spec vc) != TopologySentinel then mret None
      else
        cert ← loadMTLSClientCert vc;
        onEachSentinel vc oldPw newPw step cert (zrange 0 (Sentinel_Replicas s))
  | None => mret None
  end.

(** [if err := p(); err != nil { return err }; return q()]. *)
Definition andThen (p q : prog (option GoErr)) : prog (option GoErr) :=
  e ← p; match e with Some _ => mret e | None => q end.

Definition applyPasswordToPods (vc : ValkeyCluster) (oldPw newPw : string) : prog (option GoErr) :=
  cert ← loadMTLSClientCert vc;
  andThen (onEachPod vc oldPw newPw cert "add-new" (addNewOn vc newPw) (clusterDataPods vc))
    (andThen (rotateSentinelPassword vc oldPw newPw "add")
      (andThen (rotateSentinelPassword vc oldPw newPw "switch")
        (andThen (onEachPod vc oldPw newPw cert "cutover" (cutoverOn vc newPw) (clusterDataPods vc))
          (rotateSentinelPassword vc oldPw newPw "cutover")))).

Definition set_sec_Data (d : gmap string string) (s : Secret) : Secret :=
  {| sec_Name := sec_Name s; sec_Namespace := sec_Namespace s; sec_Labels := sec_Labels s; sec_Data := d |}.
Definition updatePasswordSecret (vc : ValkeyCluster) (newPw : string) : prog (option GoErr) :=
  r ← perform (OGetSecret (vcNamespace vc) (passwordSecretName vc));
  match r with
  | inl err => mret (Some (EKube err))
  | inr sec =>
      e ← perform (OUpdateSecret (set_sec_Data (<[secretKeyPassword := newPw]> (sec_Data sec)) sec));
      mret (EKube <$> e)
  end.

Definition isDataPod (vc : ValkeyCluster) (p : Pod) : bool :=
  negb (has_prefix (pod_Name p) (sentinelStatefulSetName vc +:+ "-") || pod_Deleting p).
Definition allDataPodsReady (vc : ValkeyCluster) : prog (GoErr + bool) :=
  r ← perform (OListPods (vcNamespace vc) {[instanceLabel := vcName vc]});
  match r with
  | inl err => mret (inl (EKube err))
  | inr items =>
      let ready := foldl (λ n p, if (isDataPod vc p && podIsReady p)%bool then wrap32 (n + 1) else n) 0%Z items in
      mret (inr (totalReplicas vc <=? ready)%Z)
  end.

Section rotation.
(** [retry.DefaultRetry.Steps], and whether the reconciler was given an uncached reader. *)
Context (retrySteps : nat) (hasAPIReader : bool).

Fixpoint RetryOnConflict (n : nat) (fn : prog (option KubeErr)) : prog (option KubeErr) :=
  match n with
  | O => mret (Some Conflict)
  | S n' => e ← fn; match e with Some Conflict => RetryOnConflict n' fn | _ => mret e end
  end.

(** Record the token on the latest version of the object. *)
Definition recordToken (vc : ValkeyCluster) (token : string) : prog (option KubeErr) :=
  r ← perform (OGetCluster (vcNamespace vc) (vcName vc));
  match r with
  | inl err => mret (Some err)
  | inr latest => perform (OUpdateStatus (with_status latest (set_Status_LastPasswordRotationToken token)))
  end.

(** From the point where the rotation is decided: [oldPw] is what the pods enforce. *)
Definition rotate (vc : ValkeyCluster) (token oldPw : string) : prog (bool * option GoErr) :=
  pw ← generatePassword;
  match pw with
  | inl e => mret (false, Some (EMsg e))
  | inr newPw =>
      e ← applyPasswordToPods vc oldPw newPw;
      match e with
      | Some _ => mret (false, e)
      | None =>
          e ← updatePasswordSecret vc newPw;
          match e with
          | Some _ => mret (false, e)
          | None =>
              e ← RetryOnConflict retrySteps (recordToken vc token);
              match e with
              | Some err => mret (false, Some (EKube err))
              | None => mret (true, None)
              end
          end
      end
  end.

(** The uncached look at the status: is the token recorded already? *)
Definition tokenRecorded (vc : ValkeyCluster) (token : string) : prog (GoErr + bool) :=
  if hasAPIReader then
    r ← perform (OReadCluster (vcNamespace vc) (vcName vc));
    mret (match r with
          | inl err => inl (EKube err)
          | inr fresh => inr (token == Status_LastPasswordRotationToken (Status fresh))
          end)
  else mret (inr false).

Definition reconcilePasswordRotation (vc : ValkeyCluster) : prog (bool * option GoErr) :=
  if negb (AuthEnabled (Spec vc)) then mret (false, None)
  else if (match Spec_Auth (Spec vc) with Some a => Auth_ExistingSecret a | None => "" end) != "" then mret (false, None)
  else
    let token := annotation vc rotatePasswordAnnotation in
    if ((token == "") || (token == Status_LastPasswordRotationToken (Status vc)))%bool then mret (false, None)
    else
      t ← tokenRecorded vc token;
      match t with
      | inl err => mret (false, Some err)
      | inr true => mret (false, None)
      | inr false =>
          r ← allDataPodsReady vc;
          match r with
          | inl err => mret (false, Some err)
          | inr false => mret (false, None)
          | inr true =>
              o ← ensurePasswordSecret vc;
              match o with
              | inl err => mret (false, Some err)
              | inr oldPw => if oldPw == "" then mret (false, None) else rotate vc token oldPw
              end
          end
      end.
End rotation.

(** ** The commands of each pass *)
Definition addNewCmds (vc : ValkeyCluster) (newPw : string) : list (list string) :=
  [["ACL"; "SETUSER"; "default"; ">" +:+ newPw]] ++
  ((λ u, ["ACL"; "SETUSER"; mu_name u; "on"] ++ [">" +:+ newPw] ++ fields (mu_rules u)) <$> managedNonDefaultUsers vc) ++
  [["CONFIG"; "SET"; "masterauth"; newPw]].
Definition cutoverCmds (vc : ValkeyCluster) (newPw : string) : list (list string) :=
  [["ACL"; "SETUSER"; "default"; "resetpass"; ">" +:+ newPw]] ++
  ((λ u, ["ACL"; "SETUSER"; mu_name u; "on"; "resetpass"] ++ [">" +:+ newPw] ++ fields (mu_rules u))
     <$> managedNonDefaultUsers vc) ++
  [["CONFIG"; "SET"; "requirepass"; newPw]; ["ACL"; "SAVE"]].

Lemma addNewOn_cmds vc newPw c : addNewOn vc newPw c = seqErr (do_err c <$> addNewCmds vc newPw).
Proof. unfold addNewOn, addNewCmds. rewrite !fmap_app, <-list_fmap_compose. done. Qed.
Lemma cutoverOn_cmds vc newPw c : cutoverOn vc newPw c = seqErr (do_err c <$> cutoverCmds vc newPw).
Proof. unfold cutoverOn, cutoverCmds. rewrite !fmap_app, <-list_fmap_compose. done. Qed.

(** The pod answered the command without an error. *)
Definition acked (c : replClient) (args : list string) (tr : list Event) : Prop := ∃ v, Ev (ODo c args) (inr v) ∈ tr.
(** Some connection to the host had every command answered. *)
Definition hostDone (host : string) (cmds : list (list string)) (tr : list Event) : Prop :=
  ∃ c, d_Host c = host ∧ ∀ args, args ∈ cmds → acked c args tr.
Definition podDone (p : podRef) (cmds : list (list string)) (tr : list Event) : Prop := hostDone (ref_host p) cmds tr.

Lemma podDone_mono p cmds tr tr' : (∀ e, e ∈ tr → e ∈ tr') → podDone p cmds tr → podDone p cmds tr'.
Proof. intros Hi (c & Hc & Ha). exists c. split; [done|]. intros args [v Hv]%Ha. exists v. auto. Qed.

(** Reads, and commands of a given kind. *)
Definition onlyCmds (P : list string → Prop) (e : Event) : Prop :=
  match ev_op e with ODo _ args => P args | op => reads op = true end.
#[local] Instance onlyCmds_reads P : IgnoresReads (onlyCmds P).
Proof. intros op x Hr. unfold onlyCmds. simpl. by destruct op. Qed.

Lemma do_err_exec c args tr e :
  exec (do_err c args) tr e → ∃ r, tr = [Ev (ODo c args) r] ∧ e = match r with inl m => Some m | inr _ => None end.
Proof. unfold do_err. intros Hx. exec_inv. eauto. Qed.

Lemma seqErr_exec c cmds tr e :
  exec (seqErr (do_err c <$> cmds)) tr e →
  Forall (onlyCmds (λ args, args ∈ cmds)) tr ∧ (e = None → ∀ args, args ∈ cmds → acked c args tr).
Proof.
  revert tr; induction cmds as [|a cmds IH]; intros tr Hx; cbn [fmap list_fmap seqErr] in Hx.
  { exec_inv. split; [done|set_solver]. }
  apply exec_bind in Hx as (tr1 & tr2 & e1 & -> & (r & -> & ->)%do_err_exec & Hx). destruct r as [m|v].
  - exec_inv. split; [|done]. apply Forall_singleton. unfold onlyCmds. simpl. by left.
  - apply IH in Hx as [Hf Ha]. split.
    + apply Forall_cons. split; [unfold onlyCmds; simpl; by left|]. eapply Forall_impl; [exact Hf|].
      intros [op x]. unfold onlyCmds. simpl. destruct op; auto. intros. by right.
    + intros He args [->|Hin]%elem_of_cons; [exists v; by left|]. destruct (Ha He args Hin) as [v' ?]. exists v'. by right.
Qed.

Lemma dialEither_exec host port o n t cert tr c :
  exec (dialEither host port o n t cert) tr c →
  Forall (λ e, reads (ev_op e) = true) tr ∧ ∀ c', c = Some c' → d_Host c' = host.
Proof.
  unfold dialEither, dialReplClient. intros Hx. exec_inv. destruct a0; exec_inv;
    repeat case_match; simplify_eq; (split; [repeat constructor|intros; by simplify_eq]).
Qed.

Lemma reads_only P tr : Forall (λ e, reads (ev_op e) = true) tr → Forall (onlyCmds P) tr.
Proof. intros Hr. eapply Forall_impl; [exact Hr|]. intros [op x] ?. by apply ignores_reads. Qed.

(** One pass over pods or Sentinels: [hosts] in order, [cmds] on each. *)
Lemma onEachPod_exec vc o n cert pass fn cmds pods tr e :
  (∀ c, fn c = seqErr (do_err c <$> cmds)) → exec (onEachPod vc o n cert pass fn pods) tr e →
  Forall (onlyCmds (λ args, args ∈ cmds)) tr ∧ (e = None → ∀ p, p ∈ pods → podDone p cmds tr).
Proof.
  intros Hfn. revert tr; induction pods as [|p pods IH]; intros tr Hx; cbn [onEachPod] in Hx.
  { exec_inv. split; [done|set_solver]. }
  apply exec_bind in Hx as (tr1 & tr2 & c & -> & [Hr Hc]%dialEither_exec & Hx).
  apply (reads_only (λ args, args ∈ cmds)) in Hr. destruct c as [c|]; [|exec_inv; by split].
  apply exec_bind in Hx as (tr3 & tr4 & e1 & -> & Hf & Hx). rewrite Hfn in Hf. apply seqErr_exec in Hf as [Hf Ha].
  destruct e1; [exec_inv; split; [by apply Forall_app|done]|]. apply IH in Hx as [Hx1 Hx2].
  split; [by rewrite !Forall_app|]. intros He q [->|Hq]%elem_of_cons.
  - exists c. split; [by apply Hc|]. intros args [v Hv]%(Ha eq_refl). exists v. set_solver.
  - eapply podDone_mono; [|by apply Hx2]. set_solver.
Qed.

(** A command that makes a user forget its passwords. *)
Definition drops (args : list string) : Prop :=
  match args with "ACL" :: "SETUSER" :: _ :: rest => "resetpass" ∈ rest | _ => False end.
Definition dropsOld (e : Event) : Prop := match ev_op e with ODo _ args => drops args | _ => False end.

Lemma only_not_drops (P : list string → Prop) tr :
  (∀ args, P args → ¬ drops args) → Forall (onlyCmds P) tr → Forall (λ e, ¬ dropsOld e) tr.
Proof.
  intros HP Hf. eapply Forall_impl; [exact Hf|]. intros [op x]. unfold onlyCmds, dropsOld. simpl.
  destruct op; auto.
Qed.

Lemma managed_rules vc u : u ∈ managedNonDefaultUsers vc → "resetpass" ∉ fields (mu_rules u).
Proof.
  unfold managedNonDefaultUsers. rewrite elem_of_app. intros Hu.
  assert (u = {| mu_name := replicationACLUser; mu_rules := replicationACLCommands |} ∨
          u = {| mu_name := sentinelACLUser; mu_rules := "&* " +:+ sentinelACLCommands |}) as Hu'.
  { repeat case_match; set_solver. }
  destruct Hu' as [-> | ->]; apply (bool_decide_unpack _); vm_compute; exact I.
Qed.
Lemma addNewCmds_keep vc n args : args ∈ addNewCmds vc n → ¬ drops args.
Proof.
  unfold addNewCmds. rewrite !elem_of_app, !list_elem_of_singleton, list_elem_of_fmap.
  intros [-> | [(u & -> & Hu) | ->]]; cbn.
  - rewrite list_elem_of_singleton. done.
  - intros [?|[?|Hin]%elem_of_cons]%elem_of_cons; [done|done|]. by eapply managed_rules.
  - auto.
Qed.

Lemma loadMTLS_exec vc tr c : exec (loadMTLSClientCert vc) tr c → Forall (λ e, reads (ev_op e) = true) tr.
Proof.
  unfold loadMTLSClientCert. intros Hx. repeat case_match; exec_inv; try done.
  repeat case_match; exec_inv; repeat constructor.
Qed.

Lemma onEachSentinel_exec (P : list string → Prop) vc o n step cert ords tr e :
  (∀ c tr e, exec (sentinelCommands n step c) tr e → Forall (onlyCmds P) tr) →
  exec (onEachSentinel vc o n step cert ords) tr e → Forall (onlyCmds P) tr.
Proof.
  intros HP. revert tr; induction ords as [|i ords IH]; intros tr Hx; cbn [onEachSentinel] in Hx; [by exec_inv|].
  apply exec_bind in Hx as (tr1 & tr2 & c & -> & [Hr _]%dialEither_exec & Hx). apply Forall_app.
  split; [by apply reads_only|]. destruct c as [c|]; [|by exec_inv].
  apply exec_bind in Hx as (tr3 & tr4 & e1 & -> & Hf%HP & Hx). apply Forall_app. split; [done|].
  destruct e1; [by exec_inv|by apply IH].
Qed.
Lemma rotateSentinel_exec (P : list string → Prop) vc o n step tr e :
  (∀ c tr e, exec (sentinelCommands n step c) tr e → Forall (onlyCmds P) tr) →
  exec (rotateSentinelPassword vc o n step) tr e → Forall (onlyCmds P) tr.
Proof.
  intros HP. unfold rotateSentinelPassword. repeat case_match; intros Hx; try by exec_inv.
  apply exec_bind in Hx as (tr1 & tr2 & c & -> & Hr%loadMTLS_exec & Hx). apply Forall_app.
  split; [by apply reads_only|]. by eapply onEachSentinel_exec.
Qed.

(** What the Sentinels are told: before the data pods' cutover, nothing that drops a password. *)
Lemma sentinelCommands_exec n step c tr e :
  exec (sentinelCommands n step c) tr e →
  Forall (onlyCmds (λ args, step = "cutover" ∨ ¬ drops args)) tr.
Proof.
  unfold sentinelCommands. repeat case_bool_decide; intros Hx; [| | |by exec_inv].
  - apply do_err_exec in Hx as (r & -> & _). apply Forall_singleton. right. simpl. rewrite list_elem_of_singleton. done.
  - change [do_err c ["SENTINEL"; "SET"; sentinelMasterName; "auth-pass"; n];
            do_err c ["SENTINEL"; "CONFIG"; "SET"; "sentinel-pass"; n]]
      with (do_err c <$> [["SENTINEL"; "SET"; sentinelMasterName; "auth-pass"; n];
                          ["SENTINEL"; "CONFIG"; "SET"; "sentinel-pass"; n]]) in Hx.
    apply seqErr_exec in Hx as [Hf _]. eapply Forall_impl; [exact Hf|]. intros [op x]. unfold onlyCmds. simpl.
    destruct op; auto. rewrite elem_of_cons, list_elem_of_singleton. intros [-> | ->]; right; simpl; auto.
  - apply do_err_exec in Hx as (r & -> & _). apply Forall_singleton. by left.
Qed.

Lemma andThen_exec p q tr e :
  exec (andThen p q) tr e →
  (is_Some e ∧ exec p tr e) ∨ (∃ tr1 tr2, tr = tr1 ++ tr2 ∧ exec p tr1 None ∧ exec q tr2 e).
Proof.
  unfold andThen. intros Hx. apply exec_bind in Hx as (tr1 & tr2 & e1 & -> & Hp & Hx).
  destruct e1; [left; exec_inv; eauto|right; eauto].
Qed.

(** The state of a rotation run: only commands and reads; a complete run did both passes on
    every pod; and no password is dropped before every pod accepts the new one. *)
Definition rotationRun (vc : ValkeyCluster) (newPw : string) (tr : list Event) (e : option GoErr) : Prop :=
  Forall (onlyCmds (λ _, True)) tr ∧
  (e = None → ∀ p, p ∈ clusterDataPods vc → podDone p (cutoverCmds vc newPw) tr) ∧
  (∀ t1 x t2, tr = t1 ++ x :: t2 → dropsOld x → ∀ p, p ∈ clusterDataPods vc → podDone p (addNewCmds vc newPw) t1).

Lemma only_mono (P Q : list string → Prop) tr :
  (∀ args, P args → Q args) → Forall (onlyCmds P) tr → Forall (onlyCmds Q) tr.
Proof.
  intros HPQ Hf. eapply Forall_impl; [exact Hf|]. intros [op x]. unfold onlyCmds. simpl. destruct op; auto.
Qed.

(** The two outer passes around what happens in between ([mid], which drops nothing). *)
Lemma rotation_passes vc o n cert (mid : prog (option GoErr)) last tr e :
  (∀ tr e, exec mid tr e → Forall (onlyCmds (λ args, ¬ drops args)) tr) →
  (∀ tr e, exec last tr e → Forall (onlyCmds (λ _, True)) tr) →
  exec (andThen (onEachPod vc o n cert "add-new" (addNewOn vc n) (clusterDataPods vc))
         (andThen mid (andThen (onEachPod vc o n cert "cutover" (cutoverOn vc n) (clusterDataPods vc)) last))) tr e →
  rotationRun vc n tr e.
Proof.
  intros Hmid Hlast Hx. apply andThen_exec in Hx as [[He Hx]|(trA & tr' & -> & HA & Hx)].
  { apply (onEachPod_exec _ _ _ _ _ _ _ _ _ _ (addNewOn_cmds vc n)) in Hx as [Hf _]. split_and!.
    - by eapply only_mono.
    - intros ->. by destruct He.
    - intros t1 x t2 -> Hd. exfalso. apply (only_not_drops _ _ (addNewCmds_keep vc n)) in Hf.
      rewrite Forall_forall in Hf. by apply (Hf x); [apply elem_of_mid|]. }
  apply (onEachPod_exec _ _ _ _ _ _ _ _ _ _ (addNewOn_cmds vc n)) in HA as [HAf HAd]. specialize (HAd eq_refl).
  assert (∀ t1 x t2, trA ++ tr' = t1 ++ x :: t2 → dropsOld x → ∀ p, p ∈ clusterDataPods vc → podDone p (addNewCmds vc n) t1) as Hlate.
  { intros t1 x t2 E Hd p Hp. destruct (after_prefix dropsOld _ _ _ _ _ E) as [k ->]; [|done|].
    - by eapply only_not_drops; [apply addNewCmds_keep|].
    - eapply podDone_mono; [|by apply HAd]. set_solver. }
  assert (Forall (onlyCmds (λ _, True)) trA) as HA1 by (by eapply only_mono).
  apply andThen_exec in Hx as [[He Hx]|(trM & tr2 & -> & HM & Hx)].
  { split_and!; [apply Forall_app; split; [done|]; eapply only_mono; [|by eapply Hmid]; done|intros ->; by destruct He|done]. }
  assert (Forall (onlyCmds (λ _, True)) trM) as HM1 by (eapply only_mono; [|by eapply Hmid]; done).
  apply andThen_exec in Hx as [[He Hx]|(trB & trC & -> & HB & Hx)];
    [apply (onEachPod_exec _ _ _ _ _ _ _ _ _ _ (cutoverOn_cmds vc n)) in Hx as [Hf _]|
     apply (onEachPod_exec _ _ _ _ _ _ _ _ _ _ (cutoverOn_cmds vc n)) in HB as [Hf Hdone]].
  - split_and!; [rewrite !Forall_app; split_and!; [done|done|by eapply only_mono]|intros ->; by destruct He|done].
  - split_and!; [rewrite !Forall_app; split_and!; [done|done|by eapply only_mono|by eapply Hlast]| |done].
    intros _ p Hp. eapply podDone_mono; [|by apply Hdone]. set_solver.
Qed.

Lemma andThen_assoc (p q r : prog (option GoErr)) tr e :
  exec (andThen p (andThen q r)) tr e → exec (andThen (andThen p q) r) tr e.
Proof.
  unfold andThen. intros Hx. apply exec_bind in Hx as (tr1 & tr2 & e1 & -> & Hp & Hx). apply exec_bind. destruct e1.
  - exec_inv. exists tr1, [], (Some g). rewrite app_nil_r. split_and!; [done| |done]. apply exec_bind.
    exists tr1, [], (Some g). by rewrite app_nil_r.
  - apply exec_bind in Hx as (tr3 & tr4 & e2 & -> & Hq & Hx). exists (tr1 ++ tr3), tr4, e2. rewrite app_assoc.
    split_and!; [done| |done]. apply exec_bind. eauto 10.
Qed.

Lemma andThen_mono (p q q' : prog (option GoErr)) tr e :
  (∀ tr e, exec q tr e → exec q' tr e) → exec (andThen p q) tr e → exec (andThen p q') tr e.
Proof.
  unfold andThen. intros Hq Hx. apply exec_bind in Hx as (tr1 & tr2 & e1 & -> & Hp & Hx). apply exec_bind.
  exists tr1, tr2, e1. split_and!; [done|done|]. destruct e1; auto.
Qed.

Lemma rotationRun_reads vc n tr0 tr e :
  Forall (λ e, reads (ev_op e) = true) tr0 → rotationRun vc n tr e → rotationRun vc n (tr0 ++ tr) e.
Proof.
  intros Hr (Hf & Hd & Hl). split_and!.
  - apply Forall_app. split; [by apply reads_only|done].
  - intros -> p Hp. eapply podDone_mono; [|by apply Hd]. set_solver.
  - intros t1 x t2 E Hx p Hp. destruct (after_prefix dropsOld _ _ _ _ _ E) as [k ->]; [|done|].
    { eapply (only_not_drops (λ _, False)); [done|]. by apply reads_only. }
    rewrite <-app_assoc in E. apply app_inv_head in E. eapply podDone_mono; [|by eapply Hl]. set_solver.
Qed.

Lemma applyPasswordToPods_exec vc o n tr e : exec (applyPasswordToPods vc o n) tr e → rotationRun vc n tr e.
Proof.
  unfold applyPasswordToPods. intros Hx. apply exec_bind in Hx as (tr0 & tr1 & cert & -> & Hr%loadMTLS_exec & Hx).
  apply rotationRun_reads; [done|]. eapply rotation_passes; [| |eapply andThen_mono; [apply andThen_assoc|exact Hx]].
  - intros tr e' Hm. apply andThen_exec in Hm as [[_ Hm]|(t1 & t2 & -> & Hm1 & Hm2)]; rewrite ?Forall_app;
      repeat match goal with |- _ ∧ _ => split end;
      (eapply only_mono; [|eapply rotateSentinel_exec; [apply sentinelCommands_exec|eassumption]]);
      (intros args [?|?]; [discriminate|done]).
  - intros tr e' Hm. eapply only_mono; [|eapply rotateSentinel_exec; [apply sentinelCommands_exec|exact Hm]]. done.
Qed.

(** ** The whole reconcile step *)
Section rotation_properties.
Context (retrySteps : nat) (hasAPIReader : bool).

(** What may change anything: a command to a pod, or a write to the API server. *)
Definition writes (e : Event) : Prop := reads (ev_op e) = false.
Definition isUpdateSecret (e : Event) : Prop := match ev_op e with OUpdateSecret _ => True | _ => False end.
Definition isUpdateStatus (e : Event) : Prop := match ev_op e with OUpdateStatus _ => True | _ => False end.

Lemma RetryOnConflict_exec vc token n tr e :
  exec (RetryOnConflict n (recordToken vc token)) tr e →
  Forall (λ ev, match ev_op ev with
                | OUpdateStatus v => Status_LastPasswordRotationToken (Status v) = token
                | op => reads op = true end) tr ∧
  (e = None → ∃ v, Ev (OUpdateStatus v) None ∈ tr ∧ Status_LastPasswordRotationToken (Status v) = token).
Proof.
  revert tr; induction n as [|n IH]; intros tr Hx; cbn [RetryOnConflict] in Hx; [by exec_inv|].
  apply exec_bind in Hx as (tr1 & tr2 & e1 & -> & Hr & Hx).
  assert (Forall (λ ev, match ev_op ev with
                | OUpdateStatus v => Status_LastPasswordRotationToken (Status v) = token
                | op => reads op = true end) tr1 ∧
    (e1 = None → ∃ v, Ev (OUpdateStatus v) None ∈ tr1 ∧ Status_LastPasswordRotationToken (Status v) = token)) as [Hf Hs].
  { unfold recordToken in Hr. exec_inv. destruct a as [err|latest]; exec_inv.
    - split; [by repeat constructor|done].
    - assert (∀ st, Status_LastPasswordRotationToken (set_Status_LastPasswordRotationToken token st) = token) as Hst by (by intros []).
      split; [apply Forall_cons; split; [done|]; apply Forall_singleton; apply Hst|].
      intros ->. eexists. split; [by right; left|]. apply Hst. }
  assert (e1 = Some Conflict ∨ tr2 = [] ∧ e = e1) as [-> |[-> ->]] by (destruct e1 as [[]|]; exec_inv; auto).
  - apply IH in Hx as [Hf2 Hs2]. split; [by apply Forall_app|]. intros He. destruct (Hs2 He) as (v & Hv & ?).
    exists v. set_solver.
  - rewrite app_nil_r. auto.
Qed.

(** The events the order is about. *)
Definition inert (e : Event) : Prop := ¬ dropsOld e ∧ ¬ isUpdateSecret e ∧ ¬ isUpdateStatus e.
Lemma reads_inert tr : Forall (λ e, reads (ev_op e) = true) tr → Forall inert tr.
Proof.
  intros Hr. eapply Forall_impl; [exact Hr|]. intros [op x]. unfold inert, dropsOld, isUpdateSecret, isUpdateStatus. simpl.
  destruct op; simpl; try done; auto.
Qed.

(** The order of a rotation with trace [tr] and result [r]. *)
Record ordered (vc : ValkeyCluster) (token newPw : string) (tr : list Event) (r : bool * option GoErr) : Prop := {
  or_drop : ∀ t1 x t2, tr = t1 ++ x :: t2 → dropsOld x →
    ∀ p, p ∈ clusterDataPods vc → podDone p (addNewCmds vc newPw) t1;
  or_secret : ∀ t1 x t2, tr = t1 ++ x :: t2 → isUpdateSecret x →
    (∀ p, p ∈ clusterDataPods vc → podDone p (cutoverCmds vc newPw) t1) ∧
    ∃ s, ev_op x = OUpdateSecret s ∧ map_get (sec_Data s) secretKeyPassword = newPw;
  or_status : ∀ t1 x t2, tr = t1 ++ x :: t2 → isUpdateStatus x →
    (∃ s, Ev (OUpdateSecret s) None ∈ t1 ∧ map_get (sec_Data s) secretKeyPassword = newPw) ∧
    ∃ v, ev_op x = OUpdateStatus v ∧ Status_LastPasswordRotationToken (Status v) = token;
  or_done : r.1 = true → r.2 = None ∧
    ∃ v, Ev (OUpdateStatus v) None ∈ tr ∧ Status_LastPasswordRotationToken (Status v) = token
}.

Lemma ordered_inert vc token n tr err : Forall inert tr → ordered vc token n tr (false, err).
Proof.
  intros Hi. rewrite Forall_forall in Hi.
  assert (∀ t1 x t2, tr = t1 ++ x :: t2 → inert x) as Hx. { intros t1 x t2 ->. apply Hi, elem_of_mid. }
  split; try done; intros t1 x t2 E ?; destruct (Hx _ _ _ E) as (? & ? & ?); tauto.
Qed.

Lemma ordered_prefix vc token n pre tr r :
  Forall inert pre → ordered vc token n tr r → ordered vc token n (pre ++ tr) r.
Proof.
  intros Hi [H1 H2 H3 H4].
  assert (∀ (P : Event → Prop), (∀ e, P e → ¬ inert e) → ∀ t1 x t2, pre ++ tr = t1 ++ x :: t2 → P x →
    ∃ k, t1 = pre ++ k ∧ tr = k ++ x :: t2) as Hsplit.
  { intros P HP t1 x t2 E Hx. destruct (after_prefix P _ _ _ _ _ E) as [k ->]; [|done|].
    - eapply Forall_impl; [exact Hi|]. intros e He HPe. by apply (HP e).
    - exists k. split; [done|]. rewrite <-app_assoc in E. by apply app_inv_head in E. }
  split.
  - intros t1 x t2 E Hx p Hp. destruct (Hsplit dropsOld) with (2 := E) as (k & -> & Ek); [by intros e ? []|done|].
    eapply podDone_mono; [|by eapply H1]. set_solver.
  - intros t1 x t2 E Hx. destruct (Hsplit isUpdateSecret) with (2 := E) as (k & -> & Ek); [by intros e ? (_ & ? & _)|done|].
    destruct (H2 _ _ _ Ek Hx) as [Hd Hs]. split; [|done]. intros p Hp. eapply podDone_mono; [|by apply Hd]. set_solver.
  - intros t1 x t2 E Hx. destruct (Hsplit isUpdateStatus) with (2 := E) as (k & -> & Ek); [by intros e ? (_ & _ & ?)|done|].
    destruct (H3 _ _ _ Ek Hx) as [(s & Hs & ?) Hv]. split; [|done]. exists s. set_solver.
  - intros Hr. destruct (H4 Hr) as (? & v & ? & ?). split; [done|]. exists v. set_solver.
Qed.

(** An event of [l ++ l'] is in [l] (and what precedes it is too) or in [l']. *)
Lemma split_app (l l' t1 t2 : list Event) x :
  l ++ l' = t1 ++ x :: t2 → (∃ k, l = t1 ++ x :: k) ∨ (∃ k, t1 = l ++ k ∧ l' = k ++ x :: t2).
Proof.
  intros [(k & -> & E)|(k & -> & E)]%app_eq_inv; [|right; eauto].
  destruct k as [|y k]; simplify_eq/=; [right; exists []; by rewrite !app_nil_r|left; eauto].
Qed.

Lemma run_no_api (tr : list Event) x : Forall (onlyCmds (λ _, True)) tr → x ∈ tr → ¬ isUpdateSecret x ∧ ¬ isUpdateStatus x.
Proof.
  rewrite Forall_forall. intros Hf Hx%Hf. destruct x as [op x]. unfold onlyCmds in Hx.
  unfold isUpdateSecret, isUpdateStatus. simpl in *. destruct op; simpl; try done; auto.
Qed.

Lemma ordered_run_failed vc token n tr e : rotationRun vc n tr (Some e) → ordered vc token n tr (false, Some e).
Proof.
  intros (Hf & _ & Hd). split; [exact Hd| | |done];
    intros t1 x t2 -> Hx; exfalso; by destruct (run_no_api _ x Hf (elem_of_mid _ _ _)).
Qed.

(** After a complete run: the Secret (written or not), then the token. *)
Lemma ordered_run_done vc token n trA trS trT r :
  rotationRun vc n trA None →
  Forall (λ e, ¬ dropsOld e ∧ ¬ isUpdateStatus e ∧
    (isUpdateSecret e → ∃ s, ev_op e = OUpdateSecret s ∧ map_get (sec_Data s) secretKeyPassword = n)) trS →
  Forall (λ e, match ev_op e with
                | OUpdateStatus v => Status_LastPasswordRotationToken (Status v) = token
                | op => reads op = true end) trT →
  (trT = [] ∨ ∃ s, Ev (OUpdateSecret s) None ∈ trS ∧ map_get (sec_Data s) secretKeyPassword = n) →
  (r.1 = true → r.2 = None ∧ ∃ v, Ev (OUpdateStatus v) None ∈ trT ∧ Status_LastPasswordRotationToken (Status v) = token) →
  ordered vc token n (trA ++ trS ++ trT) r.
Proof.
  intros (Hf & Hd & Hdrop) HS HT Hst Hr. rewrite Forall_forall in HS, HT.
  assert (∀ e, e ∈ trT → ¬ dropsOld e ∧ ¬ isUpdateSecret e ∧
    (isUpdateStatus e → ∃ v, ev_op e = OUpdateStatus v ∧ Status_LastPasswordRotationToken (Status v) = token)) as HT'.
  { intros [op y] Hin%HT. unfold dropsOld, isUpdateSecret, isUpdateStatus. simpl in *.
    destruct op; simpl in *; split_and!; try done; eauto. }
  split.
  - intros t1 x t2 E Hx. destruct (split_app _ _ _ _ _ E) as [[k ->]|(k & -> & E')]; [by eapply Hdrop|].
    exfalso. assert (x ∈ trS ++ trT) as [Hin|Hin]%elem_of_app by (rewrite E'; apply elem_of_mid);
      [by apply HS in Hin as [? _]|by apply HT' in Hin as [? _]].
  - intros t1 x t2 E Hx. destruct (split_app _ _ _ _ _ E) as [[k ->]|(k & -> & E')].
    { exfalso. by destruct (run_no_api _ x Hf (elem_of_mid _ _ _)). }
    split; [intros p Hp; eapply podDone_mono; [|by apply Hd]; set_solver|].
    assert (x ∈ trS ++ trT) as [Hin|Hin]%elem_of_app by (rewrite E'; apply elem_of_mid);
      [by apply HS in Hin as (_ & _ & Hs); apply Hs|by apply HT' in Hin as (_ & ? & _)].
  - intros t1 x t2 E Hx. destruct (split_app _ _ _ _ _ E) as [[k ->]|(k & -> & E')].
    { exfalso. by destruct (run_no_api _ x Hf (elem_of_mid _ _ _)). }
    destruct (split_app _ _ _ _ _ E') as [[k' ->]|(k' & -> & ->)].
    { exfalso. destruct (HS x (elem_of_mid _ _ _)) as (_ & ? & _). done. }
    split; [|by apply (HT' x (elem_of_mid _ _ _))]. destruct Hst as [Hst|(s & Hs & ?)]; [by destruct k'|].
    exists s. set_solver.
  - intros Ht. destruct (Hr Ht) as (? & v & ? & ?). split; [done|]. exists v. set_solver.
Qed.

Lemma updatePasswordSecret_exec vc n tr e :
  exec (updatePasswordSecret vc n) tr e →
  Forall (λ e, ¬ dropsOld e ∧ ¬ isUpdateStatus e ∧
    (isUpdateSecret e → ∃ s, ev_op e = OUpdateSecret s ∧ map_get (sec_Data s) secretKeyPassword = n)) tr ∧
  (e = None → ∃ s, Ev (OUpdateSecret s) None ∈ tr ∧ map_get (sec_Data s) secretKeyPassword = n).
Proof.
  unfold updatePasswordSecret. intros Hx. exec_inv.
  assert (∀ ns k y, ¬ dropsOld (Ev (OGetSecret ns k) y) ∧ ¬ isUpdateStatus (Ev (OGetSecret ns k) y) ∧
    (isUpdateSecret (Ev (OGetSecret ns k) y) → ∃ s, ev_op (Ev (OGetSecret ns k) y) = OUpdateSecret s ∧
      map_get (sec_Data s) secretKeyPassword = n)) as Hget by (intros; split_and!; by intros []).
  destruct a as [err|sec]; exec_inv.
  - split; [by apply Forall_singleton|done].
  - set (s' := set_sec_Data _ sec).
    assert (map_get (sec_Data s') secretKeyPassword = n) as Hn.
    { unfold s', set_sec_Data, map_get. cbn [sec_Data]. by rewrite lookup_insert_eq. }
    split.
    + apply Forall_cons. split; [done|]. apply Forall_singleton. split_and!; [by intros []..|]. eauto.
    + intros He. exists s'. split; [|done]. destruct a; [done|]. right. by left.
Qed.

Lemma rotate_exec vc token o tr r :
  exec (rotate retrySteps vc token o) tr r → ∃ newPw, ordered vc token newPw tr r.
Proof.
  unfold rotate, generatePassword. intros Hx. apply exec_bind in Hx as (g & tr1 & pw & -> & ->%exec_perform & Hx).
  assert (Forall inert [Ev ORandomPassword pw]) as Hi by (by apply reads_inert, Forall_singleton).
  destruct pw as [er|n]; [exec_inv; exists ""; by apply ordered_inert|]. exists n. apply ordered_prefix; [done|].
  apply exec_bind in Hx as (trA & tr2 & e & -> & HA%applyPasswordToPods_exec & Hx).
  destruct e as [er|]; [exec_inv; by apply ordered_run_failed|].
  apply exec_bind in Hx as (trS & tr3 & e & -> & [HS Hs]%updatePasswordSecret_exec & Hx).
  destruct e as [er|]; [exec_inv; rewrite <-(app_nil_r trS); apply ordered_run_done; auto; done|].
  apply exec_bind in Hx as (trT & tr4 & e & -> & [HT Ht]%RetryOnConflict_exec & Hx).
  assert (tr4 = []) as -> by (destruct e; by exec_inv). rewrite app_nil_r.
  apply ordered_run_done; auto. intros Hr. destruct e; exec_inv. auto.
Qed.

Lemma ensurePasswordSecret_exec vc tr r : exec (ensurePasswordSecret vc) tr r → Forall inert tr.
Proof.
  unfold ensurePasswordSecret, generatePassword. intros Hx.
  repeat (repeat case_match; exec_inv); repeat constructor; by intros [].
Qed.

Lemma allDataPodsReady_exec vc tr r : exec (allDataPodsReady vc) tr r → Forall inert tr.
Proof.
  unfold allDataPodsReady. intros Hx. exec_inv. apply reads_inert. destruct a; exec_inv; by apply Forall_singleton.
Qed.
Lemma tokenRecorded_exec vc token tr r : exec (tokenRecorded hasAPIReader vc token) tr r → Forall inert tr.
Proof.
  unfold tokenRecorded. intros Hx. apply reads_inert. destruct hasAPIReader; exec_inv; [by apply Forall_singleton|done].
Qed.

(** A token that is pending: authentication is on with the operator's own Secret, and the
    request is neither empty nor recorded. *)
Definition pending (vc : ValkeyCluster) : Prop :=
  AuthEnabled (Spec vc) = true ∧ (∀ a, Spec_Auth (Spec vc) = Some a → Auth_ExistingSecret a = "") ∧
  annotation vc rotatePasswordAnnotation ≠ "" ∧
  annotation vc rotatePasswordAnnotation ≠ Status_LastPasswordRotationToken (Status vc).

End rotation_properties.

(** ** Rotating a fleet that behaves as documented *)

(** What a pod accepts: the default user's passwords, those of the other users, the password it
    shows its master, and what a restart would load. *)
Record PodAuth := {
  pa_pass : gset string; pa_users : gmap string (gset string); pa_masterauth : string; pa_saved : gset string
}.
#[global] Instance PodAuth_eq_dec : EqDecision PodAuth.
Proof. solve_decision. Defined.
(** [ACL SETUSER u rules...]: [resetpass] forgets the passwords, [>p] adds one. *)
Definition rekey (rules : list string) (old : gset string) : gset string :=
  list_to_set (omap (strip_prefix ">") rules) ∪ (if bool_decide ("resetpass" ∈ rules) then ∅ else old).
Definition set_pass (v : gset string) (pa : PodAuth) : PodAuth :=
  {| pa_pass := v; pa_users := pa_users pa; pa_masterauth := pa_masterauth pa; pa_saved := pa_saved pa |}.
Definition pod_do (args : list string) (pa : PodAuth) : PodAuth :=
  match args with
  | c1 :: c2 :: u :: rest =>
      if ((c1 == "ACL") && (c2 == "SETUSER"))%bool then
        if u == "default" then set_pass (rekey rest (pa_pass pa)) pa
        else {| pa_pass := pa_pass pa; pa_users := <[u := rekey rest (default ∅ (pa_users pa !! u))]> (pa_users pa);
                pa_masterauth := pa_masterauth pa; pa_saved := pa_saved pa |}
      else if ((c1 == "CONFIG") && (c2 == "SET") && (u == "masterauth"))%bool then
        {| pa_pass := pa_pass pa; pa_users := pa_users pa; pa_masterauth := default "" (head rest); pa_saved := pa_saved pa |}
      else if ((c1 == "CONFIG") && (c2 == "SET") && (u == "requirepass"))%bool then
        set_pass {[default "" (head rest)]} pa
      else pa
  | _ =>
      if args == ["ACL"; "SAVE"] then
        {| pa_pass := pa_pass pa; pa_users := pa_users pa; pa_masterauth := pa_masterauth pa; pa_saved := pa_pass pa |}
      else pa
  end.

(** The pods by host, the Secret, the object, the pod list, the passwords to come, and a host
    whose next [ACL SAVE] fails. *)
Record AuthWorld := {
  ax_pods : gmap string PodAuth; ax_secret : Secret; ax_vc : ValkeyCluster; ax_list : list Pod;
  ax_fresh : list string; ax_badSave : option string
}.
Definition with_pods (f : gmap string PodAuth → gmap string PodAuth) (w : AuthWorld) : AuthWorld :=
  {| ax_pods := f (ax_pods w); ax_secret := ax_secret w; ax_vc := ax_vc w; ax_list := ax_list w;
     ax_fresh := ax_fresh w; ax_badSave := ax_badSave w |}.
Definition accepts (w : AuthWorld) (host pw : string) : bool :=
  match ax_pods w !! host with Some pa => bool_decide (pw ∈ pa_pass pa) | None => false end.
Definition auth_handle (op : Op) : AuthWorld → ans op * AuthWorld :=
  match op return AuthWorld → ans op * AuthWorld with
  | OPing o => λ w, (accepts w (d_Host o) (d_Password o), w)
  | ODo o args => λ w,
      if bool_decide (args = ["ACL"; "SAVE"] ∧ ax_badSave w = Some (d_Host o)) then
        (inl "ERR disk", {| ax_pods := ax_pods w; ax_secret := ax_secret w; ax_vc := ax_vc w; ax_list := ax_list w;
                            ax_fresh := ax_fresh w; ax_badSave := None |})
      else (inr (RStr "OK"), with_pods (alter (pod_do args) (d_Host o)) w)
  | OListPods _ _ => λ w, (inr (ax_list w), w)
  | OGetSecret _ _ => λ w, (inr (ax_secret w), w)
  | OUpdateSecret s => λ w, (None, {| ax_pods := ax_pods w; ax_secret := s; ax_vc := ax_vc w; ax_list := ax_list w;
                                      ax_fresh := ax_fresh w; ax_badSave := ax_badSave w |})
  | OReadCluster _ _ | OGetCluster _ _ => λ w, (inr (ax_vc w), w)
  | OUpdateStatus v => λ w, (None, {| ax_pods := ax_pods w; ax_secret := ax_secret w; ax_vc := v; ax_list := ax_list w;
                                      ax_fresh := ax_fresh w; ax_badSave := ax_badSave w |})
  | ORandomPassword => λ w, (inr (default "" (head (ax_fresh w))),
      {| ax_pods := ax_pods w; ax_secret := ax_secret w; ax_vc := ax_vc w; ax_list := ax_list w;
         ax_fresh := tail (ax_fresh w); ax_badSave := ax_badSave w |})
  | _op => λ w, (inhabitant, w)
  end.

Abbreviation xrun := (run auth_handle).
Definition pod_do_all (cmds : list (list string)) (pa : PodAuth) : PodAuth := foldl (λ pa args, pod_do args pa) pa cmds.

Lemma xrun_dial host port pw t cert d w :
  ∃ c, d_Host c = host ∧
    xrun (dialReplClient host port pw t cert d) w = (if accepts w host pw then Some c else None, w).
Proof.
  eexists. split; [|unfold dialReplClient; rewrite run_bind, (run_perform _ (OPing _)); reflexivity]. done.
Qed.
Lemma xrun_dialEither host port o n t cert w :
  accepts w host o = true ∨ accepts w host n = true →
  ∃ c, d_Host c = host ∧ xrun (dialEither host port o n t cert) w = (Some c, w).
Proof.
  intros Ha. unfold dialEither. destruct (xrun_dial host port o t cert (5 * second) w) as (c & Hc & Hd).
  rewrite run_bind, Hd. destruct (accepts w host o); [by exists c|]. destruct Ha as [?|Ha]; [done|].
  destruct (xrun_dial host port n t cert (5 * second) w) as (c' & Hc' & Hd'). rewrite Ha in Hd'. eauto.
Qed.

Lemma xrun_do c args w :
  ax_badSave w = None →
  xrun (do_err c args) w = (None, with_pods (alter (pod_do args) (d_Host c)) w).
Proof.
  intros Hb. unfold do_err. rewrite run_bind, (run_perform _ (ODo _ _)). cbn [auth_handle].
  rewrite bool_decide_false by (rewrite Hb; by intros [??]). done.
Qed.
Lemma with_pods_compose f g w : with_pods f (with_pods g w) = with_pods (λ m, f (g m)) w.
Proof. done. Qed.
Lemma with_pods_ext f g w : f (ax_pods w) = g (ax_pods w) → with_pods f w = with_pods g w.
Proof. unfold with_pods. by intros ->. Qed.

Lemma xrun_seqErr c cmds w :
  ax_badSave w = None →
  xrun (seqErr (do_err c <$> cmds)) w = (None, with_pods (alter (pod_do_all cmds) (d_Host c)) w).
Proof.
  revert w; induction cmds as [|a cmds IH]; intros w Hb; cbn [fmap list_fmap seqErr].
  - cbn. f_equal. destruct w as [pods ? ? ? ? ?]. unfold with_pods. cbn. f_equal. symmetry. by apply alter_id.
  - rewrite run_bind, xrun_do by done. change (list_fmap _ _ (do_err c) cmds) with (do_err c <$> cmds).
    rewrite IH by done. rewrite with_pods_compose. f_equal. apply with_pods_ext.
    apply map_eq. intros k. destruct (decide (k = d_Host c)) as [->|Hk].
    + rewrite !lookup_alter_eq. by destruct (ax_pods w !! d_Host c).
    + by rewrite !lookup_alter_ne.
Qed.

Section pass.
Context (vc : ValkeyCluster) (o n : string) (cmds : list (list string)) (fn : replClient → prog (option error)).
Hypothesis Hfn : ∀ c, fn c = seqErr (do_err c <$> cmds).
(** [K]: what each pod satisfies throughout; [S]: what the pass establishes and keeps. *)
Context (K S : PodAuth → Prop).
Hypothesis K_reach : ∀ pa, K pa → o ∈ pa_pass pa ∨ n ∈ pa_pass pa.
Hypothesis K_all : ∀ pa, K pa → K (pod_do_all cmds pa).
Hypothesis S_all : ∀ pa, K pa → S (pod_do_all cmds pa).

Definition podsSatisfy (P : PodAuth → Prop) (w : AuthWorld) (pods : list podRef) : Prop :=
  ∀ p, p ∈ pods → ∃ pa, ax_pods w !! ref_host p = Some pa ∧ P pa.

Lemma onEachPod_run cert pass done pods w :
  ax_badSave w = None → podsSatisfy K w (done ++ pods) → podsSatisfy S w done →
  ∃ m', let w' := with_pods (λ _, m') w in xrun (onEachPod vc o n cert pass fn pods) w = (None, w') ∧
    podsSatisfy K w' (done ++ pods) ∧ podsSatisfy S w' (done ++ pods).
Proof.
  revert done w; induction pods as [|p pods IH]; intros dn w Hb HK HS; cbn [onEachPod].
  { exists (ax_pods w). destruct w; cbn. split_and!; [done|done|by rewrite app_nil_r]. }
  destruct (HK p) as (pa & Hpa & HKp); [set_solver|].
  destruct (xrun_dialEither (ref_host p) (dataPort vc) o n (tlsEnabled vc) cert w) as (c & Hc & Hd).
  { unfold accepts. rewrite Hpa. destruct (K_reach pa HKp); [left|right]; by apply bool_decide_true. }
  rewrite run_bind, Hd. cbn beta iota. rewrite run_bind, Hfn, xrun_seqErr by done. cbn beta iota. rewrite Hc.
  set (w1 := with_pods (alter (pod_do_all cmds) (ref_host p)) w).
  assert (∀ P : PodAuth → Prop, (∀ pa, K pa → P pa → P (pod_do_all cmds pa)) → ∀ l,
    (∀ q, q ∈ l → q ∈ dn ++ p :: pods) → podsSatisfy P w l → podsSatisfy P w1 l) as Hkeep.
  { intros P HP l Hl HPl q Hq. destruct (HPl q Hq) as (pb & Hpb & HPb). destruct (HK q (Hl q Hq)) as (pb' & Hpb' & HKb).
    simplify_eq. unfold w1. cbn [ax_pods with_pods]. destruct (decide (ref_host q = ref_host p)) as [Eq|Eq].
    - rewrite Eq, lookup_alter_eq, <-Eq, Hpb. eexists. split; [done|]. auto.
    - rewrite lookup_alter_ne by done. eauto. }
  destruct (IH (dn ++ [p]) w1) as (m' & Hrun & HK' & HS').
  - done.
  - rewrite <-app_assoc. apply Hkeep; auto.
  - intros q [Hq|Hq%list_elem_of_singleton]%elem_of_app.
    + apply (Hkeep S) with (l := dn); [auto|set_solver|done|done].
    + subst q. unfold w1. cbn [ax_pods with_pods]. rewrite lookup_alter_eq, Hpa. eexists. split; [done|]. by apply S_all.
  - rewrite <-app_assoc in HK', HS'. exists m'. split_and!; [exact Hrun|exact HK'|exact HS'].
Qed.
End pass.

(** ** What the two passes do to a pod *)
Lemma rekey_add n old : rekey [">" +:+ n] old = {[n]} ∪ old.
Proof.
  unfold rekey. rewrite bool_decide_false by (rewrite list_elem_of_singleton; done).
  change (omap (strip_prefix ">") [">" +:+ n]) with [n]. cbn. set_solver.
Qed.
Lemma rekey_reset n old : rekey ["resetpass"; ">" +:+ n] old = {[n]}.
Proof.
  unfold rekey. rewrite bool_decide_true by (by left).
  change (omap (strip_prefix ">") ["resetpass"; ">" +:+ n]) with [n]. cbn. set_solver.
Qed.

(** The commands on the default user and the configuration. *)
Lemma pod_do_add n pa : pod_do ["ACL"; "SETUSER"; "default"; ">" +:+ n] pa = set_pass ({[n]} ∪ pa_pass pa) pa.
Proof. rewrite <-rekey_add. reflexivity. Qed.
Lemma pod_do_reset n pa : pod_do ["ACL"; "SETUSER"; "default"; "resetpass"; ">" +:+ n] pa = set_pass {[n]} pa.
Proof. rewrite <-(rekey_reset n (pa_pass pa)). reflexivity. Qed.
Lemma pod_do_masterauth n pa :
  pod_do ["CONFIG"; "SET"; "masterauth"; n] pa =
  {| pa_pass := pa_pass pa; pa_users := pa_users pa; pa_masterauth := n; pa_saved := pa_saved pa |}.
Proof. reflexivity. Qed.
Lemma pod_do_requirepass n pa : pod_do ["CONFIG"; "SET"; "requirepass"; n] pa = set_pass {[n]} pa.
Proof. reflexivity. Qed.
Lemma pod_do_save pa :
  pod_do ["ACL"; "SAVE"] pa =
  {| pa_pass := pa_pass pa; pa_users := pa_users pa; pa_masterauth := pa_masterauth pa; pa_saved := pa_pass pa |}.
Proof. reflexivity. Qed.

(** The fields a managed user's command leaves alone. *)
Definition sameKeys (pa pa' : PodAuth) : Prop :=
  pa_pass pa' = pa_pass pa ∧ pa_masterauth pa' = pa_masterauth pa ∧ pa_saved pa' = pa_saved pa.
Lemma managed_block (f : managedACLUser → list string) l pa :
  (∀ u, u ∈ l → mu_name u ≠ "default") →
  sameKeys pa (pod_do_all ((λ u, "ACL" :: "SETUSER" :: mu_name u :: f u) <$> l) pa).
Proof.
  revert pa; induction l as [|u l IH]; intros pa Hl; [done|]. rewrite fmap_cons.
  unfold pod_do_all. cbn [foldl]. change (foldl _ ?x ?y) with (pod_do_all y x).
  assert (sameKeys pa (pod_do ("ACL" :: "SETUSER" :: mu_name u :: f u) pa)) as (E1 & E2 & E3).
  { unfold pod_do. cbn [andb]. rewrite !bool_decide_true by done. cbn [andb].
    rewrite bool_decide_false by (apply Hl; by left). done. }
  destruct (IH (pod_do ("ACL" :: "SETUSER" :: mu_name u :: f u) pa)) as (F1 & F2 & F3).
  { intros v Hv. apply Hl. by right. }
  split_and!; congruence.
Qed.
Lemma managed_not_default vc u : u ∈ managedNonDefaultUsers vc → mu_name u ≠ "default".
Proof. unfold managedNonDefaultUsers. rewrite elem_of_app. intros Hu. repeat case_match; set_solver. Qed.

Lemma add_pass vc n pa :
  let pa' := pod_do_all (addNewCmds vc n) pa in
  pa_pass pa' = {[n]} ∪ pa_pass pa ∧ pa_masterauth pa' = n ∧ pa_saved pa' = pa_saved pa.
Proof.
  unfold addNewCmds, pod_do_all. rewrite !foldl_app. cbn [foldl].
  change (foldl (λ pa args, pod_do args pa) ?x ?y) with (pod_do_all y x).
  destruct (managed_block (λ u, ["on"] ++ [">" +:+ n] ++ fields (mu_rules u)) (managedNonDefaultUsers vc)
    (set_pass ({[n]} ∪ pa_pass pa) pa)) as (E1 & E2 & E3); [apply managed_not_default|].
  rewrite pod_do_add, pod_do_masterauth. by split_and!.
Qed.
Lemma cut_pass vc n pa :
  let pa' := pod_do_all (cutoverCmds vc n) pa in
  pa_pass pa' = {[n]} ∧ pa_masterauth pa' = pa_masterauth pa ∧ pa_saved pa' = {[n]}.
Proof.
  unfold cutoverCmds, pod_do_all. rewrite !foldl_app. cbn [foldl].
  change (foldl (λ pa args, pod_do args pa) ?x ?y) with (pod_do_all y x).
  destruct (managed_block (λ u, ["on"; "resetpass"] ++ [">" +:+ n] ++ fields (mu_rules u)) (managedNonDefaultUsers vc)
    (set_pass {[n]} pa)) as (E1 & E2 & E3); [apply managed_not_default|].
  rewrite pod_do_reset, pod_do_requirepass, pod_do_save. by split_and!.
Qed.

Lemma xrun_loadMTLS vc w : ∃ cert, xrun (loadMTLSClientCert vc) w = (cert, w).
Proof.
  unfold loadMTLSClientCert. destruct (Spec_TLS (Spec vc)) as [t|]; [|by eexists].
  destruct (negb (tlsEnabled vc) || negb (TLS_MutualTLS t))%bool; [by eexists|].
  rewrite run_bind, (run_perform _ (OGetSecret _ _)). cbn [auth_handle]. rewrite (run_perform _ (OX509KeyPair _ _)). by eexists.
Qed.
Lemma rotateSentinel_other vc o n step :
  Spec_Topology (Spec vc) ≠ TopologySentinel → rotateSentinelPassword vc o n step = mret None.
Proof. intros HT. unfold rotateSentinelPassword. case_match; [|done]. by rewrite bool_decide_false. Qed.
Lemma run_andThen {W} (h : ∀ op, W → ans op * W) p q (w w' : W) :
  run h p w = (None, w') → run h (andThen p q) w = run h q w'.
Proof. intros E. unfold andThen. by rewrite run_bind, E. Qed.

(** The state each data pod ends in. *)
Definition rekeyed (n : string) (pa : PodAuth) : Prop :=
  pa_pass pa = {[n]} ∧ pa_saved pa = {[n]} ∧ pa_masterauth pa = n.

Lemma apply_converges vc o n w :
  Spec_Topology (Spec vc) ≠ TopologySentinel → ax_badSave w = None →
  podsSatisfy (λ pa, o ∈ pa_pass pa) w (clusterDataPods vc) →
  ∃ pods', xrun (applyPasswordToPods vc o n) w = (None, with_pods (λ _, pods') w) ∧
    podsSatisfy (rekeyed n) (with_pods (λ _, pods') w) (clusterDataPods vc).
Proof.
  intros HT Hb Ho. unfold applyPasswordToPods.
  destruct (xrun_loadMTLS vc w) as [cert Hc]. rewrite run_bind, Hc. rewrite !rotateSentinel_other by done.
  destruct (onEachPod_run vc o n _ _ (addNewOn_cmds vc n) (λ pa, o ∈ pa_pass pa)
    (λ pa, n ∈ pa_pass pa ∧ pa_masterauth pa = n)) with (cert := cert) (pass := "add-new") (done := @nil podRef)
    (pods := clusterDataPods vc) (w := w) as (m1 & R1 & HK1 & HS1); auto.
  { intros pa Hpa. destruct (add_pass vc n pa) as (-> & _). set_solver. }
  { intros pa Hpa. destruct (add_pass vc n pa) as (-> & -> & _). set_solver. }
  { intros p. set_solver. }
  set (w1 := with_pods (λ _, m1) w) in *. cbn [app] in HK1, HS1.
  rewrite (run_andThen _ _ _ _ _ R1), (run_andThen _ (mret None) _ w1 w1), (run_andThen _ (mret None) _ w1 w1) by done.
  destruct (onEachPod_run vc o n _ _ (cutoverOn_cmds vc n) (λ pa, n ∈ pa_pass pa ∧ pa_masterauth pa = n)
    (rekeyed n)) with (cert := cert) (pass := "cutover") (done := @nil podRef)
    (pods := clusterDataPods vc) (w := w1) as (m2 & R2 & HK2 & HS2); auto.
  { intros pa [? _]. by right. }
  { intros pa [_ Hm]. destruct (cut_pass vc n pa) as (-> & -> & _). set_solver. }
  { intros pa [_ Hm]. destruct (cut_pass vc n pa) as (E1 & E2 & E3). split_and!; congruence. }
  { intros p. set_solver. }
  exists m2. rewrite (run_andThen _ _ _ _ _ R2). split; [done|exact HS2].
Qed.

Section converge.
Context (retrySteps : nat).

End converge.

(** ** No lock-out within a run *)

(** What each command of the run does to the default user's passwords. *)
Lemma cmd_pass vc n args pa :
  args ∈ addNewCmds vc n ∨ args ∈ cutoverCmds vc n →
  pa_pass (pod_do args pa) = pa_pass pa ∨ n ∈ pa_pass (pod_do args pa) .
Proof.
  unfold addNewCmds, cutoverCmds. rewrite !elem_of_app, !list_elem_of_fmap, !elem_of_cons.
  assert (∀ u rest, u ∈ managedNonDefaultUsers vc →
    pa_pass (pod_do ("ACL" :: "SETUSER" :: mu_name u :: rest) pa) = pa_pass pa) as Hm.
  { intros u rest Hu. destruct (managed_block (λ _, rest) [u] pa) as [E _]; [|exact E].
    intros v ->%list_elem_of_singleton. by eapply managed_not_default. }
  intros [[[->|[]%elem_of_nil]|[(u & -> & Hu)|[->|[]%elem_of_nil]]]|
          [[->|[]%elem_of_nil]|[(u & -> & Hu)|[->|[->|[]%elem_of_nil]]]]].
  - right. rewrite pod_do_add. cbn. set_solver.
  - left. by apply (Hm u).
  - by left.
  - right. rewrite pod_do_reset. cbn. set_solver.
  - left. by apply (Hm u).
  - right. rewrite pod_do_requirepass. cbn. set_solver.
  - by left.
Qed.

Lemma apply_cmds vc o n tr e :
  Spec_Topology (Spec vc) ≠ TopologySentinel → exec (applyPasswordToPods vc o n) tr e →
  Forall (onlyCmds (λ args, args ∈ addNewCmds vc n ∨ args ∈ cutoverCmds vc n)) tr.
Proof.
  intros HT. unfold applyPasswordToPods. intros Hx.
  apply exec_bind in Hx as (tr0 & tr1 & cert & -> & Hr%loadMTLS_exec & Hx).
  rewrite !rotateSentinel_other in Hx by done. apply Forall_app. split; [by apply reads_only|].
  assert (∀ tr e, exec (onEachPod vc o n cert "add-new" (addNewOn vc n) (clusterDataPods vc)) tr e →
    Forall (onlyCmds (λ args, args ∈ addNewCmds vc n ∨ args ∈ cutoverCmds vc n)) tr) as HA.
  { intros t e' [Hf _]%(onEachPod_exec _ _ _ _ _ _ _ _ _ _ (addNewOn_cmds vc n)). eapply only_mono; [|exact Hf]. auto. }
  assert (∀ tr e, exec (onEachPod vc o n cert "cutover" (cutoverOn vc n) (clusterDataPods vc)) tr e →
    Forall (onlyCmds (λ args, args ∈ addNewCmds vc n ∨ args ∈ cutoverCmds vc n)) tr) as HB.
  { intros t e' [Hf _]%(onEachPod_exec _ _ _ _ _ _ _ _ _ _ (cutoverOn_cmds vc n)). eapply only_mono; [|exact Hf]. auto. }
  apply andThen_exec in Hx as [[_ Hx]|(t1 & t2 & -> & Hx1 & Hx)]; [by eapply HA|].
  apply Forall_app. split; [by eapply HA|].
  do 2 (apply andThen_exec in Hx as [[_ Hx]|(? & ? & -> & ? & Hx)]; [by exec_inv|]; exec_inv).
  apply andThen_exec in Hx as [[_ Hx]|(t5 & t6 & -> & Hx1' & Hx)]; [by eapply HB|]. exec_inv. by eapply HB.
Qed.


(** ** Concrete rotations *)

(** Three pods of a Replication cluster that accept "old"; two passwords to come. *)
Definition demoAuth : ValkeyCluster :=
  {| Meta := {| Meta_Name := "demo"; Meta_Namespace := "ns"; Meta_UID := ""; Meta_Generation := 1;
                Meta_Annotations := {[rotatePasswordAnnotation := "t1"]}; Meta_Finalizers := []; Meta_Deleting := false |};
     Spec := set_Spec_Auth (Some {| Auth_Enabled := Some true; Auth_ExistingSecret := "" |})
               (set_Spec_Replicas 3 (set_Spec_Topology TopologyReplication zeroSpec));
     Status := zeroStatus |}.
Definition oldPod : PodAuth := {| pa_pass := {["old"]}; pa_users := ∅; pa_masterauth := "old"; pa_saved := {["old"]} |}.
Definition authWorld (bad : option string) : AuthWorld := {|
  ax_pods := list_to_map ((λ p, (ref_host p, oldPod)) <$> clusterDataPods demoAuth);
  ax_secret := {| sec_Name := "demo-auth"; sec_Namespace := "ns"; sec_Labels := ∅; sec_Data := {[secretKeyPassword := "old"]} |};
  ax_vc := demoAuth; ax_list := (λ i, demoPod i "r") <$> [0%Z; 1%Z; 2%Z]; ax_fresh := ["new1"; "new2"]; ax_badSave := bad |}.


(** A run that stops half-way through the cutover is not retry-safe: the next run draws another
    password, so the pods that already cut over (here pod 0) accept neither the Secret's
    password nor the new draw, and every later run fails on them. *)
Example rotation_retry_locked_out :
  let p := reconcilePasswordRotation 5 true demoAuth in
  let r1 := run auth_handle p (authWorld (Some (demoHost 1))) in
  let r2 := run auth_handle p r1.2 in
  r1.1.1 = false ∧ map_get (sec_Data (ax_secret r1.2)) secretKeyPassword = "old" ∧
  r2.1 = (false, Some (EMsg ("rotate " +:+ demoHost 0 +:+ ": unreachable with current or new password"))) ∧
  accepts r2.2 (demoHost 0) "old" = false ∧ accepts r2.2 (demoHost 0) "new2" = false.
Proof. vm_compute. auto. Qed.

(** During the first pass a replica (pod 0) already shows its master the new password while its
    master (pod 1) accepts only the old one: here the run is looked at after its fourth
    command's answer. *)
Example rotation_first_pass_window :
  let tr := take 5 (trace auth_handle (applyPasswordToPods demoAuth "old" "new1") (authWorld None)) in
  let w := foldl (λ w e, (auth_handle (ev_op e) w).2) (authWorld None) tr in
  (pa_masterauth <$> ax_pods w !! demoHost 0) = Some "new1" ∧ accepts w (demoHost 1) "new1" = false.
Proof. vm_compute. auto. Qed.
