(* ===== verification/Webhook.v ===== *)
(** * Webhook: admission of ValkeyCluster and ValkeyACL (internal/webhook/v1beta1)

    The validators read the Secrets (and the cluster) a spec refers to and reject
    inconsistent specs.  Go iterates over a map in an unspecified order: the order
    is a parameter of [validate], any permutation of the map's entries. *)

From S2P Require Import Prelude GoStd Kube Api Effects Naming Failover Rollout SentinelRollout ClusterNodes Status Rotation.

(** ** ValkeyCluster *)
Definition acceptReplicationDurabilityRiskAnnotation : string := "valkey.wellcake.io/accept-replication-durability-risk".

(** The defaulter of the mutating webhook runs the API type's own defaulting. *)
Definition clusterDefaulter (vc : ValkeyCluster) : ValkeyCluster := Default vc.

Definition referencedSecrets (vc : ValkeyCluster) : gmap string string :=
  let s := Spec vc in
  let m := ∅ in
  let m := match Spec_Auth s with
           | Some a => if (AuthEnabled s && (Auth_ExistingSecret a != ""))%bool
                       then <[Auth_ExistingSecret a := "spec.auth.existingSecret"]> m else m
           | None => m end in
  let m := match Spec_TLS s with
           | Some t => if (TLS_Enabled t && (TLS_ExistingSecret t != ""))%bool
                       then <[TLS_ExistingSecret t := "spec.tls.existingSecret"]> m else m
           | None => m end in
  let m := match Spec_Backup s with
           | Some b => match Backup_S3 b with
                       | Some s3 => if (Backup_Enabled b && (S3_CredentialsSecret s3 != ""))%bool
                                    then <[S3_CredentialsSecret s3 := "spec.backup.s3.credentialsSecret"]> m else m
                       | None => m end
           | None => m end in
  let m := match Spec_RestoreFrom s with
           | Some r => match Restore_S3 r with
                       | Some s3 => if S3_CredentialsSecret s3 != ""
                                    then <[S3_CredentialsSecret s3 := "spec.restoreFrom.s3.credentialsSecret"]> m else m
                       | None => m end
           | None => m end in
  let m := match Spec_ReplicateFrom s with
           | Some r => match RF_PasswordSecret r with
                       | Some k => <[SKR_Name k := "spec.replicateFrom.passwordSecret.name"]> m
                       | None => m end
           | None => m end in
  match Spec_ReplicateFrom s with
  | Some r => match RF_CASecret r with
              | Some k => <[CA_Name k := "spec.replicateFrom.caSecret.name"]> m
              | None => m end
  | None => m end.

(** [%q] of a Kubernetes name: such a name has nothing to escape. *)
Definition quoted (s : string) : string := dq +:+ s +:+ dq.

Fixpoint checkSecrets (ns : string) (refs : list (string * string)) : prog (option GoErr) :=
  match refs with
  | [] => mret None
  | (name, field) :: refs' =>
      r ← perform (OGetSecret ns name);
      match r with
      | inl err =>
          if IsNotFound err then
            mret (Some (EMsg (field +:+ ": Secret " +:+ quoted name +:+ " not found in namespace " +:+ quoted ns)))
          else mret (Some (EWrap (field +:+ ": unable to read Secret " +:+ quoted name) (EKube err)))
      | inr _ => checkSecrets ns refs'
      end
  end.

Definition restoreWarning : string :=
  "topology=Cluster restore is a guided manual procedure: per-shard RDBs are pre-loaded, but cluster assembly " +:+
  "(CLUSTER ADDSLOTSRANGE/MEET/REPLICATE) is manual — see docs/runbook.md#cluster-restore. The cluster must have " +:+
  "the same shard count as the snapshot.".
Definition durabilityRisk : string :=
  "profile=Durable with topology=Replication uses operator-arbitrated failover (bounded by the reconcile interval " +:+
  "and the operator's own liveness, with a split-brain window on network partition); for durable data prefer " +:+
  "topology=Sentinel or Cluster, which arbitrate failover in the data plane".

(** The checks after the Secrets: warnings, and the error if there is one. *)
Definition shapeError (s : ValkeyClusterSpec) : option string :=
  if Spec_Topology s == TopologyCluster then
    match Spec_Shards s with None => Some "topology=Cluster requires spec.shards" | Some _ => None end
  else if Spec_Topology s == TopologySentinel then
    match Spec_Sentinel s with None => Some "topology=Sentinel requires spec.sentinel" | Some _ => None end
  else None.
Definition durableReplication (s : ValkeyClusterSpec) : bool :=
  ((Spec_Profile s == ProfileDurable) && ((Spec_Topology s == "") || (Spec_Topology s == TopologyReplication)))%bool.
Definition checkShape (vc : ValkeyCluster) : list string * option GoErr :=
  let s := Spec vc in
  match shapeError s with
  | Some e => ([], Some (EMsg e))
  | None =>
      match (if Spec_Topology s == TopologyCluster then Spec_RestoreFrom s else None) with
      | Some r =>
          if negb (contains (Restore_SourceKey r) "{shard}") then
            ([], Some (EMsg ("topology=Cluster with restoreFrom requires a {shard} " +:+
                             "placeholder in spec.restoreFrom.sourceKey (per-shard restore)")))
          else ([restoreWarning], None)
      | None => ([], None)
      end
  end.
Definition checkDurability (vc : ValkeyCluster) (isCreate : bool) (warnings : list string) : list string * option GoErr :=
  if durableReplication (Spec vc) then
    let acknowledged := annotation vc acceptReplicationDurabilityRiskAnnotation == "true" in
    if (isCreate && negb acknowledged)%bool then
      (warnings, Some (EMsg (durabilityRisk +:+ ". To create it anyway, acknowledge the risk by setting " +:+
        "the annotation " +:+ acceptReplicationDurabilityRiskAnnotation +:+ "=" +:+ dq +:+ "true" +:+ dq)))
    else (warnings ++ [durabilityRisk +:+ "."], None)
  else (warnings, None).

Definition validate (refs : list (string * string)) (vc : ValkeyCluster) (isCreate : bool) : prog (list string * option GoErr) :=
  e ← checkSecrets (vcNamespace vc) refs;
  match e with
  | Some _ => mret ([], e)
  | None =>
      match checkShape vc with
      | (_, Some err) => mret ([], Some err)
      | (warnings, None) => mret (checkDurability vc isCreate warnings)
      end
  end.

Definition ValidateCreate (refs : list (string * string)) (obj : ValkeyCluster) : prog (list string * option GoErr) := validate refs obj true.
Definition ValidateUpdate (refs : list (string * string)) (oldObj newObj : ValkeyCluster) : prog (list string * option GoErr) := validate refs newObj false.
Definition ValidateDelete (obj : ValkeyCluster) : prog (list string * option GoErr) := mret ([], None).

(** ** ValkeyACL *)

(** The names the validator rejects (written out there, not taken from [isReservedACLUser]). *)
Definition reservedByWebhook (name : string) : bool :=
  ((name == "default") || (name == "sentinel-user") || (name == "replicator"))%bool.
Fixpoint checkUserNames (seen : gset string) (users : list ValkeyACLUser) : option GoErr :=
  match users with
  | [] => None
  | u :: users' =>
      if bool_decide (User_Name u ∈ seen) then
        Some (EMsg ("duplicate user " +:+ quoted (User_Name u) +:+ " in spec.users"))
      else if reservedByWebhook (User_Name u) then
        Some (EMsg ("user " +:+ quoted (User_Name u) +:+ " is reserved by the operator and cannot be managed via ValkeyACL"))
      else checkUserNames ({[User_Name u]} ∪ seen) users'
  end.
Fixpoint checkUserSecrets (ns : string) (users : list ValkeyACLUser) : prog (option GoErr) :=
  match users with
  | [] => mret None
  | u :: users' =>
      match User_PasswordSecret u with
      | None => checkUserSecrets ns users'
      | Some k =>
          r ← perform (OGetSecret ns (SKR_Name k));
          match r with
          | inl err =>
              if IsNotFound err then
                mret (Some (EMsg ("user " +:+ quoted (User_Name u) +:+ ": Secret " +:+ quoted (SKR_Name k) +:+
                                  " not found in namespace " +:+ quoted ns)))
              else mret (Some (EWrap ("user " +:+ quoted (User_Name u) +:+ ": cannot read Secret " +:+ quoted (SKR_Name k)) (EKube err)))
          | inr _ => checkUserSecrets ns users'
          end
      end
  end.
Definition validateACL (acl : ValkeyACL) : prog (list string * option GoErr) :=
  let ns := Meta_Namespace (ACL_Meta acl) in
  let ref := ACL_ClusterRef (ACL_Spec acl) in
  r ← perform (OGetCluster ns ref);
  match (match r with
         | inr _ => inr []
         | inl err => if IsNotFound err
             then inr ["ValkeyCluster " +:+ quoted ref +:+ " not found yet in namespace " +:+ quoted ns +:+ " — reconciler will retry"]
             else inl (EWrap ("cannot read ValkeyCluster " +:+ quoted ref) (EKube err))
         end) with
  | inl err => mret ([], Some err)
  | inr warnings =>
      match checkUserNames ∅ (ACL_Users (ACL_Spec acl)) with
      | Some err => mret ([], Some err)
      | None => e ← checkUserSecrets ns (ACL_Users (ACL_Spec acl)); mret (warnings, e)
      end
  end.

Definition aclValidateCreate (obj : ValkeyACL) : prog (list string * option GoErr) := validateACL obj.
Definition aclValidateUpdate (oldObj newObj : ValkeyACL) : prog (list string * option GoErr) := validateACL newObj.
Definition aclValidateDelete (obj : ValkeyACL) : prog (list string * option GoErr) := mret ([], None).

(** ** What admission guarantees *)

Lemma checkSecrets_exec ns refs tr e :
  exec (checkSecrets ns refs) tr e →
  (e = None → ∀ name, name ∈ refs.*1 → ∃ s, Ev (OGetSecret ns name) (inr s) ∈ tr) ∧
  (is_Some e → ∃ name err, name ∈ refs.*1 ∧ Ev (OGetSecret ns name) (inl err) ∈ tr).
Proof.
  revert tr; induction refs as [|[name field] refs IH]; intros tr Hx; cbn [checkSecrets] in Hx.
  { exec_inv. split; [set_solver|by intros []]. }
  apply exec_bind in Hx as (g & tr1 & r & -> & ->%exec_perform & Hx). rewrite fmap_cons. cbn [fst]. destruct r as [err|sec].
  - assert (tr1 = [] ∧ is_Some e) as [-> [x ->]] by (destruct (IsNotFound err); exec_inv; eauto).
    split; [done|]. intros _. exists name, err. split; [by left|]. by left.
  - apply IH in Hx as [H1 H2]. split.
    + intros He m [->|Hm]%elem_of_cons; [exists sec; by left|]. destruct (H1 He m Hm) as [s ?]. exists s. by right.
    + intros He. destruct (H2 He) as (m & er & ? & ?). exists m, er. split; by right.
Qed.

(** The spec conditions of admission. *)
Record admissible (vc : ValkeyCluster) (isCreate : bool) : Prop := {
  ad_shards : Spec_Topology (Spec vc) = TopologyCluster → is_Some (Spec_Shards (Spec vc));
  ad_sentinel : Spec_Topology (Spec vc) = TopologySentinel → is_Some (Spec_Sentinel (Spec vc));
  ad_restore : ∀ r, Spec_Topology (Spec vc) = TopologyCluster → Spec_RestoreFrom (Spec vc) = Some r →
    contains (Restore_SourceKey r) "{shard}" = true;
  ad_durable : isCreate = true → durableReplication (Spec vc) = true →
    annotation vc acceptReplicationDurabilityRiskAnnotation = "true"
}.

Lemma shapeError_None s :
  shapeError s = None ↔ (Spec_Topology s = TopologyCluster → is_Some (Spec_Shards s)) ∧
                        (Spec_Topology s = TopologySentinel → is_Some (Spec_Sentinel s)).
Proof.
  unfold shapeError. case_bool_decide as E1; [|case_bool_decide as E2].
  - assert (Spec_Topology s ≠ TopologySentinel) as E2 by (rewrite E1; discriminate).
    destruct (Spec_Shards s); split; [intros _; split; [by eexists|done]|done|done|].
    intros [H1 _]. by destruct (H1 E1).
  - destruct (Spec_Sentinel s); split; [intros _; split; [done|by eexists]|done|done|].
    intros [_ H2]. by destruct (H2 E2).
  - done.
Qed.

Lemma checkDurability_None vc isCreate ws :
  (checkDurability vc isCreate ws).2 = None ↔
  (isCreate = true → durableReplication (Spec vc) = true →
   annotation vc acceptReplicationDurabilityRiskAnnotation = "true").
Proof.
  unfold checkDurability. destruct (durableReplication (Spec vc)); [|done].
  case_bool_decide as E; destruct isCreate; cbn; try done.
  split; [done|]. intros Hq. by specialize (Hq eq_refl eq_refl).
Qed.

Lemma admissible_iff vc isCreate :
  (∃ ws, checkShape vc = (ws, None) ∧ (checkDurability vc isCreate ws).2 = None) ↔ admissible vc isCreate.
Proof.
  unfold checkShape. destruct (shapeError (Spec vc)) as [m|] eqn:ES.
  { split; [by intros (ws & ? & _)|]. intros [H1 H2 _ _].
    assert (shapeError (Spec vc) = None) as E by (by apply shapeError_None). congruence. }
  apply shapeError_None in ES as [Hsh Hse].
  set (rs := if Spec_Topology (Spec vc) == TopologyCluster then Spec_RestoreFrom (Spec vc) else None).
  assert ((∀ r, rs = Some r → contains (Restore_SourceKey r) "{shard}" = true) ↔
          ∀ r, Spec_Topology (Spec vc) = TopologyCluster → Spec_RestoreFrom (Spec vc) = Some r →
               contains (Restore_SourceKey r) "{shard}" = true) as Hrs.
  { unfold rs. case_bool_decide as E; split.
    - intros Hr r _. apply Hr.
    - intros Hr r. by apply Hr.
    - intros _ r ?. done.
    - done. }
  split.
  - intros (ws & Hs & Hd). pose proof (proj1 (checkDurability_None _ _ _) Hd).
    split; [done|done| |done]. apply Hrs. intros r Hr. rewrite Hr in Hs.
    by destruct (contains _ _).
  - intros [_ _ HR HD]. destruct rs as [r|]; [|exists []; split; [done|by apply checkDurability_None]].
    exists [restoreWarning]. rewrite (proj2 Hrs HR r eq_refl). split; [done|by apply checkDurability_None].
Qed.

Lemma validate_cases refs vc isCreate tr ws e :
  refs ≡ₚ map_to_list (referencedSecrets vc) → exec (validate refs vc isCreate) tr (ws, e) →
  (e = None → admissible vc isCreate ∧
     ∀ name, name ∈ dom (referencedSecrets vc) → ∃ s, Ev (OGetSecret (vcNamespace vc) name) (inr s) ∈ tr) ∧
  (is_Some e → ¬ admissible vc isCreate ∨
     ∃ name err, name ∈ dom (referencedSecrets vc) ∧ Ev (OGetSecret (vcNamespace vc) name) (inl err) ∈ tr).
Proof.
  intros HP Hx. unfold validate in Hx. apply exec_bind in Hx as (tr1 & tr2 & e1 & -> & [H1 H2]%checkSecrets_exec & Hx).
  assert (∀ name, name ∈ refs.*1 ↔ name ∈ dom (referencedSecrets vc)) as Hdom.
  { intros name. rewrite HP, elem_of_dom. split.
    - intros ([k v] & -> & Hk%elem_of_map_to_list)%list_elem_of_fmap. by exists v.
    - intros [v Hv]. apply list_elem_of_fmap. exists (name, v). split; [done|]. by apply elem_of_map_to_list. }
  destruct e1 as [er|].
  { exec_inv. split; [done|]. intros _. right. destruct H2 as (name & err & ? & ?); [by eexists|].
    exists name, err. rewrite <-Hdom, ?app_nil_r. auto. }
  assert (∀ name, name ∈ dom (referencedSecrets vc) → ∃ s, Ev (OGetSecret (vcNamespace vc) name) (inr s) ∈ tr1 ++ tr2) as Hsec.
  { intros name Hn%Hdom. destruct (H1 eq_refl name Hn) as [s ?]. exists s. set_solver. }
  pose proof (admissible_iff vc isCreate) as Had. destruct (checkShape vc) as [wsh [er|]] eqn:Esh.
  - exec_inv. split; [done|]. intros _. left. intros HA%Had. by destruct HA as (? & ? & ?).
  - assert (checkDurability vc isCreate wsh = (ws, e)) as Ed by (by exec_inv).
    split.
    + intros ->. split; [|done]. apply Had. exists wsh. by rewrite Ed.
    + intros [er ->]. left. intros (w' & [= <-] & Hd)%Had. by rewrite Ed in Hd.
Qed.

(** What cluster admission means, in whatever order Go visits the Secrets and whatever the API
    server answers.  An admitted spec names only Secrets that were read, has [shards] in a
    Cluster and [sentinel] in a Sentinel topology, has the [{shard}] placeholder when a Cluster
    is restored, and, on creation, is not Durable on Replication unless the risk was
    acknowledged; a rejection means one of these fails.  An update is never rejected for its
    durability. *)
Theorem validate_admits refs vc isCreate tr ws e :
  refs ≡ₚ map_to_list (referencedSecrets vc) → exec (validate refs vc isCreate) tr (ws, e) →
  (e = None → admissible vc isCreate ∧
     ∀ name, name ∈ dom (referencedSecrets vc) → ∃ s, Ev (OGetSecret (vcNamespace vc) name) (inr s) ∈ tr) ∧
  (is_Some e → ¬ admissible vc isCreate ∨
     ∃ name err, name ∈ dom (referencedSecrets vc) ∧ Ev (OGetSecret (vcNamespace vc) name) (inl err) ∈ tr).
Proof. apply validate_cases. Qed.

(** ** ValkeyACL admission *)

(** The validator writes out the names the controller reserves. *)
Lemma reservedByWebhook_spec name : reservedByWebhook name = isReservedACLUser name.
Proof. done. Qed.

Lemma checkUserNames_None seen users :
  checkUserNames seen users = None ↔
  NoDup (User_Name <$> users) ∧ (∀ u, u ∈ users → (User_Name u ∉ seen) ∧ isReservedACLUser (User_Name u) = false).
Proof.
  revert seen; induction users as [|u users IH]; intros seen; cbn [checkUserNames fmap list_fmap].
  { split; [intros _; split; [constructor|set_solver]|done]. }
  rewrite NoDup_cons, reservedByWebhook_spec. case_bool_decide as Hs.
  { split; [done|]. intros [_ Hu]. destruct (Hu u); [by left|done]. }
  destruct (isReservedACLUser (User_Name u)) eqn:Hr.
  { split; [done|]. intros [_ Hu]. destruct (Hu u); [by left|congruence]. }
  rewrite IH. split.
  - intros [HN Hu]. split; [split; [|done]|].
    + intros (v & Hv & Hin)%list_elem_of_fmap. destruct (Hu v Hin) as [Hv' _]. set_solver.
    + intros v [->|Hin]%elem_of_cons; [done|]. destruct (Hu v Hin) as [? ?]. set_solver.
  - intros [[Hn HN] Hu]. split; [done|]. intros v Hin. destruct (Hu v) as [? ?]; [by right|].
    split; [|done]. rewrite not_elem_of_union, not_elem_of_singleton. split; [|done].
    intros Hv. apply Hn. rewrite <-Hv. by apply list_elem_of_fmap_2.
Qed.

Lemma checkUserSecrets_exec ns users tr e :
  exec (checkUserSecrets ns users) tr e →
  (e = None → ∀ u k, u ∈ users → User_PasswordSecret u = Some k → ∃ s, Ev (OGetSecret ns (SKR_Name k)) (inr s) ∈ tr) ∧
  (is_Some e → ∃ u k err, u ∈ users ∧ User_PasswordSecret u = Some k ∧ Ev (OGetSecret ns (SKR_Name k)) (inl err) ∈ tr).
Proof.
  revert tr; induction users as [|u users IH]; intros tr Hx; cbn [checkUserSecrets] in Hx.
  { exec_inv. split; [set_solver|by intros []]. }
  destruct (User_PasswordSecret u) as [k|] eqn:Hk.
  - apply exec_bind in Hx as (g & tr1 & r & -> & ->%exec_perform & Hx). destruct r as [err|sec].
    + assert (tr1 = [] ∧ is_Some e) as [-> [x ->]] by (destruct (IsNotFound err); exec_inv; eauto).
      split; [done|]. intros _. exists u, k, err. repeat split; [by left|done|by left].
    + apply IH in Hx as [H1 H2]. split.
      * intros He v kv [->|Hv]%elem_of_cons Hkv; [simplify_eq; exists sec; by left|].
        destruct (H1 He v kv Hv Hkv) as [s ?]. exists s. by right.
      * intros He. destruct (H2 He) as (v & kv & er & ? & ? & ?). exists v, kv, er. repeat split; [by right|done|by right].
  - apply IH in Hx as [H1 H2]. split.
    + intros He v kv [->|Hv]%elem_of_cons Hkv; [congruence|eauto].
    + intros He. destruct (H2 He) as (v & kv & er & ? & ? & ?). exists v, kv, er. repeat split; [by right|done|done].
Qed.

(** What ACL admission means, whatever the API server answers.  An admitted ValkeyACL
    names each user once, no user the controller reserves ([isReservedACLUser]: so its
    [reset] and DELUSER never reach the operator's own identities), and only password
    Secrets that were read.  A rejection means one of these fails or the cluster could not be
    read; a cluster that does not exist yet is a warning, never a rejection. *)
Theorem validateACL_admits acl tr ws e :
  let ns := Meta_Namespace (ACL_Meta acl) in let users := ACL_Users (ACL_Spec acl) in
  exec (validateACL acl) tr (ws, e) →
  (e = None → NoDup (User_Name <$> users) ∧
     ∀ u, u ∈ users → isReservedACLUser (User_Name u) = false ∧
       ∀ k, User_PasswordSecret u = Some k → ∃ s, Ev (OGetSecret ns (SKR_Name k)) (inr s) ∈ tr) ∧
  (is_Some e →
     (∃ err, err ≠ NotFound ∧ Ev (OGetCluster ns (ACL_ClusterRef (ACL_Spec acl))) (inl err) ∈ tr) ∨
     ¬ NoDup (User_Name <$> users) ∨ (∃ u, u ∈ users ∧ isReservedACLUser (User_Name u) = true) ∨
     ∃ u k err, u ∈ users ∧ User_PasswordSecret u = Some k ∧ Ev (OGetSecret ns (SKR_Name k)) (inl err) ∈ tr).
Proof.
  intros ns users Hx. unfold validateACL in Hx. fold ns users in Hx.
  apply exec_bind in Hx as (g & tr1 & r & -> & ->%exec_perform & Hx).
  assert ((∃ err, r = inl err ∧ err ≠ NotFound ∧ tr1 = [] ∧ is_Some e) ∨
    ∃ ws', exec (match checkUserNames ∅ users with
                 | Some err => mret ([], Some err)
                 | None => e ← checkUserSecrets ns users; mret (ws', e) end) tr1 (ws, e)) as [(err & -> & Hn & -> & [x ->])|[ws' Hy]].
  { destruct r as [err|vc]; [|by right; eexists]. destruct (IsNotFound err) eqn:E; [by right; eexists|].
    left. exists err. exec_inv. repeat split; [by intros -> |eauto]. }
  { split; [done|]. intros _. left. exists err. split; [done|by left]. }
  destruct (checkUserNames ∅ users) as [er|] eqn:Hn.
  - exec_inv. split; [done|]. intros _. right.
    destruct (decide (NoDup (User_Name <$> users))) as [HN|]; [right|by left]. left.
    destruct (decide (Exists (λ u, isReservedACLUser (User_Name u) = true) users)) as [Hex|Hno].
    { by apply Exists_exists in Hex. }
    exfalso. assert (checkUserNames ∅ users = None) as E; [|congruence].
    apply checkUserNames_None. split; [done|]. intros u Hu. split; [set_solver|].
    apply not_true_iff_false. intros Ht. apply Hno, Exists_exists. eauto.
  - apply checkUserNames_None in Hn as [HN Hu].
    apply exec_bind in Hy as (tr2 & tr3 & e2 & -> & [H1 H2]%checkUserSecrets_exec & Hy). exec_inv. split.
    + intros ->. split; [done|]. intros u Hin. split; [by apply Hu|]. intros k Hk.
      destruct (H1 eq_refl u k Hin Hk) as [s ?]. exists s. by right.
    + intros He. right. right. right. destruct (H2 He) as (u & k & er & ? & ? & ?). exists u, k, er.
      repeat split; [done|done|by right].
Qed.

(** ** Concrete specs *)
Definition demoDurable : ValkeyCluster :=
  {| Meta := {| Meta_Name := "demo"; Meta_Namespace := "ns"; Meta_UID := ""; Meta_Generation := 1;
                Meta_Annotations := {[acceptReplicationDurabilityRiskAnnotation := "true"]};
                Meta_Finalizers := []; Meta_Deleting := false |};
     Spec := set_Spec_Auth (Some {| Auth_Enabled := None; Auth_ExistingSecret := "creds" |})
               (set_Spec_Topology TopologyReplication (set_Spec_Profile ProfileDurable zeroSpec));
     Status := zeroStatus |}.
Definition demoACL : ValkeyACL :=
  {| ACL_Meta := Meta demoDurable;
     ACL_Spec := {| ACL_ClusterRef := "demo";
       ACL_Users := [{| User_Name := "app"; User_PasswordSecret := Some {| SKR_Name := "app-pw"; SKR_Key := "" |};
                        User_Rules := "~app:* +@read" |}] |};
     ACL_Status := {| ACL_AppliedUsers := []; ACL_ObservedGeneration := 0; ACL_Conditions := [] |} |}.
(** Every Secret exists; the cluster does not yet. *)
Definition secretsExist (op : Op) : unit → ans op * unit :=
  match op with
  | OGetSecret ns name => λ w, (inr {| sec_Name := name; sec_Namespace := ns; sec_Labels := ∅; sec_Data := ∅ |}, w)
  | OGetCluster _ _ => λ w, (inl NotFound, w)
  | _ => λ w, (inhabitant, w)
  end.

Lemma validate_admits_witness :
  let refs := map_to_list (referencedSecrets demoDurable) in
  let p := validate refs demoDurable true in
  refs = [("creds", "spec.auth.existingSecret")] ∧ (run secretsExist p tt).1.2 = None ∧ admissible demoDurable true.
Proof.
  intros refs p. split; [vm_compute; reflexivity|]. split; [vm_compute; reflexivity|].
  apply (validate_admits refs demoDurable true (trace secretsExist p tt) (run secretsExist p tt).1.1 (run secretsExist p tt).1.2);
    [reflexivity|exact (run_exec secretsExist p tt)|vm_compute; reflexivity].
Defined.
Lemma validateACL_admits_witness :
  let p := validateACL demoACL in
  (run secretsExist p tt).1.2 = None ∧ NoDup (User_Name <$> ACL_Users (ACL_Spec demoACL)).
Proof.
  intros p. split; [vm_compute; reflexivity|].
  apply (validateACL_admits demoACL (trace secretsExist p tt) (run secretsExist p tt).1.1 (run secretsExist p tt).1.2);
    [exact (run_exec secretsExist p tt)|vm_compute; reflexivity].
Defined.
