(* ===== verification/Acl.v ===== *)
(** * Acl: the ValkeyACL controller (valkeyacl_controller.go)

    A reconcile resolves the cluster, picks the nodes to write to, resolves the users'
    password Secrets and sends the same ACL commands to every node it can reach. *)

From S2P Require Import Prelude GoStd Kube Api Effects Naming Failover Rollout SentinelRollout ClusterNodes Status Rotation.

(** What a reconcile returns: [RequeueAfter] and the error. *)
Definition Result : Type := Z * option GoErr.

Definition set_ACL_Status (f : ValkeyACLStatus → ValkeyACLStatus) (acl : ValkeyACL) : ValkeyACL :=
  {| ACL_Meta := ACL_Meta acl; ACL_Spec := ACL_Spec acl; ACL_Status := f (ACL_Status acl) |}.
Definition aclNamespace (acl : ValkeyACL) : string := Meta_Namespace (ACL_Meta acl).
Definition aclUsers (acl : ValkeyACL) : list ValkeyACLUser := ACL_Users (ACL_Spec acl).

(** One loop body of [resolveUserPasswords]. *)
Definition resolveUser (ns : string) (s : gset string * gmap string string) (u : ValkeyACLUser) :
    prog (gset string * gmap string string) :=
  let '(desiredNames, userPasswords) := s in
  let desiredNames := {[User_Name u]} ∪ desiredNames in
  match User_PasswordSecret u with
  | None => mret (desiredNames, userPasswords)
  | Some k =>
      r ← perform (OGetSecret ns (SKR_Name k));
      match r with
      | inl _ => mret (desiredNames, userPasswords)
      | inr sec =>
          let key := if SKR_Key k == "" then secretKeyPassword else SKR_Key k in
          mret (desiredNames, <[User_Name u := map_get (sec_Data sec) key]> userPasswords)
      end
  end.
Definition resolveUserPasswords (acl : ValkeyACL) : prog (gset string * gmap string string) :=
  foldM (resolveUser (aclNamespace acl)) (∅, ∅) (aclUsers acl).

Definition setUserArgs (u : ValkeyACLUser) (password : string) : list string :=
  ["ACL"; "SETUSER"; User_Name u; "reset"] ++
  (if User_Rules u != "" then fields (User_Rules u) else []) ++
  [if password != "" then ">" +:+ password else "nopass"].
Definition applyACLUser (c : replClient) (u : ValkeyACLUser) (password : string) : prog (option error) :=
  do_err c (setUserArgs u password).

(** The commands one reached node gets; an error of one is logged and the next one follows. *)
Definition applyOnNode (acl : ValkeyACL) (desiredNames : gset string) (userPasswords : gmap string string)
    (c : replClient) : prog () :=
  _ ← foldM (λ _ u, _ ← applyACLUser c u (map_get userPasswords (User_Name u)); mret ()) () (aclUsers acl);
  _ ← foldM (λ _ prev,
        if (bool_decide (prev ∈ desiredNames) || isReservedACLUser prev)%bool then mret ()
        else _ ← do_err c ["ACL"; "DELUSER"; prev]; mret ()) () (ACL_AppliedUsers (ACL_Status acl));
  _ ← do_err c ["ACL"; "SAVE"];
  mret ().
Definition fanoutStep (acl : ValkeyACL) (vc : ValkeyCluster) (port : Z) (clusterPassword : string)
    (desiredNames : gset string) (userPasswords : gmap string string) (reached : Z) (host : string) : prog Z :=
  cert ← loadMTLSClientCert vc;
  c ← dialReplClient host port clusterPassword (tlsEnabled vc) cert (3 * second);
  match c with
  | None => mret reached
  | Some c => _ ← applyOnNode acl desiredNames userPasswords c; mret (reached + 1)%Z
  end.
Definition applyACLFanout (acl : ValkeyACL) (vc : ValkeyCluster) (targets : list string) (port : Z)
    (clusterPassword : string) (desiredNames : gset string) (userPasswords : gmap string string) : prog Z :=
  foldM (fanoutStep acl vc port clusterPassword desiredNames userPasswords) 0%Z targets.

(** A Cluster has a non-negative number of pods: the CRD bounds both factors below. *)
Definition aclTargets (vc : ValkeyCluster) : list string :=
  let headless := headlessServiceName vc in
  if Spec_Topology (Spec vc) == TopologyCluster then
    (λ i, fqdn (statefulSetName vc) i headless (vcNamespace vc)) <$> zrange 0 (totalReplicas vc)
  else if Status_Primary (Status vc) == "" then []
  else [Status_Primary (Status vc) +:+ "." +:+ headless +:+ "." +:+ vcNamespace vc +:+ ".svc.cluster.local"].

Definition lookupClusterPassword (vc : ValkeyCluster) : prog (KubeErr + string) :=
  if negb (AuthEnabled (Spec vc)) then mret (inr "")
  else
    let existing := match Spec_Auth (Spec vc) with Some a => Auth_ExistingSecret a | None => "" end in
    let name := if existing != "" then existing else passwordSecretName vc in
    r ← perform (OGetSecret (vcNamespace vc) name);
    mret (match r with inl err => inl err | inr sec => inr (map_get (sec_Data sec) secretKeyPassword) end).

(** The cluster is ready for ACL writes. *)
Definition aclNotReady (vc : ValkeyCluster) : bool :=
  if Spec_Topology (Spec vc) == TopologyCluster then
    (negb (Status_ClusterInitialized (Status vc)) || (Status_ReadyReplicas (Status vc) == 0%Z))%bool
  else ((Status_Primary (Status vc) == "") || (Status_ReadyReplicas (Status vc) == 0%Z))%bool.

Definition kubeErr (e : option KubeErr) : option GoErr := match e with Some err => Some (EKube err) | None => None end.

Section controller.
Context `{ConditionLib}.

(** The Available condition, observed at the object's generation. *)
Definition stampAvailable (acl : ValkeyACL) (status reason msg : string) : prog ValkeyACL :=
  now ← perform ONow;
  let gen := Meta_Generation (ACL_Meta acl) in
  mret (set_ACL_Status (λ st, {| ACL_AppliedUsers := ACL_AppliedUsers st; ACL_ObservedGeneration := gen;
    ACL_Conditions := setCondition (ACL_Conditions st)
      {| cond_Type := ConditionAvailable; cond_Status := status; cond_Reason := reason; cond_Message := msg;
         cond_ObservedGeneration := gen; cond_LastTransitionTime := now |} |}) acl).

Definition markUnavailable (acl : ValkeyACL) (reason msg : string) : prog Result :=
  acl' ← stampAvailable acl ConditionFalse reason msg;
  e ← perform (OPatchACL acl acl');
  mret (0%Z, kubeErr e).
(** [res.RequeueAfter = 15s] when the patch went through. *)
Definition markAndRetry (acl : ValkeyACL) (reason msg : string) : prog Result :=
  r ← markUnavailable acl reason msg;
  mret (match r.2 with None => (15 * second, None)%Z | Some _ => r end).

Definition setApplied (applied : list string) (acl : ValkeyACL) : ValkeyACL :=
  set_ACL_Status (λ st, {| ACL_AppliedUsers := applied; ACL_ObservedGeneration := ACL_ObservedGeneration st;
                           ACL_Conditions := ACL_Conditions st |}) acl.
(** From the resolved targets on. *)
Definition applyTo (acl : ValkeyACL) (vc : ValkeyCluster) (clusterPassword : string) (targets : list string) : prog Result :=
  r ← resolveUserPasswords acl;
  let '(desiredNames, userPasswords) := r in
  reached ← applyACLFanout acl vc targets (dataPort vc) clusterPassword desiredNames userPasswords;
  if reached == 0%Z then
    markAndRetry acl "PrimaryUnreachable" ("could not reach any of " +:+ Itoa (Z.of_nat (length targets)) +:+ " target nodes")
  else
    let applied := sort_strings (elements desiredNames) in
    acl' ← stampAvailable (setApplied applied acl) ConditionTrue "Applied"
             ("applied " +:+ Itoa (Z.of_nat (length applied)) +:+ " users");
    e ← perform (OPatchACL acl acl');
    mret (0%Z, kubeErr e).

Definition reconcileACL (namespace name : string) : prog Result :=
  g ← perform (OGetACL namespace name);
  match g with
  | inl err => mret (0%Z, if IsNotFound err then None else Some (EKube err))
  | inr acl =>
      let ref := ACL_ClusterRef (ACL_Spec acl) in
      v ← perform (OGetCluster (aclNamespace acl) ref);
      match v with
      | inl err =>
          if IsNotFound err then
            markUnavailable acl "ClusterMissing"
              ("ValkeyCluster " +:+ dq +:+ ref +:+ dq +:+ " not found in namespace " +:+ dq +:+ aclNamespace acl +:+ dq)
          else mret (0%Z, Some (EKube err))
      | inr vc =>
          if aclNotReady vc then
            markAndRetry acl "ClusterNotReady" "target cluster is not ready for ACL writes yet; retrying in 15s"
          else
            p ← lookupClusterPassword vc;
            match p with
            | inl err => mret (0%Z, Some (EWrap "cluster password" (EKube err)))
            | inr clusterPassword =>
                let targets := aclTargets vc in
                if length targets == 0 then markAndRetry acl "NoTargets" "could not determine any ACL target pods"
                else applyTo acl vc clusterPassword targets
            end
      end
  end.

(** The two deferred counters run last, the later [defer] first. *)
Definition Reconcile (namespace name : string) : prog Result :=
  r ← reconcileACL namespace name;
  let result := match r.2 with Some _ => "error" | None => "success" end in
  _ ← perform (OMetricInc "aclApplyTotal" [namespace; name; result]);
  _ ← perform (OMetricInc "reconcileTotal" ["valkeyacl"; namespace; name; result]);
  mret r.
End controller.

(** ** The commands a reconcile sends *)

(** A command the ACL's spec and last status call for. *)
Inductive aclCommand (acl : ValkeyACL) (userPasswords : gmap string string) : list string → Prop :=
  | cmd_set u : u ∈ aclUsers acl → aclCommand acl userPasswords (setUserArgs u (map_get userPasswords (User_Name u)))
  | cmd_del prev : prev ∈ ACL_AppliedUsers (ACL_Status acl) → (prev ∉ User_Name <$> aclUsers acl) →
      isReservedACLUser prev = false → aclCommand acl userPasswords ["ACL"; "DELUSER"; prev]
  | cmd_save : aclCommand acl userPasswords ["ACL"; "SAVE"].

(** The passwords are those of Secrets the API server answered with. *)
Definition passwordsRead (acl : ValkeyACL) (users : list ValkeyACLUser) (userPasswords : gmap string string) (tr : list Event) : Prop :=
  ∀ n p, userPasswords !! n = Some p → ∃ u k sec, u ∈ users ∧ User_Name u = n ∧ User_PasswordSecret u = Some k ∧
    Ev (OGetSecret (aclNamespace acl) (SKR_Name k)) (inr sec) ∈ tr ∧
    p = map_get (sec_Data sec) (if SKR_Key k == "" then secretKeyPassword else SKR_Key k).

Lemma resolveUser_fold acl users D P tr D' P' :
  exec (foldM (resolveUser (aclNamespace acl)) (D, P) users) tr (D', P') →
  D' = D ∪ list_to_set (User_Name <$> users) ∧ Forall (λ e, reads (ev_op e) = true) tr ∧
  ∀ n p, P' !! n = Some p → P !! n = Some p ∨ passwordsRead acl users {[n := p]} tr.
Proof.
  revert D P tr; induction users as [|u users IH]; intros D P tr Hx; cbn [foldM] in Hx.
  { exec_inv. split; [set_solver|]. split; [done|auto]. }
  apply exec_bind in Hx as (tr1 & tr2 & [D1 P1] & -> & Hu & Hx). apply IH in Hx as (-> & Hr & HP).
  assert (D1 = {[User_Name u]} ∪ D ∧ Forall (λ e, reads (ev_op e) = true) tr1 ∧
    ∀ n p, P1 !! n = Some p → P !! n = Some p ∨ passwordsRead acl (u :: users) {[n := p]} tr1) as (-> & Hr1 & HP1).
  { unfold resolveUser in Hu. destruct (User_PasswordSecret u) as [k|] eqn:Hk; [|exec_inv; eauto].
    apply exec_bind in Hu as (tr3 & tr4 & r & -> & ->%exec_perform & Hu). destruct r as [err|sec]; exec_inv.
    { repeat split; [by repeat constructor|auto]. }
    repeat split; [by repeat constructor|]. intros n p [[<- <-]|[_ ?]]%lookup_insert_Some; [right|auto].
    intros n' p' [<- <-]%lookup_singleton_Some. exists u, k, sec. repeat split; [by left|done|by left]. }
  split; [set_solver|]. split; [by apply Forall_app|]. intros n p [H1|H1]%HP.
  - destruct (HP1 n p H1) as [?|H2]; [auto|right]. intros n' p' Hn. destruct (H2 _ _ Hn) as (v & k & s & ? & ? & ? & ? & ?).
    exists v, k, s. set_solver.
  - right. intros n' p' Hn. destruct (H1 _ _ Hn) as (v & k & s & ? & ? & ? & ? & ?). exists v, k, s. set_solver.
Qed.

Lemma resolveUserPasswords_exec acl tr D P :
  exec (resolveUserPasswords acl) tr (D, P) →
  D = list_to_set (User_Name <$> aclUsers acl) ∧ Forall (λ e, reads (ev_op e) = true) tr ∧ passwordsRead acl (aclUsers acl) P tr.
Proof.
  intros (-> & Hr & HP)%resolveUser_fold. split; [set_solver|]. split; [done|]. intros n p [?|Hn]%HP; [set_solver|].
  apply Hn. by simplify_map_eq.
Qed.

(** Reads, and commands of the ACL to one of the targets. *)
Definition aclEvent (acl : ValkeyACL) (P : gmap string string) (targets : list string) (e : Event) : Prop :=
  match ev_op e with ODo c args => d_Host c ∈ targets ∧ aclCommand acl P args | op => reads op = true end.
#[local] Instance aclEvent_reads acl P targets : IgnoresReads (aclEvent acl P targets).
Proof. intros op x Hr. unfold aclEvent. simpl. by destruct op. Qed.

Lemma do_err_spec acl P targets c args :
  d_Host c ∈ targets → aclCommand acl P args → spec (do_err c args) (aclEvent acl P targets) (λ _, True).
Proof. intros Hc Ha. unfold do_err. apply spec_bind_op; [by intros|]. intros x. by apply spec_ret. Qed.

Lemma applyOnNode_spec acl P targets c :
  d_Host c ∈ targets →
  spec (applyOnNode acl (list_to_set (User_Name <$> aclUsers acl)) P c) (aclEvent acl P targets) (λ _, True).
Proof.
  intros Hc. unfold applyOnNode. apply (spec_bind _ _ _ (λ _, True)); [|intros _ _; apply (spec_bind _ _ _ (λ _, True))].
  - apply spec_foldM; [done|]. intros _ u Hu _. eapply spec_bind; [|intros; by apply spec_ret].
    apply do_err_spec; [done|by constructor].
  - apply spec_foldM; [done|]. intros _ prev Hp _. case_bool_decide as E; [by apply spec_ret|].
    destruct (isReservedACLUser prev) eqn:Hr; [by apply spec_ret|]. cbn [orb].
    eapply spec_bind; [|intros; by apply spec_ret]. apply do_err_spec; [done|]. constructor; [done| |done].
    by rewrite elem_of_list_to_set in E.
  - intros _ _. eapply spec_bind; [|intros; by apply spec_ret]. apply do_err_spec; [done|constructor].
Qed.

Lemma loadMTLS_reads vc tr c : exec (loadMTLSClientCert vc) tr c → Forall (λ e, reads (ev_op e) = true) tr.
Proof.
  unfold loadMTLSClientCert. intros Hx. destruct (Spec_TLS (Spec vc)); [|by exec_inv].
  destruct (_ || _)%bool; [by exec_inv|]. apply exec_bind in Hx as (tr1 & tr2 & r & -> & ->%exec_perform & Hx).
  destruct r; exec_inv; by repeat constructor.
Qed.
Lemma reads_aclEvent acl P targets tr : Forall (λ e, reads (ev_op e) = true) tr → Forall (aclEvent acl P targets) tr.
Proof. intros Hr. eapply Forall_impl; [exact Hr|]. intros [op x] ?. by apply ignores_reads. Qed.

(** A target answered. *)
Definition someReached (targets : list string) (tr : list Event) : Prop :=
  ∃ o, d_Host o ∈ targets ∧ Ev (OPing o) true ∈ tr.

Lemma fanout_exec acl vc all port pw P targets n tr m :
  targets ⊆ all → (0 ≤ n)%Z →
  exec (foldM (fanoutStep acl vc port pw (list_to_set (User_Name <$> aclUsers acl)) P) n targets) tr m →
  Forall (aclEvent acl P all) tr ∧ (n ≤ m)%Z ∧ (m ≠ n → someReached all tr).
Proof.
  revert n tr; induction targets as [|h targets IH]; intros n tr Hsub Hn Hx; cbn [foldM] in Hx.
  { exec_inv. split; [done|]. split; [lia|done]. }
  apply exec_bind in Hx as (tr1 & tr2 & k & -> & Hs & Hx). unfold fanoutStep in Hs.
  apply exec_bind in Hs as (tr3 & tr4 & cert & -> & Hm%loadMTLS_reads%(reads_aclEvent acl P all) & Hs).
  apply exec_bind in Hs as (tr5 & tr6 & c & -> & Hd & Hs). unfold dialReplClient in Hd.
  apply exec_bind in Hd as (tr7 & tr8 & up & -> & ->%exec_perform & Hd). apply exec_ret in Hd as [-> <-].
  assert (Forall (aclEvent acl P all) tr6 ∧ (k = n + 1 ∧ up = true ∨ k = n ∧ up = false)%Z) as [H6 Hk].
  { destruct up; [|exec_inv; auto]. apply exec_bind in Hs as (t1 & t2 & [] & -> & Ha & Hs). exec_inv. split; [|auto].
    refine (proj1 (applyOnNode_spec acl P all _ _ _ _ Ha)). cbn. set_solver. }
  apply IH in Hx as (Hf & Hle & Hm'); [|set_solver|lia].
  split; [|split; [lia|]].
  - rewrite !Forall_app. split_and!; try done. constructor; [done|constructor].
  - intros Hne. destruct Hk as [[-> ->]|[-> ->]].
    + eexists. split; [|apply elem_of_app; left; apply elem_of_app; right; apply elem_of_app; left; by left]. cbn. set_solver.
    + destruct (Hm' Hne) as (o & ? & ?). exists o. set_solver.
Qed.

Section reconcile.
Context `{ConditionLib}.

(** [acl'] is [acl] with its status observed at the current generation: Available is
    [status], the applied users are [applied]. *)
Definition marked (acl acl' : ValkeyACL) (status : string) (applied : list string) : Prop :=
  ACL_Spec acl' = ACL_Spec acl ∧ ACL_AppliedUsers (ACL_Status acl') = applied ∧
  ACL_ObservedGeneration (ACL_Status acl') = Meta_Generation (ACL_Meta acl) ∧
  ∃ c, findCondition ConditionAvailable (ACL_Conditions (ACL_Status acl')) = Some c ∧
    cond_Status c = status ∧ cond_ObservedGeneration c = Meta_Generation (ACL_Meta acl).

Lemma stampAvailable_exec acl s r m tr acl' :
  exec (stampAvailable acl s r m) tr acl' →
  ∃ t, tr = [Ev ONow t] ∧ marked acl acl' s (ACL_AppliedUsers (ACL_Status acl)).
Proof.
  unfold stampAvailable. intros Hx. apply exec_bind in Hx as (tr1 & tr2 & t & -> & ->%exec_perform & Hx).
  apply exec_ret in Hx as [-> <-]. exists t. split; [done|]. split_and!; [done|done|done|].
  eexists. split; [exact (SetStatusCondition_same _ {| cond_Type := ConditionAvailable; cond_Status := s; cond_Reason := r;
    cond_Message := m; cond_ObservedGeneration := _; cond_LastTransitionTime := t |})|]. unfold transition. destruct (findCondition _ _); [case_bool_decide|]; done.
Qed.

(** The users of the spec, each once, in order. *)
Definition appliedNames (acl : ValkeyACL) : list string :=
  sort_strings (elements (list_to_set (User_Name <$> aclUsers acl) : gset string)).

(** What a reconcile of [acl] against [vc] does in a trace [tr]. *)
Definition reconcileEvent (acl : ValkeyACL) (targets : list string) (P : gmap string string) (tr : list Event) (e : Event) : Prop :=
  match ev_op e with
  | ODo c args => d_Host c ∈ targets ∧ aclCommand acl P args
  | OPatchACL base new => base = acl ∧
      (marked acl new ConditionFalse (ACL_AppliedUsers (ACL_Status acl)) ∨
       marked acl new ConditionTrue (appliedNames acl) ∧ someReached targets tr)
  | op => reads op = true
  end.

Lemma mark_exec acl targets P tr r reason msg tr' :
  exec (markUnavailable acl reason msg) tr r → Forall (reconcileEvent acl targets P tr') tr.
Proof.
  unfold markUnavailable. intros Hx. apply exec_bind in Hx as (tr1 & tr2 & acl' & -> & (t & -> & Hm)%stampAvailable_exec & Hx).
  apply exec_bind in Hx as (tr3 & tr4 & e & -> & ->%exec_perform & Hx). exec_inv.
  constructor; [done|]. constructor; [|constructor]. split; [done|by left].
Qed.
Lemma markAndRetry_exec acl targets P tr r reason msg tr' :
  exec (markAndRetry acl reason msg) tr r → Forall (reconcileEvent acl targets P tr') tr.
Proof.
  unfold markAndRetry. intros Hx. apply exec_bind in Hx as (tr1 & tr2 & r' & -> & Hm & Hx). exec_inv.
  by eapply mark_exec.
Qed.

Lemma aclEvent_reconcile acl targets P tr tr' :
  Forall (aclEvent acl P targets) tr → Forall (reconcileEvent acl targets P tr') tr.
Proof. intros Hf. eapply Forall_impl; [exact Hf|]. intros [op x]. unfold aclEvent, reconcileEvent. cbn. by destruct op. Qed.

Lemma passwordsRead_mono acl users P tr tr' : tr ⊆ tr' → passwordsRead acl users P tr → passwordsRead acl users P tr'.
Proof. intros Hs HP n p Hn. destruct (HP n p Hn) as (u & k & s & ? & ? & ? & ? & ?). exists u, k, s. set_solver. Qed.

Lemma reconcileEvent_mono acl targets P tr tr' l :
  tr ⊆ tr' → Forall (reconcileEvent acl targets P tr) l → Forall (reconcileEvent acl targets P tr') l.
Proof.
  intros Hs Hf. eapply Forall_impl; [exact Hf|]. intros [op x]. unfold reconcileEvent. cbn. destruct op; try done.
  intros [-> [?|[? (o & ? & ?)]]]; split; auto. right. split; [done|]. exists o. set_solver.
Qed.

Lemma applyTo_exec acl vc pw targets tr r :
  exec (applyTo acl vc pw targets) tr r →
  ∃ P, passwordsRead acl (aclUsers acl) P tr ∧ Forall (reconcileEvent acl targets P tr) tr.
Proof.
  unfold applyTo. intros Hx. apply exec_bind in Hx as (tr1 & tr2 & [D P] & -> & (-> & Hr & HP)%resolveUserPasswords_exec & Hx).
  exists P. split; [eapply passwordsRead_mono; [|exact HP]; set_solver|].
  apply exec_bind in Hx as (tr3 & tr4 & n & -> & Hf & Hx).
  apply (fanout_exec acl vc targets) in Hf as (Hf & _ & Hs); [|set_solver|lia].
  rewrite !Forall_app. split; [by apply aclEvent_reconcile, reads_aclEvent|]. split; [by apply aclEvent_reconcile|].
  case_bool_decide as Hn; [by eapply markAndRetry_exec|].
  apply exec_bind in Hx as (tr5 & tr6 & acl' & -> & (t & -> & Hm)%stampAvailable_exec & Hx).
  apply exec_bind in Hx as (tr7 & tr8 & e & -> & ->%exec_perform & Hx). exec_inv.
  constructor; [done|]. constructor; [|constructor]. split; [done|]. right.
  split; [exact Hm|]. destruct (Hs Hn) as (o & ? & ?). exists o. set_solver.
Qed.

(** The two objects a reconcile that sends a command or writes the status has read; [vc] is
    missing only when no command was sent. *)
Definition reconciled (ns name : string) (tr : list Event) : Prop :=
  Forall (λ e, reads (ev_op e) = true) tr ∨
  ∃ acl P, Ev (OGetACL ns name) (inr acl) ∈ tr ∧ passwordsRead acl (aclUsers acl) P tr ∧
    (Forall (reconcileEvent acl [] P tr) tr ∨
     ∃ vc, Ev (OGetCluster (aclNamespace acl) (ACL_ClusterRef (ACL_Spec acl))) (inr vc) ∈ tr ∧
       aclNotReady vc = false ∧ Forall (reconcileEvent acl (aclTargets vc) P tr) tr).

Lemma lookupClusterPassword_reads vc tr r :
  exec (lookupClusterPassword vc) tr r → Forall (λ e, reads (ev_op e) = true) tr.
Proof.
  unfold lookupClusterPassword. intros Hx. destruct (negb _); exec_inv; by repeat constructor.
Qed.

Lemma no_passwords acl tr : passwordsRead acl (aclUsers acl) ∅ tr.
Proof. intros n p Hn. set_solver. Qed.

Lemma reconcileACL_exec ns name tr r : exec (reconcileACL ns name) tr r → reconciled ns name tr.
Proof.
  unfold reconcileACL. intros Hx. apply exec_bind in Hx as (t1 & tr1 & g & -> & ->%exec_perform & Hx).
  destruct g as [err|acl]; [left; exec_inv; by repeat constructor|].
  apply exec_bind in Hx as (t2 & tr2 & v & -> & ->%exec_perform & Hx). cbn [app].
  assert (∀ l, Forall (reconcileEvent acl [] ∅ (Ev (OGetACL ns name) (inr acl) ::
      Ev (OGetCluster (aclNamespace acl) (ACL_ClusterRef (ACL_Spec acl))) v :: l)) l →
    reconciled ns name (Ev (OGetACL ns name) (inr acl) ::
      Ev (OGetCluster (aclNamespace acl) (ACL_ClusterRef (ACL_Spec acl))) v :: l)) as Hmark.
  { intros l Hl. right. exists acl, ∅. split; [by left|]. split; [apply no_passwords|]. left. by repeat constructor. }
  destruct v as [err|vc].
  { destruct (IsNotFound err); [by eapply Hmark, mark_exec|]. left. exec_inv. by repeat constructor. }
  destruct (aclNotReady vc) eqn:Hnr; [by eapply Hmark, markAndRetry_exec|].
  apply exec_bind in Hx as (tr3 & tr4 & p & -> & Hp%lookupClusterPassword_reads & Hx).
  destruct p as [err|pw]; [left; exec_inv; by repeat constructor|].
  case_bool_decide.
  { eapply Hmark. apply Forall_app. split; [|by eapply markAndRetry_exec]. by apply aclEvent_reconcile, reads_aclEvent. }
  apply applyTo_exec in Hx as (P & HP & Hf). right. exists acl, P. split; [by left|].
  split; [eapply passwordsRead_mono; [|exact HP]; set_solver|]. right. exists vc. split; [by right; left|]. split; [done|].
  constructor; [done|]. constructor; [done|]. apply Forall_app. split; [by apply aclEvent_reconcile, reads_aclEvent|].
  eapply reconcileEvent_mono; [|exact Hf]. set_solver.
Qed.

(** Whatever the API server and the nodes answer, a reconcile of a ValkeyACL only ever sends
    ACL commands to the targets of a cluster that is ready for them: SETUSER for users of the
    spec (from a [reset] user, so nothing of an earlier apply survives, with a password only
    when a Secret that was read holds it), DELUSER for users it applied before that the spec no
    longer names, never for a user the operator reserves, and SAVE.  The status it writes is
    that of the object it read, observed at that generation: Available=True with exactly the
    spec's users only when a target answered, Available=False with the applied users unchanged
    otherwise. *)
Theorem acl_reconcile_safe ns name tr r :
  exec (Reconcile ns name) tr r → reconciled ns name tr.
Proof.
  unfold Reconcile. intros Hx. apply exec_bind in Hx as (tr1 & tr2 & r' & -> & Hr%reconcileACL_exec & Hx).
  apply exec_bind in Hx as (tr3 & tr4 & [] & -> & ->%exec_perform & Hx).
  apply exec_bind in Hx as (tr5 & tr6 & [] & -> & ->%exec_perform & Hx). exec_inv.
  destruct Hr as [Hr|(acl & P & Hg & HP & Hr)]; [left; apply Forall_app; split; [done|by repeat constructor]|].
  right. exists acl, P. split; [set_solver|]. split; [eapply passwordsRead_mono; [|exact HP]; set_solver|].
  destruct Hr as [Hf|(vc & ? & ? & Hf)]; [left|right; exists vc; split; [set_solver|split; [done|]]];
    (apply Forall_app; split; [eapply reconcileEvent_mono; [|exact Hf]; set_solver|by repeat constructor]).
Qed.
End reconcile.

(** ** A world of nodes that execute ACL commands

    A node keeps, for each user, the rules given since its last [reset]. *)
Definition sinceReset (rules : list string) : list string :=
  foldl (λ acc r, if r == "reset" then [] else acc ++ [r]) [] rules.
Abbreviation Users := (gmap string (list string)).
Definition node_do (args : list string) (m : Users) : Users :=
  match args with
  | c1 :: c2 :: u :: rules =>
      if ((c1 == "ACL") && (c2 == "SETUSER"))%bool then <[u := sinceReset (default [] (m !! u) ++ rules)]> m
      else if ((c1 == "ACL") && (c2 == "DELUSER"))%bool then delete u m
      else m
  | _ => m
  end.

(** The reachable nodes by host, the Secrets by name, and the two objects. *)
Record AclWorld := {
  aw_nodes : gmap string Users; aw_secrets : gmap string Secret; aw_vc : ValkeyCluster; aw_acl : ValkeyACL
}.
Definition with_nodes (f : gmap string Users → gmap string Users) (w : AclWorld) : AclWorld :=
  {| aw_nodes := f (aw_nodes w); aw_secrets := aw_secrets w; aw_vc := aw_vc w; aw_acl := aw_acl w |}.
Definition acl_handle (op : Op) : AclWorld → ans op * AclWorld :=
  match op return AclWorld → ans op * AclWorld with
  | OPing o => λ w, (bool_decide (is_Some (aw_nodes w !! d_Host o)), w)
  | ODo o args => λ w, (inr (RStr "OK"), with_nodes (alter (node_do args) (d_Host o)) w)
  | OGetSecret _ name => λ w, (match aw_secrets w !! name with Some s => inr s | None => inl NotFound end, w)
  | OGetACL _ _ => λ w, (inr (aw_acl w), w)
  | OGetCluster _ _ => λ w, (inr (aw_vc w), w)
  | OPatchACL _ new => λ w,
      (None, {| aw_nodes := aw_nodes w; aw_secrets := aw_secrets w; aw_vc := aw_vc w; aw_acl := new |})
  | _op => λ w, (inhabitant, w)
  end.
Abbreviation arun := (run acl_handle).

(** The commands a node gets, and what they leave of it. *)
Definition nodeCmds (acl : ValkeyACL) (D : gset string) (P : gmap string string) : list (list string) :=
  ((λ u, setUserArgs u (map_get P (User_Name u))) <$> aclUsers acl) ++
  ((λ prev, ["ACL"; "DELUSER"; prev]) <$>
     filter (λ prev, (bool_decide (prev ∈ D) || isReservedACLUser prev)%bool = false) (ACL_AppliedUsers (ACL_Status acl))) ++
  [["ACL"; "SAVE"]].
Definition node_do_all (cmds : list (list string)) (m : Users) : Users := foldl (λ m args, node_do args m) m cmds.

Lemma arun_ret {A} (a : A) w : arun (mret a) w = (a, w).
Proof. done. Qed.
Lemma arun_do_err c args w : arun (do_err c args) w = (None, with_nodes (alter (node_do args) (d_Host c)) w).
Proof. unfold do_err. by rewrite run_bind, (run_perform _ (ODo _ _)). Qed.

Lemma with_nodes_all cmds cmds' h w :
  with_nodes (alter (node_do_all cmds') h) (with_nodes (alter (node_do_all cmds) h) w) =
  with_nodes (alter (node_do_all (cmds ++ cmds')) h) w.
Proof.
  unfold with_nodes. cbn. f_equal. apply map_eq. intros k. destruct (decide (k = h)) as [->|Hk].
  - rewrite !lookup_alter_eq. destruct (aw_nodes w !! h); [|done]. cbn. unfold node_do_all. by rewrite foldl_app.
  - by rewrite !lookup_alter_ne.
Qed.
Lemma with_nodes_nil h w : with_nodes (alter (node_do_all []) h) w = w.
Proof. destruct w. unfold with_nodes. cbn. f_equal. by apply alter_id. Qed.

(** A loop that sends at most one command per element. *)
Lemma arun_loop {A} (f : A → option (list string)) (body : () → A → prog ()) c l w :
  (∀ x w, arun (body () x) w = ((), match f x with Some args => with_nodes (alter (node_do args) (d_Host c)) w | None => w end)) →
  arun (foldM body () l) w = ((), with_nodes (alter (node_do_all (omap f l)) (d_Host c)) w).
Proof.
  intros Hb. revert w; induction l as [|x l IH]; intros w; cbn [foldM omap list_omap].
  - by rewrite with_nodes_nil.
  - rewrite run_bind, Hb, IH. destruct (f x) as [args|]; [|done]. f_equal.
    apply (with_nodes_all [args] (omap f l)).
Qed.

Lemma omap_guard {A B} (g : A → bool) (f : A → B) (l : list A) :
  omap (λ x, if g x then None else Some (f x)) l = f <$> filter (λ x, g x = false) l.
Proof.
  induction l as [|x l IH]; [done|]. cbn [omap list_omap]. rewrite filter_cons.
  case_decide as E; [rewrite E|apply not_false_is_true in E; rewrite E]; [|exact IH].
  cbn. f_equal. exact IH.
Qed.

Lemma omap_Some {A B} (f : A → B) (l : list A) : omap (λ x, Some (f x)) l = f <$> l.
Proof. induction l as [|x l IH]; [done|]. cbn. by f_equal. Qed.

Lemma arun_applyOnNode acl D P c w :
  arun (applyOnNode acl D P c) w = ((), with_nodes (alter (node_do_all (nodeCmds acl D P)) (d_Host c)) w).
Proof.
  unfold applyOnNode, nodeCmds. rewrite run_bind.
  rewrite (arun_loop (λ u, Some (setUserArgs u (map_get P (User_Name u)))) _ c).
  2: { intros u w'. unfold applyACLUser. by rewrite run_bind, arun_do_err. }
  rewrite run_bind.
  rewrite (arun_loop (λ prev, if (bool_decide (prev ∈ D) || isReservedACLUser prev)%bool then None
                              else Some ["ACL"; "DELUSER"; prev]) _ c).
  2: { intros prev w'. destruct (_ || _)%bool; [done|]. by rewrite run_bind, arun_do_err. }
  rewrite run_bind, arun_do_err. cbn [run mret prog_ret]. f_equal.
  rewrite (omap_guard _ (λ prev, ["ACL"; "DELUSER"; prev])), omap_Some.
  rewrite with_nodes_all, app_assoc. apply (with_nodes_all _ [["ACL"; "SAVE"]]).
Qed.

(** ** What the commands leave on a node *)
Definition subject (args : list string) : option string := match args with _ :: _ :: u :: _ => Some u | _ => None end.

Lemma node_do_other args m n : subject args ≠ Some n → node_do args m !! n = m !! n.
Proof.
  destruct args as [|? [|? [|u rules]]]; try done. cbn. intros Hn. assert (u ≠ n) by congruence.
  destruct (_ && _)%bool; [by rewrite lookup_insert_ne|]. destruct (_ && _)%bool; [by rewrite lookup_delete_ne|done].
Qed.
Lemma node_do_all_other cmds m n :
  (∀ args, args ∈ cmds → subject args ≠ Some n) → node_do_all cmds m !! n = m !! n.
Proof.
  revert m; induction cmds as [|a cmds IH]; intros m Hs; [done|]. cbn.
  change (node_do_all cmds (node_do a m) !! n = m !! n). rewrite IH by (intros; apply Hs; by right).
  apply node_do_other, Hs. by left.
Qed.
Lemma node_do_all_app l1 l2 m : node_do_all (l1 ++ l2) m = node_do_all l2 (node_do_all l1 m).
Proof. apply foldl_app. Qed.
Lemma node_do_all_cons a l m : node_do_all (a :: l) m = node_do_all l (node_do a m).
Proof. done. Qed.

(** The rules a user of the spec ends with. *)
Definition wantedRules (u : ValkeyACLUser) (password : string) : list string := sinceReset (drop 4 (setUserArgs u password)).

Lemma sinceReset_reset old rules : sinceReset (old ++ "reset" :: rules) = sinceReset rules.
Proof. unfold sinceReset. rewrite foldl_app. cbn [foldl]. by rewrite bool_decide_true. Qed.
Lemma node_do_set u pw m : node_do (setUserArgs u pw) m !! User_Name u = Some (wantedRules u pw).
Proof.
  unfold setUserArgs, wantedRules. cbn [app node_do]. rewrite !bool_decide_true by done. cbn [andb].
  rewrite lookup_insert_eq. f_equal. apply sinceReset_reset.
Qed.
Lemma node_do_del n m : node_do ["ACL"; "DELUSER"; n] m !! n = None.
Proof. change (delete n m !! n = None). apply lookup_delete_eq. Qed.

(** Users neither named by the spec nor dropped by it are not touched. *)
Definition untouched (acl : ValkeyACL) (m m' : Users) : Prop :=
  ∀ n, (n ∉ User_Name <$> aclUsers acl) → (n ∉ ACL_AppliedUsers (ACL_Status acl)) ∨ isReservedACLUser n = true → m' !! n = m !! n.
Record settled (acl : ValkeyACL) (pw : ValkeyACLUser → string) (m m' : Users) : Prop := {
  se_set u : u ∈ aclUsers acl → m' !! User_Name u = Some (wantedRules u (pw u));
  se_del n : n ∈ ACL_AppliedUsers (ACL_Status acl) → (n ∉ User_Name <$> aclUsers acl) → isReservedACLUser n = false → m' !! n = None;
  se_other : untouched acl m m'
}.

Section node.
Context (acl : ValkeyACL) (P : gmap string string).
Abbreviation names := (list_to_set (User_Name <$> aclUsers acl) : gset string).
Abbreviation cmds := (nodeCmds acl names P).

(** The users DELUSER is sent for. *)
Lemma dropped_spec n :
  n ∈ filter (λ prev, (bool_decide (prev ∈ names) || isReservedACLUser prev)%bool = false) (ACL_AppliedUsers (ACL_Status acl)) ↔
  n ∈ ACL_AppliedUsers (ACL_Status acl) ∧ (n ∉ User_Name <$> aclUsers acl) ∧ isReservedACLUser n = false.
Proof.
  rewrite list_elem_of_filter, orb_false_iff, bool_decide_eq_false, elem_of_list_to_set. tauto.
Qed.

Lemma untouched_step m m' : untouched acl m m' → untouched acl m (node_do_all cmds m').
Proof.
  intros Hu n Hn Ha. rewrite <-(Hu n Hn Ha). apply node_do_all_other. unfold nodeCmds.
  intros args [(u & -> & Hin)%list_elem_of_fmap|[(v & -> & (Hv & _ & Hr)%dropped_spec)%list_elem_of_fmap|
    ->%list_elem_of_singleton]%elem_of_app]%elem_of_app; [| |done]; cbn.
  - intros [= <-]. apply Hn. by apply list_elem_of_fmap_2.
  - intros [= <-]. destruct Ha; [done|congruence].
Qed.

Lemma settled_step m m' :
  NoDup (User_Name <$> aclUsers acl) → untouched acl m m' → settled acl (λ u, map_get P (User_Name u)) m (node_do_all cmds m').
Proof.
  intros HN Hu. split; [| |by apply untouched_step]; unfold nodeCmds.
  - intros u Hin. apply list_elem_of_split in Hin as Hsp. destruct Hsp as (l1 & l2 & E). rewrite !node_do_all_app.
    rewrite node_do_all_other by (intros args ->%list_elem_of_singleton; done).
    rewrite node_do_all_other.
    + rewrite E, fmap_app, fmap_cons, node_do_all_app, node_do_all_cons, node_do_all_other; [apply node_do_set|].
      intros args (v & -> & Hv)%list_elem_of_fmap. cbn. intros [= Hvu].
      rewrite E, fmap_app, fmap_cons in HN. apply NoDup_app in HN as (_ & _ & [Hnu _]%NoDup_cons).
      apply Hnu. rewrite <-Hvu. by apply list_elem_of_fmap_2.
    + intros args (v & -> & (_ & Hv & _)%dropped_spec)%list_elem_of_fmap. cbn. intros [= ->]. apply Hv.
      by apply list_elem_of_fmap_2.
  - intros n Ha Hn Hr. assert (n ∈ filter (λ prev, (bool_decide (prev ∈ names) || isReservedACLUser prev)%bool = false)
      (ACL_AppliedUsers (ACL_Status acl))) as Hd by (by apply dropped_spec).
    rewrite !node_do_all_app, (node_do_all_other [["ACL"; "SAVE"]]) by (intros args ->%list_elem_of_singleton; done).
    generalize (node_do_all ((λ u, setUserArgs u (map_get P (User_Name u))) <$> aclUsers acl) m'). revert Hd.
    generalize (filter (λ prev, (bool_decide (prev ∈ names) || isReservedACLUser prev)%bool = false)
      (ACL_AppliedUsers (ACL_Status acl))). intros l Hd. clear -Hd. induction l as [|x l IH]; [set_solver|].
    intros m0. rewrite fmap_cons, node_do_all_cons. destruct (decide (n ∈ l)) as [Hl|Hl]; [by apply IH|].
    apply elem_of_cons in Hd as [<-|?]; [|done]. rewrite node_do_all_other; [apply node_do_del|].
    intros args (v & -> & Hv)%list_elem_of_fmap. cbn. intros [= ->]. done.
Qed.
End node.

(** ** Convergence *)
Lemma arun_loadMTLS vc w : ∃ cert, arun (loadMTLSClientCert vc) w = (cert, w).
Proof.
  unfold loadMTLSClientCert. destruct (Spec_TLS (Spec vc)); [|by eexists]. destruct (_ || _)%bool; [by eexists|].
  rewrite run_bind, (run_perform _ (OGetSecret _ _)). cbn [acl_handle].
  destruct (aw_secrets w !! _); [rewrite (run_perform _ (OX509KeyPair _ _))|]; by eexists.
Qed.

(** One target, reachable or not. *)
Lemma arun_fanoutStep acl vc port pw D P n h w :
  arun (fanoutStep acl vc port pw D P n h) w =
  if decide (is_Some (aw_nodes w !! h)) then ((n + 1)%Z, with_nodes (alter (node_do_all (nodeCmds acl D P)) h) w) else (n, w).
Proof.
  unfold fanoutStep. rewrite run_bind. destruct (arun_loadMTLS vc w) as [cert ->]. unfold dialReplClient.
  rewrite !run_bind, (run_perform _ (OPing _)). cbn [acl_handle d_Host].
  case_decide as E; [rewrite bool_decide_true by done|by rewrite bool_decide_false].
  by rewrite arun_ret, run_bind, arun_applyOnNode.
Qed.

(** [w'] is [w] with its nodes settled: those of [targets], that is; no other is touched. *)
Record converged (acl : ValkeyACL) (pw : ValkeyACLUser → string) (targets : list string) (w w' : AclWorld) : Prop := {
  co_node h m : aw_nodes w !! h = Some m → ∃ m', aw_nodes w' !! h = Some m' ∧ untouched acl m m' ∧
    if decide (h ∈ targets) then settled acl pw m m' else m' = m;
  co_gone h : aw_nodes w !! h = None → aw_nodes w' !! h = None;
  co_rest : aw_secrets w' = aw_secrets w ∧ aw_vc w' = aw_vc w ∧ aw_acl w' = aw_acl w
}.

Section fanout.
Context (acl : ValkeyACL) (vc : ValkeyCluster) (port : Z) (pw : string) (P : gmap string string).
Hypothesis HN : NoDup (User_Name <$> aclUsers acl).
Abbreviation userPw := (λ u, map_get P (User_Name u)).
Abbreviation names := (list_to_set (User_Name <$> aclUsers acl) : gset string).

Lemma converged_nil w : converged acl userPw [] w w.
Proof. split; [|done..]. intros h m Hm. exists m. rewrite decide_False by set_solver. done. Qed.

Lemma converged_step done h w0 w :
  converged acl userPw done w0 w →
  converged acl userPw (done ++ [h]) w0 (with_nodes (alter (node_do_all (nodeCmds acl names P)) h) w).
Proof.
  intros [Hn Hg Hr]. split; [| |done].
  - intros k m Hm. destruct (Hn k m Hm) as (m' & Hm' & Hu & Hs). destruct (decide (k = h)) as [->|Hk].
    + exists (node_do_all (nodeCmds acl names P) m'). cbn. rewrite lookup_alter_eq, Hm', decide_True by set_solver.
      split; [done|]. split; [by apply untouched_step|by apply settled_step].
    + exists m'. cbn. rewrite lookup_alter_ne by done. split; [done|]. split; [done|]. revert Hs.
      repeat case_decide; set_solver.
  - intros k Hk. cbn. destruct (decide (k = h)) as [->|]; [by rewrite lookup_alter_eq, (Hg h Hk)|].
    rewrite lookup_alter_ne by done. auto.
Qed.
Lemma converged_skip done h w0 w :
  aw_nodes w !! h = None → converged acl userPw done w0 w → converged acl userPw (done ++ [h]) w0 w.
Proof.
  intros Hh [Hn Hg Hr]. split; [|done..]. intros k m Hm. destruct (Hn k m Hm) as (m' & Hm' & Hu & Hs).
  exists m'. split; [done|]. split; [done|]. assert (k ≠ h) by congruence. revert Hs. repeat case_decide; set_solver.
Qed.

Lemma arun_fanout done targets n w0 w :
  converged acl userPw done w0 w →
  ∃ n' w', arun (foldM (fanoutStep acl vc port pw names P) n targets) w = (n', w') ∧
    converged acl userPw (done ++ targets) w0 w' ∧ (n ≤ n')%Z ∧
    ((∃ h, h ∈ targets ∧ is_Some (aw_nodes w0 !! h)) → (n < n')%Z).
Proof.
  revert done n w; induction targets as [|h targets IH]; intros done n w Hc; cbn [foldM].
  { exists n, w. rewrite app_nil_r. split; [done|]. split; [done|]. split; [lia|]. intros (h & Hh & _). set_solver. }
  rewrite run_bind, arun_fanoutStep. case_decide as E.
  - destruct (IH (done ++ [h]) (n + 1)%Z _ (converged_step _ h _ _ Hc)) as (n' & w' & -> & Hc' & Hle & _).
    exists n', w'. rewrite <-app_assoc in Hc'. split; [done|]. split; [done|]. split; [lia|]. intros _. lia.
  - destruct (IH (done ++ [h]) n w) as (n' & w' & -> & Hc' & Hle & Hlt).
    { apply converged_skip; [by apply eq_None_not_Some|done]. }
    exists n', w'. rewrite <-app_assoc in Hc'. split; [done|]. split; [done|]. split; [lia|].
    intros (k & [->|Hk]%elem_of_cons & Hs); [|apply Hlt; eauto].
    destruct Hs as [m Hm]. destruct (co_node _ _ _ _ _ Hc h m Hm) as (m' & Hm' & _). by destruct E.
Qed.
End fanout.

(** The password of a user: its Secret's, or none when the Secret cannot be read. *)
Definition secretPassword (w : AclWorld) (u : ValkeyACLUser) : option string :=
  k ← User_PasswordSecret u; s ← aw_secrets w !! SKR_Name k;
  Some (map_get (sec_Data s) (if SKR_Key k == "" then secretKeyPassword else SKR_Key k)).
Definition addPassword (w : AclWorld) (P : gmap string string) (u : ValkeyACLUser) : gmap string string :=
  match secretPassword w u with Some p => <[User_Name u := p]> P | None => P end.

Lemma arun_resolveUser ns D P u w :
  arun (resolveUser ns (D, P) u) w = (({[User_Name u]} ∪ D, addPassword w P u), w).
Proof.
  unfold resolveUser, addPassword, secretPassword. destruct (User_PasswordSecret u) as [k|]; [|done].
  rewrite run_bind, (run_perform _ (OGetSecret _ _)). cbn [acl_handle mbind option_bind].
  by destruct (aw_secrets w !! SKR_Name k).
Qed.
Lemma arun_resolve ns D P users w :
  arun (foldM (resolveUser ns) (D, P) users) w =
  ((list_to_set (User_Name <$> users) ∪ D, foldl (addPassword w) P users), w).
Proof.
  revert D P; induction users as [|u users IH]; intros D P; cbn [foldM foldl].
  - rewrite arun_ret. do 2 f_equal. set_solver.
  - rewrite run_bind, arun_resolveUser, IH. do 2 f_equal. set_solver.
Qed.
Lemma addPassword_other w P users n :
  (n ∉ User_Name <$> users) → foldl (addPassword w) P users !! n = P !! n.
Proof.
  revert P; induction users as [|u users IH]; intros P Hn; [done|]. cbn [foldl]. rewrite fmap_cons, not_elem_of_cons in Hn.
  rewrite IH by tauto. unfold addPassword. destruct (secretPassword w u); [|done]. rewrite lookup_insert_ne; [done|]. naive_solver.
Qed.
Lemma addPassword_get w users u :
  NoDup (User_Name <$> users) → u ∈ users →
  map_get (foldl (addPassword w) ∅ users) (User_Name u) = default "" (secretPassword w u).
Proof.
  intros HN (l1 & l2 & ->)%list_elem_of_split. rewrite fmap_app, fmap_cons in HN.
  apply NoDup_app in HN as (_ & Hd & [Hn _]%NoDup_cons). rewrite foldl_app. cbn [foldl]. unfold map_get.
  rewrite addPassword_other by done. unfold addPassword at 1.
  destruct (secretPassword w u); [by rewrite lookup_insert_eq|].
  rewrite addPassword_other by (intros Hin; apply (Hd _ Hin); by left). done.
Qed.

Lemma settled_ext acl pw pw' m m' :
  (∀ u, u ∈ aclUsers acl → pw u = pw' u) → settled acl pw m m' → settled acl pw' m m'.
Proof. intros Hp [Hs Hd Ho]. split; [|done..]. intros u Hu. rewrite <-Hp by done. auto. Qed.

(** The cluster's password can be read. *)
Definition passwordReadable (w : AclWorld) : Prop :=
  ∃ p, (arun (lookupClusterPassword (aw_vc w)) w) = (inr p, w).

Section converges.
Context `{ConditionLib}.

Lemma arun_stampAvailable acl s r m w :
  ∃ acl', arun (stampAvailable acl s r m) w = (acl', w) ∧ marked acl acl' s (ACL_AppliedUsers (ACL_Status acl)).
Proof.
  pose proof (run_exec acl_handle (stampAvailable acl s r m) w) as (t & Ht & Hm)%stampAvailable_exec.
  eexists. split; [|exact Hm]. done.
Qed.

Lemma arun_applyTo acl vc pw targets w :
  NoDup (User_Name <$> aclUsers acl) → (∃ h, h ∈ targets ∧ is_Some (aw_nodes w !! h)) →
  ∃ w1 acl', converged acl (λ u, default "" (secretPassword w u)) targets w w1 ∧
    marked acl acl' ConditionTrue (appliedNames acl) ∧
    arun (applyTo acl vc pw targets) w =
    ((0%Z, None), {| aw_nodes := aw_nodes w1; aw_secrets := aw_secrets w1; aw_vc := aw_vc w1; aw_acl := acl' |}).
Proof.
  intros HN Hh. unfold applyTo, resolveUserPasswords. rewrite run_bind, arun_resolve, (right_id_L ∅ (∪)).
  unfold applyACLFanout. rewrite run_bind.
  destruct (arun_fanout acl vc (dataPort vc) pw (foldl (addPassword w) ∅ (aclUsers acl)) HN [] targets 0 w w
              (converged_nil _ _ HN _)) as (n & w1 & -> & Hc & _ & Hlt).
  rewrite bool_decide_false by (specialize (Hlt Hh); lia). cbn zeta. rewrite run_bind.
  destruct (arun_stampAvailable (setApplied (appliedNames acl) acl) ConditionTrue "Applied"
    ("applied " +:+ Itoa (Z.of_nat (length (appliedNames acl))) +:+ " users") w1) as (acl' & Ha & Hm).
  unfold appliedNames in Ha. rewrite Ha, run_bind, (run_perform _ (OPatchACL _ _)). cbn [acl_handle kubeErr].
  exists w1, acl'. split; [|split; [exact Hm|done]]. destruct Hc as [Hn Hg Hr]. split; [|done..].
  intros h m Hm0. destruct (Hn h m Hm0) as (m' & ? & ? & Hs). exists m'. split; [done|]. split; [done|].
  cbn [app] in Hs. case_decide; [|done]. eapply settled_ext; [|exact Hs]. intros u Hu. by apply addPassword_get.
Qed.

End converges.

(** ** Concrete ACLs *)
Definition aclDemoSpec : ValkeyClusterSpec :=
  set_Spec_ReplicasPerShard (Some 1%Z) (set_Spec_Shards (Some 1%Z) (set_Spec_Topology TopologyCluster zeroSpec)).
Definition aclDemoCluster : ValkeyCluster :=
  with_status (newCluster "demo" "ns" aclDemoSpec)
    (λ st, set_Status_ClusterInitialized true (set_Status_ReadyReplicas 2 st)).
Definition appUser : ValkeyACLUser :=
  {| User_Name := "app"; User_PasswordSecret := Some {| SKR_Name := "app-pw"; SKR_Key := "" |}; User_Rules := "on ~app:* +@read" |}.
(** [app] is wanted; [old] was applied before. *)
Definition aclDemo : ValkeyACL :=
  {| ACL_Meta := Meta aclDemoCluster; ACL_Spec := {| ACL_ClusterRef := "demo"; ACL_Users := [appUser] |};
     ACL_Status := {| ACL_AppliedUsers := ["app"; "old"]; ACL_ObservedGeneration := 0; ACL_Conditions := [] |} |}.
Definition aclHost (i : Z) : string := fqdn "demo" i "demo-headless" "ns".
Definition aclNode : Users := {["default" := ["on"]; "old" := ["on"; "nopass"]]}.
Definition aclWorld (up : list Z) (secrets : gmap string Secret) : AclWorld :=
  {| aw_nodes := list_to_map ((λ i, (aclHost i, aclNode)) <$> up); aw_secrets := secrets;
     aw_vc := aclDemoCluster; aw_acl := aclDemo |}.
Definition appSecret : gmap string Secret :=
  {["app-pw" := {| sec_Name := "app-pw"; sec_Namespace := "ns"; sec_Labels := ∅; sec_Data := {[secretKeyPassword := "s3cret"]} |}]}.

Lemma acl_reconcile_safe_witness :
  let p := Reconcile "ns" "acl" in
  let tr := trace acl_handle p (aclWorld [0; 1]%Z appSecret) in
  length tr = 15 ∧ reconciled "ns" "acl" tr.
Proof.
  intros p tr. split; [vm_compute; reflexivity|].
  exact (acl_reconcile_safe "ns" "acl" tr _ (run_exec acl_handle p (aclWorld [0; 1]%Z appSecret))).
Defined.
Example acl_demo_node :
  (aw_nodes (arun (Reconcile "ns" "acl") (aclWorld [0; 1]%Z appSecret)).2 !! aclHost 1) =
  Some ({["default" := ["on"]; "app" := ["on"; "~app:*"; "+@read"; ">s3cret"]]} : Users).
Proof. vm_compute. reflexivity. Qed.

(** A user whose password Secret cannot be read is not left out: it is created without a
    password. *)
Example acl_missing_secret_nopass :
  ∃ m, (aw_nodes (arun (Reconcile "ns" "acl") (aclWorld [0; 1]%Z ∅)).2 !! aclHost 0) = Some m ∧
    m !! "app" = Some ["on"; "~app:*"; "+@read"; "nopass"].
Proof. eexists. split; vm_compute; reflexivity. Qed.

(** A node that cannot be reached while a user is dropped keeps that user for ever: the applied
    users no longer name it, so no later reconcile deletes it. *)
Example acl_lost_deluser :
  let w1 := (arun (Reconcile "ns" "acl") (aclWorld [0%Z] appSecret)).2 in
  let w2 := with_nodes (<[aclHost 1 := aclNode]>) w1 in
  let w3 := (arun (Reconcile "ns" "acl") w2).2 in
  ACL_AppliedUsers (ACL_Status (aw_acl w1)) = ["app"] ∧
  (aw_nodes w3 !! aclHost 0 ≫= lookup "old") = None ∧
  (aw_nodes w3 !! aclHost 1 ≫= lookup "old") = Some ["on"; "nopass"].
Proof. vm_compute. auto. Qed.

(** In the per-shard layout the targets are not the hosts of the data pods. *)
Example acl_targets_miss_shards :
  let vc := newCluster "demo" "ns" (set_Spec_PerShardWorkload (Some true) aclDemoSpec) in
  aclTargets vc = [aclHost 0; aclHost 1] ∧
  (ref_host <$> clusterDataPods vc) = ["demo-sh0-0.demo-sh0.ns.svc.cluster.local"; "demo-sh0-1.demo-sh0.ns.svc.cluster.local"].
Proof. vm_compute. auto. Qed.
