(* ===== verification/Config.v ===== *)
(** * Config: valkey.conf and sentinel.conf (resources.go, sentinel.go)

    The configuration files as the operator renders them: a file is the list of its
    lines ([unlines]).  SHA-256 is not under src/: it is the parameter [sha256] of
    what uses it, from a byte string to its hexadecimal digest. *)

From S2P Require Import Prelude GoStd Kube Api Effects Naming Failover Rollout SentinelRollout Jobs Rotation.

(** ** Constants (resources.go, sentinel.go) *)
Definition dataMountPath : string := "/data".
Definition configMountPath : string := "/etc/valkey".
Definition sourceCAMountPath : string := "/etc/valkey/source-ca".
Definition secretKeyTLSCert : string := "tls.crt".
Definition secretKeyTLSKey : string := "tls.key".
Definition secretKeyTLSCACert : string := "ca.crt".
Definition valkeyConfFile : string := "valkey.conf".
Definition sentinelConfigName : string := "sentinel.conf".
Definition tlsAutoReloadIntervalSec : Z := 3600.
Definition storageModeAOF : string := "aof".
Definition storageModeBoth : string := "both".
Definition storageModeNone : string := "none".
Definition defaultSentinelDownAfterMs : Z := 5000.
Definition defaultSentinelFailoverTimeout : Z := 60000.
Definition ResourceMemory : string := "memory".

(** ** Quoting *)
Definition hexDigit (n : nat) : byte :=
  match n with
  | 0 => "0" | 1 => "1" | 2 => "2" | 3 => "3" | 4 => "4" | 5 => "5" | 6 => "6" | 7 => "7"
  | 8 => "8" | 9 => "9" | 10 => "a" | 11 => "b" | 12 => "c" | 13 => "d" | 14 => "e" | _ => "f"
  end%char.
Definition code (c : byte) : nat := Stdlib.Strings.Ascii.nat_of_ascii c.
Definition bs : byte := "092"%char.
(** The bytes written for one byte of the value. *)
Definition escapeByte (c : byte) : string :=
  if ((c == bs) || (c == "034"%char))%bool then String bs (String c "")
  else if c == "007"%char then String bs "a"
  else if c == "008"%char then String bs "b"
  else if c == "010"%char then String bs "n"
  else if c == "013"%char then String bs "r"
  else if c == "009"%char then String bs "t"
  else if ((code c <? 32) || (code c =? 127))%nat%bool
  then String bs (String "x" (String (hexDigit (code c / 16)) (String (hexDigit (code c mod 16)) "")))
  else String c "".
Fixpoint escapeBytes (value : string) : string :=
  match value with "" => "" | String c s => escapeByte c +:+ escapeBytes s end.
Definition valkeyConfigArg (value : string) : string := dq +:+ escapeBytes value +:+ dq.

(** ** Image versions *)

(** [strings.SplitN(s, ".", 3)]. *)
Definition splitN3 (s : string) : list string :=
  match cut_byte "." s with
  | None => [s]
  | Some (a, rest) => match cut_byte "." rest with None => [a; rest] | Some (b, c) => [a; b; c] end
  end.
Fixpoint leadingDigits (s : string) : string :=
  match s with
  | "" => ""
  | String c s' => if is_digit c then String c (leadingDigits s') else ""
  end.
(** The tag of an image reference without its digest; a colon before the last slash is a port. *)
Definition imageTag (image : string) : option string :=
  let image := match index_byte "@" image with Some i => str_take i image | None => image end in
  match last_index_byte ":" image with
  | None => None
  | Some colon =>
      match last_index_byte "/" image with
      | Some slash => if (colon <? slash)%nat then None else Some (str_drop (S colon) image)
      | None => Some (str_drop (S colon) image)
      end
  end.
(** [strconv.Atoi] of the minor's leading digits; on a range error Go returns the clamped value. *)
Definition minorOf (parts : list string) : Z :=
  match parts with
  | _ :: m :: _ =>
      match digits_val 0 (leadingDigits m) with
      | Some v => if (v <? 2 ^ 63)%Z then v else (2 ^ 63 - 1)%Z
      | None => 0%Z
      end
  | _ => 0%Z
  end.
Definition valkeyImageAtLeast (image : string) (maj min : Z) : bool :=
  match imageTag image with
  | None => false
  | Some tag =>
      let parts := splitN3 tag in
      match Atoi (default "" (head parts)) with
      | None => false
      | Some gotMaj => if gotMaj != maj then (maj <? gotMaj)%Z else (min <=? minorOf parts)%Z
      end
  end.

(** ** The data pods' configuration *)
Definition usesMemoryStorage (vc : ValkeyCluster) : bool :=
  match Spec_Storage (Spec vc) with Some st => Storage_Medium st == "Memory" | None => false end.
Definition persistenceMode (vc : ValkeyCluster) : string :=
  if usesMemoryStorage vc then storageModeNone
  else
    let mode := match Spec_Storage (Spec vc) with Some st => Storage_Mode st | None => "" end in
    if mode != "" then mode
    else if Spec_Profile (Spec vc) == ProfileDurable then storageModeBoth
    else storageModeNone.

(** Quantities are int64 values; a limit that is not set is zero. *)
Definition memoryLimit (vc : ValkeyCluster) : Z := default 0%Z (Limits (Spec_Resources (Spec vc)) !! ResourceMemory).
Definition computeMaxmemory (vc : ValkeyCluster) : string :=
  let lim := memoryLimit vc in
  if lim == 0%Z then ""
  else
    let bytes := Z.quot (wrap64 (lim * 60)) 100 in
    if (bytes <=? 0)%Z then "" else Itoa bytes +:+ "b".
Definition computeReplBacklog (vc : ValkeyCluster) : string :=
  let lim := memoryLimit vc in
  if lim == 0%Z then ""
  else
    let minBytes := (16 * 1024 * 1024)%Z in
    let maxBytes := (256 * 1024 * 1024)%Z in
    Itoa (Z.min (Z.max (Z.quot lim 16) minBytes) maxBytes) +:+ "b".

Definition sourceCAMergeEnabled (vc : ValkeyCluster) : bool :=
  match Spec_ReplicateFrom (Spec vc) with
  | Some r => (RF_TLS r && bool_decide (is_Some (RF_CASecret r)) && tlsEnabled vc)%bool
  | None => false
  end.
Definition caCertPath (vc : ValkeyCluster) : string :=
  if sourceCAMergeEnabled vc then dataMountPath +:+ "/ca-bundle.crt"
  else tlsMountPath +:+ "/" +:+ secretKeyTLSCACert.

Definition renderAuthConfig (vc : ValkeyCluster) (password : string) : list string :=
  if password == "" then []
  else
    let quotedPassword := valkeyConfigArg password in
    ["requirepass " +:+ quotedPassword; "masterauth " +:+ quotedPassword] ++
    (if topologyReplicates vc then ["masteruser " +:+ replicationACLUser] else []).

Definition imageAtLeast (vc : ValkeyCluster) (maj min : Z) : bool := valkeyImageAtLeast (Spec_Image (Spec vc)) maj min.

Definition tlsLines (vc : ValkeyCluster) : list string :=
  if tlsEnabled vc then
    let mutual := match Spec_TLS (Spec vc) with Some t => TLS_MutualTLS t | None => false end in
    ["port 0"; "tls-port " +:+ Itoa valkeyTLSPort; "tls-cluster yes";
     "tls-cert-file " +:+ tlsMountPath +:+ "/tls.crt"; "tls-key-file " +:+ tlsMountPath +:+ "/tls.key";
     "tls-ca-cert-file " +:+ caCertPath vc; "tls-replication yes";
     "tls-auth-clients " +:+ (if mutual : bool then "yes" else "optional")] ++
    (if imageAtLeast vc 9 1 then ["tls-auto-reload-interval " +:+ Itoa tlsAutoReloadIntervalSec] else [])
  else ["port " +:+ Itoa valkeyPort].
Definition loggingLines (vc : ValkeyCluster) : list string :=
  let format := match Spec_Logging (Spec vc) with Some l => Log_Format l | None => "" end in
  if ((format != "") && imageAtLeast vc 9 1)%bool then ["log-format " +:+ format] else [].
Definition seedLines (vc : ValkeyCluster) : list string :=
  if ((Meta_UID (Meta vc) != "") && imageAtLeast vc 9 1)%bool
  then ["hash-seed " +:+ valkeyConfigArg (Meta_UID (Meta vc))] else [].
Definition clusterLines (vc : ValkeyCluster) : list string :=
  if Spec_Topology (Spec vc) == TopologyCluster then
    let durable := Spec_Profile (Spec vc) == ProfileDurable in
    ["cluster-enabled yes"; "cluster-config-file " +:+ dataMountPath +:+ "/nodes.conf"; "cluster-node-timeout 5000";
     "cluster-require-full-coverage " +:+ (if durable then "yes" else "no");
     "cluster-allow-replica-migration no"] ++
    (if durable then [] else ["cluster-replica-validity-factor 0"]) ++
    (if imageAtLeast vc 9 0
     then ["shutdown-on-sigterm " +:+ (if durable then "failover safe" else "failover")] else []) ++
    (if (usesMemoryStorage vc && imageAtLeast vc 9 1)%bool then ["cluster-config-save-behavior best-effort"] else [])
  else [].
Definition persistenceLines (vc : ValkeyCluster) : list string :=
  let mode := persistenceMode vc in
  if mode == storageModeAOF then ["appendonly yes"; "save " +:+ dq +:+ dq]
  else if mode == storageModeBoth then ["appendonly yes"; "save 3600 1 300 100 60 10000"]
  else if mode == storageModeNone then ["appendonly no"; "save " +:+ dq +:+ dq]
  else ["appendonly no"; "save 3600 1 300 100 60 10000"].

(** [if _, ok := cfg[k]; !ok && v != "" { cfg[k] = v }]. *)
Definition setDefault (k v : string) (cfg : gmap string string) : gmap string string :=
  match cfg !! k with Some _ => cfg | None => if v == "" then cfg else <[k := v]> cfg end.
(** [spec.config] with the profile's defaults. *)
Definition effectiveConfig (vc : ValkeyCluster) : gmap string string :=
  let cfg := Spec_Config (Spec vc) in
  let cfg := setDefault "maxmemory-policy"
               (if Spec_Profile (Spec vc) == ProfileDurable then "noeviction" else "allkeys-lru") cfg in
  let cfg := setDefault "maxmemory" (computeMaxmemory vc) cfg in
  setDefault "repl-backlog-size"
    (if Spec_Topology (Spec vc) != TopologyStandalone then computeReplBacklog vc else "") cfg.
Definition configLines (cfg : gmap string string) : list string :=
  (λ k, k +:+ " " +:+ map_get cfg k) <$> sort_strings (elements (dom cfg)).

(** The lines the operator writes before the user's own. *)
Definition managedLines (vc : ValkeyCluster) (password : string) : list string :=
  tlsLines vc ++ ["bind 0.0.0.0"; "protected-mode no"; "dir " +:+ dataMountPath] ++ renderAuthConfig vc password ++
  ["aclfile " +:+ dataMountPath +:+ "/users.acl"] ++ loggingLines vc ++ seedLines vc ++ clusterLines vc ++
  persistenceLines vc.
Definition renderValkeyConf (vc : ValkeyCluster) (password : string) : string :=
  unlines (managedLines vc password ++ configLines (effectiveConfig vc)).
(** Rendering writes the defaults into the object's own map (when it has one). *)
Definition rendered (vc : ValkeyCluster) : ValkeyCluster :=
  if bool_decide (Spec_Config (Spec vc) = ∅) then vc else with_spec vc (set_Spec_Config (effectiveConfig vc)).

Definition buildConfigMap (vc : ValkeyCluster) (password : string) : ConfigMap := {|
  cm_Name := configMapName vc; cm_Namespace := vcNamespace vc; cm_Labels := labelsFor vc;
  cm_Data := {[valkeyConfFile := renderValkeyConf vc password]} |}.

(** ** The Sentinels' configuration

    [spec.sentinel] is set whenever these run ([reconcileSentinel] checks it). *)
Definition sentinelDownAfterMs (s : SentinelSpec) : Z :=
  if (0 <? Sentinel_DownAfterMilliseconds s)%Z then Sentinel_DownAfterMilliseconds s else defaultSentinelDownAfterMs.
Definition sentinelFailoverTimeout (s : SentinelSpec) : Z :=
  if (0 <? Sentinel_FailoverTimeout s)%Z then Sentinel_FailoverTimeout s else defaultSentinelFailoverTimeout.
Definition sentinelQuorum (s : SentinelSpec) : Z :=
  if Sentinel_Quorum s == 0%Z then wrap32 (Z.quot (Sentinel_Replicas s) 2 + 1) else Sentinel_Quorum s.
Definition monitorLine (vc : ValkeyCluster) (s : SentinelSpec) : string :=
  "sentinel monitor " +:+ sentinelMasterName +:+ " " +:+
    fqdn (statefulSetName vc) 0 (headlessServiceName vc) (vcNamespace vc) +:+ " " +:+ Itoa (dataPort vc) +:+ " " +:+
    Itoa (sentinelQuorum s).
Definition sentinelLines (vc : ValkeyCluster) (s : SentinelSpec) (password : string) : list string :=
  ["port " +:+ Itoa sentinelPort; "dir " +:+ dataMountPath; monitorLine vc s;
   "sentinel down-after-milliseconds " +:+ sentinelMasterName +:+ " " +:+ Itoa (sentinelDownAfterMs s);
   "sentinel failover-timeout " +:+ sentinelMasterName +:+ " " +:+ Itoa (sentinelFailoverTimeout s);
   "sentinel parallel-syncs " +:+ sentinelMasterName +:+ " 1";
   "sentinel resolve-hostnames yes"; "sentinel announce-hostnames yes"] ++
  (if password != "" then
     ["sentinel auth-user " +:+ sentinelMasterName +:+ " " +:+ sentinelACLUser;
      "sentinel auth-pass " +:+ sentinelMasterName +:+ " " +:+ valkeyConfigArg password;
      "requirepass " +:+ valkeyConfigArg password] else []) ++
  (if tlsEnabled vc then
     ["tls-port " +:+ Itoa sentinelTLSPort; "port 0"; "tls-cert-file " +:+ tlsMountPath +:+ "/tls.crt";
      "tls-key-file " +:+ tlsMountPath +:+ "/tls.key"; "tls-ca-cert-file " +:+ tlsMountPath +:+ "/ca.crt";
      "tls-replication yes"; "tls-auth-clients optional"] else []).
Definition renderSentinelConf (vc : ValkeyCluster) (s : SentinelSpec) (password : string) : string :=
  unlines (sentinelLines vc s password).

Definition sentinelPasswordRotatesLive (vc : ValkeyCluster) : bool :=
  match Spec_Auth (Spec vc) with Some a => Auth_ExistingSecret a == "" | None => true end.

(** ** Hashes *)
Section hash.
Context (sha256 : string → string).

Definition nul : string := String "000"%char "".
(** What is written to the hash: keys in order, each followed by its value, NUL-terminated. *)
Definition hashInput (data : gmap string string) : string :=
  cat ((λ k, k +:+ nul +:+ map_get data k +:+ nul) <$> sort_strings (elements (dom data))).
Definition configHashFromData (data : gmap string string) : string := str_take 16 (sha256 (hashInput data)).

(** The lines of sentinel.conf that only a restart applies. *)
Definition keptLine (livePassword : bool) (line : string) : bool :=
  negb (has_prefix line "sentinel down-after-milliseconds " || has_prefix line "sentinel failover-timeout " ||
        (livePassword && (has_prefix line "sentinel auth-pass " || has_prefix line "requirepass ")))%bool.
Definition sentinelConfigHash (conf : string) (livePassword : bool) : string :=
  configHashFromData {[sentinelConfigName :=
    join nl (filter (keptLine livePassword) (split_byte "010" conf))]}.
End hash.

(** ** Quoting round trip

    How Valkey reads a double-quoted argument (sdssplitargs): the text up to the
    closing quote, and what follows it. *)
Definition hexVal (c : byte) : option nat :=
  let n := code c in
  if ((48 <=? n) && (n <=? 57))%nat%bool then Some (n - 48)
  else if ((97 <=? n) && (n <=? 102))%nat%bool then Some (n - 87)
  else if ((65 <=? n) && (n <=? 70))%nat%bool then Some (n - 55)
  else None.
Definition unescapeChar (c : byte) : byte :=
  if c == "n"%char then "010"%char else if c == "r"%char then "013"%char else if c == "t"%char then "009"%char
  else if c == "b"%char then "008"%char else if c == "a"%char then "007"%char else c.
Definition byteOf (h l : nat) : byte := Stdlib.Strings.Ascii.ascii_of_nat (h * 16 + l).
(** [\xHH] after its backslash. *)
Definition hexEscape (s : string) : option (byte * string) :=
  match s with
  | String x s' =>
      if x == "x"%char then
        match s' with
        | String h (String l r) =>
            match hexVal h, hexVal l with Some h, Some l => Some (byteOf h l, r) | _, _ => None end
        | _ => None
        end
      else None
  | "" => None
  end.
(** [n] bounds the length of what is read. *)
Fixpoint unquoteBody (n : nat) (s : string) : option (string * string) :=
  match n, s with
  | S n', String c s' =>
      if c == "034"%char then Some ("", s')
      else if c == bs then
        match hexEscape s' with
        | Some (b, r) => (λ p, (String b p.1, p.2)) <$> unquoteBody n' r
        | None => match s' with
                  | String e r => (λ p, (String (unescapeChar e) p.1, p.2)) <$> unquoteBody n' r
                  | "" => None
                  end
        end
      else (λ p, (String c p.1, p.2)) <$> unquoteBody n' s'
  | _, _ => None
  end.
Definition unquote (s : string) : option (string * string) :=
  match s with
  | String c s' => if c == "034"%char then unquoteBody (String.length s) s' else None
  | "" => None
  end.

(** Each byte is read back as one. *)
Lemma unquoteBody_escape n c t :
  unquoteBody (S n) (escapeByte c +:+ t) = (λ p, (String c p.1, p.2)) <$> unquoteBody n t.
Proof. by destruct c as [[] [] [] [] [] [] [] []]. Qed.
Lemma escapeByte_nonempty c : 1 ≤ String.length (escapeByte c).
Proof. destruct c as [[] [] [] [] [] [] [] []]; cbv; lia. Qed.

Lemma unquoteBody_escapes n s t :
  String.length (escapeBytes s) < n → unquoteBody n (escapeBytes s +:+ dq +:+ t) = Some (s, t).
Proof.
  revert n; induction s as [|c s IH]; intros n Hn; cbn [escapeBytes] in *.
  - destruct n; [lia|done].
  - rewrite str_length_app in Hn. pose proof (escapeByte_nonempty c). destruct n as [|n]; [lia|].
    rewrite <-str_app_assoc, unquoteBody_escape, IH by lia. done.
Qed.
Lemma unquote_arg s t : unquote (valkeyConfigArg s +:+ t) = Some (s, t).
Proof.
  change (unquoteBody (String.length (valkeyConfigArg s +:+ t)) ((escapeBytes s +:+ dq) +:+ t) = Some (s, t)).
  rewrite <-str_app_assoc. apply unquoteBody_escapes. unfold valkeyConfigArg. rewrite !str_length_app. cbn. lia.
Qed.

(** No control byte survives quoting: an argument stays on its line. *)
Definition printable (c : byte) : bool := ((32 <=? code c) && negb (code c =? 127))%nat%bool.
Lemma escapeByte_printable c : str_forall printable (escapeByte c) = true.
Proof. by destruct c as [[] [] [] [] [] [] [] []]. Qed.
Lemma valkeyConfigArg_printable s : str_forall printable (valkeyConfigArg s) = true.
Proof.
  assert (str_forall printable (escapeBytes s) = true) as Hs.
  { induction s as [|c s IH]; [done|]. cbn [escapeBytes]. by rewrite str_forall_app, escapeByte_printable, IH. }
  unfold valkeyConfigArg. by rewrite !str_forall_app, Hs.
Qed.
Lemma printable_lacks_nl s : str_forall printable s = true → lacks "010" s = true.
Proof. apply str_forall_impl. intros c Hc. apply negb_true_iff, bool_decide_eq_false. by intros ->. Qed.
Lemma valkeyConfigArg_inj s t : valkeyConfigArg s = valkeyConfigArg t → s = t.
Proof.
  intros E. pose proof (unquote_arg s "") as Hs. rewrite E, unquote_arg in Hs. by simplify_eq.
Qed.

(** C33: quoting a password (or any byte string) for valkey.conf and sentinel.conf round-trips:
    what Valkey reads back from [valkeyConfigArg value], followed by anything, is exactly
    [value] and that rest; and the quoted form holds no control byte, so it cannot end its
    line and no value can add a directive of its own. *)
Theorem valkeyConfigArg_roundtrip value rest :
  unquote (valkeyConfigArg value +:+ rest) = Some (value, rest) ∧
  split_byte "010" (valkeyConfigArg value) = [valkeyConfigArg value].
Proof.
  split; [apply unquote_arg|]. apply split_byte_lacks, printable_lacks_nl, valkeyConfigArg_printable.
Qed.

(** ** Reading the rendered file

    Valkey takes the last line of a directive.  [lastValue k lines] is that line's value. *)
Definition lineValue (k line : string) : option string := strip_prefix (k +:+ " ") line.
Definition lastValue (k : string) (lines : list string) : option string :=
  foldl (λ acc l, match lineValue k l with Some v => Some v | None => acc end) None lines.
Definition directive (k conf : string) : option string := lastValue k (split_byte "010" conf).

Lemma split_byte_app_any c s t : split_byte c (s +:+ String c t) = split_byte c s ++ split_byte c t.
Proof.
  induction s as [|a s IH]; rewrite ?str_app_nil_l, ?str_app_cons; cbn [split_byte]; [by rewrite bool_decide_true|].
  case_bool_decide; rewrite IH; [done|].
  assert (split_byte c s ≠ []) as Hs by (destruct s; cbn; repeat case_match; done).
  by destruct (split_byte c s).
Qed.
Lemma unlines_cons l ls : unlines (l :: ls) = l +:+ String "010" (unlines ls).
Proof. unfold unlines. cbn. destruct ls; cbn; by rewrite <-?str_app_assoc, ?str_app_nil_r. Qed.
Lemma unlines_app l1 l2 : unlines (l1 ++ l2) = unlines l1 +:+ unlines l2.
Proof.
  induction l1 as [|l ls IH]; [done|]. cbn [app]. by rewrite !unlines_cons, IH, <-str_app_assoc.
Qed.
(** The lines of a file whose last lines are known. *)
Lemma split_unlines l1 l2 : Forall (λ l, lacks "010" l = true) l2 →
  ∃ pre, split_byte "010" (unlines (l1 ++ l2)) = pre ++ l2 ++ [""].
Proof.
  intros Hl. assert (split_byte "010" (unlines l2) = l2 ++ [""]) as H2.
  { induction Hl as [|l ls Hl _ IH]; [done|]. rewrite unlines_cons, split_byte_app_any, IH.
    by rewrite (split_byte_lacks _ _ Hl). }
  induction l1 as [|l ls [pre IH]]; [by exists []|]. cbn [app]. rewrite unlines_cons, split_byte_app_any, IH.
  eexists. by rewrite (assoc_L (++)).
Qed.

Lemma lastValue_app k l1 l2 :
  lastValue k (l1 ++ l2) = match lastValue k l2 with Some v => Some v | None => lastValue k l1 end.
Proof.
  unfold lastValue. rewrite foldl_app. generalize (foldl (λ acc l, match lineValue k l with Some v => Some v | None => acc end) None l1).
  induction l2 as [|l l2 IH] using rev_ind; intros acc; [done|]. rewrite !foldl_app. cbn. by destruct (lineValue k l).
Qed.

(** What [spec.config] must satisfy to be read back line by line. *)
Definition lineSafe (k v : string) : bool := (lacks " " k && lacks "010" k && lacks "010" v)%bool.

Lemma cut_space_unique a b s t :
  lacks " " a = true → lacks " " b = true → a +:+ String " " s = b +:+ String " " t → a = b ∧ s = t.
Proof.
  intros Ha Hb E. pose proof (cut_byte_app " " a s Ha) as Ca. rewrite E, cut_byte_app in Ca by done. by simplify_eq.
Qed.
Lemma lineValue_own k v : lineValue k (k +:+ " " +:+ v) = Some v.
Proof. unfold lineValue. rewrite str_app_assoc. apply strip_prefix_app. Qed.
Lemma lineValue_other k k' v :
  lacks " " k = true → lacks " " k' = true → k ≠ k' → lineValue k (k' +:+ " " +:+ v) = None.
Proof.
  intros Hk Hk' Hne. destruct (lineValue k _) eqn:E; [|done]. exfalso.
  apply strip_prefix_Some in E. rewrite <-str_app_assoc in E. by apply cut_space_unique in E as [-> _].
Qed.
Lemma lastValue_config (m : gmap string string) k ks :
  (∀ k', k' ∈ ks → lacks " " k' = true) → lacks " " k = true →
  lastValue k ((λ k, k +:+ " " +:+ map_get m k) <$> ks) = if decide (k ∈ ks) then Some (map_get m k) else None.
Proof.
  intros Hks Hk. induction ks as [|k' ks IH]; [done|].
  rewrite fmap_cons. change (?x :: ?l) with ([x] ++ l) at 1. rewrite lastValue_app, IH by (intros; apply Hks; by constructor).
  destruct (decide (k ∈ ks)); [by rewrite decide_True by (by constructor)|].
  unfold lastValue; cbn [foldl]. destruct (decide (k = k')) as [->|Hne].
  - by rewrite lineValue_own, decide_True by constructor.
  - rewrite lineValue_other by (done || apply Hks; constructor). rewrite decide_False; [done|]. set_solver.
Qed.

Lemma configLines_safe m : map_Forall (λ k v, lineSafe k v = true) m → Forall (λ l, lacks "010" l = true) (configLines m).
Proof.
  intros Hm. apply Forall_fmap, Forall_forall. intros k Hk.
  apply sort_strings_elem, elem_of_elements, elem_of_dom in Hk as [v Hv].
  change (lacks "010" (k +:+ " " +:+ map_get m k) = true). unfold map_get. rewrite Hv. cbn [from_option id].
  pose proof (Hm _ _ Hv) as [[_ H1]%andb_prop H2]%andb_prop.
  by rewrite !lacks_app, H1, H2.
Qed.
(** The file's value of a key of the map is the map's. *)
Lemma directive_config l1 m k : map_Forall (λ k v, lineSafe k v = true) m → k ∈ dom m →
  directive k (unlines (l1 ++ configLines m)) = m !! k.
Proof.
  intros Hm Hk. destruct (split_unlines l1 (configLines m) (configLines_safe m Hm)) as [pre E].
  assert (∀ k', k' ∈ dom m → lacks " " k' = true) as Hsp.
  { intros k' [v Hv]%elem_of_dom. by pose proof (Hm _ _ Hv) as [[? _]%andb_prop _]%andb_prop. }
  unfold directive. rewrite E, lastValue_app, lastValue_app. unfold configLines at 1.
  assert (lastValue k [""] = None) as -> by (unfold lastValue, lineValue; by destruct k).
  rewrite lastValue_config; [|intros k' Hk'; by apply Hsp, elem_of_elements, sort_strings_elem|by apply Hsp].
  rewrite decide_True by (by apply sort_strings_elem, elem_of_elements).
  apply elem_of_dom in Hk as [v Hv]. unfold map_get. by rewrite Hv.
Qed.

Lemma setDefault_lookup k v m k' :
  setDefault k v m !! k' = match m !! k' with
                           | Some w => Some w
                           | None => if bool_decide (k = k' ∧ v ≠ "") then Some v else None
                           end.
Proof.
  unfold setDefault. destruct (m !! k) eqn:Ek.
  - destruct (m !! k') eqn:E'; [done|]. rewrite bool_decide_false; [done|]. intros [-> _]. congruence.
  - case_bool_decide as Hv.
    + destruct (m !! k'); [done|]. rewrite bool_decide_false; [done|]. by intros [_ ?].
    + destruct (decide (k = k')) as [->|Hne]; [by rewrite lookup_insert, decide_True, Ek, bool_decide_true|].
      rewrite lookup_insert_ne by done. destruct (m !! k'); [done|]. rewrite bool_decide_false; [done|]. by intros [? _].
Qed.
Lemma setDefault_safe k v m : lineSafe k v = true →
  map_Forall (λ k v, lineSafe k v = true) m → map_Forall (λ k v, lineSafe k v = true) (setDefault k v m).
Proof.
  intros Hkv Hm. unfold setDefault. destruct (m !! k); [done|]. case_bool_decide; [done|]. by apply map_Forall_insert_2.
Qed.

(** The default value of a directive, [""] when it has none. *)
Definition defaultOf (vc : ValkeyCluster) (k : string) : string :=
  if k == "maxmemory-policy" then if Spec_Profile (Spec vc) == ProfileDurable then "noeviction" else "allkeys-lru"
  else if k == "maxmemory" then computeMaxmemory vc
  else if k == "repl-backlog-size" then if Spec_Topology (Spec vc) != TopologyStandalone then computeReplBacklog vc else ""
  else "".
Lemma effectiveConfig_lookup vc k :
  effectiveConfig vc !! k = match Spec_Config (Spec vc) !! k with
                            | Some v => Some v
                            | None => if defaultOf vc k == "" then None else Some (defaultOf vc k)
                            end.
Proof.
  unfold effectiveConfig. rewrite !setDefault_lookup. destruct (Spec_Config (Spec vc) !! k); [done|]. unfold defaultOf.
  repeat match goal with
  | |- context [bool_decide (?a = k ∧ _)] =>
      destruct (decide (k = a)) as [->|]; [|rewrite (bool_decide_false (k = a)), (bool_decide_false (a = k ∧ _)) by naive_solver]
  end; try done; rewrite ?(bool_decide_true (_ = _)) by done; repeat case_bool_decide; naive_solver.
Qed.
Lemma bytes_safe k n : lacks " " k = true → lacks "010" k = true → (0 ≤ n)%Z → lineSafe k (Itoa n +:+ "b") = true.
Proof. intros H1 H2 Hn. unfold lineSafe. by rewrite H1, H2, lacks_app, Itoa_lacks. Qed.
Lemma effectiveConfig_safe vc : map_Forall (λ k v, lineSafe k v = true) (Spec_Config (Spec vc)) →
  map_Forall (λ k v, lineSafe k v = true) (effectiveConfig vc).
Proof.
  intros Hm. unfold effectiveConfig. repeat apply setDefault_safe; [..|done].
  - case_match; [|done]. unfold computeReplBacklog. case_match; [done|]. apply bytes_safe; [done|done|lia].
  - unfold computeMaxmemory. case_match; [done|]. case_match eqn:E; [done|]. apply bytes_safe; [done|done|lia].
  - by case_match.
Qed.
Lemma effectiveConfig_rendered vc : effectiveConfig (rendered vc) = effectiveConfig vc.
Proof.
  unfold rendered. case_bool_decide; [done|]. apply map_eq. intros k. rewrite effectiveConfig_lookup.
  assert (defaultOf (with_spec vc (set_Spec_Config (effectiveConfig vc))) k = defaultOf vc k) as ->
    by (by destruct vc as [? []]).
  assert (Spec_Config (Spec (with_spec vc (set_Spec_Config (effectiveConfig vc)))) = effectiveConfig vc) as ->
    by (by destruct vc as [? []]).
  rewrite effectiveConfig_lookup. destruct (Spec_Config (Spec vc) !! k); [done|]. by case_bool_decide.
Qed.


(** ** Which directives an image understands *)

(** The managed directives that older Valkey versions reject, with the first version that has them. *)
Definition newDirectives : list (string * (Z * Z)) :=
  [("tls-auto-reload-interval", (9, 1)); ("log-format", (9, 1)); ("hash-seed", (9, 1));
   ("cluster-config-save-behavior", (9, 1)); ("shutdown-on-sigterm", (9, 0))]%Z.
Definition supportedLine (atLeast : Z → Z → bool) (line : string) : bool :=
  forallb (λ '(d, v), negb (has_prefix line (d +:+ " ")) || atLeast v.1 v.2)%bool newDirectives.

Lemma managedLines_supported vc password :
  Forall (λ l, supportedLine (imageAtLeast vc) l = true) (managedLines vc password).
Proof.
  unfold managedLines, tlsLines, renderAuthConfig, loggingLines, seedLines, clusterLines, persistenceLines.
  generalize (imageAtLeast vc). intros f.
  destruct (f 9 1)%Z eqn:E1, (f 9 0)%Z eqn:E2;
  rewrite ?andb_false_r, ?andb_true_r; repeat first [apply Forall_app_2 | apply Forall_nil_2 | apply Forall_cons_2 | case_match; try discriminate];
  unfold supportedLine; cbn; rewrite ?E1, ?E2; done.
Qed.

Lemma leadingDigits_app d s : str_forall is_digit d = true → leadingDigits (d +:+ s) = d +:+ leadingDigits s.
Proof.
  induction d as [|a d IH]; intros Hd; [done|]. apply andb_prop in Hd as [Ha Hd].
  rewrite !str_app_cons. cbn [leadingDigits]. by rewrite Ha, IH.
Qed.
Lemma leadingDigits_cut c s b r : leadingDigits s = "" → cut_byte c s = Some (b, r) → leadingDigits b = "".
Proof.
  destruct s as [|a s]; [done|]. cbn. destruct (is_digit a) eqn:Ha; [done|]. intros _.
  case_bool_decide; [by intros [= <- _]|]. destruct (cut_byte c s) as [[x y]|]; [|done]. intros [= <- _]. cbn. by rewrite Ha.
Qed.
Lemma cut_byte_prefix c d s : lacks c d = true → cut_byte c (d +:+ s) = (λ p, (d +:+ p.1, p.2)) <$> cut_byte c s.
Proof.
  induction d as [|a d IH]; intros Hd; [rewrite str_app_nil_l; by destruct (cut_byte c s) as [[]|]|].
  apply andb_prop in Hd as [Ha%negb_true_iff Hd]. rewrite str_app_cons. cbn [cut_byte]. rewrite Ha, IH by done.
  by destruct (cut_byte c s) as [[]|].
Qed.
Lemma last_index_byte_prefix c s t : lacks c t = true → last_index_byte c (s +:+ t) = last_index_byte c s.
Proof.
  intros Ht. induction s as [|a s IH]; [by apply last_index_byte_lacks|]. rewrite str_app_cons. cbn. by rewrite IH.
Qed.
Lemma last_index_byte_lt c s i : last_index_byte c s = Some i → i < String.length s.
Proof.
  revert i; induction s as [|a s IH]; intros i; [done|]. cbn. destruct (last_index_byte c s) as [j|].
  - intros [= <-]. specialize (IH j eq_refl). lia.
  - case_bool_decide; intros; simplify_eq; lia.
Qed.

(** An image reference: repository (which may hold a port), tag and optional digest. *)
Definition isDigest (s : string) : Prop := s = "" ∨ ∃ d, s = String "@" d.
Lemma imageTag_tag repo tag digest :
  lacks "@" repo = true → lacks "@" tag = true → lacks ":" tag = true → lacks "/" tag = true → isDigest digest →
  imageTag (repo +:+ String ":" tag +:+ digest) = Some tag.
Proof.
  intros Hr Ha Hc Hs Hd. unfold imageTag.
  assert (lacks "@" (repo +:+ String ":" tag) = true) as Hrt by (rewrite lacks_app, Hr; exact Ha).
  assert (match index_byte "@" (repo +:+ String ":" tag +:+ digest) with
          | Some i => str_take i (repo +:+ String ":" tag +:+ digest)
          | None => repo +:+ String ":" tag +:+ digest
          end = repo +:+ String ":" tag) as ->.
  { rewrite str_app_assoc. destruct Hd as [->|[d ->]].
    - rewrite str_app_nil_r. by rewrite index_byte_lacks.
    - rewrite index_byte_app by done. apply str_take_app. }
  rewrite last_index_byte_app by done. rewrite last_index_byte_prefix by exact Hs.
  assert (str_drop (S (String.length repo)) (repo +:+ String ":" tag) = tag) as ->.
  { change (String ":" tag) with (":" +:+ tag). rewrite str_app_assoc.
    replace (S (String.length repo)) with (String.length (repo +:+ ":")) by (rewrite str_length_app; cbn; lia).
    apply str_drop_app. }
  destruct (last_index_byte "/" repo) as [i|] eqn:E; [|done].
  apply last_index_byte_lt in E. by replace (String.length repo <? i) with false by (symmetry; apply Nat.ltb_ge; lia).
Qed.

(** [major.minor] of a tag such as "9.1", "9.1.2-alpine" or "9.1-rc1". *)
Definition versionTag (M m : Z) (suffix : string) : string := Itoa M +:+ "." +:+ Itoa m +:+ suffix.
Lemma minorOf_tag M m suffix : (0 ≤ M)%Z → (0 ≤ m < 2 ^ 63)%Z → leadingDigits suffix = "" →
  head (splitN3 (versionTag M m suffix)) = Some (Itoa M) ∧ minorOf (splitN3 (versionTag M m suffix)) = m.
Proof.
  intros HM Hm Hs. unfold splitN3, versionTag. change ("." +:+ Itoa m +:+ suffix) with (String "." (Itoa m +:+ suffix)).
  rewrite cut_byte_app by (by apply Itoa_lacks). rewrite cut_byte_prefix by (apply Itoa_lacks; [done|lia]).
  assert (∀ b l, leadingDigits b = "" → minorOf (Itoa M :: (Itoa m +:+ b) :: l) = m) as Hb.
  { intros b l Hb. unfold minorOf. rewrite leadingDigits_app, Hb, str_app_nil_r by (apply Itoa_digits; lia).
    pose proof (unsigned_val_pretty_N (Z.to_N m)) as Hu. unfold unsigned_val in Hu. rewrite <-Itoa_nonneg in Hu by lia.
    assert (digits_val 0 (Itoa m) = Some m) as ->.
    { destruct (Itoa m) eqn:E; [by apply Itoa_nonempty in E|]. rewrite Hu. f_equal. lia. }
    rewrite (proj2 (Z.ltb_lt m (2 ^ 63))) by lia. done. }
  destruct (cut_byte "." suffix) as [[b r]|] eqn:E; cbn; split; try done; [|by apply (Hb suffix [])].
  apply (Hb b [r]). by eapply leadingDigits_cut.
Qed.
Lemma valkeyImageAtLeast_tag repo M m suffix digest maj min :
  lacks "@" repo = true → (0 ≤ M < 2 ^ 63)%Z → (0 ≤ m < 2 ^ 63)%Z → leadingDigits suffix = "" →
  lacks "@" suffix = true → lacks ":" suffix = true → lacks "/" suffix = true → isDigest digest →
  valkeyImageAtLeast (repo +:+ String ":" (versionTag M m suffix) +:+ digest) maj min = true ↔
  (maj < M ∨ maj = M ∧ min ≤ m)%Z.
Proof.
  intros Hr HM Hm Hs H1 H2 H3 Hd. unfold valkeyImageAtLeast.
  assert (∀ c, is_digit c = false → c ≠ "."%char → lacks c suffix = true → lacks c (versionTag M m suffix) = true) as Hl.
  { intros c Hc Hdot Hsuf. unfold versionTag. rewrite !lacks_app, Hsuf, !Itoa_lacks by (done || lia). unfold lacks. cbn.
    rewrite bool_decide_false; [done|]. congruence. }
  rewrite imageTag_tag; [|done|by apply Hl..|done].
  destruct (minorOf_tag M m suffix) as [-> ->]; [lia|done|done|]. cbn [from_option id]. rewrite Atoi_Itoa by done.
  case_bool_decide; cbn [negb]; rewrite ?Z.leb_le, ?Z.ltb_lt; lia.
Qed.

(** The operator never writes a directive the image's Valkey does not know: for an image
    repository:M.m followed by any suffix (".2-alpine", "-rc1") and an optional digest, a
    managed line of valkey.conf with a directive that first appeared in version (maj, min) is
    written only if (maj, min) is at most (M, m); a port in the repository is not taken for a
    tag. *)
Theorem conf_supported vc password repo M m suffix digest line d maj min :
  Spec_Image (Spec vc) = repo +:+ String ":" (versionTag M m suffix) +:+ digest →
  lacks "@" repo = true → (0 ≤ M < 2 ^ 63)%Z → (0 ≤ m < 2 ^ 63)%Z → leadingDigits suffix = "" →
  lacks "@" suffix = true → lacks ":" suffix = true → lacks "/" suffix = true → isDigest digest →
  line ∈ managedLines vc password → (d, (maj, min)) ∈ newDirectives → has_prefix line (d +:+ " ") = true →
  (maj < M ∨ maj = M ∧ min ≤ m)%Z.
Proof.
  intros Himg ???????? Hline Hd Hp.
  pose proof (proj1 (Forall_forall _ _) (managedLines_supported vc password) line Hline) as Hs.
  apply (proj1 (forallb_elem _ _)) with (x := (d, (maj, min))) in Hs; [|done]. cbn in Hs. rewrite Hp in Hs. cbn in Hs.
  unfold imageAtLeast in Hs. rewrite Himg in Hs. by apply valkeyImageAtLeast_tag in Hs.
Qed.

(** ** Memory sizing *)

(** C35: memory sizing at its width: for a limit whose sixty-fold fits an int64, maxmemory is
    written as the floor of 60% of the limit (and left out only below two bytes), the
    replication backlog lies between 16 and 256 MiB, and from 40 MiB on the two together stay
    within the limit. *)
Theorem memory_bounds vc (lim := memoryLimit vc) :
  (1 < lim)%Z → (lim * 60 < 2 ^ 63)%Z →
  ∃ mm bl, computeMaxmemory vc = Itoa mm +:+ "b" ∧ computeReplBacklog vc = Itoa bl +:+ "b" ∧
    mm = (lim * 60 / 100)%Z ∧ (0 < mm)%Z ∧ (16 * 2 ^ 20 ≤ bl ≤ 256 * 2 ^ 20)%Z ∧
    (40 * 2 ^ 20 ≤ lim → mm + bl ≤ lim)%Z.
Proof.
  intros Hlo Hhi. unfold computeMaxmemory, computeReplBacklog. fold lim.
  rewrite bool_decide_false by lia. rewrite wrap64_small by (unfold is_int64; lia).
  rewrite !Z.quot_div_nonneg by lia.
  pose proof (Z.div_mod (lim * 60) 100 ltac:(lia)). pose proof (Z.mod_pos_bound (lim * 60) 100 ltac:(lia)).
  pose proof (Z.div_mod lim 16 ltac:(lia)). pose proof (Z.mod_pos_bound lim 16 ltac:(lia)).
  rewrite (proj2 (Z.leb_gt (lim * 60 / 100) 0)) by lia.
  eexists _, _. split_and!; [done|done|lia..].
Qed.

(** ** When a Sentinel is restarted *)
Lemma split_unlines_concat ls : split_byte "010" (unlines ls) = concat (split_byte "010" <$> ls) ++ [""].
Proof.
  induction ls as [|l ls IH]; [done|]. rewrite unlines_cons, split_byte_app_any, IH. cbn. by rewrite (assoc_L (++)).
Qed.
Lemma filter_concat {A} (P : A → bool) (ls : list (list A)) : filter P (concat ls) = concat (filter P <$> ls).
Proof. induction ls as [|l ls IH]; [done|]. cbn. by rewrite filter_app, IH. Qed.
Lemma filter_keptLine live l : lacks "010" l = true →
  filter (keptLine live) (split_byte "010" l) = if keptLine live l then [l] else [].
Proof. intros Hl. rewrite split_byte_lacks by done. rewrite filter_cons_bool. by destruct (keptLine live l). Qed.

(** The lines of sentinel.conf that count, in order; [mon] are those of the monitor line. *)
Definition keptLines (vc : ValkeyCluster) (mon : list string) (password : string) (live : bool) : list string :=
  ["port " +:+ Itoa sentinelPort; "dir " +:+ dataMountPath] ++ mon ++
  ["sentinel parallel-syncs " +:+ sentinelMasterName +:+ " 1"; "sentinel resolve-hostnames yes"; "sentinel announce-hostnames yes"] ++
  (if password != "" then
     ("sentinel auth-user " +:+ sentinelMasterName +:+ " " +:+ sentinelACLUser) ::
     (if live then [] else ["sentinel auth-pass " +:+ sentinelMasterName +:+ " " +:+ valkeyConfigArg password;
                            "requirepass " +:+ valkeyConfigArg password]) else []) ++
  (if tlsEnabled vc then
     ["tls-port " +:+ Itoa sentinelTLSPort; "port 0"; "tls-cert-file " +:+ tlsMountPath +:+ "/tls.crt";
      "tls-key-file " +:+ tlsMountPath +:+ "/tls.key"; "tls-ca-cert-file " +:+ tlsMountPath +:+ "/ca.crt";
      "tls-replication yes"; "tls-auth-clients optional"] else []) ++ [""].

Lemma timings_nonneg s : (0 ≤ sentinelDownAfterMs s)%Z ∧ (0 ≤ sentinelFailoverTimeout s)%Z.
Proof. unfold sentinelDownAfterMs, sentinelFailoverTimeout. by split; case_match eqn:E; try lia. Qed.
Lemma arg_line p s : lacks "010" p = true → lacks "010" (p +:+ valkeyConfigArg s) = true.
Proof. intros Hp. by rewrite lacks_app, Hp, (printable_lacks_nl _ (valkeyConfigArg_printable s)). Qed.
Lemma number_line p n : lacks "010" p = true → (0 ≤ n)%Z → lacks "010" (p +:+ Itoa n) = true.
Proof. intros Hp Hn. by rewrite lacks_app, Hp, Itoa_lacks. Qed.

Lemma sentinel_kept vc s password live :
  filter (keptLine live) (split_byte "010" (renderSentinelConf vc s password)) =
  keptLines vc (filter (keptLine live) (split_byte "010" (monitorLine vc s))) password live.
Proof.
  unfold renderSentinelConf. rewrite split_unlines_concat, filter_app, filter_concat.
  destruct (timings_nonneg s) as [Hd Hf]. unfold sentinelLines, keptLines. rewrite !fmap_app, !concat_app, <-!(assoc_L (++)).
  cbn [fmap list_fmap concat app].
  rewrite !(filter_keptLine live (_ +:+ _ +:+ _ +:+ Itoa _))
    by (rewrite !str_app_assoc; by apply number_line).
  destruct (password != ""), (tlsEnabled vc), live; cbn [fmap list_fmap concat app];
  rewrite ?(filter_keptLine _ (_ +:+ valkeyConfigArg password)) by (by apply arg_line);
  rewrite ?(filter_keptLine _ (_ +:+ _ +:+ _ +:+ valkeyConfigArg password)) by (rewrite !str_app_assoc; by apply arg_line);
  rewrite ?app_nil_r, <-?(assoc_L (++)); reflexivity.
Qed.

Lemma hashInput_singleton k v : hashInput {[k := v]} = k +:+ nul +:+ v +:+ nul.
Proof.
  unfold hashInput. rewrite dom_singleton_L, elements_singleton. cbn. unfold map_get. rewrite lookup_singleton, decide_True by done.
  cbn. done.
Qed.
Lemma str_app_inj_r s t u : s +:+ u = t +:+ u → s = t.
Proof.
  revert t; induction s as [|a s IH]; intros [|b t] E; [done|..];
    pose proof (f_equal String.length E) as Hl; rewrite !str_length_app in Hl; cbn in Hl; try lia.
  rewrite !str_app_cons in E. simplify_eq. f_equal. by apply IH.
Qed.
Lemma join_nl_inj l1 l2 : l1 ≠ [] → l2 ≠ [] → Forall (λ s, lacks "010" s = true) l1 → Forall (λ s, lacks "010" s = true) l2 →
  join nl l1 = join nl l2 → l1 = l2.
Proof.
  intros H1 H2 F1 F2 E. rewrite <-(split_byte_join "010" l1), <-(split_byte_join "010" l2) by done. by unfold nl in E; rewrite E.
Qed.
Lemma split_byte_pieces c s : Forall (λ l, lacks c l = true) (split_byte c s).
Proof.
  induction s as [|a s IH]; cbn; [by constructor|]. case_bool_decide as E; [by constructor|].
  destruct (split_byte c s) as [|w ws]; apply Forall_cons_2; try done; unfold lacks; cbn.
  - by rewrite bool_decide_false.
  - rewrite bool_decide_false by done. by inversion IH.
  - by inversion IH.
Qed.
Lemma keptLines_password vc mon p p' : keptLines vc mon p false = keptLines vc mon p' false → p = p'.
Proof.
  unfold keptLines. destruct (tlsEnabled vc); repeat case_bool_decide; subst; cbn [negb app]; intros E;
    simplify_list_eq; try done; apply valkeyConfigArg_inj; unfold valkeyConfigArg; congruence.
Qed.

Section hash_props.
Context (sha256 : string → string).

(** The part of sentinel.conf that is hashed. *)
Definition countedText (conf : string) (live : bool) : string :=
  join nl (filter (keptLine live) (split_byte "010" conf)).

End hash_props.

(** ** A concrete cluster *)
Definition demoConf : ValkeyCluster :=
  newCluster "demo" "ns" (set_Spec_Resources {| Limits := {["memory" := 1073741824%Z]}; Requests := ∅ |}
    (set_Spec_Config {["maxmemory-policy" := "volatile-lru"; "bind" := "127.0.0.1"]}
    (set_Spec_Image "registry:5000/valkey/valkey:9.1.2-alpine"
    (set_Spec_Topology TopologyReplication zeroSpec)))).
Definition demoUid : ValkeyCluster := {|
  Meta := {| Meta_Name := "demo"; Meta_Namespace := "ns"; Meta_UID := "u-1"; Meta_Generation := 1;
             Meta_Annotations := ∅; Meta_Finalizers := []; Meta_Deleting := false |};
  Spec := Spec demoConf; Status := zeroStatus |}.
Lemma conf_supported_witness : ∃ line, line ∈ managedLines demoUid "pw" ∧
  has_prefix line "hash-seed " = true ∧ (9 < 9 ∨ 9 = 9 ∧ 1 ≤ 1)%Z.
Proof.
  exists ("hash-seed " +:+ valkeyConfigArg "u-1").
  assert (("hash-seed " +:+ valkeyConfigArg "u-1") ∈ managedLines demoUid "pw") as Hl
    by (apply (bool_decide_unpack _); vm_compute; exact I).
  split_and!; [exact Hl|reflexivity|].
  apply (conf_supported demoUid "pw" "registry:5000/valkey/valkey" 9 1 ".2-alpine" ""
           ("hash-seed " +:+ valkeyConfigArg "u-1") "hash-seed" 9 1);
    [vm_compute; reflexivity|reflexivity|lia|lia|reflexivity..|by left|exact Hl| |reflexivity].
  apply (bool_decide_unpack _); vm_compute; exact I.
Defined.
Lemma memory_bounds_witness : ∃ mm bl,
  computeMaxmemory demoConf = Itoa mm +:+ "b" ∧ computeReplBacklog demoConf = Itoa bl +:+ "b" ∧
  mm = 644245094%Z ∧ (mm + bl ≤ 1073741824)%Z.
Proof.
  destruct (memory_bounds demoConf) as (mm & bl & H1 & H2 & H3 & _ & _ & H4);
    [vm_compute; reflexivity|vm_compute; reflexivity|].
  exists mm, bl. split_and!; [exact H1|exact H2|rewrite H3; vm_compute; reflexivity|].
  apply H4. vm_compute. discriminate.
Defined.
(** A toy digest: the sum of the bytes. *)
Fixpoint byteSum (s : string) : Z :=
  match s with "" => 0 | String c s' => Z.of_nat (code c) + byteSum s' end%Z.
Definition demoSentinelSpec (ms : Z) : SentinelSpec := {|
  Sentinel_Replicas := 3; Sentinel_Quorum := 2; Sentinel_Image := ""; Sentinel_Resources := noResources;
  Sentinel_DownAfterMilliseconds := ms; Sentinel_FailoverTimeout := 0 |}.
