(* ===== verification/Workload.v ===== *)
(** * Workload: the Kubernetes objects of a cluster (resources.go, cluster_pershard.go, sentinel.go)

    Services, StatefulSets, disruption budgets and the network policy, as the builders
    return them, with the shell scripts they carry as text. *)

From S2P Require Import Prelude GoStd Kube Api Effects Naming Failover Rollout SentinelRollout Jobs Rotation Config.

(** ** Constants *)
Definition exporterPort : Z := 9121.
Definition configVolumeName : string := "config".
Definition dataVolumeName : string := "data".
Definition sourceCAVolumeName : string := "source-ca".
Definition configHashAnnotation : string := "valkey.wellcake.io/config-hash".
Definition appliedHashAnnotation : string := "valkey.wellcake.io/applied-hash".
Definition restartedAtPodAnnotation : string := "valkey.wellcake.io/restarted-at".
Definition roleLabel : string := "valkey.wellcake.io/role".
Definition rolePrimary : string := "primary".
Definition roleReplica : string := "replica".
Definition metricsPortName : string := "metrics".
Definition gossipPortName : string := "gossip".
Definition topologyKeyHostname : string := "kubernetes.io/hostname".
Definition defaultDataSize : Z := 10737418240.            (* 10Gi *)
Definition defaultCacheDataSize : Z := 1073741824.        (* 1Gi *)
Definition sentinelPrimaryWaitSeconds : Z := 90.
Definition clusterShutdownGraceSeconds : Z := 30.
Definition sentinelPlaneLabel : string := "valkey.wellcake.io/plane".
Definition sentinelMetricsPortName : string := "sentinel-metrics".
Definition sentinelExporterPortName : string := "exporter".
Definition ProtocolTCP : string := "TCP".
Definition ProtocolUDP : string := "UDP".
Definition StatefulSetPodNameLabel : string := "statefulset.kubernetes.io/pod-name".
Definition ResourceStorage : string := "storage".

(** ** Services *)
Definition namedPort (name : string) (port : Z) : ServicePort :=
  {| sp_Name := name; sp_Port := port; sp_TargetPort := StrVal name; sp_Protocol := ProtocolTCP |}.
Definition metricsEnabled (vc : ValkeyCluster) : bool :=
  match Spec_Metrics (Spec vc) with Some m => Metrics_Enabled m | None => false end.
Definition isCluster (vc : ValkeyCluster) : bool := Spec_Topology (Spec vc) == TopologyCluster.
Definition isSentinel (vc : ValkeyCluster) : bool := Spec_Topology (Spec vc) == TopologySentinel.

Definition buildHeadlessService (vc : ValkeyCluster) : Service := {|
  svc_Name := headlessServiceName vc; svc_Namespace := vcNamespace vc; svc_Labels := labelsFor vc;
  svc_Type := ""; svc_ClusterIP := "None"; svc_PublishNotReadyAddresses := true; svc_Selector := labelsFor vc;
  svc_Ports := [namedPort appValkey (dataPort vc)] ++
               (if isCluster vc then [namedPort gossipPortName clusterBusPort] else []) |}.
Definition buildClientService (vc : ValkeyCluster) : Service := {|
  svc_Name := clientServiceName vc; svc_Namespace := vcNamespace vc; svc_Labels := labelsFor vc;
  svc_Type := "ClusterIP"; svc_ClusterIP := ""; svc_PublishNotReadyAddresses := false; svc_Selector := labelsFor vc;
  svc_Ports := [namedPort appValkey (dataPort vc)] ++
               (if metricsEnabled vc then [namedPort metricsPortName exporterPort] else []) |}.
Definition primaryServiceName (vc : ValkeyCluster) : string := vcName vc +:+ "-primary".
Definition replicasServiceName (vc : ValkeyCluster) : string := vcName vc +:+ "-replicas".
Definition buildRoleService (vc : ValkeyCluster) (name role : string) : Service := {|
  svc_Name := name; svc_Namespace := vcNamespace vc; svc_Labels := labelsFor vc;
  svc_Type := "ClusterIP"; svc_ClusterIP := ""; svc_PublishNotReadyAddresses := false;
  svc_Selector := <[roleLabel := role]> (labelsFor vc);
  svc_Ports := [{| sp_Name := appValkey; sp_Port := dataPort vc; sp_TargetPort := IntVal (dataPort vc);
                   sp_Protocol := ProtocolTCP |}] |}.
Definition buildPrimaryService (vc : ValkeyCluster) : Service := buildRoleService vc (primaryServiceName vc) rolePrimary.
Definition buildReplicasService (vc : ValkeyCluster) : Service := buildRoleService vc (replicasServiceName vc) roleReplica.
Definition buildShardHeadlessService (vc : ValkeyCluster) (shard : Z) : Service :=
  let svc := buildHeadlessService vc in
  let sl := shardLabelsFor vc shard in {|
  svc_Name := shardHeadlessName vc shard; svc_Namespace := svc_Namespace svc; svc_Labels := sl;
  svc_Type := svc_Type svc; svc_ClusterIP := svc_ClusterIP svc;
  svc_PublishNotReadyAddresses := svc_PublishNotReadyAddresses svc; svc_Selector := sl; svc_Ports := svc_Ports svc |}.

(** ** The data pods' scripts *)

(** The arguments [valkey-cli] takes for TLS and for the password. *)
Definition cliTLSArgs (vc : ValkeyCluster) : string :=
  if tlsEnabled vc then
    " --tls --cacert " +:+ tlsMountPath +:+ "/" +:+ secretKeyTLSCACert +:+ " --cert " +:+ tlsMountPath +:+ "/" +:+
    secretKeyTLSCert +:+ " --key " +:+ tlsMountPath +:+ "/" +:+ secretKeyTLSKey
  else "".
Definition cliAuthArgs (vc : ValkeyCluster) : string := if AuthEnabled (Spec vc) then noAuthWarningArgs else "".

Definition sentinelDiscoveryFuncs (vc : ValkeyCluster) : string :=
  let auth := cliAuthArgs vc in
  let tlsArgs := cliTLSArgs vc in
  unlines [
    q "SELF=`${HOSTNAME}." +:+ headlessServiceName vc +:+ q ".${POD_NAMESPACE}.svc.cluster.local`";
    "SEN=" +:+ sentinelStatefulSetName vc;
    "query_sentinels() {";
    "  BEST_EPOCH=-1";
    q "  BEST_HOST=``";
    q "  BEST_PORT=``";
    "  # Sentinels that answered but rejected the password (NOAUTH/WRONGPASS). Such";
    q "  # a reply is not `no Sentinel`: the cluster exists and holds a primary, the";
    "  # password just does not match yet (rotation or auth change in progress).";
    "  AUTH_REJECTED=0";
    "  # Sentinels that answered, and whether any of them knows a replica";
    "  # (num-slaves, -1 when missing from the reply, counted as known).";
    "  ANSWERED=0";
    "  REPLICA_KNOWN=0";
    "  # The Sentinel count is not rendered here: it would put spec.sentinel.replicas";
    "  # in the pod template and roll the data pods on every Sentinel scale. Start";
    "  # at the CRD minimum and raise the bound to what the Sentinels report.";
    "  i=0";
    "  n=3";
    q "  while [ `$i` -lt `$n` ]; do";
    q "    OUT=$(timeout 3 valkey-cli -h `$SEN-$i.$SEN` -p " +:+ Itoa (sentinelListenPort vc) +:+ tlsArgs +:+ auth +:+ " SENTINEL MASTER " +:+ sentinelMasterName +:+ " 2>/dev/null || true)";
    q "    case `$OUT` in";
    "      *NOAUTH*|*WRONGPASS*) AUTH_REJECTED=$((AUTH_REJECTED + 1)) ;;";
    "    esac";
    q "    set -- $(printf '%s\n' `$OUT` | awk 'NR % 2 == 1 { k = $0 } NR % 2 == 0 { v[k] = $0 } END { if (v[`ip`] != `` && v[`config-epoch`] ~ /^[0-9]+$/ && v[`num-other-sentinels`] ~ /^[0-9]+$/) print v[`ip`], v[`port`], v[`config-epoch`], v[`num-other-sentinels`], (v[`num-slaves`] ~ /^[0-9]+$/ ? v[`num-slaves`] : -1) }')";
    q "    if [ `$#` -eq 5 ]; then";
    "      ANSWERED=$((ANSWERED + 1))";
    q "      if [ `$5` -ne 0 ]; then";
    "        REPLICA_KNOWN=1";
    "      fi";
    q "      if [ `$(($4 + 1))` -gt `$n` ]; then";
    "        n=$(($4 + 1))";
    "      fi";
    q "      if [ `$3` -gt `$BEST_EPOCH` ]; then";
    "        BEST_HOST=$1";
    "        BEST_PORT=$2";
    "        BEST_EPOCH=$3";
    "      fi";
    "    fi";
    "    i=$((i + 1))";
    "  done";
    "}";
    "# Exit (the pod restarts and retries) when no Sentinel gave an answer but some";
    "# rejected the password: starting as a first-bootstrap primary then would run";
    "# a second primary next to the real one, with whatever is on disk.";
    "refuse_on_auth_rejection() {";
    q "  if [ -z `$BEST_HOST` ] && [ `$AUTH_REJECTED` -gt 0 ]; then";
    q "    echo `$AUTH_REJECTED Sentinel(s) rejected the password and none reported a primary: not starting as a first-bootstrap primary, retrying` >&2";
    "    exit 1";
    "  fi";
    "}";
    "is_self() {";
    q "  [ `$1` = `$SELF` ] || hostname -i 2>/dev/null | tr ' ' '\n' | grep -qxF `$1`";
    "}";
    "is_primary() {";
    q "  [ `$(timeout 3 valkey-cli -h `$1` -p `$2`" +:+ tlsArgs +:+ auth +:+ q " ROLE 2>/dev/null | head -n 1)` = master ]";
    "}";
    "# The Sentinels report a primary by IP until a failover promotes a pod that";
    "# announces its name. Follow the pod's name instead, so the link survives that";
    "# pod getting a new IP. The primary tells its own name (replica-announce-ip);";
    "# it is kept only when it is one of our pods and resolves to that IP.";
    "name_of_best() {";
    q "  NAME=$(timeout 3 valkey-cli -h `$BEST_HOST` -p `$BEST_PORT`" +:+ tlsArgs +:+ auth +:+ " CONFIG GET replica-announce-ip 2>/dev/null | sed -n 2p)";
    q "  case `$NAME` in";
    "    " +:+ statefulSetName vc +:+ "-*." +:+ headlessServiceName vc +:+ ".${POD_NAMESPACE}.svc.cluster.local) ;;";
    "    *) return ;;";
    "  esac";
    q "  if getent hosts `$NAME` 2>/dev/null | awk '{ print $1 }' | grep -qxF `$BEST_HOST`; then";
    "    BEST_HOST=$NAME";
    "  fi";
    "}"].

Definition renderSentinelDataRole (vc : ValkeyCluster) : string :=
  let port := dataPort vc in
  let dropRDB := if persistenceMode vc == storageModeNone then "  rm -f " +:+ dataMountPath +:+ "/dump.rdb" +:+ nl else "" in
  sentinelDiscoveryFuncs vc +:+ unlines [
    q "ORDINAL=`${HOSTNAME##*-}`";
    q "echo `replica-announce-ip ${SELF}` >> " +:+ dataMountPath +:+ "/runtime.conf";
    "# A primary that restarts is still reported under its old address until the";
    "# Sentinels fail over, so only trust an answer that is this pod or a reachable";
    "# primary, and give the Sentinels time to fail over otherwise.";
    "DEADLINE=$(($(date +%s) + " +:+ Itoa sentinelPrimaryWaitSeconds +:+ "))";
    "while :; do";
    "  query_sentinels";
    q "  if [ -z `$BEST_HOST` ] || is_self `$BEST_HOST` || is_primary `$BEST_HOST` `$BEST_PORT`; then";
    "    break";
    "  fi";
    q "  if [ `$(date +%s)` -ge `$DEADLINE` ]; then";
    q "    echo `the Sentinels still report $BEST_HOST:$BEST_PORT, which is not a reachable primary; falling back to pod-0`";
    q "    BEST_HOST=``";
    "    break";
    "  fi";
    q "  echo `waiting for the Sentinels to report a reachable primary (now $BEST_HOST:$BEST_PORT)`";
    "  sleep 3";
    "done";
    "refuse_on_auth_rejection";
    q "PRIMARY=``";
    q "if [ -n `$BEST_HOST` ]; then";
    q "  if is_self `$BEST_HOST`; then";
    q "    echo `starting as the primary, as reported by the Sentinels (config-epoch $BEST_EPOCH)`";
    "  else";
    "    name_of_best";
    q "    PRIMARY=`$BEST_HOST $BEST_PORT`";
    q "    echo `replicating from $PRIMARY, as reported by the Sentinels (config-epoch $BEST_EPOCH)`";
    "  fi";
    q "elif [ `$ORDINAL` != `0` ]; then";
    q "  PRIMARY=`" +:+ statefulSetName vc +:+ "-0." +:+ headlessServiceName vc +:+ ".${POD_NAMESPACE}.svc.cluster.local " +:+ Itoa port +:+ q "`";
    "fi";
    q "if [ -n `$PRIMARY` ]; then";
    q "  echo `replicaof $PRIMARY` >> " +:+ dataMountPath +:+ "/runtime.conf";
    dropRDB +:+ "fi"].

(** A line that appends an operator-managed user to [file]. *)
Definition seedUser (user rules file : string) : string :=
  q "    echo `user " +:+ user +:+ " on #$PW_HASH " +:+ rules +:+ q "` >> " +:+ dataMountPath +:+ "/" +:+ file +:+ nl.
Definition managedUserLines (vc : ValkeyCluster) (file : string) : string :=
  (if isSentinel vc then seedUser sentinelACLUser ("&* " +:+ sentinelACLCommands) file else "") +:+
  (if topologyReplicates vc then seedUser replicationACLUser replicationACLCommands file else "").
Definition managedUsersRe : string := sentinelACLUser +:+ "|" +:+ replicationACLUser.
(** The part every topology starts with: the runtime configuration and the ACL file. *)
Definition initCommon (vc : ValkeyCluster) : string :=
  let managedSeed := managedUserLines vc "users.acl" in
  let managedReseed := managedUserLines vc "users.acl.new" in
  unlines [
    "set -eu";
    "cp " +:+ configMountPath +:+ "/valkey.conf " +:+ dataMountPath +:+ "/runtime.conf";
    q "if [ -n `${VALKEY_PASSWORD:-}` ]; then";
    q "  PW_HASH=$(printf '%s' `$VALKEY_PASSWORD` | sha256sum | awk '{print $1}')";
    "  if [ ! -s " +:+ dataMountPath +:+ "/users.acl ]; then";
    q "    echo `user default on #$PW_HASH ~* &* +@all` > " +:+ dataMountPath +:+ "/users.acl";
    managedSeed +:+ q "  elif ! grep -q `^user default on #$PW_HASH ` " +:+ dataMountPath +:+ "/users.acl; then";
    q "    grep -vE `^user (default|" +:+ managedUsersRe +:+ q ") ` " +:+ dataMountPath +:+ "/users.acl > " +:+ dataMountPath +:+ "/users.acl.new || true";
    q "    echo `user default on #$PW_HASH ~* &* +@all` >> " +:+ dataMountPath +:+ "/users.acl.new";
    managedReseed +:+ "    mv " +:+ dataMountPath +:+ "/users.acl.new " +:+ dataMountPath +:+ "/users.acl";
    "  fi";
    "elif [ ! -s " +:+ dataMountPath +:+ "/users.acl ]; then";
    "  : > " +:+ dataMountPath +:+ "/users.acl";
    q "elif grep -qE `^user (default|" +:+ managedUsersRe +:+ q ") ` " +:+ dataMountPath +:+ "/users.acl; then";
    q "  grep -vE `^user (default|" +:+ managedUsersRe +:+ q ") ` " +:+ dataMountPath +:+ "/users.acl > " +:+ dataMountPath +:+ "/users.acl.new || true";
    "  mv " +:+ dataMountPath +:+ "/users.acl.new " +:+ dataMountPath +:+ "/users.acl";
    "fi";
    "# Unlike valkeyConfigArg, this only escapes for double-quoted config values.";
    "valkey_config_arg() {";
    "  awk '";
    q "    BEGIN { printf `\`` }";
    "    {";
    q "      if (NR > 1) printf `\\n`";
    q "      gsub(/\\/, `\\\\`)";
    q "      gsub(/`/, `\\\``)";
    q "      printf `%s`, $0";
    "    }";
    q "    END { printf `\`\n` }";
    "  '";
    "}"] +:+ tab.
Definition initReplicateFrom (vc : ValkeyCluster) (rf : ReplicateFromSpec) : string :=
  let extPort := if RF_Port rf == 0%Z then 6379%Z else RF_Port rf in
  let tlsLine := if RF_TLS rf then q "echo `tls-replication yes` >> " +:+ dataMountPath +:+ "/runtime.conf" +:+ nl else "" in
  let caMergeLine :=
    if sourceCAMergeEnabled vc then
      "cat " +:+ tlsMountPath +:+ "/" +:+ secretKeyTLSCACert +:+ " " +:+ sourceCAMountPath +:+ "/" +:+ secretKeyTLSCACert +:+
      " > " +:+ caCertPath vc +:+ nl
    else "" in
  unlines [
    q "echo `replicaof " +:+ RF_Host rf +:+ " " +:+ Itoa extPort +:+ q "` >> " +:+ dataMountPath +:+ "/runtime.conf";
    q "if [ -n `${SOURCE_PASSWORD:-}` ]; then";
    q "  SOURCE_PASSWORD_ARG=$(printf '%s' `$SOURCE_PASSWORD` | valkey_config_arg)";
    q "  echo `masterauth ${SOURCE_PASSWORD_ARG}` >> " +:+ dataMountPath +:+ "/runtime.conf";
    "fi"] +:+ tlsLine +:+ caMergeLine.
Definition initAnnounce (vc : ValkeyCluster) : string :=
  let port := dataPort vc in
  let svcPart := if perShardEnabled vc then "${HOSTNAME%-*}" else headlessServiceName vc in
  unlines [
    q "ANNOUNCE_HOST=`${HOSTNAME}." +:+ svcPart +:+ q ".${POD_NAMESPACE}.svc.cluster.local`";
    "{";
    q "  echo `cluster-announce-hostname ${ANNOUNCE_HOST}`";
    q "  echo `cluster-preferred-endpoint-type hostname`";
    q "  echo `cluster-announce-port " +:+ Itoa port +:+ q "`";
    q "  echo `cluster-announce-bus-port " +:+ Itoa clusterBusPort +:+ q "`";
    "} >> " +:+ dataMountPath +:+ "/runtime.conf"].
Definition initFollowFirst (vc : ValkeyCluster) : string :=
  let port := dataPort vc in
  let headless := headlessServiceName vc in
  let stsName := statefulSetName vc in
  unlines [
    q "ORDINAL=`${HOSTNAME##*-}`";
    q "if [ `$ORDINAL` != `0` ]; then";
    q "  echo `replicaof " +:+ stsName +:+ "-0." +:+ headless +:+ ".${POD_NAMESPACE}.svc.cluster.local " +:+ Itoa port +:+ q "` >> " +:+ dataMountPath +:+ "/runtime.conf";
    "fi"].
Definition renderInitScript (vc : ValkeyCluster) : string :=
  initCommon vc +:+
  match Spec_ReplicateFrom (Spec vc) with
  | Some rf => initReplicateFrom vc rf
  | None =>
      if isCluster vc then initAnnounce vc
      else if (isSentinel vc && bool_decide (is_Some (Spec_Sentinel (Spec vc))))%bool then renderSentinelDataRole vc
      else initFollowFirst vc
  end.

Definition sentinelPrimaryGuardActive (vc : ValkeyCluster) : bool :=
  (isSentinel vc && bool_decide (is_Some (Spec_Sentinel (Spec vc))) &&
   bool_decide (Spec_ReplicateFrom (Spec vc) = None) && (persistenceMode vc == storageModeNone))%bool.
Definition renderSentinelPrimaryGuard (vc : ValkeyCluster) : string :=
  "set -eu" +:+ nl +:+ sentinelDiscoveryFuncs vc +:+ unlines [
    "CONF=" +:+ dataMountPath +:+ "/runtime.conf";
    q "if grep -q '^replicaof ' `$CONF`; then";
    "  rm -f " +:+ dataMountPath +:+ "/dump.rdb";
    "else";
    "  query_sentinels";
    "  refuse_on_auth_rejection";
    q "  if [ -n `$BEST_HOST` ] && is_self `$BEST_HOST`; then";
    "    DEADLINE=$(($(date +%s) + " +:+ Itoa sentinelPrimaryWaitSeconds +:+ "))";
    q "    WAITING=``";
    "    while :; do";
    q "      if [ `$ANSWERED` -ge `$n` ] && [ `$REPLICA_KNOWN` -eq 0 ] && [ -n `$BEST_HOST` ] && is_self `$BEST_HOST`; then";
    q "        echo `all $n Sentinels answered and none knows a replica to promote: starting as the primary with the data on disk`";
    "        break";
    "      fi";
    q "      if [ -z `$WAITING` ]; then";
    q "        echo `persistence is off and the Sentinels report this pod as the primary: waiting for them to fail over to a replica that holds the data`";
    "        WAITING=1";
    "      fi";
    "      sleep 3";
    "      query_sentinels";
    q "      if [ -n `$BEST_HOST` ] && ! is_self `$BEST_HOST` && is_primary `$BEST_HOST` `$BEST_PORT`; then";
    "        name_of_best";
    q "        echo `replicating from $BEST_HOST $BEST_PORT, promoted by the Sentinels (config-epoch $BEST_EPOCH)`";
    q "        echo `replicaof $BEST_HOST $BEST_PORT` >> `$CONF`";
    "        rm -f " +:+ dataMountPath +:+ "/dump.rdb";
    "        break";
    "      fi";
    q "      if [ `$(date +%s)` -ge `$DEADLINE` ]; then";
    q "        echo `no failover within " +:+ Itoa sentinelPrimaryWaitSeconds +:+ q " s: starting as the primary with the data on disk`";
    "        break";
    "      fi";
    "    done";
    "  fi";
    "fi";
    q "exec valkey-server `$CONF`"].

(** ** Containers *)
Definition restoreScript (vc : ValkeyCluster) (r : RestoreSpec) (s3 : S3Spec) : string :=
  let endpointFlag := if S3_Endpoint s3 != "" then s3EndpointURLFlag else "" in
  if isCluster vc then
    let shards := shardCountOf vc in
    unlines [
    "set -eu";
    "if [ -f " +:+ dataMountPath +:+ "/dump.rdb ]; then";
    q "  echo `dump.rdb already present; skipping restore`";
    "  exit 0";
    "fi";
    q "ORD=`${HOSTNAME##*-}`";
    q "if [ `$ORD` -ge " +:+ Itoa shards +:+ " ]; then";
    q "  echo `ordinal $ORD is a replica (>= " +:+ Itoa shards +:+ q " shards); skipping restore, will resync from master`";
    "  exit 0";
    "fi";
    q "KEY=$(echo `" +:+ Restore_SourceKey r +:+ q "` | sed `s/{shard}/$ORD/g`)";
    q "echo `restoring shard $ORD from s3://" +:+ S3_Bucket s3 +:+ q "/$KEY`";
    q "aws s3 cp `s3://" +:+ S3_Bucket s3 +:+ q "/$KEY` " +:+ dataMountPath +:+ "/dump.rdb" +:+ endpointFlag;
    q "echo `restore done: $(stat -c %s " +:+ dataMountPath +:+ "/dump.rdb 2>/dev/null || wc -c <" +:+ dataMountPath +:+ q "/dump.rdb) bytes`"]
  else
    unlines [
    "set -eu";
    "if [ -f " +:+ dataMountPath +:+ "/dump.rdb ]; then";
    q "  echo `dump.rdb already present; skipping restore`";
    "  exit 0";
    "fi";
    q "echo `restoring from s3://" +:+ S3_Bucket s3 +:+ "/" +:+ Restore_SourceKey r +:+ q "`";
    "aws s3 cp s3://" +:+ S3_Bucket s3 +:+ "/" +:+ Restore_SourceKey r +:+ " " +:+ dataMountPath +:+ "/dump.rdb" +:+ endpointFlag;
    q "echo `restore done: $(stat -c %s " +:+ dataMountPath +:+ "/dump.rdb 2>/dev/null || wc -c <" +:+ dataMountPath +:+ q "/dump.rdb) bytes`"].
Definition buildRestoreInitContainer (vc : ValkeyCluster) (r : RestoreSpec) (s3 : S3Spec) : Container :=
  let image := if Restore_AWSCLIImage r == "" then defaultAWSCLIImage else Restore_AWSCLIImage r in
  let env :=
    [{| env_Name := envAWSAccessKey; env_From := EnvSecretKey (S3_CredentialsSecret s3) envAWSAccessKey |};
     {| env_Name := envAWSSecretKey; env_From := EnvSecretKey (S3_CredentialsSecret s3) envAWSSecretKey |};
     {| env_Name := envAWSDefaultRegion; env_From := EnvValue (S3_Region s3) |}] ++
    (if S3_Endpoint s3 != "" then [{| env_Name := envS3EndpointURL; env_From := EnvValue (S3_Endpoint s3) |}] else []) in
  plainContainer "restore" image [shellCmd; "-c"; restoreScript vc r s3] env
    [{| vm_Name := dataVolumeName; vm_MountPath := dataMountPath; vm_ReadOnly := false |}] None.

(** A redis_exporter sidecar; [spec.metrics] is set whenever it is built. *)
Definition exporterContainer (vc : ValkeyCluster) (m : MetricsSpec) (port : Z) (portName : string) : Container :=
  let image := if Metrics_Image m == "" then "oliver006/redis_exporter:v1.62.0" else Metrics_Image m in
  let scheme := if tlsEnabled vc then "rediss" else "redis" in
  let env :=
    [{| env_Name := "REDIS_ADDR"; env_From := EnvValue (scheme +:+ "://localhost:" +:+ Itoa port) |}] ++
    (if tlsEnabled vc then [{| env_Name := "REDIS_EXPORTER_SKIP_TLS_VERIFICATION"; env_From := EnvValue valueTrue |}] else []) ++
    (if AuthEnabled (Spec vc)
     then [{| env_Name := "REDIS_PASSWORD"; env_From := EnvSecretKey (authSecretName vc) secretKeyPassword |}] else []) in
  {| ctr_Name := metricsPortName; ctr_Image := image; ctr_ImagePullPolicy := Metrics_ImagePullPolicy m;
     ctr_Command := []; ctr_Args := []; ctr_Env := env;
     ctr_Ports := [{| cp_Name := portName; cp_ContainerPort := exporterPort; cp_Protocol := "" |}];
     ctr_Resources := Metrics_Resources m; ctr_VolumeMounts := []; ctr_ReadinessProbe := None; ctr_LivenessProbe := None;
     ctr_SecurityContext := None |}.
Definition buildExporter (vc : ValkeyCluster) (m : MetricsSpec) : Container :=
  exporterContainer vc m (dataPort vc) metricsPortName.
Definition buildSentinelExporter (vc : ValkeyCluster) (m : MetricsSpec) : Container :=
  set_ctr_SecurityContext (Some (containerSecurityContext vc))
    (exporterContainer vc m (sentinelListenPort vc) sentinelExporterPortName).
(** The exporter sidecar of a data pod, when metrics are on. *)
Definition exporters (vc : ValkeyCluster) : list Container :=
  match Spec_Metrics (Spec vc) with
  | Some m => if Metrics_Enabled m then [buildExporter vc m] else []
  | None => []
  end.

Definition dataReadinessProbe (vc : ValkeyCluster) (port : Z) : Probe :=
  let cli := "valkey-cli -p " +:+ Itoa port +:+
    (if tlsEnabled vc then " --tls --insecure --cert " +:+ tlsMountPath +:+ "/" +:+ secretKeyTLSCert +:+ " --key " +:+
                           tlsMountPath +:+ "/" +:+ secretKeyTLSKey else "") +:+
    (if AuthEnabled (Spec vc) then noAuthWarningArgs else "") in
  let script := unlines [
    "out=$(" +:+ cli +:+ " INFO persistence replication) || exit 1";
    q "out=$(printf '%s\n' `$out` | tr -d '\r')";
    q "printf '%s\n' `$out` | grep -qE '^(loading|master_sync_in_progress):1$' && exit 1";
    q "printf '%s\n' `$out` | grep -q '^master_link_status:down$' && printf '%s\n' `$out` | grep -q '^master_link_down_since_seconds:-1$' && exit 1"]
    +:+ "exit 0" in
  {| pb_Handler := ProbeExec [shellCmd; "-c"; script]; pb_InitialDelaySeconds := 5; pb_PeriodSeconds := 5;
     pb_TimeoutSeconds := 3; pb_FailureThreshold := 5 |}.
Definition valkeyProbe (vc : ValkeyCluster) (port initial period : Z) : Probe := {|
  pb_Handler := if tlsEnabled vc
                then ProbeExec ["valkey-cli"; "-p"; Itoa port; "--tls"; "--insecure"; "--cert";
                                tlsMountPath +:+ "/" +:+ secretKeyTLSCert; "--key"; tlsMountPath +:+ "/" +:+ secretKeyTLSKey;
                                "PING"]
                else ProbeTCP port;
  pb_InitialDelaySeconds := initial; pb_PeriodSeconds := period; pb_TimeoutSeconds := 3; pb_FailureThreshold := 5 |}.

(** ** Storage and scheduling *)
Definition storageSizeOr (vc : ValkeyCluster) (def : Z) : Z :=
  match Spec_Storage (Spec vc) with Some st => if Storage_Size st == 0%Z then def else Storage_Size st | None => def end.
Definition memoryDataSizeLimit (vc : ValkeyCluster) : Z := storageSizeOr vc defaultCacheDataSize.
Definition buildDataPVC (vc : ValkeyCluster) : PersistentVolumeClaim := {|
  pvc_Name := dataVolumeName; pvc_Namespace := ""; pvc_Labels := labelsFor vc; pvc_AccessModes := ["ReadWriteOnce"];
  pvc_StorageClassName := Spec_Storage (Spec vc) ≫= Storage_StorageClassName;
  pvc_Requests := {[ResourceStorage :=
    storageSizeOr vc (if Spec_Profile (Spec vc) == ProfileCache then defaultCacheDataSize else defaultDataSize)]} |}.

Definition byLabels (l : gmap string string) : LabelSelector := {| MatchLabels := l; MatchExpressions := [] |}.
Definition defaultTopologySpread (vc : ValkeyCluster) : list TopologySpreadConstraint :=
  [{| tsc_MaxSkew := 1; tsc_TopologyKey := "topology.kubernetes.io/zone"; tsc_WhenUnsatisfiable := "ScheduleAnyway";
      tsc_LabelSelector := Some (byLabels {[instanceLabel := vcName vc]}); tsc_Rest := "" |}].
Definition defaultAntiAffinity (vc : ValkeyCluster) : Affinity := {|
  aff_NodeAffinity := None; aff_PodAffinity := None;
  aff_PodAntiAffinity := Some {| paa_Required := [];
    paa_Preferred := [(100%Z, {| pat_TopologyKey := topologyKeyHostname; pat_Selector := byLabels {[instanceLabel := vcName vc]} |})];
    paa_Rest := "" |} |}.
Definition shardAntiAffinity (vc : ValkeyCluster) (shard : Z) : Affinity := {|
  aff_NodeAffinity := None; aff_PodAffinity := None;
  aff_PodAntiAffinity := Some {|
    paa_Required := [{| pat_TopologyKey := topologyKeyHostname;
                        pat_Selector := byLabels {[instanceLabel := vcName vc; shardLabel := Itoa shard]} |}];
    paa_Preferred := []; paa_Rest := "" |} |}.
Definition sentinelAffinity (vc : ValkeyCluster) : Affinity :=
  let a := defaultAntiAffinity vc in
  match Spec_Affinity (Spec vc) with
  | Some u => {| aff_NodeAffinity := aff_NodeAffinity u; aff_PodAffinity := aff_PodAffinity a;
                 aff_PodAntiAffinity := aff_PodAntiAffinity a |}
  | None => a
  end.

(** ** The data pods' StatefulSet *)
Definition updateStrategyFor (proactive : bool) : string := if proactive then "OnDelete" else "RollingUpdate".
Definition clusterShutdownGracePeriod (vc : ValkeyCluster) : option Z :=
  if (isCluster vc && valkeyImageAtLeast (Spec_Image (Spec vc)) 9 0)%bool then Some clusterShutdownGraceSeconds else None.
Definition mount (name path : string) (ro : bool) : VolumeMount := {| vm_Name := name; vm_MountPath := path; vm_ReadOnly := ro |}.
Definition tlsMount : VolumeMount := mount tlsVolumeName tlsMountPath true.

Definition stsAnnotations (vc : ValkeyCluster) (configHash : string) : gmap string string :=
  (if annotation vc restartAnnotation != "" then <[restartedAtPodAnnotation := annotation vc restartAnnotation]> else id)
  ((if configHash != "" then <[configHashAnnotation := configHash]> else id) ∅).
Definition stsEnvVars (vc : ValkeyCluster) : list EnvVar :=
  [{| env_Name := "POD_NAMESPACE"; env_From := EnvFieldRef "metadata.namespace" |}] ++
  match Spec_ReplicateFrom (Spec vc) ≫= RF_PasswordSecret with
  | Some ps => [{| env_Name := "SOURCE_PASSWORD";
                   env_From := EnvSecretKey (SKR_Name ps) (if SKR_Key ps == "" then secretKeyPassword else SKR_Key ps) |}]
  | None => []
  end.
(** With the password, when auth is on: for config-init and for the server's own container. *)
Definition stsEnvWithPassword (vc : ValkeyCluster) : list EnvVar :=
  stsEnvVars vc ++
  (if AuthEnabled (Spec vc)
   then [{| env_Name := envValkeyPassword; env_From := secretRef (authSecretName vc) secretKeyPassword |}] else []).
Definition stsContainerPorts (vc : ValkeyCluster) : list ContainerPort :=
  [{| cp_Name := appValkey; cp_ContainerPort := dataPort vc; cp_Protocol := ProtocolTCP |}] ++
  (if isCluster vc then [{| cp_Name := gossipPortName; cp_ContainerPort := clusterBusPort; cp_Protocol := ProtocolTCP |}] else []).
Definition configInitMounts (vc : ValkeyCluster) : list VolumeMount :=
  [mount configVolumeName configMountPath true; mount dataVolumeName dataMountPath false] ++
  (if sourceCAMergeEnabled vc then [tlsMount; mount sourceCAVolumeName sourceCAMountPath true] else []) ++
  (if (isSentinel vc && tlsEnabled vc && negb (sourceCAMergeEnabled vc))%bool then [tlsMount] else []).
Definition stsInitContainers (vc : ValkeyCluster) : list Container :=
  match Spec_RestoreFrom (Spec vc) with
  | Some r => match Restore_S3 r with Some s3 => [buildRestoreInitContainer vc r s3] | None => [] end
  | None => []
  end ++
  [{| ctr_Name := "config-init"; ctr_Image := Spec_Image (Spec vc); ctr_ImagePullPolicy := Spec_ImagePullPolicy (Spec vc);
      ctr_Command := [shellCmd; "-c"; renderInitScript vc]; ctr_Args := []; ctr_Env := stsEnvWithPassword vc; ctr_Ports := [];
      ctr_Resources := noResources; ctr_VolumeMounts := configInitMounts vc; ctr_ReadinessProbe := None;
      ctr_LivenessProbe := None; ctr_SecurityContext := None |}].
Definition valkeyContainer (vc : ValkeyCluster) : Container := {|
  ctr_Name := appValkey; ctr_Image := Spec_Image (Spec vc); ctr_ImagePullPolicy := Spec_ImagePullPolicy (Spec vc);
  ctr_Command := if sentinelPrimaryGuardActive vc then [shellCmd; "-c"; renderSentinelPrimaryGuard vc] else ["valkey-server"];
  ctr_Args := if sentinelPrimaryGuardActive vc then [] else [dataMountPath +:+ "/runtime.conf"];
  ctr_Env := stsEnvWithPassword vc; ctr_Ports := stsContainerPorts vc; ctr_Resources := Spec_Resources (Spec vc);
  ctr_VolumeMounts := [mount configVolumeName configMountPath true; mount dataVolumeName dataMountPath false] ++
                      (if tlsEnabled vc then [tlsMount] else []);
  ctr_ReadinessProbe := Some (dataReadinessProbe vc (dataPort vc));
  ctr_LivenessProbe := Some (valkeyProbe vc (dataPort vc) 15 20); ctr_SecurityContext := None |}.
Definition applyContainerSecurityContext (sc : SecurityContext) (g : list Container) : list Container :=
  set_ctr_SecurityContext (Some sc) <$> g.
Definition stsVolumes (vc : ValkeyCluster) : list Volume :=
  [{| vol_Name := configVolumeName; vol_Source := VolConfigMap (configMapName vc) [(valkeyConfFile, valkeyConfFile)] |}] ++
  (if tlsEnabled vc then [{| vol_Name := tlsVolumeName; vol_Source := VolSecret (tlsSecretName vc) [] |}] else []) ++
  (if sourceCAMergeEnabled vc then
     match Spec_ReplicateFrom (Spec vc) ≫= RF_CASecret with
     | Some ca => [{| vol_Name := sourceCAVolumeName;
                      vol_Source := VolSecret (CA_Name ca)
                        [(if CA_Key ca == "" then secretKeyTLSCACert else CA_Key ca, secretKeyTLSCACert)] |}]
     | None => []
     end else []) ++
  (if usesMemoryStorage vc
   then [{| vol_Name := dataVolumeName; vol_Source := VolEmptyDir "Memory" (Some (memoryDataSizeLimit vc)) |}] else []).

Definition stsPodSpec (vc : ValkeyCluster) : PodSpec := {|
  ps_RestartPolicy := "";
  ps_InitContainers := applyContainerSecurityContext (containerSecurityContext vc) (stsInitContainers vc);
  ps_Containers := applyContainerSecurityContext (containerSecurityContext vc) (valkeyContainer vc :: exporters vc);
  ps_Volumes := stsVolumes vc; ps_NodeSelector := Spec_NodeSelector (Spec vc); ps_Tolerations := Spec_Tolerations (Spec vc);
  ps_Affinity := match Spec_Affinity (Spec vc) with Some a => Some a | None => Some (defaultAntiAffinity vc) end;
  ps_TopologySpreadConstraints :=
    match Spec_TopologySpreadConstraints (Spec vc) with [] => defaultTopologySpread vc | tsc => tsc end;
  ps_ImagePullSecrets := Spec_ImagePullSecrets (Spec vc); ps_SecurityContext := podSecurityContext vc;
  ps_TerminationGracePeriodSeconds := clusterShutdownGracePeriod vc |}.
Definition stsTemplate (vc : ValkeyCluster) (configHash : string) : PodTemplateSpec := {|
  pt_Labels := podLabelsFor vc (labelsFor vc); pt_Annotations := stsAnnotations vc configHash; pt_Spec := stsPodSpec vc |}.
Definition buildStatefulSet (vc : ValkeyCluster) (configHash : string) (proactive : bool) : StatefulSet := {|
  sts_Name := statefulSetName vc; sts_Namespace := vcNamespace vc; sts_Labels := labelsFor vc; sts_Annotations := ∅;
  sts_Generation := 0; sts_Replicas := Some (statefulSetReplicas vc); sts_ServiceName := headlessServiceName vc;
  sts_PodManagementPolicy := "Parallel"; sts_UpdateStrategy := updateStrategyFor proactive; sts_Selector := labelsFor vc;
  sts_Template := stsTemplate vc configHash;
  sts_VolumeClaimTemplates := if usesMemoryStorage vc then [] else [buildDataPVC vc];
  sts_ObservedGeneration := 0; sts_ReadyReplicas := 0; sts_UpdatedReplicas := 0; sts_CurrentRevision := "";
  sts_UpdateRevision := "" |}.

Definition set_ps_Affinity (a : option Affinity) (p : PodSpec) : PodSpec := {|
  ps_RestartPolicy := ps_RestartPolicy p; ps_InitContainers := ps_InitContainers p; ps_Containers := ps_Containers p;
  ps_Volumes := ps_Volumes p; ps_NodeSelector := ps_NodeSelector p; ps_Tolerations := ps_Tolerations p; ps_Affinity := a;
  ps_TopologySpreadConstraints := ps_TopologySpreadConstraints p; ps_ImagePullSecrets := ps_ImagePullSecrets p;
  ps_SecurityContext := ps_SecurityContext p; ps_TerminationGracePeriodSeconds := ps_TerminationGracePeriodSeconds p |}.
Definition buildShardStatefulSet (vc : ValkeyCluster) (shard : Z) (configHash : string) (proactive : bool) : StatefulSet :=
  let sts := buildStatefulSet vc configHash proactive in
  let sl := shardLabelsFor vc shard in
  let tpl := sts_Template sts in {|
  sts_Name := shardStsName vc shard; sts_Namespace := sts_Namespace sts; sts_Labels := sl; sts_Annotations := sts_Annotations sts;
  sts_Generation := sts_Generation sts; sts_Replicas := Some (wrap32 (1 + replicasPerShardOf vc));
  sts_ServiceName := shardHeadlessName vc shard; sts_PodManagementPolicy := sts_PodManagementPolicy sts;
  sts_UpdateStrategy := sts_UpdateStrategy sts; sts_Selector := sl;
  sts_Template := {| pt_Labels := podLabelsFor vc sl; pt_Annotations := pt_Annotations tpl;
                     pt_Spec := match Spec_Affinity (Spec vc) with
                                | None => set_ps_Affinity (Some (shardAntiAffinity vc shard)) (pt_Spec tpl)
                                | Some _ => pt_Spec tpl
                                end |};
  sts_VolumeClaimTemplates := sts_VolumeClaimTemplates sts;
  sts_ObservedGeneration := sts_ObservedGeneration sts; sts_ReadyReplicas := sts_ReadyReplicas sts;
  sts_UpdatedReplicas := sts_UpdatedReplicas sts; sts_CurrentRevision := sts_CurrentRevision sts;
  sts_UpdateRevision := sts_UpdateRevision sts |}.

(** ** The Sentinels (sentinel.go) *)
Definition sentinelLabels (vc : ValkeyCluster) : gmap string string := <[componentLabel := componentSentinel]> (labelsFor vc).
Definition sentinelPodLabels (vc : ValkeyCluster) : gmap string string :=
  <[sentinelPlaneLabel := componentSentinel]> (sentinelLabels vc).
Definition sentinelMetricsEnabled (vc : ValkeyCluster) : bool :=
  match Spec_Metrics (Spec vc) with Some m => (Metrics_Enabled m && Metrics_Sentinel m && isSentinel vc)%bool | None => false end.
Definition sentinelPodNames (vc : ValkeyCluster) : list string :=
  match Spec_Sentinel (Spec vc) with
  | None => []
  | Some s => (λ i, sentinelStatefulSetName vc +:+ "-" +:+ Itoa i) <$> zrange 0 (Sentinel_Replicas s)
  end.
Definition sentinelInitEnv (vc : ValkeyCluster) : list EnvVar :=
  if AuthEnabled (Spec vc)
  then [{| env_Name := envValkeyPassword; env_From := secretRef (authSecretName vc) secretKeyPassword |}] else [].
Definition renderSentinelInitScript (vc : ValkeyCluster) : string :=
  let auth := cliAuthArgs vc in
  let tlsArgs := cliTLSArgs vc in
  unlines [
    "set -eu";
    "RT=" +:+ dataMountPath +:+ "/runtime-sentinel.conf";
    q "NEW=`$RT.new`";
    "cp /etc/sentinel/" +:+ sentinelConfigName +:+ q " `$NEW`";
    q "if [ -f `$RT` ]; then";
    q "  awk '$1 == `sentinel` && ($2 == `myid` || $2 == `current-epoch`)' `$RT` >> `$NEW`";
    "fi";
    "STS=" +:+ sentinelStatefulSetName vc;
    q "ME=`${HOSTNAME##*-}`";
    "BEST_EPOCH=-1";
    q "BEST_HOST=``";
    q "BEST_PORT=``";
    "# The Sentinel count is not rendered here, so a Sentinel scale does not roll the";
    "# Sentinels: start at the CRD minimum and raise it to what the others report.";
    "i=0";
    "n=3";
    q "while [ `$i` -lt `$n` ]; do";
    q "  if [ `$i` != `$ME` ]; then";
    q "    OUT=$(timeout 3 valkey-cli -h `$STS-$i.$STS` -p " +:+ Itoa (sentinelListenPort vc) +:+ tlsArgs +:+ auth +:+ " SENTINEL MASTER " +:+ sentinelMasterName +:+ " 2>/dev/null || true)";
    "    set -- $(printf '%s";
    q "' `$OUT` | awk 'NR % 2 == 1 { k = $0 } NR % 2 == 0 { v[k] = $0 } END { if (v[`ip`] != `` && v[`config-epoch`] ~ /^[0-9]+$/ && v[`num-other-sentinels`] ~ /^[0-9]+$/) print v[`ip`], v[`port`], v[`config-epoch`], v[`num-other-sentinels`] }')";
    q "    if [ `$#` -eq 4 ]; then";
    q "      if [ `$(($4 + 1))` -gt `$n` ]; then";
    "        n=$(($4 + 1))";
    "      fi";
    q "      if [ `$3` -gt `$BEST_EPOCH` ]; then";
    "        BEST_HOST=$1";
    "        BEST_PORT=$2";
    "        BEST_EPOCH=$3";
    "      fi";
    "    fi";
    "  fi";
    "  i=$((i + 1))";
    "done";
    q "if [ -n `$BEST_HOST` ]; then";
    q "  echo `monitoring $BEST_HOST:$BEST_PORT (config-epoch $BEST_EPOCH) as reported by the other Sentinels`";
    q "  awk -v h=`$BEST_HOST` -v p=`$BEST_PORT` '$1 == `sentinel` && $2 == `monitor` && $3 == `" +:+ sentinelMasterName +:+ q "` { $4 = h; $5 = p } { print }' `$NEW` > `$NEW.m`";
    q "  mv `$NEW.m` `$NEW`";
    q "  echo `sentinel config-epoch " +:+ sentinelMasterName +:+ q " $BEST_EPOCH` >> `$NEW`";
    "fi";
    q "mv `$NEW` `$RT`"].
Definition sentinelPVC (vc : ValkeyCluster) : PersistentVolumeClaim := {|
  pvc_Name := dataVolumeName; pvc_Namespace := ""; pvc_Labels := sentinelLabels vc; pvc_AccessModes := ["ReadWriteOnce"];
  pvc_StorageClassName := Spec_Storage (Spec vc) ≫= Storage_StorageClassName;
  pvc_Requests := {[ResourceStorage := 1073741824%Z]} |}.
Definition sentinelExporters (vc : ValkeyCluster) : list Container :=
  match Spec_Metrics (Spec vc) with
  | Some m => if sentinelMetricsEnabled vc then [buildSentinelExporter vc m] else []
  | None => []
  end.
(** [s] is [spec.sentinel], which is set whenever a Sentinel StatefulSet is built. *)
Definition buildSentinelStatefulSet (vc : ValkeyCluster) (s : SentinelSpec) (proactive : bool) : StatefulSet :=
  let image := if Sentinel_Image s == "" then Spec_Image (Spec vc) else Sentinel_Image s in
  let port := sentinelListenPort vc in
  let volumeMounts := [mount configVolumeName "/etc/sentinel" true; mount dataVolumeName dataMountPath false] ++
                      (if tlsEnabled vc then [tlsMount] else []) in
  let volumes := [{| vol_Name := "config"; vol_Source := VolConfigMap (vcName vc +:+ "-sentinel-config") [] |}] ++
                 (if tlsEnabled vc then [{| vol_Name := tlsVolumeName; vol_Source := VolSecret (tlsSecretName vc) [] |}] else []) in
  let init := {|
    ctr_Name := "sentinel-init"; ctr_Image := image; ctr_ImagePullPolicy := Spec_ImagePullPolicy (Spec vc);
    ctr_Command := [shellCmd; "-c"; renderSentinelInitScript vc]; ctr_Args := []; ctr_Env := sentinelInitEnv vc; ctr_Ports := [];
    ctr_Resources := noResources; ctr_VolumeMounts := volumeMounts; ctr_ReadinessProbe := None; ctr_LivenessProbe := None;
    ctr_SecurityContext := Some (containerSecurityContext vc) |} in
  let main := {|
    ctr_Name := componentSentinel; ctr_Image := image; ctr_ImagePullPolicy := Spec_ImagePullPolicy (Spec vc);
    ctr_Command := ["valkey-server"]; ctr_Args := [dataMountPath +:+ "/runtime-sentinel.conf"; "--sentinel"]; ctr_Env := [];
    ctr_Ports := [{| cp_Name := componentSentinel; cp_ContainerPort := port; cp_Protocol := ProtocolTCP |}];
    ctr_Resources := Sentinel_Resources s; ctr_VolumeMounts := volumeMounts;
    ctr_ReadinessProbe := Some (valkeyProbe vc port 5 5); ctr_LivenessProbe := Some (valkeyProbe vc port 15 20);
    ctr_SecurityContext := Some (containerSecurityContext vc) |} in
  {| sts_Name := sentinelStatefulSetName vc; sts_Namespace := vcNamespace vc; sts_Labels := sentinelLabels vc; sts_Annotations := ∅;
     sts_Generation := 0; sts_Replicas := Some (Sentinel_Replicas s); sts_ServiceName := sentinelStatefulSetName vc;
     sts_PodManagementPolicy := ""; sts_UpdateStrategy := updateStrategyFor proactive; sts_Selector := sentinelLabels vc;
     sts_Template := {|
       pt_Labels := podLabelsFor vc (sentinelPodLabels vc); pt_Annotations := ∅;
       pt_Spec := {|
         ps_RestartPolicy := ""; ps_InitContainers := [init]; ps_Containers := main :: sentinelExporters vc; ps_Volumes := volumes;
         ps_NodeSelector := Spec_NodeSelector (Spec vc); ps_Tolerations := Spec_Tolerations (Spec vc);
         ps_Affinity := Some (sentinelAffinity vc); ps_TopologySpreadConstraints := defaultTopologySpread vc;
         ps_ImagePullSecrets := Spec_ImagePullSecrets (Spec vc); ps_SecurityContext := podSecurityContext vc;
         ps_TerminationGracePeriodSeconds := None |} |};
     sts_VolumeClaimTemplates := [sentinelPVC vc];
     sts_ObservedGeneration := 0; sts_ReadyReplicas := 0; sts_UpdatedReplicas := 0; sts_CurrentRevision := "";
     sts_UpdateRevision := "" |}.

(** The object [ensureSentinelService] applies, with the selector it chose. *)
Definition sentinelService (vc : ValkeyCluster) (selector : gmap string string) : Service := {|
  svc_Name := sentinelStatefulSetName vc; svc_Namespace := vcNamespace vc; svc_Labels := sentinelLabels vc;
  svc_Type := "ClusterIP"; svc_ClusterIP := "None"; svc_PublishNotReadyAddresses := true; svc_Selector := selector;
  svc_Ports := [namedPort componentSentinel (sentinelListenPort vc)] ++
    (if sentinelMetricsEnabled vc
     then [{| sp_Name := sentinelMetricsPortName; sp_Port := exporterPort; sp_TargetPort := StrVal sentinelExporterPortName;
              sp_Protocol := ProtocolTCP |}] else []) |}.

(** ** Disruption budgets *)
Definition buildPDB (vc : ValkeyCluster) : PodDisruptionBudget :=
  let names := sentinelPodNames vc in
  let selector := {|
    MatchLabels := labelsFor vc;
    MatchExpressions := if (isSentinel vc && (0 <? length names)%nat)%bool
                        then [{| lsr_Key := StatefulSetPodNameLabel; lsr_Operator := "NotIn"; lsr_Values := names |}] else [] |} in
  let '(minA, maxU) :=
    match Spec_PodDisruptionBudget (Spec vc) with
    | Some spec =>
        match PDB_MinAvailable spec with
        | Some m => (Some m, None)
        | None => match PDB_MaxUnavailable spec with Some m => (None, Some m) | None => (None, Some (IntVal 1)) end
        end
    | None => (None, Some (IntVal 1))
    end in
  {| pdb_Name := vcName vc +:+ "-pdb"; pdb_Namespace := vcNamespace vc; pdb_Labels := labelsFor vc;
     pdb_Spec := {| pdbs_MinAvailable := minA; pdbs_MaxUnavailable := maxU; pdbs_Selector := Some selector |} |}.
Definition pdbEnabled (vc : ValkeyCluster) : bool :=
  match Spec_PodDisruptionBudget (Spec vc) with
  | None => (1 <? Spec_Replicas (Spec vc))%Z
  | Some p => default true (PDB_Enabled p)
  end.
Definition buildSentinelPDB (vc : ValkeyCluster) : PodDisruptionBudget := {|
  pdb_Name := sentinelStatefulSetName vc +:+ "-pdb"; pdb_Namespace := vcNamespace vc; pdb_Labels := sentinelLabels vc;
  pdb_Spec := {|
    pdbs_MinAvailable := None; pdbs_MaxUnavailable := Some (IntVal 1);
    pdbs_Selector := Some {|
      MatchLabels := sentinelLabels vc;
      MatchExpressions := [{| lsr_Key := StatefulSetPodNameLabel; lsr_Operator := "In"; lsr_Values := sentinelPodNames vc |}] |} |} |}.

(** ** The network policy *)
Definition tcpPort (n : Z) : NetworkPolicyPort :=
  {| np_Protocol := Some ProtocolTCP; np_Port := Some (IntVal n); np_EndPort := None |}.
Definition peerPorts (vc : ValkeyCluster) : list NetworkPolicyPort :=
  [tcpPort (dataPort vc)] ++ (if isCluster vc then [tcpPort clusterBusPort] else []) ++
  (if isSentinel vc then [tcpPort (sentinelListenPort vc)] else []).
Definition peer (pods : LabelSelector) : NetworkPolicyPeer :=
  {| PodSelector := Some pods; NamespaceSelector := None; IPBlock := None |}.
Definition selfPeer (vc : ValkeyCluster) : NetworkPolicyPeer := peer (byLabels (labelsFor vc)).
Definition withDefaultProtocol (r : NetworkPolicyEgressRule) : NetworkPolicyEgressRule := {|
  eg_To := eg_To r;
  eg_Ports := (λ p, match np_Protocol p with
                    | None => {| np_Protocol := Some ProtocolTCP; np_Port := np_Port p; np_EndPort := np_EndPort p |}
                    | Some _ => p
                    end) <$> eg_Ports r |}.
(** [None] is Go's nil: egress is off. *)
Definition buildNetworkPolicyEgress (vc : ValkeyCluster) (self : NetworkPolicyPeer) : option (list NetworkPolicyEgressRule) :=
  match Spec_NetworkPolicy (Spec vc) ≫= NP_Egress with
  | Some e =>
      if Egress_Enabled e then
        let dns := match Egress_DNS e with
                   | [] => [{| NamespaceSelector := Some (byLabels {["kubernetes.io/metadata.name" := "kube-system"]});
                               PodSelector := Some (byLabels {["k8s-app" := "kube-dns"]}); IPBlock := None |}]
                   | dns => dns
                   end in
        let dnsPort proto := {| np_Protocol := Some proto; np_Port := Some (IntVal 53); np_EndPort := None |} in
        Some ([{| eg_To := dns; eg_Ports := [dnsPort ProtocolUDP; dnsPort ProtocolTCP] |};
               {| eg_To := [self]; eg_Ports := peerPorts vc |}] ++ (withDefaultProtocol <$> Egress_Extra e))
      else None
  | None => None
  end.
Definition metricsFromOf (vc : ValkeyCluster) : list NetworkPolicyPeer :=
  match Spec_NetworkPolicy (Spec vc) with Some np => NP_MetricsFrom np | None => [] end.
Definition buildNetworkPolicy (vc : ValkeyCluster) : NetworkPolicy :=
  let metricsFrom := metricsFromOf vc in
  let metricsPorts := [tcpPort exporterPort] in
  let own := bool_decide (metricsFrom = []) in
  let ports := [tcpPort (dataPort vc)] ++ (if (metricsEnabled vc && own)%bool then metricsPorts else []) ++
               (if isSentinel vc then [tcpPort (sentinelListenPort vc)] else []) in
  let allowFrom := match Spec_NetworkPolicy (Spec vc) with Some np => NP_AllowFrom np | None => [] end in
  let self := selfPeer vc in
  let peers := match allowFrom with [] => [peer (byLabels ∅)] | _ => allowFrom end ++ [self] in
  let ingress := [{| ig_From := peers; ig_Ports := ports |}] ++
                 (if isCluster vc then [{| ig_From := [self]; ig_Ports := [tcpPort clusterBusPort] |}] else []) ++
                 (if (metricsEnabled vc && negb own)%bool then [{| ig_From := metricsFrom; ig_Ports := metricsPorts |}] else []) in
  let egress := buildNetworkPolicyEgress vc self in
  {| npol_Name := vcName vc +:+ "-allow"; npol_Namespace := vcNamespace vc; npol_Labels := labelsFor vc;
     npol_Spec := {|
       nps_PodSelector := byLabels (labelsFor vc);
       nps_PolicyTypes := ["Ingress"] ++ (if bool_decide (is_Some egress) then ["Egress"] else []);
       nps_Ingress := ingress; nps_Egress := default [] egress |} |}.
Definition networkPolicyEnabled (vc : ValkeyCluster) : bool :=
  match Spec_NetworkPolicy (Spec vc) with Some np => NP_Enabled np | None => false end.

(** ** Well-formed workloads *)
Definition containersOf (s : StatefulSet) : list Container :=
  ps_InitContainers (pt_Spec (sts_Template s)) ++ ps_Containers (pt_Spec (sts_Template s)).
Definition volumesOf (s : StatefulSet) : list string :=
  (vol_Name <$> ps_Volumes (pt_Spec (sts_Template s))) ++ (pvc_Name <$> sts_VolumeClaimTemplates s).
Definition mountsOf (s : StatefulSet) : list string :=
  c ← containersOf s; vm_Name <$> ctr_VolumeMounts c.
Definition portsOf (s : StatefulSet) : list ContainerPort := containersOf s ≫= ctr_Ports.
(** What the API server and the kubelet require of a StatefulSet. *)
Record wellFormed (s : StatefulSet) : Prop := {
  wf_mounts : mountsOf s ⊆ volumesOf s;
  wf_volumes : NoDup (volumesOf s);
  wf_names : NoDup (ctr_Name <$> containersOf s);
  wf_ports : NoDup (cp_Name <$> portsOf s);
  wf_selector : sts_Selector s ⊆ pt_Labels (sts_Template s)
}.
(** A Service's ports lead to a port of the pods. *)
Definition portServed (s : StatefulSet) (p : ServicePort) : Prop :=
  ∃ cp, cp ∈ portsOf s ∧ cp_ContainerPort cp = sp_Port p ∧
        match sp_TargetPort p with StrVal n => cp_Name cp = n | IntVal n => cp_ContainerPort cp = n end.

Lemma podLabelsFor_contains vc l : l ⊆ podLabelsFor vc l.
Proof. unfold podLabelsFor. case_bool_decide; [done|]. apply map_union_subseteq_l. Qed.
Lemma sourceCAMerge_tls vc : sourceCAMergeEnabled vc = true →
  tlsEnabled vc = true ∧ is_Some (Spec_ReplicateFrom (Spec vc) ≫= RF_CASecret).
Proof.
  unfold sourceCAMergeEnabled. destruct (Spec_ReplicateFrom (Spec vc)) as [r|]; [|done]. intros. bool_hyps. auto.
Qed.

(** The restore container, when there is one, and the exporter. *)
Definition restoring (vc : ValkeyCluster) : bool := bool_decide (is_Some (Spec_RestoreFrom (Spec vc) ≫= Restore_S3)).
Definition when {A} (b : bool) (x : A) : list A := if b then [x] else [].

(** What the data StatefulSet holds, as a function of what the spec switches on. *)
Lemma data_volumesOf vc h p : volumesOf (buildStatefulSet vc h p) =
  [configVolumeName] ++ when (tlsEnabled vc) tlsVolumeName ++ when (sourceCAMergeEnabled vc) sourceCAVolumeName ++ [dataVolumeName].
Proof.
  unfold volumesOf. cbn. unfold stsVolumes, when. pose proof (sourceCAMerge_tls vc) as Hca.
  destruct (sourceCAMergeEnabled vc).
  - destruct Hca as [-> [ca ->]]; [done|]. by destruct (usesMemoryStorage vc).
  - by destruct (tlsEnabled vc), (usesMemoryStorage vc).
Qed.
Lemma data_names vc h p : ctr_Name <$> containersOf (buildStatefulSet vc h p) =
  when (restoring vc) "restore" ++ ["config-init"; appValkey] ++ when (metricsEnabled vc) metricsPortName.
Proof.
  unfold containersOf, restoring, metricsEnabled. cbn. unfold stsInitContainers, exporters.
  destruct (Spec_RestoreFrom (Spec vc)) as [r|]; [destruct (Restore_S3 r) eqn:E|];
    (destruct (Spec_Metrics (Spec vc)) as [m|]; [destruct (Metrics_Enabled m)|]); cbn; rewrite ?E; done.
Qed.
Lemma data_portsOf vc h p : portsOf (buildStatefulSet vc h p) = stsContainerPorts vc ++
  when (metricsEnabled vc) {| cp_Name := metricsPortName; cp_ContainerPort := exporterPort; cp_Protocol := "" |}.
Proof.
  unfold portsOf, containersOf, metricsEnabled. cbn. unfold stsInitContainers, exporters.
  destruct (Spec_RestoreFrom (Spec vc)) as [r|]; [destruct (Restore_S3 r)|];
    (destruct (Spec_Metrics (Spec vc)) as [m|]; [destruct (Metrics_Enabled m)|]); cbn; by rewrite ?app_nil_r.
Qed.
Lemma data_mountsOf vc h p : mountsOf (buildStatefulSet vc h p) =
  when (restoring vc) dataVolumeName ++ (vm_Name <$> configInitMounts vc) ++
  [configVolumeName; dataVolumeName] ++ when (tlsEnabled vc) tlsVolumeName.
Proof.
  unfold mountsOf, containersOf, restoring. cbn. unfold stsInitContainers, exporters.
  destruct (Spec_RestoreFrom (Spec vc)) as [r|]; [destruct (Restore_S3 r) eqn:E|];
    (destruct (Spec_Metrics (Spec vc)) as [m|]; [destruct (Metrics_Enabled m)|]); cbn; rewrite ?E, ?app_nil_r;
    by destruct (tlsEnabled vc).
Qed.

(** Facts about closed lists of names are computed. *)
Ltac by_computation := apply (bool_decide_unpack _); vm_compute; exact I.

Lemma names_declared (l k : list string) : Forall (λ x, x ∈ k) l → l ⊆ k.
Proof. intros H x. revert x. by apply Forall_forall. Qed.

Lemma data_wellFormed vc h p : wellFormed (buildStatefulSet vc h p).
Proof.
  split; [..|apply podLabelsFor_contains]; rewrite ?data_volumesOf, ?data_names, ?data_portsOf, ?data_mountsOf;
    unfold configInitMounts, stsContainerPorts.
  - pose proof (sourceCAMerge_tls vc) as Hca. destruct (sourceCAMergeEnabled vc).
    + destruct Hca as [-> _]; [done|]. destruct (restoring vc), (isSentinel vc); apply names_declared; by_computation.
    + destruct (tlsEnabled vc), (restoring vc), (isSentinel vc); apply names_declared; by_computation.
  - destruct (tlsEnabled vc), (sourceCAMergeEnabled vc); by_computation.
  - destruct (restoring vc), (metricsEnabled vc); by_computation.
  - destruct (isCluster vc), (metricsEnabled vc); by_computation.
Qed.
Lemma shard_wellFormed vc i h p : wellFormed (buildShardStatefulSet vc i h p).
Proof.
  assert (containersOf (buildShardStatefulSet vc i h p) = containersOf (buildStatefulSet vc h p)) as Hc
    by (unfold containersOf; cbn; by destruct (Spec_Affinity (Spec vc))).
  assert (volumesOf (buildShardStatefulSet vc i h p) = volumesOf (buildStatefulSet vc h p)) as Hv
    by (unfold volumesOf; cbn; by destruct (Spec_Affinity (Spec vc))).
  destruct (data_wellFormed vc h p) as [H1 H2 H3 H4 _].
  split; [..|apply podLabelsFor_contains]; unfold mountsOf, portsOf in *; by rewrite ?Hc, ?Hv.
Qed.
Lemma sentinel_names vc s p : ctr_Name <$> containersOf (buildSentinelStatefulSet vc s p) =
  ["sentinel-init"; componentSentinel] ++ when (sentinelMetricsEnabled vc) metricsPortName.
Proof.
  unfold containersOf. cbn. unfold sentinelExporters, sentinelMetricsEnabled.
  destruct (Spec_Metrics (Spec vc)) as [m|]; [|done]. by destruct (_ && isSentinel vc)%bool.
Qed.
Lemma sentinel_portsOf vc s p : portsOf (buildSentinelStatefulSet vc s p) =
  [{| cp_Name := componentSentinel; cp_ContainerPort := sentinelListenPort vc; cp_Protocol := ProtocolTCP |}] ++
  when (sentinelMetricsEnabled vc)
    {| cp_Name := sentinelExporterPortName; cp_ContainerPort := exporterPort; cp_Protocol := "" |}.
Proof.
  unfold portsOf, containersOf. cbn. unfold sentinelExporters, sentinelMetricsEnabled.
  destruct (Spec_Metrics (Spec vc)) as [m|]; [|done]. by destruct (_ && isSentinel vc)%bool.
Qed.
Lemma sentinel_mountsOf vc s p : mountsOf (buildSentinelStatefulSet vc s p) =
  let m := [configVolumeName; dataVolumeName] ++ when (tlsEnabled vc) tlsVolumeName in m ++ m.
Proof.
  unfold mountsOf, containersOf. cbn. unfold sentinelExporters.
  destruct (tlsEnabled vc), (Spec_Metrics (Spec vc)) as [m|]; cbn; try destruct (sentinelMetricsEnabled vc); done.
Qed.
Lemma sentinel_wellFormed vc s p : wellFormed (buildSentinelStatefulSet vc s p).
Proof.
  split; rewrite ?sentinel_names, ?sentinel_portsOf, ?sentinel_mountsOf; unfold volumesOf; cbn [sts_Template pt_Spec ps_Volumes
    buildSentinelStatefulSet sts_VolumeClaimTemplates sts_Selector pt_Labels].
  - destruct (tlsEnabled vc); apply names_declared; by_computation.
  - destruct (tlsEnabled vc); by_computation.
  - destruct (sentinelMetricsEnabled vc); by_computation.
  - destruct (sentinelMetricsEnabled vc); by_computation.
  - etrans; [|apply podLabelsFor_contains]. apply insert_subseteq.
    unfold sentinelLabels. rewrite lookup_insert_ne by done. unfold labelsFor. cbn.
    by repeat (rewrite lookup_insert_ne by done).
Qed.

Lemma shard_portsOf vc i h p : portsOf (buildShardStatefulSet vc i h p) = portsOf (buildStatefulSet vc h p).
Proof. unfold portsOf, containersOf. cbn. by destruct (Spec_Affinity (Spec vc)). Qed.
Lemma served_all s cps l : portsOf s = cps →
  Forall (λ p, Exists (λ cp, cp_ContainerPort cp = sp_Port p ∧
    match sp_TargetPort p with StrVal n => cp_Name cp = n | IntVal n => cp_ContainerPort cp = n end) cps) l →
  Forall (portServed s) l.
Proof. intros <- H. eapply Forall_impl; [exact H|]. intros p (cp & ? & ?)%Exists_exists. by exists cp. Qed.
Ltac serve lem :=
  eapply served_all; [apply lem|]; cbn; unfold stsContainerPorts, when;
  repeat case_match; cbn; repeat apply Forall_cons_2; try apply Forall_nil_2;
  repeat first [apply Exists_cons_hd; by split | apply Exists_cons_tl].


(** ** Scaling does not roll the pods *)
Definition set_Sentinel_Replicas (n : Z) (s : SentinelSpec) : SentinelSpec := {|
  Sentinel_Replicas := n; Sentinel_Quorum := Sentinel_Quorum s; Sentinel_Image := Sentinel_Image s;
  Sentinel_Resources := Sentinel_Resources s; Sentinel_DownAfterMilliseconds := Sentinel_DownAfterMilliseconds s;
  Sentinel_FailoverTimeout := Sentinel_FailoverTimeout s |}.
(** The same cluster in another size, and with another status. *)
Definition resized (vc : ValkeyCluster) (replicas : Z) (shards perShard : option Z) (sentinels : Z)
    (st : ValkeyClusterStatus) : ValkeyCluster := {|
  Meta := Meta vc;
  Spec := set_Spec_Replicas replicas (set_Spec_Shards shards (set_Spec_ReplicasPerShard perShard
            (set_Spec_Sentinel (set_Sentinel_Replicas sentinels <$> Spec_Sentinel (Spec vc)) (Spec vc))));
  Status := st |}.

Section resize.
Context (vc : ValkeyCluster) (replicas : Z) (shards perShard : option Z) (sentinels : Z) (st : ValkeyClusterStatus).
Let vc' := resized vc replicas shards perShard sentinels st.

Lemma resized_conf password : renderValkeyConf vc' password = renderValkeyConf vc password.
Proof. unfold vc', resized. by destruct vc as [? []]. Qed.
Lemma resized_has_sentinel :
  bool_decide (is_Some (Spec_Sentinel (Spec vc'))) = bool_decide (is_Some (Spec_Sentinel (Spec vc))).
Proof. unfold vc', resized. destruct vc as [? []]. apply bool_decide_ext. cbn. by rewrite fmap_is_Some. Qed.
Lemma resized_initScript : renderInitScript vc' = renderInitScript vc.
Proof.
  unfold renderInitScript. rewrite resized_has_sentinel. unfold vc', resized. by destruct vc as [? []].
Qed.
Lemma resized_guard : sentinelPrimaryGuardActive vc' = sentinelPrimaryGuardActive vc.
Proof.
  unfold sentinelPrimaryGuardActive. rewrite resized_has_sentinel. unfold vc', resized. by destruct vc as [? []].
Qed.
Lemma resized_valkeyContainer : valkeyContainer vc' = valkeyContainer vc.
Proof. unfold valkeyContainer. rewrite resized_guard. unfold vc', resized. by destruct vc as [? []]. Qed.
Lemma resized_initContainers :
  (isCluster vc = true → restoring vc = true → shards = Spec_Shards (Spec vc)) → stsInitContainers vc' = stsInitContainers vc.
Proof.
  intros Hs. unfold stsInitContainers. rewrite resized_initScript.
  assert (Spec_RestoreFrom (Spec vc') = Spec_RestoreFrom (Spec vc)) as -> by (unfold vc', resized; by destruct vc as [? []]).
  f_equal; [|unfold vc', resized; by destruct vc as [? []]].
  unfold restoring in Hs. destruct (Spec_RestoreFrom (Spec vc)) as [r|]; [|done]. cbn in Hs.
  destruct (Restore_S3 r) as [s3|]; [|done]. unfold buildRestoreInitContainer.
  assert (isCluster vc' = isCluster vc) as Hc by (unfold vc', resized; by destruct vc as [? []]).
  assert (restoreScript vc' r s3 = restoreScript vc r s3) as ->; [|done].
  unfold restoreScript. rewrite Hc. destruct (isCluster vc); [|done].
  assert (shardCountOf vc' = shardCountOf vc) as ->; [|done].
  unfold shardCountOf. rewrite <-Hs by done. unfold vc', resized. by destruct vc as [? []].
Qed.
End resize.

(** Scaling never rolls a pod: another number of replicas, shards, replicas per shard or
    Sentinels, and whatever the status records, leaves the pod templates of the data pods, of
    each shard and of the Sentinels, and valkey.conf, exactly as they were.  The exceptions are
    where the size is rendered: the shard count when a Cluster is restored from a backup, and
    sentinel.conf when the quorum is derived from the number of Sentinels. *)
Theorem scaling_keeps_template vc replicas shards perShard sentinels st hash proactive shard password s
    (vc' := resized vc replicas shards perShard sentinels st) :
  (isCluster vc = true → restoring vc = true → shards = Spec_Shards (Spec vc)) →
  sts_Template (buildStatefulSet vc' hash proactive) = sts_Template (buildStatefulSet vc hash proactive) ∧
  sts_Template (buildShardStatefulSet vc' shard hash proactive) = sts_Template (buildShardStatefulSet vc shard hash proactive) ∧
  sts_Template (buildSentinelStatefulSet vc' (set_Sentinel_Replicas sentinels s) proactive) =
    sts_Template (buildSentinelStatefulSet vc s proactive) ∧
  renderValkeyConf vc' password = renderValkeyConf vc password ∧
  (Sentinel_Quorum s ≠ 0%Z →
   renderSentinelConf vc' (set_Sentinel_Replicas sentinels s) password = renderSentinelConf vc s password).
Proof.
  intros Hs.
  assert (stsPodSpec vc' = stsPodSpec vc) as Hp.
  { unfold stsPodSpec. unfold vc'. rewrite resized_initContainers by done. rewrite resized_valkeyContainer.
    unfold resized. by destruct vc as [? []]. }
  split_and!.
  - cbn. unfold stsTemplate. rewrite Hp. unfold vc', resized. by destruct vc as [? []].
  - cbn. rewrite Hp. unfold vc', resized. by destruct vc as [? []].
  - unfold vc', resized. by destruct vc as [? []].
  - apply resized_conf.
  - intros Hq. unfold renderSentinelConf, sentinelLines, monitorLine, sentinelQuorum. cbn.
    rewrite bool_decide_false by done. unfold vc', resized. by destruct vc as [? []].
Qed.

(** ** Disruption budgets *)

(** How Kubernetes evaluates a label selector. *)
Definition requirementHolds (l : gmap string string) (r : LabelSelectorRequirement) : bool :=
  match l !! lsr_Key r with
  | Some v => if lsr_Operator r == "In" then bool_decide (v ∈ lsr_Values r)
              else if lsr_Operator r == "NotIn" then bool_decide (v ∉ lsr_Values r)
              else (lsr_Operator r == "Exists")
  | None => ((lsr_Operator r == "NotIn") || (lsr_Operator r == "DoesNotExist"))%bool
  end.
Definition selects (sel : LabelSelector) (l : gmap string string) : bool :=
  (bool_decide (MatchLabels sel ⊆ l) && forallb (requirementHolds l) (MatchExpressions sel))%bool.
(** An empty selector of a budget selects nothing in policy/v1 when it is nil. *)
Definition covers (pdb : PodDisruptionBudget) (l : gmap string string) : bool :=
  match pdbs_Selector (pdb_Spec pdb) with Some sel => selects sel l | None => false end.
(** The labels of pod [i] of a StatefulSet: the template's, and the pod-name label. *)
Definition podLabels (s : StatefulSet) (i : Z) : gmap string string :=
  <[StatefulSetPodNameLabel := sts_Name s +:+ "-" +:+ Itoa i]> (pt_Labels (sts_Template s)).

Lemma podName_not_sentinel vc i : (0 ≤ i)%Z → (statefulSetName vc +:+ "-" +:+ Itoa i) ∉ sentinelPodNames vc.
Proof.
  intros Hi. unfold sentinelPodNames. destruct (Spec_Sentinel (Spec vc)); [|apply not_elem_of_nil].
  intros (j & E & _)%list_elem_of_fmap. unfold statefulSetName, sentinelStatefulSetName in E.
  rewrite <-str_app_assoc in E. apply str_app_inj_l in E. change ("-" +:+ Itoa i = "-" +:+ ("sentinel-" +:+ Itoa j)) in E.
  apply str_app_inj_l in E. pose proof (Itoa_digits i Hi) as Hd. rewrite E in Hd. done.
Qed.
Lemma labels_subset_pod (l m : gmap string string) v :
  l ⊆ m → l !! StatefulSetPodNameLabel = None → l ⊆ <[StatefulSetPodNameLabel := v]> m.
Proof. intros Hl Hn. by apply insert_subseteq_r. Qed.
Lemma labelsFor_lookup_other vc k :
  k ∉ [nameLabel; instanceLabel; partOfLabel; managedByLabel; componentLabel] → labelsFor vc !! k = None.
Proof.
  intros Hk. apply not_elem_of_list_to_map_1. cbn. done.
Qed.

Lemma sentinelLabels_own vc : isSentinel vc = true → sentinelLabels vc = labelsFor vc.
Proof.
  intros Ht%bool_decide_eq_true. unfold sentinelLabels. apply insert_id. unfold labelsFor. rewrite Ht. reflexivity.
Qed.
Lemma notIn_holds l k vs :
  requirementHolds l {| lsr_Key := k; lsr_Operator := "NotIn"; lsr_Values := vs |} = true ↔ (∀ v, l !! k = Some v → v ∉ vs).
Proof.
  unfold requirementHolds. cbn [lsr_Key lsr_Operator lsr_Values]. destruct (l !! k) as [v|]; [|done].
  rewrite (bool_decide_false ("NotIn" = "In")), (bool_decide_true ("NotIn" = "NotIn")), bool_decide_eq_true by done. naive_solver.
Qed.
Lemma in_holds l k vs :
  requirementHolds l {| lsr_Key := k; lsr_Operator := "In"; lsr_Values := vs |} = true ↔ (∃ v, l !! k = Some v ∧ v ∈ vs).
Proof.
  unfold requirementHolds. cbn [lsr_Key lsr_Operator lsr_Values]. destruct (l !! k) as [v|]; [|naive_solver].
  rewrite (bool_decide_true ("In" = "In")), bool_decide_eq_true by done. naive_solver.
Qed.
Section budgets.
Context (vc : ValkeyCluster) (s : SentinelSpec).
Context (Ht : isSentinel vc = true) (Hs : Spec_Sentinel (Spec vc) = Some s) (Hr : (0 < Sentinel_Replicas s)%Z).

Lemma sentinelPodNames_spec v :
  v ∈ sentinelPodNames vc ↔ ∃ i, (0 ≤ i < Sentinel_Replicas s)%Z ∧ v = sentinelStatefulSetName vc +:+ "-" +:+ Itoa i.
Proof.
  unfold sentinelPodNames. rewrite Hs, list_elem_of_fmap. setoid_rewrite elem_of_zrange. naive_solver.
Qed.
Lemma covers_data l : covers (buildPDB vc) l = true ↔
  labelsFor vc ⊆ l ∧ (∀ v, l !! StatefulSetPodNameLabel = Some v → v ∉ sentinelPodNames vc).
Proof.
  assert ((0 <? length (sentinelPodNames vc))%nat = true) as Hn.
  { apply Nat.ltb_lt. unfold sentinelPodNames. rewrite Hs, length_fmap, length_zrange. lia. }
  assert (pdbs_Selector (pdb_Spec (buildPDB vc)) = Some {| MatchLabels := labelsFor vc;
     MatchExpressions := [{| lsr_Key := StatefulSetPodNameLabel; lsr_Operator := "NotIn"; lsr_Values := sentinelPodNames vc |}] |}) as E.
  { unfold buildPDB. rewrite Ht, Hn. cbn [andb]. by repeat case_match. }
  unfold covers, selects. rewrite E. cbn [MatchLabels MatchExpressions forallb].
  rewrite andb_true_r, andb_true_iff, bool_decide_eq_true. f_equiv. apply notIn_holds.
Qed.
Lemma covers_sentinel l : covers (buildSentinelPDB vc) l = true ↔
  labelsFor vc ⊆ l ∧ (∃ v, l !! StatefulSetPodNameLabel = Some v ∧ v ∈ sentinelPodNames vc).
Proof.
  unfold covers, selects. cbn [buildSentinelPDB pdb_Spec pdbs_Selector MatchLabels MatchExpressions forallb].
  rewrite sentinelLabels_own, andb_true_r, andb_true_iff, bool_decide_eq_true by done. f_equiv. apply in_holds.
Qed.
Lemma podLabels_labelsFor (sts : StatefulSet) i : labelsFor vc ⊆ pt_Labels (sts_Template sts) → labelsFor vc ⊆ podLabels sts i.
Proof. intros Hl. apply labels_subset_pod; [done|]. apply labelsFor_lookup_other. by_computation. Qed.
End budgets.

(** In the Sentinel topology the two disruption budgets split the pods: no pod is covered by
    both (an eviction would be refused), every data pod is covered by the data budget alone and
    every Sentinel pod by the Sentinels' alone, although all of them carry the same labels; and
    the Sentinels' budget lets one go at a time. *)
Theorem pdb_partition vc s hash proactive :
  isSentinel vc = true → Spec_Sentinel (Spec vc) = Some s → (0 < Sentinel_Replicas s)%Z →
  (∀ l, covers (buildPDB vc) l = true → covers (buildSentinelPDB vc) l = false) ∧
  (∀ i, (0 ≤ i)%Z → covers (buildPDB vc) (podLabels (buildStatefulSet vc hash proactive) i) = true) ∧
  (∀ i, (0 ≤ i < Sentinel_Replicas s)%Z →
        covers (buildSentinelPDB vc) (podLabels (buildSentinelStatefulSet vc s proactive) i) = true) ∧
  pdbs_MaxUnavailable (pdb_Spec (buildSentinelPDB vc)) = Some (IntVal 1).
Proof.
  intros Ht Hs Hr. split_and!; [| | |done].
  - intros l [_ Hn]%(covers_data _ _ Ht Hs Hr). apply not_true_iff_false.
    intros (_ & v & Hv & Hin)%(covers_sentinel _ Ht). by apply (Hn v).
  - intros i Hi. apply (covers_data _ _ Ht Hs Hr). split; [apply podLabels_labelsFor, podLabelsFor_contains|].
    intros v. unfold podLabels. rewrite lookup_insert, decide_True by done. intros [= <-]. by apply podName_not_sentinel.
  - intros i Hi. apply (covers_sentinel _ Ht). split.
    + apply podLabels_labelsFor. rewrite <-sentinelLabels_own by done. apply (wf_selector _ (sentinel_wellFormed vc s proactive)).
    + eexists. unfold podLabels. rewrite lookup_insert, decide_True by done. split; [done|].
      apply (sentinelPodNames_spec _ _ Hs). by exists i.
Qed.

(** ** The network policy *)
Definition admits (np : NetworkPolicy) (from : NetworkPolicyPeer) (p : NetworkPolicyPort) : Prop :=
  ∃ r, r ∈ nps_Ingress (npol_Spec np) ∧ from ∈ ig_From r ∧ p ∈ ig_Ports r.

Lemma peerPorts_ingress vc p : p ∈ peerPorts vc → admits (buildNetworkPolicy vc) (selfPeer vc) p.
Proof.
  unfold admits, peerPorts, buildNetworkPolicy. cbn [npol_Spec nps_Ingress].
  destruct (isCluster vc), (isSentinel vc); cbn [app]; intros Hp; rewrite ?elem_of_cons, ?elem_of_nil in Hp; destruct_or?; subst;
    try done;
    first [eexists; split; [left|]; cbn [ig_From ig_Ports]; split; [apply elem_of_app; right; by left|set_solver]
          |eexists; split; [right; left|]; cbn [ig_From ig_Ports]; split; [by left|by left]].
Qed.
(** The ports the cluster's own containers listen on for each other. *)
Lemma listening_peerPorts vc cp : cp ∈ stsContainerPorts vc → tcpPort (cp_ContainerPort cp) ∈ peerPorts vc.
Proof.
  unfold stsContainerPorts, peerPorts. intros Hcp.
  destruct (isCluster vc); cbn [app] in Hcp; rewrite ?elem_of_cons, ?elem_of_nil in Hcp; destruct_or?; subst; try done;
    cbn [cp_ContainerPort app]; set_solver.
Qed.
Lemma tcpPort_inj a b : tcpPort a = tcpPort b → a = b.
Proof. by intros [= ->]. Qed.
(** Each rule but the first is for one port only. *)
Lemma ingress_rules vc r : r ∈ nps_Ingress (npol_Spec (buildNetworkPolicy vc)) →
  (∀ n, tcpPort n ∈ ig_Ports r → n = dataPort vc ∨ n = sentinelListenPort vc ∨ n = exporterPort ∧ metricsFromOf vc = []) ∨
  r = {| ig_From := [selfPeer vc]; ig_Ports := [tcpPort clusterBusPort] |} ∨
  r = {| ig_From := metricsFromOf vc; ig_Ports := [tcpPort exporterPort] |}.
Proof.
  unfold buildNetworkPolicy. cbn [npol_Spec nps_Ingress]. intros Hr.
  apply elem_of_app in Hr as [->%list_elem_of_singleton|Hr]; [left|right].
  - cbn [ig_Ports]. intros n Hn. case_bool_decide as Hm; destruct (metricsEnabled vc), (isSentinel vc); cbn [andb app] in Hn;
      rewrite ?elem_of_cons, ?elem_of_nil in Hn; destruct_or?; try done; repeat match goal with H : tcpPort _ = tcpPort _ |- _ => apply tcpPort_inj in H end; auto.
  - destruct (isCluster vc), (metricsEnabled vc && _)%bool; cbn [app] in Hr; rewrite ?elem_of_cons, ?elem_of_nil in Hr;
      destruct_or?; try done; auto.
Qed.
Lemma known_ports vc : dataPort vc ≠ clusterBusPort ∧ sentinelListenPort vc ≠ clusterBusPort ∧
  dataPort vc ≠ exporterPort ∧ sentinelListenPort vc ≠ exporterPort ∧ clusterBusPort ≠ exporterPort.
Proof. unfold dataPort, sentinelListenPort. by destruct (tlsEnabled vc). Qed.

(** With the network policy on, the cluster can still talk to itself and its bus stays
    private: every port the Valkey and Sentinel containers listen on is admitted from the
    cluster's own pods and, when egress is restricted, also allowed towards them, next to DNS;
    the cluster bus port is admitted from the cluster's own pods alone; and metrics are admitted
    from [metricsFrom] alone when that is set. *)
Theorem networkPolicy_peers vc s proactive (np := buildNetworkPolicy vc) :
  (∀ cp, cp ∈ stsContainerPorts vc → admits np (selfPeer vc) (tcpPort (cp_ContainerPort cp))) ∧
  (isSentinel vc = true → ∀ cp, cp ∈ take 1 (portsOf (buildSentinelStatefulSet vc s proactive)) →
     admits np (selfPeer vc) (tcpPort (cp_ContainerPort cp))) ∧
  (∀ from, admits np from (tcpPort clusterBusPort) → from = selfPeer vc) ∧
  (∀ from nspec, Spec_NetworkPolicy (Spec vc) = Some nspec → NP_MetricsFrom nspec ≠ [] →
     admits np from (tcpPort exporterPort) → from ∈ NP_MetricsFrom nspec) ∧
  (∀ rules, buildNetworkPolicyEgress vc (selfPeer vc) = Some rules →
     nps_Egress (npol_Spec np) = rules ∧ "Egress" ∈ nps_PolicyTypes (npol_Spec np) ∧
     {| eg_To := [selfPeer vc]; eg_Ports := peerPorts vc |} ∈ rules).
Proof.
  split_and!.
  - intros cp Hcp. by apply peerPorts_ingress, listening_peerPorts.
  - intros Ht cp Hcp. rewrite sentinel_portsOf in Hcp. apply list_elem_of_singleton in Hcp as ->.
    apply peerPorts_ingress. unfold peerPorts. rewrite Ht. cbn [cp_ContainerPort]. set_solver.
  - intros from (r & Hr & Hf & Hp). destruct (known_ports vc) as (? & ? & ? & ? & ?).
    apply ingress_rules in Hr as [Hr|[-> | ->]]; [|by apply list_elem_of_singleton in Hf|].
    + destruct (Hr _ Hp) as [?|[?|[? _]]]; congruence.
    + by apply list_elem_of_singleton, tcpPort_inj in Hp.
  - intros from nspec Hn Hne (r & Hr & Hf & Hp). destruct (known_ports vc) as (? & ? & ? & ? & ?).
    apply ingress_rules in Hr. unfold metricsFromOf in Hr. rewrite Hn in Hr. destruct Hr as [Hr|[-> | ->]]; [| |done].
    + destruct (Hr _ Hp) as [?|[?|[_ ?]]]; congruence.
    + apply list_elem_of_singleton, tcpPort_inj in Hp. congruence.
  - intros rules Hr. unfold np, buildNetworkPolicy. cbn [npol_Spec nps_Egress nps_PolicyTypes]. rewrite Hr. cbn. split_and!; [done|set_solver|].
    unfold buildNetworkPolicyEgress in Hr. destruct (_ ≫= NP_Egress) as [e|]; [|done]. destruct (Egress_Enabled e); [|done].
    injection Hr as <-. right. left.
Qed.

(** ** A concrete Sentinel cluster *)
Definition demoBudget : ValkeyCluster :=
  newCluster "demo" "ns" (set_Spec_Sentinel (Some (demoSentinelSpec 0)) (set_Spec_Replicas 3%Z
    (set_Spec_Topology TopologySentinel zeroSpec))).
Lemma pdb_partition_witness :
  covers (buildPDB demoBudget) (podLabels (buildStatefulSet demoBudget "h" false) 2) = true ∧
  covers (buildSentinelPDB demoBudget) (podLabels (buildSentinelStatefulSet demoBudget (demoSentinelSpec 0) false) 1) = true.
Proof.
  destruct (pdb_partition demoBudget (demoSentinelSpec 0) "h" false) as (_ & H1 & H2 & _); [reflexivity|reflexivity|reflexivity|].
  split; [apply H1|apply H2]; cbn; lia.
Defined.
Lemma scaling_keeps_template_witness :
  let vc' := resized demoBudget 5 None None 7 zeroStatus in
  sts_Template (buildStatefulSet vc' "h" false) = sts_Template (buildStatefulSet demoBudget "h" false) ∧
  totalReplicas vc' = 5%Z.
Proof.
  split; [|reflexivity].
  apply (scaling_keeps_template demoBudget 5 None None 7 zeroStatus "h" false 0 "pw" (demoSentinelSpec 0)). discriminate.
Defined.

(** The comment on the Sentinels' init script says that a change of [spec.sentinel.replicas] does
    not roll the Sentinels.  With the quorum left to its default it does: the quorum is rendered
    into the monitor line, and that line counts for the hash in the pod template. *)
Definition autoQuorum (n : Z) : SentinelSpec := {|
  Sentinel_Replicas := n; Sentinel_Quorum := 0; Sentinel_Image := ""; Sentinel_Resources := noResources;
  Sentinel_DownAfterMilliseconds := 0; Sentinel_FailoverTimeout := 0 |}.
Example sentinel_scale_changes_hashed_text :
  countedText (renderSentinelConf demoBudget (autoQuorum 3) "") true ≠
  countedText (renderSentinelConf demoBudget (autoQuorum 5) "") true.
Proof. apply (bool_decide_unpack _). vm_compute. exact I. Qed.
(** A restored Cluster renders its shard count into the pod template. *)
Definition demoRestore (shards : Z) : ValkeyCluster :=
  let r := {| Restore_S3 := Some {| S3_Bucket := "b"; S3_Endpoint := ""; S3_Region := "r"; S3_Prefix := ""; S3_CredentialsSecret := "c";
                                    S3_Encryption := ""; S3_KMSKeyID := "" |};
              Restore_SourceKey := "k-{shard}"; Restore_AWSCLIImage := "" |} in
  newCluster "demo" "ns" (set_Spec_RestoreFrom (Some r) (set_Spec_Shards (Some shards) (set_Spec_Topology TopologyCluster zeroSpec))).
Example restored_cluster_scale_rolls :
  ctr_Command <$> stsInitContainers (demoRestore 3) ≠ ctr_Command <$> stsInitContainers (demoRestore 4).
Proof. apply (bool_decide_unpack _). vm_compute. exact I. Qed.
