(* ===== verification/Ensure.v ===== *)
(** * Ensure: creating and updating the Kubernetes objects
      (valkeycluster_controller.go, primary_service.go, sentinel.go, cluster_pershard.go)

    The [apply...] and [ensure...] steps of a reconcile pass.  Two things they call are not
    under src/ and are parameters: [specHash], the SHA-256 of a value's JSON that
    [appliedSpecHash] computes, and [deepDerivative], apimachinery's
    [equality.Semantic.DeepDerivative].  [retrySteps] is client-go's
    [retry.DefaultRetry.Steps]. *)

From S2P Require Import Prelude GoStd Kube Api Effects Naming Failover Rollout ClusterNodes Status Jobs SentinelRollout Rotation Config Workload.

(** [have[k] == v] for every [k] of [want]; a missing key reads as the empty string. *)
Definition labelsContained (want have : gmap string string) : bool :=
  forallb (λ '(k, v), map_get have k == v) (map_to_list want).

Definition setOwner (vc : ValkeyCluster) (name : string) : prog (option KubeErr) :=
  perform (OSetControllerReference (vcName vc) name).
(** [if err := p; err != nil { return err }; return k]. *)
Definition orElse {E} (p k : prog (option E)) : prog (option E) :=
  e ← p; match e with Some _ => mret e | None => k end.

(** Get; create when it does not exist; else go on with what was found. *)
Definition createOr (k : Kind) (ns name : string) (desired : obj k) (found : obj k → prog (option KubeErr)) : prog (option KubeErr) :=
  g ← perform (OGet k ns name);
  match g with
  | inl err => if IsNotFound err then perform (OCreate k desired) else mret (Some err)
  | inr existing => found existing
  end.
(** ... and there leave it when it is settled, else update. *)
Definition upsert (k : Kind) (ns name : string) (desired : obj k) (settled : obj k → bool) (merged : obj k → obj k) :
    prog (option KubeErr) :=
  createOr k ns name desired (λ existing, if settled existing then mret None else perform (OUpdate k (merged existing))).
(** [if err := r.Get(...); err == nil { return r.Delete(...) }; return nil]. *)
Definition deleteIfPresent (k : Kind) (ns name : string) : prog (option KubeErr) :=
  g ← perform (OGet k ns name);
  match g with inr _ => perform (ODelete k ns name) | inl _ => mret None end.

(** ** Services *)
Definition serviceSettled (desired existing : Service) : bool :=
  ((svc_Ports desired == svc_Ports existing) && (svc_Selector desired == svc_Selector existing) &&
   labelsContained (svc_Labels desired) (svc_Labels existing))%bool.
Definition serviceMerged (desired existing : Service) : Service := {|
  svc_Name := svc_Name existing; svc_Namespace := svc_Namespace existing; svc_Labels := svc_Labels desired;
  svc_Type := svc_Type existing; svc_ClusterIP := svc_ClusterIP existing;
  svc_PublishNotReadyAddresses := svc_PublishNotReadyAddresses existing;
  svc_Selector := svc_Selector desired; svc_Ports := svc_Ports desired |}.
Definition applyService (desired : Service) : prog (option KubeErr) :=
  upsert KService (svc_Namespace desired) (svc_Name desired) desired (serviceSettled desired) (serviceMerged desired).
Definition ensureService (vc : ValkeyCluster) (desired : Service) : prog (option KubeErr) :=
  orElse (setOwner vc (svc_Name desired)) (applyService desired).
Definition ensureHeadlessService (vc : ValkeyCluster) : prog (option KubeErr) := ensureService vc (buildHeadlessService vc).
Definition ensureClientService (vc : ValkeyCluster) : prog (option KubeErr) := ensureService vc (buildClientService vc).
Definition ensurePrimaryService (vc : ValkeyCluster) : prog (option KubeErr) := ensureService vc (buildPrimaryService vc).
Definition ensureReplicasService (vc : ValkeyCluster) : prog (option KubeErr) := ensureService vc (buildReplicasService vc).
Definition ensureShardHeadlessService (vc : ValkeyCluster) (shard : Z) : prog (option KubeErr) :=
  ensureService vc (buildShardHeadlessService vc shard).

(** Every existing Sentinel pod carries the plane label. *)
Definition sentinelPodsLabeled (vc : ValkeyCluster) : prog (KubeErr + bool) :=
  l ← perform (OListPods (vcNamespace vc) (sentinelLabels vc));
  mret (match l with
        | inl err => inl err
        | inr items => inr (forallb (λ p, match ordinalFromPodName (pod_Name p) (sentinelStatefulSetName vc) with
                                          | None => true
                                          | Some _ => map_get (pod_Labels p) sentinelPlaneLabel == componentSentinel
                                          end) items)
        end).
Definition ensureSentinelService (vc : ValkeyCluster) : prog (option KubeErr) :=
  l ← sentinelPodsLabeled vc;
  match l with
  | inl err => mret (Some err)
  | inr labeled => ensureService vc (sentinelService vc (if labeled : bool then sentinelPodLabels vc else sentinelLabels vc))
  end.

(** The role of each data pod; [primary] is a pod name, empty when it is not known. *)
Definition set_pod_Labels (l : gmap string string) (p : Pod) : Pod := {|
  pod_Name := pod_Name p; pod_Namespace := pod_Namespace p; pod_Labels := l; pod_Deleting := pod_Deleting p;
  pod_Phase := pod_Phase p; pod_Conditions := pod_Conditions p; pod_NodeName := pod_NodeName p; pod_IP := pod_IP p |}.
Definition roleOf (primary : string) (p : Pod) : string := if pod_Name p == primary then rolePrimary else roleReplica.
Definition labelPod (primary : string) (_ : ()) (p : Pod) : prog () :=
  if map_get (pod_Labels p) roleLabel == roleOf primary p then mret tt
  else _ ← perform (OPatchPod p (set_pod_Labels (<[roleLabel := roleOf primary p]> (pod_Labels p)) p)); mret tt.
Definition ensureRoleLabels (vc : ValkeyCluster) (primary : string) : prog (option KubeErr) :=
  if primary == "" then mret None
  else
    l ← perform (OListPods (vcNamespace vc) (labelsFor vc));
    match l with
    | inl err => mret (Some err)
    | inr pods => _ ← foldM (labelPod primary) tt pods; mret None
    end.

(** ** ConfigMaps *)
Section hashes.
Context (sha256 : string → string).

Definition cmSettled (desired existing : ConfigMap) : bool :=
  ((cm_Data desired == cm_Data existing) && labelsContained (cm_Labels desired) (cm_Labels existing))%bool.
Definition cmMerged (desired existing : ConfigMap) : ConfigMap := {|
  cm_Name := cm_Name existing; cm_Namespace := cm_Namespace existing; cm_Labels := cm_Labels desired; cm_Data := cm_Data desired |}.
(** Answers the hash of the data, which goes into the pod template. *)
Definition ensureConfigMap (vc : ValkeyCluster) (password : string) : prog (KubeErr + string) :=
  let desired := buildConfigMap vc password in
  e ← orElse (setOwner vc (cm_Name desired))
        (upsert KConfigMap (cm_Namespace desired) (cm_Name desired) desired (cmSettled desired) (cmMerged desired));
  mret (match e with Some err => inl err | None => inr (configHashFromData sha256 (cm_Data desired)) end).

Definition sentinelConfigMap (vc : ValkeyCluster) (s : SentinelSpec) (password : string) : ConfigMap := {|
  cm_Name := vcName vc +:+ "-sentinel-config"; cm_Namespace := vcNamespace vc; cm_Labels := sentinelLabels vc;
  cm_Data := {[sentinelConfigName := renderSentinelConf vc s password]} |}.
(** Updated on every pass. *)
Definition ensureSentinelConfigMap (vc : ValkeyCluster) (s : SentinelSpec) (password : string) : prog (KubeErr + string) :=
  let cm := sentinelConfigMap vc s password in
  let hash := sentinelConfigHash sha256 (renderSentinelConf vc s password) (sentinelPasswordRotatesLive vc) in
  e ← orElse (setOwner vc (cm_Name cm))
        (upsert KConfigMap (cm_Namespace cm) (cm_Name cm) cm (λ _, false) (cmMerged cm));
  mret (match e with Some err => inl err | None => inr hash end).
End hashes.

(** ** Disruption budgets and the network policy *)
Section apply.
Context (retrySteps : nat).
Context (deepDerivative : PodDisruptionBudgetSpec → PodDisruptionBudgetSpec → bool).
Context (specHash : option Z * PodTemplateSpec * string * gmap string string → string).

Definition resourceSettled (desired cur : PodDisruptionBudget) : bool :=
  (deepDerivative (pdb_Spec desired) (pdb_Spec cur) && labelsContained (pdb_Labels desired) (pdb_Labels cur))%bool.
Definition pdbMerged (desired cur : PodDisruptionBudget) : PodDisruptionBudget := {|
  pdb_Name := pdb_Name cur; pdb_Namespace := pdb_Namespace cur; pdb_Labels := pdb_Labels desired; pdb_Spec := pdb_Spec desired |}.
(** One attempt, on a fresh copy. *)
Definition reconcilePDB (desired : PodDisruptionBudget) : prog (option KubeErr) :=
  c ← perform (OGet KPDB (pdb_Namespace desired) (pdb_Name desired));
  match c with
  | inl err => mret (Some err)
  | inr cur => if resourceSettled desired cur then mret None else perform (OUpdate KPDB (pdbMerged desired cur))
  end.
Definition applyPDB (vc : ValkeyCluster) (desired : PodDisruptionBudget) : prog (option KubeErr) :=
  let ns := pdb_Namespace desired in
  let name := pdb_Name desired in
  if negb (pdbEnabled vc) then deleteIfPresent KPDB ns name
  else
    orElse (setOwner vc name)
      (createOr KPDB ns name desired (λ _, RetryOnConflict retrySteps (reconcilePDB desired))).
Definition ensurePDB (vc : ValkeyCluster) : prog (option KubeErr) := applyPDB vc (buildPDB vc).

Definition netpolSettled (desired existing : NetworkPolicy) : bool :=
  ((npol_Spec desired == npol_Spec existing) && labelsContained (npol_Labels desired) (npol_Labels existing))%bool.
Definition netpolMerged (desired existing : NetworkPolicy) : NetworkPolicy := {|
  npol_Name := npol_Name existing; npol_Namespace := npol_Namespace existing; npol_Labels := npol_Labels desired;
  npol_Spec := npol_Spec desired |}.
Definition ensureNetworkPolicy (vc : ValkeyCluster) : prog (option KubeErr) :=
  let name := vcName vc +:+ "-allow" in
  if negb (networkPolicyEnabled vc) then deleteIfPresent KNetPol (vcNamespace vc) name
  else
    let desired := buildNetworkPolicy vc in
    orElse (setOwner vc name)
      (upsert KNetPol (vcNamespace vc) name desired (netpolSettled desired) (netpolMerged desired)).

(** ** The ServiceMonitor *)
Definition endpointJSON (port : string) : JSON :=
  JObj [("port", JStr port); ("interval", JStr "30s"); ("path", JStr "/metrics")].
Definition buildServiceMonitor (vc : ValkeyCluster) : ServiceMonitor := {|
  sm_Name := vcName vc; sm_Namespace := vcNamespace vc; sm_Labels := labelsFor vc;
  sm_Spec := JObj [
    ("selector", JObj [("matchLabels", JObj ((λ '(k, v), (k, JStr v)) <$> map_to_list (labelsFor vc)))]);
    ("namespaceSelector", JObj [("matchNames", JArr [JStr (vcNamespace vc)])]);
    ("endpoints", JArr ([endpointJSON metricsPortName] ++
                        (if sentinelMetricsEnabled vc then [endpointJSON sentinelMetricsPortName] else [])))] |}.
Definition ensureMetricsServiceMonitor (vc : ValkeyCluster) : prog (option KubeErr) :=
  match Spec_Metrics (Spec vc) with
  | Some m =>
      if negb (Metrics_Enabled m && Metrics_ServiceMonitor m)%bool then mret None
      else
        let sm := buildServiceMonitor vc in
        orElse (setOwner vc (sm_Name sm))
          (g ← perform (OGet KServiceMonitor (sm_Namespace sm) (sm_Name sm));
           match g with
           | inl NotFound => perform (OCreate KServiceMonitor sm)
           | inl NoMatch => mret None
           | inl err => mret (Some err)
           | inr existing =>
               perform (OUpdate KServiceMonitor {| sm_Name := sm_Name existing; sm_Namespace := sm_Namespace existing;
                                                   sm_Labels := sm_Labels sm; sm_Spec := sm_Spec sm |})
           end)
  | None => mret None
  end.

(** ** StatefulSets *)

(** [appliedSpecHash] of the fields that are reconciled. *)
Definition ownedFields (s : StatefulSet) : option Z * PodTemplateSpec * string * gmap string string :=
  (sts_Replicas s, sts_Template s, sts_UpdateStrategy s, sts_Labels s).
Definition appliedSpecHash (s : StatefulSet) : string := specHash (ownedFields s).
Definition set_sts_Annotations (a : gmap string string) (s : StatefulSet) : StatefulSet := {|
  sts_Name := sts_Name s; sts_Namespace := sts_Namespace s; sts_Labels := sts_Labels s; sts_Annotations := a;
  sts_Generation := sts_Generation s; sts_Replicas := sts_Replicas s; sts_ServiceName := sts_ServiceName s;
  sts_PodManagementPolicy := sts_PodManagementPolicy s; sts_UpdateStrategy := sts_UpdateStrategy s;
  sts_Selector := sts_Selector s; sts_Template := sts_Template s; sts_VolumeClaimTemplates := sts_VolumeClaimTemplates s;
  sts_ObservedGeneration := sts_ObservedGeneration s; sts_ReadyReplicas := sts_ReadyReplicas s;
  sts_UpdatedReplicas := sts_UpdatedReplicas s; sts_CurrentRevision := sts_CurrentRevision s;
  sts_UpdateRevision := sts_UpdateRevision s |}.
(** [cur] with another size, template, strategy, labels and annotations. *)
Definition set_sts_owned (replicas : option Z) (tpl : PodTemplateSpec) (strategy : string) (labels ann : gmap string string)
    (s : StatefulSet) : StatefulSet := {|
  sts_Name := sts_Name s; sts_Namespace := sts_Namespace s; sts_Labels := labels; sts_Annotations := ann;
  sts_Generation := sts_Generation s; sts_Replicas := replicas; sts_ServiceName := sts_ServiceName s;
  sts_PodManagementPolicy := sts_PodManagementPolicy s; sts_UpdateStrategy := strategy;
  sts_Selector := sts_Selector s; sts_Template := tpl; sts_VolumeClaimTemplates := sts_VolumeClaimTemplates s;
  sts_ObservedGeneration := sts_ObservedGeneration s; sts_ReadyReplicas := sts_ReadyReplicas s;
  sts_UpdatedReplicas := sts_UpdatedReplicas s; sts_CurrentRevision := sts_CurrentRevision s;
  sts_UpdateRevision := sts_UpdateRevision s |}.
Definition stsMerged (desired : StatefulSet) (hash : string) (cur : StatefulSet) : StatefulSet :=
  set_sts_owned (sts_Replicas desired) (sts_Template desired) (sts_UpdateStrategy desired) (sts_Labels desired)
    (<[appliedHashAnnotation := hash]> (sts_Annotations cur)) cur.

(** [RetryOnConflict] around a closure that also sets the result. *)
Fixpoint RetryOnConflictValue {A} (n : nat) (fn : prog (KubeErr + A)) : prog (KubeErr + A) :=
  match n with
  | O => mret (inl Conflict)
  | S n' => r ← fn; match r with inl Conflict => RetryOnConflictValue n' fn | _ => mret r end
  end.
(** One attempt: a fresh copy, skipped when it was last reconciled to the same hash. *)
Definition reconcileSts (desired : StatefulSet) (hash : string) : prog (KubeErr + StatefulSet) :=
  g ← perform (OGetSts (sts_Namespace desired) (sts_Name desired));
  match g with
  | inl err => mret (inl err)
  | inr cur => if map_get (sts_Annotations cur) appliedHashAnnotation == hash then mret (inr cur)
               else perform (OUpdateSts (stsMerged desired hash cur))
  end.
Definition applyStatefulSet (vc : ValkeyCluster) (desired : StatefulSet) : prog (KubeErr + StatefulSet) :=
  e ← setOwner vc (sts_Name desired);
  match e with
  | Some err => mret (inl err)
  | None =>
      let desiredHash := appliedSpecHash desired in
      let desired := set_sts_Annotations (<[appliedHashAnnotation := desiredHash]> (sts_Annotations desired)) desired in
      g ← perform (OGetSts (sts_Namespace desired) (sts_Name desired));
      match g with
      | inl err => if IsNotFound err then perform (OCreateSts desired) else mret (inl err)
      | inr _ => RetryOnConflictValue retrySteps (reconcileSts desired desiredHash)
      end
  end.

(** Grow the data volumes; the Sentinels' are told apart by name only. *)
Definition set_pvc_Requests (r : gmap string Z) (p : PersistentVolumeClaim) : PersistentVolumeClaim := {|
  pvc_Name := pvc_Name p; pvc_Namespace := pvc_Namespace p; pvc_Labels := pvc_Labels p; pvc_AccessModes := pvc_AccessModes p;
  pvc_StorageClassName := pvc_StorageClassName p; pvc_Requests := r |}.
Definition storageRequest (p : PersistentVolumeClaim) : Z := default 0%Z (pvc_Requests p !! ResourceStorage).
Definition sentinelPVCPrefix (vc : ValkeyCluster) : string := dataVolumeName +:+ "-" +:+ sentinelStatefulSetName vc +:+ "-".
Fixpoint expandPVCs (vc : ValkeyCluster) (desired : Z) (pvcs : list PersistentVolumeClaim) : prog (option GoErr) :=
  match pvcs with
  | [] => mret None
  | p :: rest =>
      if has_prefix (pvc_Name p) (sentinelPVCPrefix vc) then expandPVCs vc desired rest
      else if (desired <=? storageRequest p)%Z then expandPVCs vc desired rest
      else
        e ← perform (OPatchPVC p (set_pvc_Requests (<[ResourceStorage := desired]> (pvc_Requests p)) p));
        match e with
        | Some err => mret (Some (EWrap ("expand pvc " +:+ pvc_Name p) (EKube err)))
        | None => expandPVCs vc desired rest
        end
  end.
Definition ensurePVCSize (vc : ValkeyCluster) : prog (option GoErr) :=
  if usesMemoryStorage vc then mret None
  else
    let desired := storageRequest (buildDataPVC vc) in
    if desired == 0%Z then mret None
    else
      l ← perform (OListPVCs (vcNamespace vc) {[instanceLabel := vcName vc]});
      match l with
      | inl err => mret (Some (EKube err))
      | inr pvcs => expandPVCs vc desired pvcs
      end.

(** Standalone keeps RollingUpdate. *)
Definition stsProactive (vc : ValkeyCluster) : bool :=
  (proactiveRolloutEnabled vc &&
   ((Spec_Topology (Spec vc) == TopologyReplication) || isCluster vc || isSentinel vc))%bool.
Definition ensureStatefulSet (vc : ValkeyCluster) (configHash : string) : prog (GoErr + StatefulSet) :=
  r ← applyStatefulSet vc (buildStatefulSet vc configHash (stsProactive vc));
  match r with
  | inl err => mret (inl (EKube err))
  | inr sts => e ← ensurePVCSize vc; mret (match e with Some err => inl err | None => inr sts end)
  end.

(** The per-shard layout: answers the Ready pods over all shards. *)
Fixpoint ensureShards (vc : ValkeyCluster) (configHash : string) (ready : Z) (shards : list Z) : prog (GoErr + Z) :=
  match shards with
  | [] => mret (inr ready)
  | s :: rest =>
      e ← ensureShardHeadlessService vc s;
      match e with
      | Some err => mret (inl (EWrap ("shard " +:+ Itoa s +:+ " headless service") (EKube err)))
      | None =>
          r ← applyStatefulSet vc (buildShardStatefulSet vc s configHash (proactiveRolloutEnabled vc));
          match r with
          | inl err => mret (inl (EWrap ("shard " +:+ Itoa s +:+ " statefulset") (EKube err)))
          | inr sts => ensureShards vc configHash (wrap32 (ready + sts_ReadyReplicas sts)) rest
          end
      end
  end.
Definition ensureShardWorkload (vc : ValkeyCluster) (configHash : string) : prog (GoErr + Z) :=
  r ← ensureShards vc configHash 0 (zrange 0 (shardCountOf vc));
  match r with
  | inl err => mret (inl err)
  | inr ready => e ← ensurePVCSize vc; mret (match e with Some err => inl err | None => inr ready end)
  end.

(** The Sentinels' StatefulSet: updated on every pass, with its template held back while the
    data pods roll. *)
Definition ensureSentinelStatefulSet (vc : ValkeyCluster) (s : SentinelSpec) (configHash : string) (holdTemplate : bool) :
    prog (KubeErr + StatefulSet) :=
  let sts := buildSentinelStatefulSet vc s (proactiveRolloutEnabled vc) in
  let tpl := sts_Template sts in
  let tpl := if configHash != ""
             then {| pt_Labels := pt_Labels tpl; pt_Annotations := {[configHashAnnotation := configHash]}; pt_Spec := pt_Spec tpl |}
             else tpl in
  let sts := set_sts_owned (sts_Replicas sts) tpl (sts_UpdateStrategy sts) (sts_Labels sts) (sts_Annotations sts) sts in
  e ← setOwner vc (sts_Name sts);
  match e with
  | Some err => mret (inl err)
  | None =>
      g ← perform (OGetSts (sts_Namespace sts) (sts_Name sts));
      match g with
      | inl err => if IsNotFound err then perform (OCreateSts sts) else mret (inl err)
      | inr existing =>
          perform (OUpdateSts (set_sts_owned (sts_Replicas sts)
                                 (if holdTemplate then sts_Template existing else sts_Template sts)
                                 (sts_UpdateStrategy sts) (sts_Labels sts) (sts_Annotations existing) existing))
      end
  end.
End apply.

(** ** An API server

    A store of objects by namespace and name.  A write goes through admission, which may fill in
    fields: [admitObj] for the objects of [Kind] and [admitSts] for StatefulSets are parameters. *)
Abbreviation Key := (string * string)%type.
Definition keyOf (k : Kind) : obj k → Key :=
  match k return obj k → Key with
  | KService => λ o, (svc_Namespace o, svc_Name o)
  | KConfigMap => λ o, (cm_Namespace o, cm_Name o)
  | KPDB => λ o, (pdb_Namespace o, pdb_Name o)
  | KNetPol => λ o, (npol_Namespace o, npol_Name o)
  | KCronJob => λ o, (cj_Namespace o, cj_Name o)
  | KServiceMonitor => λ o, (sm_Namespace o, sm_Name o)
  end.
Definition stsKey (s : StatefulSet) : Key := (sts_Namespace s, sts_Name s).
Record Store := {
  st_Services : gmap Key Service; st_ConfigMaps : gmap Key ConfigMap; st_PDBs : gmap Key PodDisruptionBudget;
  st_NetPols : gmap Key NetworkPolicy; st_CronJobs : gmap Key CronJob; st_Monitors : gmap Key ServiceMonitor;
  st_Sts : gmap Key StatefulSet; st_PVCs : list PersistentVolumeClaim; st_Pods : list Pod
}.
Definition objects (k : Kind) (w : Store) : gmap Key (obj k) :=
  match k return gmap Key (obj k) with
  | KService => st_Services w | KConfigMap => st_ConfigMaps w | KPDB => st_PDBs w
  | KNetPol => st_NetPols w | KCronJob => st_CronJobs w | KServiceMonitor => st_Monitors w
  end.
Definition with_objects (k : Kind) (w : Store) : gmap Key (obj k) → Store :=
  let '{| st_Services := s; st_ConfigMaps := c; st_PDBs := p; st_NetPols := n; st_CronJobs := j; st_Monitors := m;
          st_Sts := t; st_PVCs := v; st_Pods := d |} := w in
  match k return gmap Key (obj k) → Store with
  | KService => λ x, Build_Store x c p n j m t v d
  | KConfigMap => λ x, Build_Store s x p n j m t v d
  | KPDB => λ x, Build_Store s c x n j m t v d
  | KNetPol => λ x, Build_Store s c p x j m t v d
  | KCronJob => λ x, Build_Store s c p n x m t v d
  | KServiceMonitor => λ x, Build_Store s c p n j x t v d
  end.
Definition with_sts (t : gmap Key StatefulSet) (w : Store) : Store :=
  {| st_Services := st_Services w; st_ConfigMaps := st_ConfigMaps w; st_PDBs := st_PDBs w; st_NetPols := st_NetPols w;
     st_CronJobs := st_CronJobs w; st_Monitors := st_Monitors w; st_Sts := t; st_PVCs := st_PVCs w; st_Pods := st_Pods w |}.
Definition with_pvcs (v : list PersistentVolumeClaim) (w : Store) : Store :=
  {| st_Services := st_Services w; st_ConfigMaps := st_ConfigMaps w; st_PDBs := st_PDBs w; st_NetPols := st_NetPols w;
     st_CronJobs := st_CronJobs w; st_Monitors := st_Monitors w; st_Sts := st_Sts w; st_PVCs := v; st_Pods := st_Pods w |}.
Definition with_podList (d : list Pod) (w : Store) : Store :=
  {| st_Services := st_Services w; st_ConfigMaps := st_ConfigMaps w; st_PDBs := st_PDBs w; st_NetPols := st_NetPols w;
     st_CronJobs := st_CronJobs w; st_Monitors := st_Monitors w; st_Sts := st_Sts w; st_PVCs := st_PVCs w; st_Pods := d |}.

Lemma objects_with k w x : objects k (with_objects k w x) = x.
Proof. by destruct k, w. Qed.

Section store.
Context (admitObj : ∀ k, obj k → obj k) (admitSts : StatefulSet → StatefulSet).

Definition samePod (a b : Pod) : bool := ((pod_Namespace a == pod_Namespace b) && (pod_Name a == pod_Name b))%bool.
Definition samePVC (a b : PersistentVolumeClaim) : bool := ((pvc_Namespace a == pvc_Namespace b) && (pvc_Name a == pvc_Name b))%bool.
Definition store_handle (op : Op) : Store → ans op * Store :=
  match op return Store → ans op * Store with
  | OGet k ns name => λ w, (match objects k w !! (ns, name) with Some o => inr o | None => inl NotFound end, w)
  | OCreate k o => λ w,
      match objects k w !! keyOf k o with
      | Some _ => (Some (KubeOther "already exists"), w)
      | None => (None, with_objects k w (<[keyOf k o := admitObj k o]> (objects k w)))
      end
  | OUpdate k o => λ w,
      match objects k w !! keyOf k o with
      | Some _ => (None, with_objects k w (<[keyOf k o := admitObj k o]> (objects k w)))
      | None => (Some NotFound, w)
      end
  | ODelete k ns name => λ w, (None, with_objects k w (delete (ns, name) (objects k w)))
  | OGetSts ns name => λ w, (match st_Sts w !! (ns, name) with Some o => inr o | None => inl NotFound end, w)
  | OCreateSts s => λ w,
      match st_Sts w !! stsKey s with
      | Some _ => (inl (KubeOther "already exists"), w)
      | None => (inr (admitSts s), with_sts (<[stsKey s := admitSts s]> (st_Sts w)) w)
      end
  | OUpdateSts s => λ w,
      match st_Sts w !! stsKey s with
      | Some _ => (inr (admitSts s), with_sts (<[stsKey s := admitSts s]> (st_Sts w)) w)
      | None => (inl NotFound, w)
      end
  | OListPVCs ns sel => λ w,
      (inr (filter (λ p, ((pvc_Namespace p == ns) && bool_decide (sel ⊆ pvc_Labels p))%bool) (st_PVCs w)), w)
  | OPatchPVC base new => λ w, (None, with_pvcs ((λ p, if samePVC base p then new else p) <$> st_PVCs w) w)
  | OListPods ns sel => λ w,
      (inr (filter (λ p, ((pod_Namespace p == ns) && bool_decide (sel ⊆ pod_Labels p))%bool) (st_Pods w)), w)
  | OPatchPod base new => λ w, (None, with_podList ((λ p, if samePod base p then new else p) <$> st_Pods w) w)
  | OSetControllerReference _ _ => λ w, (None, w)
  | _ => λ w, (inhabitant, w)
  end.

(** A program that only looks leaves the store alone. *)
Lemma store_reads op w : reads op = true → (store_handle op w).2 = w.
Proof. by destruct op. Qed.
Definition onlyReads {A} (p : prog A) (w : Store) : Prop := Forall (λ e, reads (ev_op e) = true) (trace store_handle p w).

(** What is stored under a key has that key. *)
Definition keyed (k : Kind) (w : Store) : Prop := ∀ key o, objects k w !! key = Some o → keyOf k o = key.

Lemma onlyReads_bind {A B} (p : prog A) (f : A → prog B) w a w' :
  onlyReads p w → run store_handle p w = (a, w') → onlyReads (f a) w' → onlyReads (p ≫= f) w.
Proof. unfold onlyReads. intros Hp E Hf. rewrite trace_bind, E. by apply Forall_app. Qed.
Lemma onlyReads_ret {A} (a : A) w : onlyReads (mret a) w.
Proof. by unfold onlyReads; constructor. Qed.
Lemma onlyReads_read op w : reads op = true → onlyReads (perform op) w.
Proof. unfold onlyReads. rewrite trace_perform. by repeat constructor. Qed.
Lemma onlyReads_get k ns name w : onlyReads (perform (OGet k ns name)) w.
Proof. by apply (onlyReads_read (OGet k ns name)). Qed.
Lemma run_get k ns name w :
  run store_handle (perform (OGet k ns name)) w = (match objects k w !! (ns, name) with Some o => inr o | None => inl NotFound end, w).
Proof. by rewrite (run_perform _ (OGet k ns name)). Qed.
Definition put (k : Kind) (key : Key) (o : obj k) (w : Store) : Store := with_objects k w (<[key := o]> (objects k w)).
Lemma objects_put k key o w : objects k (put k key o w) !! key = Some o.
Proof. unfold put. by rewrite objects_with, lookup_insert, decide_True. Qed.
Lemma objects_put_ne k key o w key' : key' ≠ key → objects k (put k key o w) !! key' = objects k w !! key'.
Proof. intros Hne. unfold put. by rewrite objects_with, lookup_insert_ne. Qed.

(** *** What the operator relies on *)

(** Admission keeps an object's identity and the fields the operator owns: a Service's ports,
    selector and labels, and the whole of a ConfigMap, a NetworkPolicy's spec and labels. *)
Class Admission : Prop := {
  admit_key : ∀ k o, keyOf k (admitObj k o) = keyOf k o;
  admit_service : ∀ s, svc_Ports (admitObj KService s) = svc_Ports s ∧ svc_Selector (admitObj KService s) = svc_Selector s ∧
                       svc_Labels (admitObj KService s) = svc_Labels s;
  admit_configMap : ∀ c, cm_Data (admitObj KConfigMap c) = cm_Data c ∧ cm_Labels (admitObj KConfigMap c) = cm_Labels c;
  admit_pdb : ∀ p, pdb_Labels (admitObj KPDB p) = pdb_Labels p;
  admit_netpol : ∀ n, npol_Spec (admitObj KNetPol n) = npol_Spec n ∧ npol_Labels (admitObj KNetPol n) = npol_Labels n
}.

(** [p] brings the object into a [good] state and, run again, writes nothing. *)
Definition settlesTo (p : prog (option KubeErr)) (k : Kind) (key : Key) (good : option (obj k) → Prop) : Prop :=
  ∀ w, keyed k w →
    let '(e, w') := run store_handle p w in
    e = None ∧ good (objects k w' !! key) ∧ (∀ key', key' ≠ key → objects k w' !! key' = objects k w !! key') ∧
    onlyReads p w'.

Lemma settlesTo_mono p k key (good good' : option (obj k) → Prop) :
  settlesTo p k key good → (∀ o, good o → good' o) → settlesTo p k key good'.
Proof.
  intros H Hg w Hw. specialize (H w Hw). destruct (run store_handle p w). destruct H as (? & ? & ? & ?). auto.
Qed.
Lemma labelsContained_refl l : labelsContained l l = true.
Proof.
  apply forallb_elem. intros [k v] Hkv%elem_of_map_to_list. apply bool_decide_eq_true. unfold map_get. by rewrite Hkv.
Qed.
Lemma run_owned vc name p w : run store_handle (orElse (setOwner vc name) p) w = run store_handle p w.
Proof. unfold orElse, setOwner. by rewrite run_bind, (run_perform _ (OSetControllerReference _ _)). Qed.
Lemma onlyReads_owned vc name p w : onlyReads p w → onlyReads (orElse (setOwner vc name) p) w.
Proof.
  unfold onlyReads, orElse, setOwner. rewrite trace_bind, (trace_perform _ (OSetControllerReference _ _)),
    (run_perform _ (OSetControllerReference _ _)). by constructor.
Qed.
Lemma settlesTo_owned vc name p k key good : settlesTo p k key good → settlesTo (orElse (setOwner vc name) p) k key good.
Proof.
  intros H w Hw. specialize (H w Hw). rewrite run_owned. destruct (run store_handle p w) as [e w'].
  destruct H as (? & ? & ? & ?). split_and!; try done. by apply onlyReads_owned.
Qed.
(** The generic step: [found] leaves a settled object alone and writes [merged] otherwise. *)
Lemma createOr_settlesTo k ns name desired settled merged found :
  keyOf k desired = (ns, name) → settled (admitObj k desired) = true → (∀ o, settled (admitObj k (merged o)) = true) →
  (∀ w o, objects k w !! (ns, name) = Some o → settled o = true →
          run store_handle (found o) w = (None, w) ∧ onlyReads (found o) w) →
  (∀ w o, objects k w !! (ns, name) = Some o → keyOf k o = (ns, name) → settled o = false →
          run store_handle (found o) w = (None, put k (ns, name) (admitObj k (merged o)) w)) →
  settlesTo (createOr k ns name desired found) k (ns, name) (λ o, ∃ x, o = Some x ∧ settled x = true).
Proof.
  intros Hkey Hcr Hup Hskip Hwrite w Hw.
  assert (∀ w o, objects k w !! (ns, name) = Some o → settled o = true → onlyReads (createOr k ns name desired found) w) as Hro.
  { intros w1 o E Ho. eapply onlyReads_bind; [apply onlyReads_get|apply run_get|]. rewrite E. by eapply Hskip. }
  assert (∀ x, settled x = true → let w' := put k (ns, name) x w in
     @None KubeErr = None ∧ (∃ y, objects k w' !! (ns, name) = Some y ∧ settled y = true) ∧
     (∀ key', key' ≠ (ns, name) → objects k w' !! key' = objects k w !! key') ∧ onlyReads (createOr k ns name desired found) w') as Hput.
  { intros x Hx w'. pose proof (objects_put k (ns, name) x w) as Ew. split_and!; [done|eauto|by apply objects_put_ne|by eapply Hro]. }
  unfold createOr at 1. rewrite run_bind, (run_get k ns name). destruct (objects k w !! (ns, name)) as [o|] eqn:E.
  - destruct (settled o) eqn:Eo.
    + rewrite (proj1 (Hskip w o E Eo)). split_and!; [done|eauto|done|by eapply Hro].
    + rewrite (Hwrite w o E (Hw _ _ E) Eo). by apply Hput.
  - cbn [IsNotFound]. rewrite (run_perform _ (OCreate k desired)). cbn [store_handle]. rewrite Hkey, E. by apply Hput.
Qed.
Lemma run_update k ns name o o' w : objects k w !! (ns, name) = Some o → keyOf k o' = (ns, name) →
  run store_handle (perform (OUpdate k o')) w = (None, put k (ns, name) (admitObj k o') w).
Proof. intros E Hk. rewrite (run_perform _ (OUpdate k o')). cbn [store_handle]. by rewrite Hk, E. Qed.
Lemma upsert_settlesTo k ns name desired settled merged :
  keyOf k desired = (ns, name) → (∀ o, keyOf k o = (ns, name) → keyOf k (merged o) = (ns, name)) →
  settled (admitObj k desired) = true → (∀ o, settled (admitObj k (merged o)) = true) →
  settlesTo (upsert k ns name desired settled merged) k (ns, name) (λ o, ∃ x, o = Some x ∧ settled x = true).
Proof.
  intros H1 H2 H3 H4. eapply createOr_settlesTo; [done|done|exact H4|..].
  - intros w o _ ->. split; [done|apply onlyReads_ret].
  - intros w o E Hk ->. by eapply run_update; [|apply H2].
Qed.
Lemma deleteIfPresent_settlesTo k ns name : settlesTo (deleteIfPresent k ns name) k (ns, name) (λ o, o = None).
Proof.
  intros w _. unfold deleteIfPresent. rewrite run_bind, (run_perform _ (OGet k ns name)). cbn [store_handle].
  assert (∀ w, objects k w !! (ns, name) = None → onlyReads (deleteIfPresent k ns name) w) as Hro.
  { intros w1 E. unfold onlyReads, deleteIfPresent. rewrite trace_bind, (trace_perform _ (OGet k ns name)),
      (run_perform _ (OGet k ns name)). cbn [store_handle]. rewrite E. by repeat constructor. }
  destruct (objects k w !! (ns, name)) eqn:E.
  - rewrite (run_perform _ (ODelete k ns name)). cbn [store_handle]. split_and!; [done|..].
    + by rewrite objects_with, lookup_delete, decide_True.
    + intros key' Hne. by rewrite objects_with, lookup_delete_ne.
    + apply Hro. by rewrite objects_with, lookup_delete, decide_True.
  - split_and!; [done|done|done|by apply Hro].
Qed.

Context {Hadm : Admission}.

Lemma applyService_settlesTo vc desired :
  settlesTo (ensureService vc desired) KService (svc_Namespace desired, svc_Name desired)
    (λ o, ∃ x, o = Some x ∧ serviceSettled desired x = true).
Proof.
  apply settlesTo_owned, upsert_settlesTo; [done|done|..].
  - unfold serviceSettled. destruct (admit_service desired) as (-> & -> & ->).
    by rewrite !bool_decide_true, labelsContained_refl by done.
  - intros o. unfold serviceSettled. destruct (admit_service (serviceMerged desired o)) as (-> & -> & ->).
    by rewrite !bool_decide_true, labelsContained_refl by done.
Qed.
Lemma ensureNetworkPolicy_settlesTo vc :
  settlesTo (ensureNetworkPolicy vc) KNetPol (vcNamespace vc, vcName vc +:+ "-allow")
    (λ o, if networkPolicyEnabled vc then ∃ x, o = Some x ∧ netpolSettled (buildNetworkPolicy vc) x = true else o = None).
Proof.
  unfold ensureNetworkPolicy. destruct (networkPolicyEnabled vc); cbn [negb]; [|apply deleteIfPresent_settlesTo].
  apply settlesTo_owned, upsert_settlesTo; [done|done|..].
  - unfold netpolSettled. destruct (admit_netpol (buildNetworkPolicy vc)) as (-> & ->).
    by rewrite bool_decide_true, labelsContained_refl by done.
  - intros o. unfold netpolSettled. destruct (admit_netpol (netpolMerged (buildNetworkPolicy vc) o)) as (-> & ->).
    by rewrite bool_decide_true, labelsContained_refl by done.
Qed.

Lemma run_retry n fn w e w' :
  run store_handle fn w = (e, w') → e ≠ Some Conflict → run store_handle (RetryOnConflict (S n) fn) w = (e, w').
Proof. intros E He. cbn [RetryOnConflict]. rewrite run_bind, E. by destruct e as [[]|]. Qed.
Section budget.
Context (retrySteps : nat) (deepDerivative : PodDisruptionBudgetSpec → PodDisruptionBudgetSpec → bool).
(** Documented: a spec derives from what admission makes of it, since only fields that are set
    are compared. *)
Context (Hsteps : 0 < retrySteps).
Context (Hderive : ∀ p, deepDerivative (pdb_Spec p) (pdb_Spec (admitObj KPDB p)) = true).

Lemma settled_own desired o : pdb_Spec o = pdb_Spec desired → pdb_Labels o = pdb_Labels desired →
  resourceSettled deepDerivative desired (admitObj KPDB o) = true.
Proof. intros Hs Hl. unfold resourceSettled. by rewrite admit_pdb, Hl, labelsContained_refl, <-Hs, Hderive. Qed.
Lemma applyPDB_settlesTo vc desired :
  settlesTo (applyPDB retrySteps deepDerivative vc desired) KPDB (pdb_Namespace desired, pdb_Name desired)
    (λ o, if pdbEnabled vc then ∃ x, o = Some x ∧ resourceSettled deepDerivative desired x = true else o = None).
Proof.
  unfold applyPDB. destruct (pdbEnabled vc); cbn [negb]; [|apply deleteIfPresent_settlesTo].
  destruct retrySteps as [|n]; [lia|]. apply settlesTo_owned, (createOr_settlesTo KPDB _ _ desired (resourceSettled deepDerivative desired) (pdbMerged desired));
    [done|by apply settled_own|intros o; by apply settled_own|..].
  - intros w o E Ho. assert (run store_handle (reconcilePDB deepDerivative desired) w = (None, w)) as Er
      by (unfold reconcilePDB; by rewrite run_bind, (run_get KPDB (pdb_Namespace desired) (pdb_Name desired)), E, Ho).
    split; [by apply run_retry|]. eapply onlyReads_bind; [|exact Er|apply onlyReads_ret].
    eapply onlyReads_bind; [apply (onlyReads_get KPDB)|apply (run_get KPDB)|]. rewrite E, Ho. apply onlyReads_ret.
  - intros w o E Hk Ho. apply run_retry; [|done]. unfold reconcilePDB. rewrite run_bind, (run_get KPDB (pdb_Namespace desired) (pdb_Name desired)), E, Ho.
    by eapply run_update.
Qed.
End budget.

(** The step of [ensureConfigMap] that writes. *)
Definition configMapStep (vc : ValkeyCluster) (password : string) : prog (option KubeErr) :=
  let desired := buildConfigMap vc password in
  orElse (setOwner vc (cm_Name desired))
    (upsert KConfigMap (cm_Namespace desired) (cm_Name desired) desired (cmSettled desired) (cmMerged desired)).
Lemma configMapStep_settlesTo vc password :
  settlesTo (configMapStep vc password) KConfigMap (vcNamespace vc, configMapName vc)
    (λ o, ∃ x, o = Some x ∧ cmSettled (buildConfigMap vc password) x = true).
Proof.
  apply settlesTo_owned, upsert_settlesTo; [done|done|..].
  - unfold cmSettled. destruct (admit_configMap (buildConfigMap vc password)) as (-> & ->).
    by rewrite bool_decide_true, labelsContained_refl by done.
  - intros o. unfold cmSettled. destruct (admit_configMap (cmMerged (buildConfigMap vc password) o)) as (-> & ->).
    by rewrite bool_decide_true, labelsContained_refl by done.
Qed.
Lemma ensureConfigMap_settles sha256 vc password w : keyed KConfigMap w →
  ∃ w' cm, run store_handle (ensureConfigMap sha256 vc password) w =
             (inr (configHashFromData sha256 (cm_Data (buildConfigMap vc password))), w') ∧
    objects KConfigMap w' !! (vcNamespace vc, configMapName vc) = Some cm ∧
    cm_Data cm = cm_Data (buildConfigMap vc password) ∧ onlyReads (ensureConfigMap sha256 vc password) w'.
Proof.
  intros Hw. pose proof (configMapStep_settlesTo vc password w Hw) as Hst.
  change (ensureConfigMap sha256 vc password) with
    (e ← configMapStep vc password; mret (match e with Some err => inl err
       | None => inr (configHashFromData sha256 (cm_Data (buildConfigMap vc password))) end) : prog (KubeErr + string)).
  rewrite run_bind. destruct (run store_handle (configMapStep vc password) w) as [e w'] eqn:Er.
  destruct Hst as (-> & (cm & E & Hs) & _ & Hro). exists w', cm. split_and!; [done|done|..].
  - apply andb_prop in Hs as [->%bool_decide_eq_true _]. done.
  - unfold onlyReads. rewrite trace_bind. destruct (run store_handle (configMapStep vc password) w') as [e2 w2].
    apply Forall_app; split; [exact Hro|done].
Qed.
End store.

(** The ensure steps converge and then keep quiet: against an API server whose admission keeps
    the fields the operator owns, each step succeeds from any state of its object (absent, stale
    or edited), leaves exactly the wanted ports, selector, data or spec with the labels present
    (or, for a NetworkPolicy or budget that is switched off, no object), touches no other object
    of the kind, and run again only reads. *)
Theorem objects_settle admitObj admitSts retrySteps deepDerivative vc shard password
    `{!Admission admitObj} :
  0 < retrySteps → (∀ p, deepDerivative (pdb_Spec p) (pdb_Spec (admitObj KPDB p)) = true) →
  (∀ svc, svc ∈ [buildHeadlessService vc; buildClientService vc; buildPrimaryService vc; buildReplicasService vc;
                 buildShardHeadlessService vc shard] →
     settlesTo admitObj admitSts (ensureService vc svc) KService (svc_Namespace svc, svc_Name svc)
       (λ o, ∃ x, o = Some x ∧ svc_Ports x = svc_Ports svc ∧ svc_Selector x = svc_Selector svc ∧
                  labelsContained (svc_Labels svc) (svc_Labels x) = true)) ∧
  settlesTo admitObj admitSts (ensureNetworkPolicy vc) KNetPol (vcNamespace vc, vcName vc +:+ "-allow")
    (λ o, if networkPolicyEnabled vc then ∃ x, o = Some x ∧ npol_Spec x = npol_Spec (buildNetworkPolicy vc) else o = None) ∧
  settlesTo admitObj admitSts (applyPDB retrySteps deepDerivative vc (buildPDB vc)) KPDB (vcNamespace vc, vcName vc +:+ "-pdb")
    (λ o, if pdbEnabled vc
          then ∃ x, o = Some x ∧ deepDerivative (pdb_Spec (buildPDB vc)) (pdb_Spec x) = true else o = None) ∧
  (∀ sha256 w, keyed KConfigMap w →
     ∃ w' cm, run (store_handle admitObj admitSts) (ensureConfigMap sha256 vc password) w =
                (inr (configHashFromData sha256 (cm_Data (buildConfigMap vc password))), w') ∧
       objects KConfigMap w' !! (vcNamespace vc, configMapName vc) = Some cm ∧
       cm_Data cm = cm_Data (buildConfigMap vc password) ∧ onlyReads admitObj admitSts (ensureConfigMap sha256 vc password) w').
Proof.
  intros Hn Hd. split_and!; [| | |intros sha256 w Hw; by apply ensureConfigMap_settles].
  - intros svc _. eapply settlesTo_mono; [apply (applyService_settlesTo admitObj admitSts)|]. intros o (x & -> & Hs). exists x.
    apply andb_prop in Hs as [[H1%bool_decide_eq_true H2%bool_decide_eq_true]%andb_prop H3]. auto.
  - eapply settlesTo_mono; [apply (ensureNetworkPolicy_settlesTo admitObj admitSts)|]. intros o. destruct (networkPolicyEnabled vc); [|done].
    intros (x & -> & [H1%bool_decide_eq_true _]%andb_prop). eauto.
  - pose proof (applyPDB_settlesTo admitObj admitSts retrySteps deepDerivative Hn Hd vc (buildPDB vc)) as H.
    assert ((pdb_Namespace (buildPDB vc), pdb_Name (buildPDB vc)) = (vcNamespace vc, vcName vc +:+ "-pdb")) as Ek
      by (unfold buildPDB; by repeat case_match).
    rewrite Ek in H. eapply settlesTo_mono; [exact H|]. intros o. destruct (pdbEnabled vc); [|done].
    intros (x & -> & [H1 _]%andb_prop). eauto.
Qed.

(** ** StatefulSets *)
Section sts.
Context (admitObj : ∀ k, obj k → obj k) (admitSts : StatefulSet → StatefulSet) (admitTpl : PodTemplateSpec → PodTemplateSpec).
Context (specHash : option Z * PodTemplateSpec * string * gmap string string → string) (retrySteps : nat).

(** Admission fills in the pod template only. *)
Class StsAdmission : Prop := {
  admitSts_key : ∀ s, stsKey (admitSts s) = stsKey s;
  admitSts_annotations : ∀ s, sts_Annotations (admitSts s) = sts_Annotations s;
  admitSts_owned : ∀ s, ownedFields (admitSts s) = (sts_Replicas s, admitTpl (sts_Template s), sts_UpdateStrategy s, sts_Labels s)
}.
(** The live StatefulSet is what [d] asks for. *)
Definition runsAs (d cur : StatefulSet) : Prop :=
  ownedFields cur = (sts_Replicas d, admitTpl (sts_Template d), sts_UpdateStrategy d, sts_Labels d).
(** The annotation tells what the StatefulSet was last reconciled to. *)
Definition stamped (d cur : StatefulSet) : Prop :=
  map_get (sts_Annotations cur) appliedHashAnnotation = appliedSpecHash specHash d.
Definition honest (cur : StatefulSet) : Prop :=
  map_get (sts_Annotations cur) appliedHashAnnotation ≠ "" → ∃ d, stamped d cur ∧ runsAs d cur.
Definition stsKeyed (w : Store) : Prop := ∀ key s, st_Sts w !! key = Some s → stsKey s = key.

Context {Hadm : StsAdmission} (vc : ValkeyCluster) (desired : StatefulSet).
Let h := store_handle admitObj admitSts.
Let hash := appliedSpecHash specHash desired.
(** No other fields have this hash, and it is not the empty string. *)
Context (Hnocoll : ∀ d, appliedSpecHash specHash d = hash → ownedFields d = ownedFields desired) (Hhash : hash ≠ "").
Context (Hsteps : 0 < retrySteps).

Let d' := set_sts_Annotations (<[appliedHashAnnotation := hash]> (sts_Annotations desired)) desired.

Lemma runsAs_owned d d2 cur : ownedFields d = ownedFields d2 → runsAs d cur → runsAs d2 cur.
Proof. unfold ownedFields, runsAs. intros [= -> -> -> ->]. done. Qed.
Lemma written_runsAs s : ownedFields s = ownedFields desired → runsAs desired (admitSts s).
Proof. intros E. unfold runsAs. rewrite admitSts_owned. unfold ownedFields in E. injection E as -> -> -> ->. done. Qed.

Lemma reconcileSts_run w cur : stsKeyed w → st_Sts w !! stsKey desired = Some cur → honest cur →
  ∃ cur' w', run h (reconcileSts d' hash) w = (inr cur', w') ∧ st_Sts w' !! stsKey desired = Some cur' ∧
    runsAs desired cur' ∧ stamped desired cur' ∧
    (w' = w ∨ cur' = admitSts (stsMerged d' hash cur) ∧ w' = with_sts (<[stsKey desired := cur']> (st_Sts w)) w) ∧
    (stamped desired cur → w' = w ∧ onlyReads admitObj admitSts (reconcileSts d' hash) w).
Proof.
  intros Hw E Hh. unfold reconcileSts.
  change (sts_Namespace d', sts_Name d') with (stsKey desired). rewrite run_bind.
  rewrite (run_perform _ (OGetSts (sts_Namespace d') (sts_Name d'))). unfold h. cbn [store_handle].
  change (sts_Namespace d', sts_Name d') with (stsKey desired). rewrite E.
  case_bool_decide as Ea.
  - exists cur, w. destruct Hh as (d & Hs & Hr); [congruence|]. unfold stamped in *.
    assert (ownedFields d = ownedFields desired) as Eo by (apply Hnocoll; congruence).
    split_and!; try done; [by eapply runsAs_owned|by left|]. intros _. split; [done|].
    unfold onlyReads. rewrite trace_bind, (trace_perform _ (OGetSts _ _)), (run_perform _ (OGetSts (sts_Namespace d') (sts_Name d'))).
    cbn [store_handle]. change (sts_Namespace d', sts_Name d') with (stsKey desired). rewrite E, bool_decide_true by done.
    by repeat constructor.
  - set (m := stsMerged d' hash cur). rewrite (run_perform _ (OUpdateSts m)). cbn [store_handle].
    assert (stsKey m = stsKey desired) as -> by (apply (Hw _ _ E)). rewrite E.
    exists (admitSts m), (with_sts (<[stsKey desired := admitSts m]> (st_Sts w)) w). split_and!; try done.
    + cbn. by rewrite lookup_insert, decide_True.
    + by apply written_runsAs.
    + unfold stamped, map_get. rewrite admitSts_annotations. cbn. by rewrite lookup_insert, decide_True.
    + by right.
Qed.

Lemma run_retryValue {A} n (fn : prog (KubeErr + A)) w r w' :
  run h fn w = (r, w') → r ≠ inl Conflict → run h (RetryOnConflictValue (S n) fn) w = (r, w').
Proof. intros E Hr. cbn [RetryOnConflictValue]. rewrite run_bind, E. by destruct r as [[]|]. Qed.
Lemma run_applySts w : run h (applyStatefulSet retrySteps specHash vc desired) w =
  match st_Sts w !! stsKey desired with
  | Some _ => run h (RetryOnConflictValue retrySteps (reconcileSts d' hash)) w
  | None => (inr (admitSts d'), with_sts (<[stsKey desired := admitSts d']> (st_Sts w)) w)
  end.
Proof.
  unfold applyStatefulSet, setOwner. rewrite run_bind, (run_perform _ (OSetControllerReference _ _)). unfold h. cbn [store_handle].
  fold hash d'. rewrite run_bind, (run_perform _ (OGetSts (sts_Namespace d') (sts_Name d'))). cbn [store_handle].
  change (sts_Namespace d', sts_Name d') with (stsKey desired). destruct (st_Sts w !! stsKey desired) eqn:E; [done|].
  cbn [IsNotFound]. rewrite (run_perform _ (OCreateSts d')). cbn [store_handle].
  change (stsKey d') with (stsKey desired). by rewrite E.
Qed.
Lemma onlyReads_applySts w cur : st_Sts w !! stsKey desired = Some cur → stamped desired cur →
  onlyReads admitObj admitSts (applyStatefulSet retrySteps specHash vc desired) w.
Proof.
  intros E Hs. destruct retrySteps as [|n]; [lia|].
  assert (run h (reconcileSts d' hash) w = (inr cur, w) ∧ onlyReads admitObj admitSts (reconcileSts d' hash) w) as [Hr Ho].
  { unfold onlyReads, reconcileSts. rewrite run_bind, trace_bind, (trace_perform _ (OGetSts _ _)).
    unfold h. rewrite !(run_perform _ (OGetSts (sts_Namespace d') (sts_Name d'))). cbn [store_handle].
    change (sts_Namespace d', sts_Name d') with (stsKey desired). rewrite E, bool_decide_true by done. split; [done|by repeat constructor]. }
  unfold onlyReads, applyStatefulSet, setOwner. rewrite trace_bind, (trace_perform _ (OSetControllerReference _ _)),
    (run_perform _ (OSetControllerReference _ _)). cbn [store_handle]. fold hash d'.
  rewrite trace_bind, (trace_perform _ (OGetSts _ _)), (run_perform _ (OGetSts (sts_Namespace d') (sts_Name d'))). cbn [store_handle].
  change (sts_Namespace d', sts_Name d') with (stsKey desired). rewrite E. cbn [RetryOnConflictValue]. rewrite trace_bind.
  fold h. rewrite Hr. apply Forall_app; split; [by repeat constructor|]. apply Forall_app; split; [by repeat constructor|].
  apply Forall_app; split; [exact Ho|constructor].
Qed.

Lemma rerun_applySts w cur : st_Sts w !! stsKey desired = Some cur → stamped desired cur →
  run h (applyStatefulSet retrySteps specHash vc desired) w = (inr cur, w).
Proof.
  intros E Hs. rewrite run_applySts, E. destruct retrySteps as [|n]; [lia|]. apply run_retryValue; [|done].
  unfold reconcileSts. rewrite run_bind, (run_perform _ (OGetSts (sts_Namespace d') (sts_Name d'))). unfold h. cbn [store_handle].
  change (sts_Namespace d', sts_Name d') with (stsKey desired). rewrite E, bool_decide_true; done.
Qed.

(** C11: the hash-gated StatefulSet converges and is then left alone: whatever the live object is, as
    long as its annotation tells the truth about what was last applied, one pass makes size,
    template (up to admission), strategy and labels those of the desired object, writes an
    existing object with nothing but those fields and the annotation changed, answers the stored
    object, and a second pass only reads and answers the same object. *)
Theorem applyStatefulSet_converges w : stsKeyed w →
  (∀ cur, st_Sts w !! stsKey desired = Some cur → honest cur) →
  ∃ cur' w', run h (applyStatefulSet retrySteps specHash vc desired) w = (inr cur', w') ∧
    st_Sts w' !! stsKey desired = Some cur' ∧ runsAs desired cur' ∧ stamped desired cur' ∧ honest cur' ∧
    (∀ cur, st_Sts w !! stsKey desired = Some cur → cur' = cur ∨ cur' = admitSts (stsMerged d' hash cur)) ∧
    onlyReads admitObj admitSts (applyStatefulSet retrySteps specHash vc desired) w' ∧
    run h (applyStatefulSet retrySteps specHash vc desired) w' = (inr cur', w').
Proof.
  intros Hw Hh. rewrite run_applySts.
  assert (∀ cur' w', st_Sts w' !! stsKey desired = Some cur' → stamped desired cur' → runsAs desired cur' →
    honest cur' ∧ onlyReads admitObj admitSts (applyStatefulSet retrySteps specHash vc desired) w' ∧
    run h (applyStatefulSet retrySteps specHash vc desired) w' = (inr cur', w')) as Hsecond.
  { intros cur' w' E' Hs Hr. split_and!; [intros _; by exists desired|by eapply onlyReads_applySts|by apply rerun_applySts]. }
  destruct (st_Sts w !! stsKey desired) as [cur|] eqn:E.
  - destruct (reconcileSts_run w cur Hw E (Hh _ eq_refl)) as (cur' & w' & Hrun & E' & Hr & Hs & Hor & _).
    destruct retrySteps as [|n] eqn:En; [lia|]. rewrite (run_retryValue _ _ _ _ _ Hrun) by done. rewrite <-En in *.
    destruct (Hsecond cur' w' E' Hs Hr) as (? & ? & ?). exists cur', w'. split_and!; try done.
    intros cur0 [= <-]. destruct Hor as [-> | [-> _]]; [left|by right]. congruence.
  - exists (admitSts d'), (with_sts (<[stsKey desired := admitSts d']> (st_Sts w)) w).
    assert (st_Sts (with_sts (<[stsKey desired := admitSts d']> (st_Sts w)) w) !! stsKey desired = Some (admitSts d')) as E'
      by (cbn; by rewrite lookup_insert, decide_True).
    assert (stamped desired (admitSts d')) as Hs
      by (unfold stamped, map_get; rewrite admitSts_annotations; cbn; by rewrite lookup_insert, decide_True).
    assert (runsAs desired (admitSts d')) as Hr by (by apply written_runsAs).
    destruct (Hsecond _ _ E' Hs Hr) as (? & ? & ?). by split_and!.
Qed.
End sts.

(** ** Volumes *)
Definition isSentinelPVC (vc : ValkeyCluster) (p : PersistentVolumeClaim) : bool := has_prefix (pvc_Name p) (sentinelPVCPrefix vc).
(** A patch that grows one of the listed data volumes to the wanted size. *)
Definition growsListed (vc : ValkeyCluster) (desired : Z) (pvcs : list PersistentVolumeClaim) (e : Event) : Prop :=
  match ev_op e with
  | OPatchPVC p new => p ∈ pvcs ∧ isSentinelPVC vc p = false ∧ (storageRequest p < desired)%Z ∧
                       new = set_pvc_Requests (<[ResourceStorage := desired]> (pvc_Requests p)) p
  | op => reads op = true
  end.
Lemma expandPVCs_spec vc desired pvcs tr e : exec (expandPVCs vc desired pvcs) tr e →
  Forall (growsListed vc desired pvcs) tr ∧
  (e = None → ∀ p, p ∈ pvcs → isSentinelPVC vc p = false →
     (desired ≤ storageRequest p)%Z ∨ ∃ new, Ev (OPatchPVC p new) None ∈ tr ∧ storageRequest new = desired).
Proof.
  revert tr; induction pvcs as [|p rest IH]; intros tr Hx; cbn [expandPVCs] in Hx.
  { apply exec_ret in Hx as [-> _]. split; [done|]. intros _ p []%not_elem_of_nil. }
  assert (∀ ev, growsListed vc desired rest ev → growsListed vc desired (p :: rest) ev) as Hmono.
  { intros [op x]. unfold growsListed. cbn. destruct op; try done. intros (? & ?). split; [by right|done]. }
  assert (exec (expandPVCs vc desired rest) tr e → isSentinelPVC vc p = true ∨ (desired ≤ storageRequest p)%Z →
    Forall (growsListed vc desired (p :: rest)) tr ∧
    (e = None → ∀ q, q ∈ p :: rest → isSentinelPVC vc q = false →
     (desired ≤ storageRequest q)%Z ∨ ∃ new, Ev (OPatchPVC q new) None ∈ tr ∧ storageRequest new = desired)) as Hskip.
  { intros [H1 H2]%IH Hp. split; [by eapply Forall_impl|]. intros He q [-> | Hq]%elem_of_cons Hs; [|by apply H2].
    destruct Hp; [congruence|by left]. }
  change (has_prefix (pvc_Name p) (sentinelPVCPrefix vc)) with (isSentinelPVC vc p) in Hx.
  destruct (isSentinelPVC vc p) eqn:Es; [auto|]. destruct (desired <=? storageRequest p)%Z eqn:El; [apply Hskip; [done|right; lia]|].
  apply exec_bind in Hx as (t1 & t2 & r & -> & ->%(exec_perform (OPatchPVC _ _)) & Hx).
  assert (growsListed vc desired (p :: rest) (Ev (OPatchPVC p (set_pvc_Requests (<[ResourceStorage := desired]> (pvc_Requests p)) p)) r))
    as Hev by (cbn; split_and!; [by left|done|lia|done]).
  destruct r as [err|].
  - apply exec_ret in Hx as [-> <-]. split; [by constructor|done].
  - apply IH in Hx as [H1 H2]. split; [constructor; [done|by eapply Forall_impl]|].
    intros He q [-> | Hq]%elem_of_cons Hs.
    + right. eexists. split; [by left|]. unfold storageRequest. cbn. by rewrite lookup_insert, decide_True.
    + destruct (H2 He q Hq Hs) as [?|(new & Hin & ?)]; [by left|]. right. exists new. split; [by right|done].
Qed.

(** Growing volumes is safe and complete on every path: whatever the API server answers, a pass
    writes nothing but patches that raise the storage request of a listed data volume to the
    spec's size (never lowering one, never a Sentinel's, changing nothing else), and when it
    reports success every listed data volume had at least that size or was patched to it. *)
Theorem ensurePVCSize_grows vc tr e (desired := storageRequest (buildDataPVC vc)) :
  exec (ensurePVCSize vc) tr e →
  (tr = [] ∧ (usesMemoryStorage vc = true ∨ desired = 0%Z)) ∨
  ∃ l tr', tr = Ev (OListPVCs (vcNamespace vc) {[instanceLabel := vcName vc]}) l :: tr' ∧
    match l with
    | inl err => tr' = [] ∧ e = Some (EKube err)
    | inr pvcs => Forall (growsListed vc desired pvcs) tr' ∧
        (e = None → ∀ p, p ∈ pvcs → isSentinelPVC vc p = false →
           (desired ≤ storageRequest p)%Z ∨ ∃ new, Ev (OPatchPVC p new) None ∈ tr' ∧ storageRequest new = desired)
    end.
Proof.
  unfold ensurePVCSize. intros Hx. destruct (usesMemoryStorage vc); [apply exec_ret in Hx as [-> _]; auto|].
  fold desired in Hx. case_bool_decide; [apply exec_ret in Hx as [-> _]; auto|right].
  apply exec_bind in Hx as (t1 & t2 & l & -> & ->%(exec_perform (OListPVCs _ _)) & Hx). exists l, t2. split; [done|].
  destruct l as [err|pvcs]; [apply exec_ret in Hx as [-> <-]; done|by apply expandPVCs_spec].
Qed.

(** ** Role labels *)
#[global] Instance Pod_eq_dec : EqDecision Pod.
Proof. solve_decision. Defined.
Section roles.
Context (admitObj : ∀ k, obj k → obj k) (admitSts : StatefulSet → StatefulSet) (primary : string).
Let h := store_handle admitObj admitSts.

Definition roleSet (p : Pod) : bool := map_get (pod_Labels p) roleLabel == roleOf primary p.
Definition relabelled (p : Pod) : Pod :=
  if roleSet p then p else set_pod_Labels (<[roleLabel := roleOf primary p]> (pod_Labels p)) p.
(** What handling [x] makes of [p]. *)
Definition relabelStep (p x : Pod) : Pod := if (negb (roleSet x) && samePod x p)%bool then relabelled x else p.

Lemma run_labelPods l w : run h (foldM (labelPod primary) tt l) w =
  (tt, with_podList ((λ p, foldl relabelStep p l) <$> st_Pods w) w).
Proof.
  revert w; induction l as [|x l IH]; intros w; cbn [foldM].
  { cbn. rewrite list_fmap_id. by destruct w. }
  rewrite run_bind. unfold labelPod at 1. fold (roleSet x). destruct (roleSet x) eqn:Ex.
  - change (run h (mret ()) w) with (tt, w). cbv beta iota. rewrite IH. do 2 f_equal. apply list_fmap_ext. intros i p _. cbn [foldl]. unfold relabelStep at 3. by rewrite Ex.
  - rewrite run_bind, (run_perform _ (OPatchPod _ _)). unfold h at 1. cbn [store_handle]. cbv beta iota. change (run h (mret ()) ?x) with (tt, x).
    cbv beta iota. rewrite IH. change (with_podList ?a (with_podList ?b w)) with (with_podList a w). do 2 f_equal. cbn [st_Pods with_podList]. rewrite <-list_fmap_compose. apply list_fmap_ext. intros i p _. cbn [foldl compose].
    unfold relabelStep at 3, relabelled. rewrite Ex. done.
Qed.
Lemma samePod_name a b : samePod a b = true ↔ (pod_Namespace a, pod_Name a) = (pod_Namespace b, pod_Name b).
Proof. unfold samePod. rewrite andb_true_iff, !bool_decide_eq_true. split; [by intros [-> ->]|by intros [= -> ->]]. Qed.
Lemma relabelled_key p : (pod_Namespace (relabelled p), pod_Name (relabelled p)) = (pod_Namespace p, pod_Name p).
Proof. unfold relabelled. by destruct (roleSet p). Qed.
Lemma foldl_relabel_other p l : (∀ y, y ∈ l → samePod y p = false) → foldl relabelStep p l = p.
Proof.
  induction l as [|y l IH]; intros Hl; [done|]. cbn [foldl]. unfold relabelStep at 2.
  rewrite (Hl y) by constructor. rewrite andb_false_r. apply IH. intros z Hz. apply Hl. by constructor.
Qed.
Definition podKey (p : Pod) : Key := (pod_Namespace p, pod_Name p).
Lemma foldl_relabel p l : NoDup (podKey <$> l) → (∀ x, x ∈ l → podKey x = podKey p → x = p) →
  foldl relabelStep p l = if decide (p ∈ l) then relabelled p else p.
Proof.
  induction l as [|x l IH]; intros Hnd Huniq; [done|]. rewrite fmap_cons in Hnd. apply NoDup_cons in Hnd as [Hx Hnd].
  cbn [foldl]. destruct (decide (podKey x = podKey p)) as [Ek|Hne].
  - assert (x = p) as -> by (by apply Huniq; [left|]). rewrite decide_True by left.
    assert (relabelStep p p = relabelled p) as ->.
    { unfold relabelStep, relabelled. rewrite (proj2 (samePod_name p p)) by done. by destruct (roleSet p). }
    apply foldl_relabel_other. intros y Hy. apply not_true_iff_false. intros Hs%samePod_name.
    apply Hx. rewrite relabelled_key in Hs. apply list_elem_of_fmap. exists y. split; [|done]. by symmetry.
  - assert (relabelStep p x = p) as ->.
    { unfold relabelStep. destruct (samePod x p) eqn:Es; [by apply samePod_name in Es|]. by rewrite andb_false_r. }
    rewrite IH; [|done|intros y Hy; apply Huniq; by right].
    destruct (decide (p ∈ l)); [by rewrite decide_True by (by right)|]. rewrite decide_False; [done|].
    intros [-> | ?]%elem_of_cons; done.
Qed.

Lemma relabelled_role p : map_get (pod_Labels (relabelled p)) roleLabel = roleOf primary p.
Proof.
  unfold relabelled. destruct (roleSet p) eqn:E; [by apply bool_decide_eq_true in E|].
  cbn. unfold map_get. by rewrite lookup_insert, decide_True.
Qed.
Lemma relabelled_other p k : k ≠ roleLabel → pod_Labels (relabelled p) !! k = pod_Labels p !! k.
Proof. intros Hk. unfold relabelled. destruct (roleSet p); [done|]. cbn. by rewrite lookup_insert_ne. Qed.
Lemma relabelled_subset p l : l !! roleLabel = None → l ⊆ pod_Labels (relabelled p) ↔ l ⊆ pod_Labels p.
Proof.
  intros Hl. rewrite !map_subseteq_spec. split; intros H i x Hi; specialize (H i x Hi); rewrite relabelled_other in *; try done;
    intros ->; congruence.
Qed.

Context (vc : ValkeyCluster).
(** The pods [ensureRoleLabels] lists. *)
Definition listed (p : Pod) : bool := ((pod_Namespace p == vcNamespace vc) && bool_decide (labelsFor vc ⊆ pod_Labels p))%bool.
Lemma run_ensureRoleLabels w : primary ≠ "" → NoDup (podKey <$> st_Pods w) →
  run h (ensureRoleLabels vc primary) w = (None, with_podList ((λ p, if listed p then relabelled p else p) <$> st_Pods w) w).
Proof.
  intros Hp Hnd. unfold ensureRoleLabels. rewrite bool_decide_false by done.
  rewrite run_bind, (run_perform _ (OListPods _ _)). unfold h at 1. cbn [store_handle]. cbv beta iota. fold listed.
  rewrite run_bind, run_labelPods. cbv beta iota. change (run h (mret ?a) ?x) with (a, x). do 2 f_equal. apply list_fmap_ext.
  intros i p Hi%list_elem_of_lookup_2. rewrite foldl_relabel.
  - destruct (listed p) eqn:El.
    + rewrite decide_True; [done|]. by apply elem_of_filter_bool.
    + rewrite decide_False; [done|]. intros [Hl _]%elem_of_filter_bool. change (listed p = true) in Hl. congruence.
  - eapply sublist_NoDup; [exact Hnd|]. apply fmap_sublist, sublist_filter.
  - intros x [_ Hx]%elem_of_filter_bool Ek. by eapply (NoDup_fmap_eq podKey).
Qed.

Lemma relabelled_listed p : listed (relabelled p) = listed p.
Proof.
  unfold listed. assert (pod_Namespace (relabelled p) = pod_Namespace p) as -> by (unfold relabelled; by destruct (roleSet p)).
  f_equal. apply bool_decide_ext, relabelled_subset. apply labelsFor_lookup_other. by_computation.
Qed.
Lemma relabelled_roleSet p : roleSet (relabelled p) = true.
Proof.
  apply bool_decide_eq_true. rewrite relabelled_role. unfold roleOf. unfold relabelled. by destruct (roleSet p).
Qed.
Lemma labelPods_quiet l w : Forall (λ p, roleSet p = true) l → trace h (foldM (labelPod primary) tt l) w = [].
Proof.
  intros Hl. revert w. induction Hl as [|p l Hp _ IH]; intros w; [done|]. cbn [foldM]. rewrite trace_bind.
  unfold labelPod at 1 2. fold (roleSet p). rewrite Hp. change (run h (mret ()) w) with (tt, w). cbv beta iota. by rewrite IH.
Qed.
(** A Service with a role in its selector. *)
Lemma role_selects r p : selects (byLabels (<[roleLabel := r]> (labelsFor vc))) (pod_Labels p) = true ↔
  labelsFor vc ⊆ pod_Labels p ∧ pod_Labels p !! roleLabel = Some r.
Proof.
  unfold selects, byLabels. cbn [MatchLabels MatchExpressions forallb]. rewrite andb_true_r, bool_decide_eq_true.
  assert (labelsFor vc !! roleLabel = None) as Hn by (apply labelsFor_lookup_other; by_computation). split.
  - intros Hs. split; [|by eapply lookup_weaken; [by rewrite lookup_insert, decide_True|]].
    etrans; [|exact Hs]. by apply insert_subseteq.
  - intros [Hl Hr]. by apply insert_subseteq_l.
Qed.

(** The split endpoints follow the primary: after a pass that knows it, among the pods of the
    namespace with the cluster's labels, the primary Service selects exactly the pod of that name
    and the replicas Service exactly the others; no other pod and no other label changes, and run
    again the step only reads. *)
Theorem roleLabels_route w : primary ≠ "" → NoDup (podKey <$> st_Pods w) →
  let '(e, w') := run h (ensureRoleLabels vc primary) w in
  e = None ∧
  (∀ p, p ∈ st_Pods w' → listed p = true →
     (selects (byLabels (svc_Selector (buildPrimaryService vc))) (pod_Labels p) = true ↔ pod_Name p = primary) ∧
     (selects (byLabels (svc_Selector (buildReplicasService vc))) (pod_Labels p) = true ↔ pod_Name p ≠ primary)) ∧
  (∀ i p, st_Pods w !! i = Some p → ∃ p', st_Pods w' !! i = Some p' ∧ podKey p' = podKey p ∧
     (listed p = false → p' = p) ∧ ∀ k, k ≠ roleLabel → pod_Labels p' !! k = pod_Labels p !! k) ∧
  onlyReads admitObj admitSts (ensureRoleLabels vc primary) w'.
Proof.
  intros Hp Hnd. rewrite run_ensureRoleLabels by done. set (f := λ p, if listed p then relabelled p else p).
  assert (∀ p, listed (f p) = listed p) as Hf by (intros p; unfold f; destruct (listed p) eqn:E; by rewrite ?relabelled_listed).
  split_and!; [done|..].
  - cbn [st_Pods with_podList]. intros p (p0 & -> & _)%list_elem_of_fmap Hl. rewrite Hf in Hl. unfold f. rewrite Hl.
    assert (pod_Name (relabelled p0) = pod_Name p0) as -> by (unfold relabelled; by destruct (roleSet p0)).
    assert (labelsFor vc ⊆ pod_Labels (relabelled p0)) as Hs.
    { rewrite <-relabelled_listed in Hl. by apply andb_prop in Hl as [_ ?%bool_decide_eq_true]. }
    assert (pod_Labels (relabelled p0) !! roleLabel = Some (roleOf primary p0)) as Hr.
    { pose proof (relabelled_role p0) as Hr. unfold map_get in Hr. destruct (_ !! roleLabel); cbn in Hr; [by subst|].
      unfold roleOf in Hr. by destruct (bool_decide _). }
    cbn [svc_Selector buildPrimaryService buildReplicasService buildRoleService]. rewrite !role_selects, Hr. unfold roleOf.
    case_bool_decide; naive_solver.
  - intros i p Hi. exists (f p). cbn [st_Pods with_podList]. rewrite list_lookup_fmap, Hi. unfold f.
    split_and!; [done|by destruct (listed p); [apply relabelled_key|]|by intros ->|].
    intros k Hk. destruct (listed p); [by apply relabelled_other|done].
  - unfold onlyReads, ensureRoleLabels. rewrite bool_decide_false by done. rewrite trace_bind, (trace_perform _ (OListPods _ _)),
      (run_perform _ (OListPods _ _)). cbn [store_handle]. cbv beta iota. rewrite trace_bind. fold h.
    rewrite labelPods_quiet; [rewrite run_labelPods; by repeat constructor|].
    apply Forall_forall. intros p [Hl Hin]%elem_of_filter_bool. change (listed p = true) in Hl.
    cbn [st_Pods with_podList] in Hin. apply list_elem_of_fmap in Hin as (p0 & -> & _).
    rewrite Hf in Hl. unfold f. rewrite Hl. apply relabelled_roleSet.
Qed.
End roles.

(** ** A concrete API server: it defaults a Service's type and a pod template's restart policy *)
Definition demoAdmit (k : Kind) : obj k → obj k :=
  match k return obj k → obj k with
  | KService => λ s, {| svc_Name := svc_Name s; svc_Namespace := svc_Namespace s; svc_Labels := svc_Labels s;
      svc_Type := if svc_Type s == "" then "ClusterIP" else svc_Type s; svc_ClusterIP := svc_ClusterIP s;
      svc_PublishNotReadyAddresses := svc_PublishNotReadyAddresses s; svc_Selector := svc_Selector s; svc_Ports := svc_Ports s |}
  | _ => id
  end.
Definition demoAdmitTpl (t : PodTemplateSpec) : PodTemplateSpec :=
  let p := pt_Spec t in
  {| pt_Labels := pt_Labels t; pt_Annotations := pt_Annotations t;
     pt_Spec := {| ps_RestartPolicy := if ps_RestartPolicy p == "" then "Always" else ps_RestartPolicy p;
       ps_InitContainers := ps_InitContainers p; ps_Containers := ps_Containers p; ps_Volumes := ps_Volumes p;
       ps_NodeSelector := ps_NodeSelector p; ps_Tolerations := ps_Tolerations p; ps_Affinity := ps_Affinity p;
       ps_TopologySpreadConstraints := ps_TopologySpreadConstraints p; ps_ImagePullSecrets := ps_ImagePullSecrets p;
       ps_SecurityContext := ps_SecurityContext p;
       ps_TerminationGracePeriodSeconds := ps_TerminationGracePeriodSeconds p |} |}.
Definition demoAdmitSts (s : StatefulSet) : StatefulSet :=
  set_sts_owned (sts_Replicas s) (demoAdmitTpl (sts_Template s)) (sts_UpdateStrategy s) (sts_Labels s) (sts_Annotations s) s.
#[global] Instance demoAdmission : Admission demoAdmit.
Proof. split; try done. by intros []. Qed.
#[global] Instance demoStsAdmission : StsAdmission demoAdmitSts demoAdmitTpl.
Proof. by split. Qed.
Definition emptyStore : Store := {|
  st_Services := ∅; st_ConfigMaps := ∅; st_PDBs := ∅; st_NetPols := ∅; st_CronJobs := ∅; st_Monitors := ∅;
  st_Sts := ∅; st_PVCs := []; st_Pods := [] |}.
Lemma emptyStore_keyed k : keyed k emptyStore.
Proof. intros key o. by destruct k. Qed.

Lemma objects_settle_witness :
  let '(e, w') := run (store_handle demoAdmit demoAdmitSts) (ensureService demoConf (buildClientService demoConf)) emptyStore in
  e = None ∧ onlyReads demoAdmit demoAdmitSts (ensureService demoConf (buildClientService demoConf)) w'.
Proof.
  destruct (objects_settle demoAdmit demoAdmitSts 5 (λ _ _, true) demoConf 0 "pw") as (H & _); [lia|reflexivity|].
  specialize (H (buildClientService demoConf) (list_elem_of_further _ _ _ (list_elem_of_here _ _)) emptyStore (emptyStore_keyed _)).
  destruct (run _ _ _) as [e w']. destruct H as (H1 & _ & _ & H2). split; [exact H1|exact H2].
Defined.

(** A hash that tells only the wanted size apart is enough for a set of which nothing else has it. *)
Definition demoSpecHash (d : StatefulSet) (x : option Z * PodTemplateSpec * string * gmap string string) : string :=
  if bool_decide (x = ownedFields d) then "wanted" else "other".
Definition demoDesired : StatefulSet := buildStatefulSet demoConf "h" false.
Lemma applyStatefulSet_converges_witness : ∃ cur' w',
  run (store_handle demoAdmit demoAdmitSts) (applyStatefulSet 5 (demoSpecHash demoDesired) demoConf demoDesired) emptyStore = (inr cur', w') ∧
  runsAs demoAdmitTpl demoDesired cur' ∧
  run (store_handle demoAdmit demoAdmitSts) (applyStatefulSet 5 (demoSpecHash demoDesired) demoConf demoDesired) w' = (inr cur', w').
Proof.
  assert (appliedSpecHash (demoSpecHash demoDesired) demoDesired = "wanted") as Eh
    by (unfold appliedSpecHash, demoSpecHash; by rewrite bool_decide_true).
  destruct (applyStatefulSet_converges demoAdmit demoAdmitSts demoAdmitTpl (demoSpecHash demoDesired) 5 demoConf demoDesired)
    with (w := emptyStore) as (cur' & w' & H1 & _ & H2 & _ & _ & _ & _ & H3).
  - intros d. rewrite Eh. unfold appliedSpecHash, demoSpecHash. case_bool_decide; [done|discriminate].
  - rewrite Eh. discriminate.
  - lia.
  - by intros key s.
  - by intros cur.
  - exists cur', w'. split_and!; [exact H1|exact H2|exact H3].
Defined.

(** A volume that is too small, one that is large enough and a Sentinel's. *)
Definition demoPVC (name : string) (size : Z) : PersistentVolumeClaim := {|
  pvc_Name := name; pvc_Namespace := "ns"; pvc_Labels := {[instanceLabel := "demo"]}; pvc_AccessModes := [];
  pvc_StorageClassName := None; pvc_Requests := {[ResourceStorage := size]} |}.
Definition demoVolumes : Store := with_pvcs
  [demoPVC "data-demo-0" 1; demoPVC "data-demo-1" 99999999999; demoPVC "data-demo-sentinel-0" 1] emptyStore.
Lemma ensurePVCSize_grows_witness :
  let tr := trace (store_handle demoAdmit demoAdmitSts) (ensurePVCSize demoConf) demoVolumes in
  ∃ l tr', tr = Ev (OListPVCs "ns" {[instanceLabel := "demo"]}) (inr l) :: tr' ∧
    Forall (growsListed demoConf (storageRequest (buildDataPVC demoConf)) l) tr' ∧ length tr' = 1.
Proof.
  pose proof (run_exec (store_handle demoAdmit demoAdmitSts) (ensurePVCSize demoConf) demoVolumes) as Hx.
  destruct (ensurePVCSize_grows demoConf _ _ Hx) as [[E _]|(l & tr' & E & H)]; [vm_compute in E; discriminate|].
  assert (length tr' = 1) as Hlen by (apply (f_equal length) in E; vm_compute in E; injection E as E; symmetry; exact E).
  destruct l as [err|l]; [destruct H as [-> _]; discriminate|].
  exists l, tr'. split_and!; [exact E|apply H|exact Hlen].
Defined.

Definition demoDataPod (name role : string) : Pod := {|
  pod_Name := name; pod_Namespace := "ns"; pod_Labels := <[roleLabel := role]> (labelsFor demoConf); pod_Deleting := false;
  pod_Phase := "Running"; pod_Conditions := []; pod_NodeName := ""; pod_IP := "" |}.
Definition demoPodStore : Store := with_podList
  [demoDataPod "demo-0" rolePrimary; demoDataPod "demo-1" roleReplica; demoDataPod "demo-2" ""] emptyStore.
Lemma roleLabels_route_witness :
  let '(e, w') := run (store_handle demoAdmit demoAdmitSts) (ensureRoleLabels demoConf "demo-1") demoPodStore in
  e = None ∧ onlyReads demoAdmit demoAdmitSts (ensureRoleLabels demoConf "demo-1") w'.
Proof.
  pose proof (roleLabels_route demoAdmit demoAdmitSts "demo-1" demoConf demoPodStore ltac:(discriminate)
    ltac:(apply (bool_decide_unpack _); vm_compute; exact I)) as H.
  destruct (run _ _ _) as [e w']. destruct H as (H1 & _ & _ & H2). split; [exact H1|exact H2].
Defined.

(** The comment on [resourceSettled] says that no list of a budget's spec can shrink, so that
    DeepDerivative, which takes a shortened list for a prefix that is satisfied, may be used.  The
    Sentinel budget's list of pod names shrinks with [spec.sentinel.replicas]: the update is
    skipped, and the budget keeps naming pods that are gone. *)
Definition prefixOf {A} `{EqDecision A} (a b : list A) : bool := bool_decide (take (length a) b = a).
Definition derivedRequirement (a b : LabelSelectorRequirement) : bool :=
  ((lsr_Key a == lsr_Key b) && (lsr_Operator a == lsr_Operator b) && prefixOf (lsr_Values a) (lsr_Values b))%bool.
Definition derivedSpec (a b : PodDisruptionBudgetSpec) : bool :=
  ((bool_decide (pdbs_MinAvailable a = None) || (pdbs_MinAvailable a == pdbs_MinAvailable b)) &&
   (bool_decide (pdbs_MaxUnavailable a = None) || (pdbs_MaxUnavailable a == pdbs_MaxUnavailable b)) &&
   match pdbs_Selector a, pdbs_Selector b with
   | None, _ => true
   | Some s, Some t => bool_decide (MatchLabels s ⊆ MatchLabels t) &&
                       forallb (λ '(x, y), derivedRequirement x y) (zip (MatchExpressions s) (MatchExpressions t))
   | Some _, None => false
   end)%bool.
Definition sentinelsOf (n : Z) : ValkeyCluster :=
  with_spec demoBudget (set_Spec_Sentinel (Some (set_Sentinel_Replicas n (demoSentinelSpec 0)))).
Example sentinel_budget_not_shrunk :
  resourceSettled derivedSpec (buildSentinelPDB (sentinelsOf 3)) (buildSentinelPDB (sentinelsOf 5)) = true ∧
  resourceSettled derivedSpec (buildSentinelPDB (sentinelsOf 5)) (buildSentinelPDB (sentinelsOf 3)) = false ∧
  pdb_Spec (buildSentinelPDB (sentinelsOf 3)) ≠ pdb_Spec (buildSentinelPDB (sentinelsOf 5)).
Proof. split_and!; [vm_compute; reflexivity|vm_compute; reflexivity|]. intros E. apply (f_equal pdbs_Selector) in E. vm_compute in E. discriminate. Qed.
(** The comment on [appliedSpecHash] says that a value that cannot be hashed never matches and is
    always updated; the empty hash it returns matches an object without the annotation. *)
Example unhashable_is_skipped : ∀ cur w, st_Sts w !! stsKey demoDesired = Some cur → sts_Annotations cur = ∅ →
  run (store_handle demoAdmit demoAdmitSts) (reconcileSts demoDesired "") w = (inr cur, w).
Proof.
  intros cur w E Ha. unfold reconcileSts. rewrite run_bind, (run_perform _ (OGetSts _ _)). cbn [store_handle].
  change (sts_Namespace demoDesired, sts_Name demoDesired) with (stsKey demoDesired). by rewrite E, Ha.
Qed.
