(* ===== verification/Sentinel.v ===== *)
(** * Sentinel: keeping the Sentinels and their data pods in line (sentinel.go)

    Timings are pushed to the live Sentinels, dead entries are reset one Sentinel at a time, and
    a data pod that replicates from the wrong pod is put back, one per pass. *)

From S2P Require Import Prelude GoStd Kube Api Effects Naming Failover Rollout SentinelRollout Jobs Rotation Config Workload.

(** ** Replies *)

(** [fmt.Sprint] of a decoded reply; a map prints with its keys in order. *)
Fixpoint sprint (r : Reply) : string :=
  match r with
  | RStr s => s
  | RInt n => Itoa n
  | RArr l => "[" +:+ join " " l +:+ "]"
  | RMap m => "map[" +:+ join " " ((λ k, k +:+ ":" +:+ map_get (list_to_map m) k) <$> sort_strings m.*1) +:+ "]"
  | RReplies l => "[" +:+ join " " (sprint <$> l) +:+ "]"
  end.
(** A flat array of fields and values; a last field without a value is left out. *)
Fixpoint pairUp (l : list string) (out : gmap string string) : gmap string string :=
  match l with
  | k :: v :: rest => pairUp rest (<[k := v]> out)
  | _ => out
  end.
Definition parseSentinelMaster (res : Reply) : error + gmap string string :=
  match res with
  | RArr l => inr (pairUp l ∅)
  | RReplies l => inr (pairUp (sprint <$> l) ∅)
  | RMap m => inr (list_to_map m)
  | RStr _ => inl "unexpected SENTINEL MASTER reply type string"
  | RInt _ => inl "unexpected SENTINEL MASTER reply type int64"
  end.
Definition sentinelMaster (c : replClient) (name : string) : prog (error + gmap string string) :=
  r ← perform (ODo c ["SENTINEL"; "MASTER"; name]);
  mret (match (r : error + Reply) with inl e => inl e | inr res => parseSentinelMaster res end).
Definition sentinelSet (c : replClient) (name : string) (optionValues : list string) : prog (option error) :=
  do_err c (["SENTINEL"; "SET"; name] ++ optionValues).

(** ** Timings *)
Definition sentinelTimings (s : SentinelSpec) : list (string * string) :=
  [("down-after-milliseconds", Itoa (sentinelDownAfterMs s)); ("failover-timeout", Itoa (sentinelFailoverTimeout s))].
(** The options that differ, each followed by its value. *)
Definition timingChanges (cur : gmap string string) (want : list (string * string)) : list string :=
  '(k, v) ← want; if map_get cur k == v then [] else [k; v].
Definition syncSentinelTimings (c : replClient) (want : list (string * string)) : prog (bool * option error) :=
  m ← sentinelMaster c sentinelMasterName;
  match m with
  | inl err => mret (false, Some err)
  | inr cur =>
      let set := timingChanges cur want in
      if bool_decide (set = []) then mret (false, None)
      else e ← sentinelSet c sentinelMasterName set; mret (true, e)
  end.
(** Dial a Sentinel with the client certificate read once per pass. *)
Definition dialSentinel (vc : ValkeyCluster) (password : string) (cert : option string) (ord : Z) : prog (option replClient) :=
  dialReplClient (sentinelPodFQDN vc ord) (sentinelListenPort vc) password (tlsEnabled vc) cert (3 * second).
Definition applyTimingsTo (vc : ValkeyCluster) (s : SentinelSpec) (password : string) (cert : option string) (pending : bool)
    (p : rolloutPod) : prog bool :=
  if negb (rp_ready p) then mret pending
  else
    c ← dialSentinel vc password cert (rp_ordinal p);
    match c with
    | None => mret true
    | Some c => r ← syncSentinelTimings c (sentinelTimings s); mret (match r.2 with Some _ => true | None => pending end)
    end.
Definition applySentinelTimings (vc : ValkeyCluster) (s : SentinelSpec) (password : string) : prog bool :=
  l ← listSentinelRolloutPods vc;
  match l with
  | inl _ => mret true
  | inr pods => cert ← loadMTLSClientCert vc; foldM (applyTimingsTo vc s password cert) false pods
  end.

(** ** Views *)
Record sentinelView := {
  sv_ordinal : Z;
  sv_master : string;                        (* ip:port *)
  sv_flags : string;
  sv_otherSentinels : Z;
  sv_staleReplicas : Z
}.

(** [net.ParseIP(s) != nil]: a dotted IPv4 address, or an IPv6 address without a zone. *)
Definition ipv4Field (f : string) : bool :=
  ((0 <? String.length f) && (String.length f <=? 3) && str_forall is_digit f)%nat%bool &&
  (match digits_val 0 f with Some v => (v <=? 255)%Z | None => false end) &&
  (negb (has_prefix f "0") || (f == "0"))%bool.
Definition isIPv4 (s : string) : bool :=
  let fs := split_byte "." s in ((length fs =? 4)%nat && forallb ipv4Field fs)%bool.
Definition hexGroup (f : string) : bool :=
  ((0 <? String.length f) && (String.length f <=? 4))%nat%bool &&
  str_forall (λ c, bool_decide (is_Some (hexVal c))) f.
(** The 16-bit fields a list of groups stands for; an IPv4 address may close it and counts for two. *)
Fixpoint groupCount (last : bool) (gs : list string) : option nat :=
  match gs with
  | [] => Some 0
  | [g] => if hexGroup g then Some 1 else if (last && isIPv4 g)%bool then Some 2 else None
  | g :: rest => if hexGroup g then S <$> groupCount last rest else None
  end.
(** [strings.Cut(s, "::")]. *)
Fixpoint cutEllipsis (s : string) : option (string * string) :=
  match s with
  | "" => None
  | String a s' => match strip_prefix "::" s with
                   | Some r => Some ("", r)
                   | None => match cutEllipsis s' with Some (x, y) => Some (String a x, y) | None => None end
                   end
  end.
Definition groupsOf (s : string) : list string := if s == "" then [] else split_byte ":" s.
Definition isIPv6 (s : string) : bool :=
  match cutEllipsis s with
  | None => match groupCount true (split_byte ":" s) with Some n => (n =? 8)%nat | None => false end
  | Some (l, r) => match groupCount false (groupsOf l), groupCount true (groupsOf r) with
                   | Some n, Some m => (n + m <=? 7)%nat
                   | _, _ => false
                   end
  end.
Definition parsesAsIP (s : string) : bool := (isIPv4 s || isIPv6 s)%bool.

(** [n, _ := strconv.Atoi(s)]: zero when it is no number, the nearest int when it is too large. *)
Definition atoiOrNearest (s : string) : Z :=
  match Atoi s with
  | Some v => v
  | None =>
      let '(neg, d) := match strip_prefix "-" s with
                       | Some r => (true, r)
                       | None => (false, match strip_prefix "+" s with Some r => r | None => s end)
                       end in
      if ((d != "") && str_forall is_digit d)%bool then if neg : bool then (- 2 ^ 63)%Z else (2 ^ 63 - 1)%Z else 0%Z
  end.

Definition scaledDownDataPod (vc : ValkeyCluster) (host : string) : bool :=
  let suffix := "." +:+ headlessServiceName vc +:+ "." +:+ vcNamespace vc +:+ ".svc.cluster.local" in
  if negb (has_suffix host suffix) then false
  else match ordinalFromPodName (podNameFromFQDN host) (statefulSetName vc) with
       | Some ord => (Spec_Replicas (Spec vc) <=? ord)%Z
       | None => false
       end.
(** An entry that is not coming back: recorded by IP, or of a pod removed by a scale-down. *)
Definition staleEntry (scaledDown : string → bool) (rep : gmap string string) : bool :=
  (contains (map_get rep "flags") "s_down" && (parsesAsIP (map_get rep "ip") || scaledDown (map_get rep "ip")))%bool.
Fixpoint countStale (scaledDown : string → bool) (n : Z) (l : list Reply) : error + Z :=
  match l with
  | [] => inr n
  | e :: rest =>
      match parseSentinelMaster e with
      | inl err => inl err
      | inr rep => countStale scaledDown (if staleEntry scaledDown rep then n + 1 else n)%Z rest
      end
  end.
(** The elements of an array reply. *)
Definition elementsOf (r : Reply) : option (list Reply) :=
  match r with RReplies l => Some l | RArr l => Some (RStr <$> l) | _ => None end.
Definition sentinelViewOf (c : replClient) (name : string) (scaledDown : string → bool) : prog (error + sentinelView) :=
  m ← sentinelMaster c name;
  match m with
  | inl err => mret (inl err)
  | inr m =>
      r ← perform (ODo c ["SENTINEL"; "REPLICAS"; name]);
      mret (match (r : error + Reply) with
            | inl err => inl err
            | inr res =>
                match elementsOf res with
                | None => inl "unexpected SENTINEL REPLICAS reply type"
                | Some l =>
                    match countStale scaledDown 0 l with
                    | inl err => inl err
                    | inr n => inr {| sv_ordinal := 0; sv_master := map_get m "ip" +:+ ":" +:+ map_get m "port";
                                      sv_flags := map_get m "flags";
                                      sv_otherSentinels := atoiOrNearest (map_get m "num-other-sentinels");
                                      sv_staleReplicas := n |}
                    end
                end
            end)
  end.
Definition set_sv_ordinal (n : Z) (v : sentinelView) : sentinelView := {|
  sv_ordinal := n; sv_master := sv_master v; sv_flags := sv_flags v; sv_otherSentinels := sv_otherSentinels v;
  sv_staleReplicas := sv_staleReplicas v |}.
Definition collectView (vc : ValkeyCluster) (password : string) (cert : option string) (views : list sentinelView)
    (p : rolloutPod) : prog (list sentinelView) :=
  if negb (rp_ready p) then mret views
  else
    c ← dialSentinel vc password cert (rp_ordinal p);
    match c with
    | None => mret views
    | Some c =>
        v ← sentinelViewOf c sentinelMasterName (scaledDownDataPod vc);
        mret (match v with inl _ => views | inr v => views ++ [set_sv_ordinal (rp_ordinal p) v] end)
    end.
Definition collectSentinelViews (vc : ValkeyCluster) (password : string) : prog (list sentinelView) :=
  l ← listSentinelRolloutPods vc;
  match l with
  | inl _ => mret []
  | inr pods => cert ← loadMTLSClientCert vc; foldM (collectView vc password cert) [] pods
  end.

(** ** Resetting dead entries *)
Definition allPresent (views : list sentinelView) (replicas : Z) : bool :=
  (negb (length views =? 0)%nat && (wrap32 (Z.of_nat (length views)) =? replicas)%Z)%bool.
Definition firstMaster (views : list sentinelView) : string := match views with v :: _ => sv_master v | [] => "" end.
Definition hasStale (replicas : Z) (v : sentinelView) : bool :=
  ((replicas - 1 <? sv_otherSentinels v)%Z || (0 <? sv_staleReplicas v)%Z)%bool.
Definition settledView (views : list sentinelView) (replicas : Z) (v : sentinelView) : bool :=
  ((sv_master v == firstMaster views) && (sv_flags v == roleMaster) && negb (sv_otherSentinels v <? replicas - 1)%Z)%bool.
Definition pickSentinelToReset (views : list sentinelView) (replicas : Z) : Z :=
  if negb (allPresent views replicas) then -1
  else if negb (forallb (settledView views replicas) views) then -1
  else match find (hasStale replicas) views with Some v => sv_ordinal v | None => -1 end.
Definition resetStaleSentinels (vc : ValkeyCluster) (s : SentinelSpec) (password : string) (views : list sentinelView) : prog bool :=
  let replicas := Sentinel_Replicas s in
  let dirty := existsb (hasStale replicas) views in
  let ord := pickSentinelToReset views replicas in
  if (ord <? 0)%Z then mret dirty
  else
    c ← dialPod vc (sentinelPodFQDN vc ord) (sentinelListenPort vc) password (3 * second);
    match c with
    | None => mret true
    | Some c => _ ← do_err c ["SENTINEL"; "RESET"; sentinelMasterName]; mret true
    end.

(** ** Repairing data pods *)
Definition agreedMaster (views : list sentinelView) (replicas : Z) : option string :=
  if negb (allPresent views replicas) then None
  else if forallb (λ v, (sv_master v == firstMaster views) && (sv_flags v == roleMaster))%bool views
  then Some (firstMaster views) else None.
(** The ordinal of a data pod by its IP, else by its host name. *)
Definition podsByIP (vc : ValkeyCluster) (pods : list Pod) : gmap string Z :=
  foldl (λ m p, match ordinalFromPodName (pod_Name p) (statefulSetName vc) with
                | Some ord => if pod_IP p != "" then <[pod_IP p := ord]> m else m
                | None => m
                end) ∅ pods.
Definition ordinalOf (vc : ValkeyCluster) (byIP : gmap string Z) (host : string) : option Z :=
  match byIP !! host with
  | Some ord => Some ord
  | None => ordinalFromPodName (podNameFromFQDN host) (statefulSetName vc)
  end.
(** The pod is where it belongs, or cannot be told. *)
Definition inPlace (masterOrd : Z) (ordinalOf : string → option Z) (s : podRole) : bool :=
  (negb (pr_reachable s) || (pr_ordinal s == masterOrd) ||
   ((pr_role s == roleSlave) && bool_decide (ordinalOf (pr_masterHost s) = Some masterOrd)))%bool.
Definition misplacedDataPod (survey : list podRole) (masterOrd : Z) (ordinalOf : string → option Z) : option podRole :=
  find (λ s, negb (inPlace masterOrd ordinalOf s)) survey.
Definition repointPod (vc : ValkeyCluster) (password target : string) (s : podRole) : prog bool :=
  c ← dialPod vc (pr_host s) (dataPort vc) password (3 * second);
  match c with
  | None => mret false
  | Some c =>
      e ← replicaOf c target (dataPort vc);
      match e with
      | None => _ ← do_err c ["CONFIG"; "REWRITE"]; mret true
      | Some _ => mret true
      end
  end.
Definition repairSentinelDataPods (vc : ValkeyCluster) (s : SentinelSpec) (password : string) (views : list sentinelView) : prog bool :=
  match agreedMaster views (Sentinel_Replicas s) with
  | None => mret false
  | Some master =>
      l ← listRolloutPods vc;
      match l with
      | inl _ => mret false
      | inr pods =>
          if negb (wrap32 (Z.of_nat (length pods)) =? Spec_Replicas (Spec vc))%Z then mret false
          else if negb (forallb rp_ready pods) then mret false
          else
            pl ← perform (OListPods (vcNamespace vc) (labelsFor vc));
            match pl with
            | inl _ => mret false
            | inr items =>
                let ordOf := ordinalOf vc (podsByIP vc items) in
                match ordOf (match cut_byte ":" master with Some (h, _) => h | None => master end) with
                | None => mret false
                | Some masterOrd =>
                    survey ← surveyReplication vc password;
                    (* a negative ordinal, which no pod has, would panic *)
                    match (if (masterOrd <? 0)%Z then None else survey !! Z.to_nat masterOrd) with
                    | None => mret false
                    | Some m =>
                        if negb (pr_reachable m && (pr_role m == roleMaster))%bool then mret false
                        else
                          match misplacedDataPod survey masterOrd ordOf with
                          | None => mret false
                          | Some p => repointPod vc password (podFQDN vc (podName vc masterOrd)) p
                          end
                    end
                end
            end
      end
  end.

(** The template change is not fully rolled out yet. *)
Definition statefulSetRolling (sts : StatefulSet) : bool :=
  let want := default 1%Z (sts_Replicas sts) in
  ((sts_ObservedGeneration sts <? sts_Generation sts)%Z || (sts_UpdateRevision sts != sts_CurrentRevision sts) ||
   (sts_UpdatedReplicas sts <? want)%Z || (sts_ReadyReplicas sts <? want)%Z)%bool.

(** ** Facts about executions *)
Lemma surveyReplication_reads vc pw :
  spec (surveyReplication vc pw) isRead (Forall2 (λ i s, pr_ordinal s = i) (zrange 0 (Spec_Replicas (Spec vc)))).
Proof.
  apply spec_mapP. intros i _. unfold surveyPod. eapply spec_bind; [apply dialPod_spec; apply _|].
  intros [c|] _; [|by apply spec_ret]. unfold info, infoSection.
  eapply (spec_bind _ _ _ (λ _, True)); [spec_op; intros; by apply spec_ret|]. intros inf _.
  unfold dbsize. spec_op. intros n. by apply spec_ret.
Qed.
Lemma dialSentinel_spec vc pw cert ord : spec (dialSentinel vc pw cert ord) isRead (λ c, ∀ o, c = Some o → d_Host o = sentinelPodFQDN vc ord).
Proof. intros tr c Hx. by apply dialReplClient_reads in Hx. Qed.
Lemma listSentinel_reads vc : spec (listSentinelRolloutPods vc) isRead (λ _, True).
Proof. unfold listSentinelRolloutPods. spec_op. intros r. by apply spec_ret. Qed.
Lemma listRollout_reads vc : spec (listRolloutPods vc) isRead (λ _, True).
Proof. unfold listRolloutPods. spec_op. intros r. by apply spec_ret. Qed.

(** ** Resetting *)

(** Every Sentinel answered, they agree on a master they see healthy, and each knows its peers. *)
Definition unanimous (views : list sentinelView) (replicas : Z) : Prop :=
  views ≠ [] ∧ wrap32 (Z.of_nat (length views)) = replicas ∧
  ∃ m, ∀ v, v ∈ views → sv_master v = m ∧ sv_flags v = roleMaster.
Lemma allPresent_true views replicas : allPresent views replicas = true ↔
  views ≠ [] ∧ wrap32 (Z.of_nat (length views)) = replicas.
Proof.
  unfold allPresent. rewrite andb_true_iff, Z.eqb_eq. f_equiv. rewrite negb_true_iff, Nat.eqb_neq. by destruct views.
Qed.
Lemma pickSentinelToReset_spec views replicas ord : pickSentinelToReset views replicas = ord → (0 ≤ ord)%Z →
  unanimous views replicas ∧ (∀ v, v ∈ views → (replicas - 1 ≤ sv_otherSentinels v)%Z) ∧
  ∃ v, v ∈ views ∧ sv_ordinal v = ord ∧ hasStale replicas v = true.
Proof.
  unfold pickSentinelToReset. intros E Ho. destruct (allPresent views replicas) eqn:Ea; cbn [negb] in E; [|lia].
  apply allPresent_true in Ea as [Hne Hlen]. destruct (forallb _ views) eqn:Ef; cbn [negb] in E; [|lia].
  pose proof (proj1 (forallb_elem _ _) Ef) as Hall. split_and!.
  - split_and!; [done|done|]. exists (firstMaster views). intros v Hv. specialize (Hall v Hv). unfold settledView in Hall. bool_hyps. auto.
  - intros v Hv. specialize (Hall v Hv). unfold settledView in Hall. bool_hyps. lia.
  - destruct (find _ views) as [v|] eqn:Efi; [|lia]. apply find_some in Efi as [Hin Hst]. exists v.
    split_and!; [by apply list_elem_of_In|done|done].
Qed.
Definition resetCmd : list string := ["SENTINEL"; "RESET"; sentinelMasterName].

(** C30: dead entries are reset safely: whatever is answered, a pass sends no command, or exactly one
    SENTINEL RESET, last, to one Sentinel that has dead entries, and only when as many Sentinels
    answered as the spec asks for, all of them name the same master, see it healthy, and know all
    their peers; and the pass asks to be run again whenever some view still has dead entries. *)
Theorem resetStaleSentinels_safe vc s password views tr again (replicas := Sentinel_Replicas s) :
  exec (resetStaleSentinels vc s password views) tr again →
  (Forall isRead tr ∨
   ∃ trd c r v, tr = trd ++ [Ev (ODo c resetCmd) r] ∧ Forall isRead trd ∧ v ∈ views ∧ hasStale replicas v = true ∧
     d_Host c = sentinelPodFQDN vc (sv_ordinal v) ∧ unanimous views replicas ∧
     (∀ v, v ∈ views → (replicas - 1 ≤ sv_otherSentinels v)%Z)) ∧
  (existsb (hasStale replicas) views = true → again = true).
Proof.
  unfold resetStaleSentinels. fold replicas. intros Hx.
  destruct (pickSentinelToReset views replicas <? 0)%Z eqn:Ep; [apply exec_ret in Hx as [-> ->]; split; [by left|done]|].
  destruct (pickSentinelToReset_spec views replicas _ eq_refl) as (Hu & Hp & v & Hv & Ho & Hst); [lia|].
  apply exec_bind in Hx as (t1 & t2 & c & -> & Hd & Hx). apply (dialPod_spec isRead) in Hd as [Hr Hc].
  destruct c as [c|]; [|apply exec_ret in Hx as [-> <-]; rewrite app_nil_r; auto].
  apply exec_bind in Hx as (t3 & t4 & e & -> & (r & -> & _)%do_err_exec & [-> <-]%exec_ret). rewrite app_nil_r.
  split; [right|done]. destruct (Hc c eq_refl) as (Hh & _). rewrite <-Ho in Hh. by exists t1, c, r, v.
Qed.

(** ** Repairing *)
Lemma agreedMaster_spec views replicas master : agreedMaster views replicas = Some master →
  unanimous views replicas ∧ ∀ v, v ∈ views → sv_master v = master.
Proof.
  unfold agreedMaster. destruct (allPresent views replicas) eqn:Ea; [|done]. cbn [negb].
  apply allPresent_true in Ea as [Hne Hlen]. destruct (forallb _ views) eqn:Ef; [|done]. intros [= <-].
  pose proof (proj1 (forallb_elem _ _) Ef) as Hall.
  assert (∀ v, v ∈ views → sv_master v = firstMaster views ∧ sv_flags v = roleMaster) as H.
  { intros v Hv. specialize (Hall v Hv). cbn in Hall. bool_hyps. auto. }
  split; [split_and!; [done|done|by exists (firstMaster views)]|]. intros v Hv. by apply H.
Qed.
Lemma misplaced_spec survey masterOrd ordOf p : misplacedDataPod survey masterOrd ordOf = Some p →
  p ∈ survey ∧ pr_reachable p = true ∧ pr_ordinal p ≠ masterOrd ∧
  (pr_role p = roleSlave → ordOf (pr_masterHost p) ≠ Some masterOrd).
Proof.
  unfold misplacedDataPod. intros [Hin Hp]%find_some. apply list_elem_of_In in Hin. unfold inPlace in Hp. bool_hyps.
  split_and!; [done|done|done|]. intros Hr Ho.
  match goal with H : (_ && _)%bool = false |- _ => rewrite Hr, !bool_decide_true in H by done; discriminate end.
Qed.
(** The commands that point one pod at another: REPLICAOF and, when it succeeded, CONFIG REWRITE. *)
Definition repoints (tr : list Event) (c : replClient) (target : string) (port : Z) : Prop :=
  let follow := ["REPLICAOF"; target; Itoa port] in
  (∃ e, tr = [Ev (ODo c follow) (inl e)]) ∨
  (∃ x r, tr = [Ev (ODo c follow) (inr x); Ev (ODo c ["CONFIG"; "REWRITE"]) r]).
Lemma repointPod_exec vc password target s tr b : exec (repointPod vc password target s) tr b →
  (Forall isRead tr ∧ b = false) ∨
  ∃ trd trc c, tr = trd ++ trc ∧ Forall isRead trd ∧ d_Host c = pr_host s ∧ repoints trc c target (dataPort vc) ∧ b = true.
Proof.
  unfold repointPod. intros Hx. apply exec_bind in Hx as (t1 & t2 & c & -> & Hd & Hx).
  apply (dialPod_spec isRead) in Hd as [Hr Hc]. destruct c as [c|]; [|apply exec_ret in Hx as [-> <-]; left; by rewrite app_nil_r].
  right. exists t1, t2, c. destruct (Hc c eq_refl) as (Hh & _). split_and!; try done.
  - apply exec_bind in Hx as (t3 & t4 & e & -> & (r & -> & ->)%do_err_exec & Hx). destruct r as [e|x].
    + apply exec_ret in Hx as [-> <-]. left. by exists e.
    + apply exec_bind in Hx as (t5 & t6 & e' & -> & (r & -> & _)%do_err_exec & [-> <-]%exec_ret). right. by exists x, r.
  - apply exec_bind in Hx as (t3 & t4 & e & -> & _ & Hx). destruct e; [by apply exec_ret in Hx as [_ <-]|].
    by apply exec_bind in Hx as (t5 & t6 & e' & -> & _ & [_ <-]%exec_ret).
Qed.

(** What justifies pointing pod [p] at pod [m]: the Sentinels are unanimous, every data pod is
    there and Ready, [m] is the pod they name and was surveyed as a reachable master, and [p] is a
    reachable pod that is neither [m] nor a replica of it. *)
Definition repairJustified (vc : ValkeyCluster) (views : list sentinelView) (replicas : Z) (pods : list rolloutPod)
    (survey : list podRole) (ordOf : string → option Z) (m p : podRole) : Prop :=
  unanimous views replicas ∧
  wrap32 (Z.of_nat (length pods)) = Spec_Replicas (Spec vc) ∧ (∀ q, q ∈ pods → rp_ready q = true) ∧
  (∃ host port, (∀ v, v ∈ views → sv_master v = host +:+ port) ∧ ordOf host = Some (pr_ordinal m)) ∧
  m ∈ survey ∧ pr_reachable m = true ∧ pr_role m = roleMaster ∧
  p ∈ survey ∧ pr_reachable p = true ∧ pr_ordinal p ≠ pr_ordinal m ∧
  (pr_role p = roleSlave → ordOf (pr_masterHost p) ≠ Some (pr_ordinal m)).

Lemma cut_host master : ∃ port, master = (match cut_byte ":" master with Some (h, _) => h | None => master end) +:+ port.
Proof.
  induction master as [|a s [port IH]]; [by exists ""|]. cbn. case_bool_decide as Ea.
  - exists (String a s). done.
  - destruct (cut_byte ":" s) as [[x y]|] eqn:E.
    + exists port. rewrite IH at 1. by rewrite str_app_cons.
    + exists "". by rewrite str_app_nil_r.
Qed.
Lemma survey_ordinal vc survey i m : Forall2 (λ i s, pr_ordinal s = i) (zrange 0 (Spec_Replicas (Spec vc))) survey →
  (0 ≤ i)%Z → survey !! Z.to_nat i = Some m → pr_ordinal m = i ∧ m ∈ survey.
Proof.
  intros H2 Hi Hm. destruct (Forall2_lookup_r _ _ _ _ _ H2 Hm) as (j & Hj & Ej). split; [|by eapply list_elem_of_lookup_2].
  pose proof (lookup_lt_Some _ _ _ Hj) as Hlt. rewrite length_zrange in Hlt. rewrite lookup_zrange in Hj by done.
  injection Hj as <-. lia.
Qed.


(** ** Timings *)
Definition masterCmd : list string := ["SENTINEL"; "MASTER"; sentinelMasterName].
Definition setCmd (changes : list string) : list string := ["SENTINEL"; "SET"; sentinelMasterName] ++ changes.
(** The Sentinel behind [c] reported the wanted timings, or acknowledged those that differed. *)
Definition synced (want : list (string * string)) (c : replClient) (tr : list Event) : Prop :=
  ∃ res cur, Ev (ODo c masterCmd) (inr res) ∈ tr ∧ parseSentinelMaster res = inr cur ∧
    (timingChanges cur want = [] ∨ ∃ x, Ev (ODo c (setCmd (timingChanges cur want))) (inr x) ∈ tr).
(** The only commands: ask, or set what differs. *)
Definition timingEvent (want : list (string * string)) (e : Event) : Prop :=
  match ev_op e with
  | ODo _ args => args = masterCmd ∨ ∃ cur, args = setCmd (timingChanges cur want) ∧ timingChanges cur want ≠ []
  | op => reads op = true
  end.
#[global] Instance timingEvent_reads want : IgnoresReads (timingEvent want).
Proof. by intros []. Qed.
Lemma synced_app want c t1 t2 t3 : synced want c t2 → synced want c (t1 ++ t2 ++ t3).
Proof. intros (res & cur & H1 & H2 & H3). exists res, cur. split_and!; [set_solver|done|]. destruct H3 as [?|[x ?]]; [by left|right]. exists x. set_solver. Qed.

Lemma syncSentinelTimings_exec c want tr r : exec (syncSentinelTimings c want) tr r →
  Forall (timingEvent want) tr ∧ (r.2 = None → synced want c tr).
Proof.
  unfold syncSentinelTimings. intros Hx. apply exec_bind in Hx as (t1 & t2 & m & -> & Hm & Hx). unfold sentinelMaster in Hm.
  apply exec_bind in Hm as (t3 & t4 & res & -> & ->%(exec_perform (ODo _ _)) & [-> <-]%exec_ret). rewrite app_nil_r.
  assert (timingEvent want (Ev (ODo c masterCmd) res)) as Hask by (by left).
  destruct res as [err|res]; [apply exec_ret in Hx as [-> <-]; split; [by constructor|done]|].
  destruct (parseSentinelMaster res) as [err|cur] eqn:Ep; [apply exec_ret in Hx as [-> <-]; split; [by constructor|done]|].
  case_bool_decide as Ec.
  - apply exec_ret in Hx as [-> <-]. split; [by constructor|]. intros _. exists res, cur. split_and!; [by left|done|by left].
  - apply exec_bind in Hx as (t5 & t6 & e & -> & (x & -> & ->)%do_err_exec & [-> <-]%exec_ret). split.
    + apply Forall_cons_2; [done|]. apply Forall_cons_2; [|done]. right. by exists cur.
    + cbn. destruct x as [?|x]; [done|]. intros _. exists res, cur. split_and!; [by left|done|right]. exists x. by right; left.
Qed.
Lemma applyTimings_exec vc s pw cert pods pending tr r :
  exec (foldM (applyTimingsTo vc s pw cert) pending pods) tr r →
  Forall (timingEvent (sentinelTimings s)) tr ∧
  (r = false → pending = false ∧ ∀ p, p ∈ pods → rp_ready p = true →
     ∃ c, d_Host c = sentinelPodFQDN vc (rp_ordinal p) ∧ synced (sentinelTimings s) c tr).
Proof.
  revert pending tr; induction pods as [|p pods IH]; intros pending tr Hx; cbn [foldM] in Hx.
  { apply exec_ret in Hx as [-> <-]. split; [done|]. intros ->. split; [done|]. by intros p ?%not_elem_of_nil. }
  apply exec_bind in Hx as (t1 & t2 & pending' & -> & H1 & [H2 H3]%IH).
  assert (Forall (timingEvent (sentinelTimings s)) t1 ∧ (pending' = false → pending = false ∧
    (rp_ready p = true → ∃ c, d_Host c = sentinelPodFQDN vc (rp_ordinal p) ∧ synced (sentinelTimings s) c t1))) as [Ht Hp].
  { unfold applyTimingsTo in H1. destruct (rp_ready p); cbn [negb] in H1; [|apply exec_ret in H1 as [-> ->]; done].
    apply exec_bind in H1 as (t3 & t4 & c & -> & Hd & H1). apply dialSentinel_spec in Hd as [Hr Hc].
    assert (Forall (timingEvent (sentinelTimings s)) t3) as Ht3 by (eapply Forall_impl; [exact Hr|]; by intros [[]]).
    destruct c as [c|]; [|apply exec_ret in H1 as [-> <-]; rewrite app_nil_r; done].
    apply exec_bind in H1 as (t5 & t6 & q & -> & [H5 H6]%syncSentinelTimings_exec & [-> <-]%exec_ret).
    rewrite app_nil_r. split; [by apply Forall_app|]. destruct q as [? [e|]]; [done|]. cbn. intros ->. split; [done|]. intros _.
    exists c. split; [by apply Hc|]. rewrite <-(app_nil_r t5). apply synced_app. by apply H6. }
  split; [by apply Forall_app|]. intros Hr. destruct (H3 Hr) as [Hp' Hrest]. destruct (Hp Hp') as [Hp0 Hown]. split; [done|].
  intros q [-> | Hq]%elem_of_cons Hready.
  - destruct (Hown Hready) as (c & ? & ?). exists c. split; [done|]. by apply (synced_app _ _ []).
  - destruct (Hrest q Hq Hready) as (c & ? & ?). exists c. split; [done|]. rewrite <-(app_nil_r t2). by apply synced_app.
Qed.
(** Setting what differs leaves every wanted value. *)
Lemma timingChanges_apply s cur k v : (k, v) ∈ sentinelTimings s → map_get (pairUp (timingChanges cur (sentinelTimings s)) cur) k = v.
Proof.
  unfold sentinelTimings, timingChanges. intros H. cbn [mbind list_bind]. repeat case_bool_decide; cbn [app pairUp];
    apply elem_of_cons in H as [[= -> ->]|[[= -> ->]|[]%not_elem_of_nil]%elem_of_cons]; try done;
    unfold map_get in *; rewrite ?lookup_insert, ?decide_True by done; rewrite ?lookup_insert_ne by done;
    rewrite ?lookup_insert, ?decide_True by done; done.
Qed.

(** Timings are kept in sync without churn: a pass only asks Sentinels for the master's settings
    and sets the options that differ from the spec's (none when none does), and when it reports that
    nothing is pending, every Sentinel pod it listed as Ready answered with the wanted timings or
    acknowledged the ones that differed; what is set brings any settings to the wanted ones. *)
Theorem applySentinelTimings_sync vc s password tr pending : exec (applySentinelTimings vc s password) tr pending →
  Forall (timingEvent (sentinelTimings s)) tr ∧
  (pending = false → ∃ items trl, tr = Ev (OListPods (vcNamespace vc)
       (<[componentLabel := componentSentinel]> {[instanceLabel := vcName vc]})) (inr items) :: trl ∧
     ∀ p, p ∈ omap (rolloutPodOf (sentinelStatefulSetName vc)) items → rp_ready p = true →
       ∃ c, d_Host c = sentinelPodFQDN vc (rp_ordinal p) ∧ synced (sentinelTimings s) c tr) ∧
  (∀ cur k v, (k, v) ∈ sentinelTimings s → map_get (pairUp (timingChanges cur (sentinelTimings s)) cur) k = v).
Proof.
  intros Hx. unfold applySentinelTimings, listSentinelRolloutPods in Hx.
  apply exec_bind in Hx as (t1 & t2 & l & -> & Hl & Hx).
  apply exec_bind in Hl as (t3 & t4 & r & -> & ->%(exec_perform (OListPods _ _)) & [-> <-]%exec_ret). rewrite app_nil_r.
  split; [|split; [|apply timingChanges_apply]].
  - destruct r as [err|items]; [apply exec_ret in Hx as [-> _]; by repeat constructor|].
    apply exec_bind in Hx as (t5 & t6 & cert & -> & [H5 _]%(loadMTLSClientCert_spec (timingEvent (sentinelTimings s))) & [H6 _]%applyTimings_exec).
    constructor; [done|]. by apply Forall_app.
  - intros ->. destruct r as [err|items]; [by apply exec_ret in Hx as [_ ?]|]. exists items, t2. split; [done|].
    apply exec_bind in Hx as (t5 & t6 & cert & -> & _ & [_ H6]%applyTimings_exec). destruct (H6 eq_refl) as [_ H].
    intros p Hp Hr. destruct (H p Hp Hr) as (c & Hc & Hs). exists c. split; [done|].
    match goal with |- synced _ _ (?x ++ _) => apply (synced_app _ _ (x ++ t5) t6 []) in Hs | |- synced _ _ (?x :: _) => apply (synced_app _ _ (x :: t5) t6 []) in Hs end.
    by rewrite app_nil_r in Hs.
Qed.

(** ** A concrete Sentinel cluster: pod 1 is the master, pod 2 still follows pod 0 *)
Definition demoView (ord others stale : Z) : sentinelView := {|
  sv_ordinal := ord; sv_master := "10.0.0.1:6379"; sv_flags := "master"; sv_otherSentinels := others; sv_staleReplicas := stale |}.
Definition demoViews : list sentinelView := [demoView 0 2 0; demoView 1 2 1; demoView 2 2 1].
Definition demoDataPodOf (i : Z) : Pod := {|
  pod_Name := "demo-" +:+ Itoa i; pod_Namespace := "ns"; pod_Labels := ∅; pod_Deleting := false; pod_Phase := "Running";
  pod_Conditions := [("Ready", "True")]; pod_NodeName := ""; pod_IP := "10.0.0." +:+ Itoa i |}.
Definition demoSentinelPod (i : Z) : Pod := {|
  pod_Name := "demo-sentinel-" +:+ Itoa i; pod_Namespace := "ns"; pod_Labels := ∅; pod_Deleting := false; pod_Phase := "Running";
  pod_Conditions := [("Ready", "True")]; pod_NodeName := ""; pod_IP := "" |}.
Definition demoInfo (host : string) : string :=
  if podNameFromFQDN host == "demo-1" then "role:master"
  else if podNameFromFQDN host == "demo-0" then "role:slave" +:+ nl +:+ "master_host:10.0.0.1"
  else "role:slave" +:+ nl +:+ "master_host:10.0.0.0".
Definition demo_handle (op : Op) : () → ans op * () :=
  match op return () → ans op * () with
  | OPing _ => λ w, (true, w)
  | OInfo o _ => λ w, (inr (demoInfo (d_Host o)), w)
  | ODo _ args => λ w, (inr (if bool_decide (args = masterCmd)
                             then RArr ["ip"; "10.0.0.1"; "port"; "6379"; "down-after-milliseconds"; "30000"; "failover-timeout"; "60000"]
                             else RStr "OK"), w)
  | OListPods _ sel => λ w, (inr (if bool_decide (sel = <[componentLabel := componentSentinel]> {[instanceLabel := "demo"]})
                                  then [demoSentinelPod 0; demoSentinelPod 1] else demoDataPodOf <$> [0; 1; 2]%Z), w)
  | _ => λ w, (inhabitant, w)
  end.
(** The pods a listing answered. *)
Definition answeredPods (e : Event) : list Pod :=
  match e with Ev op x => match op return ans op → list Pod with
                          | OListPods _ _ => λ x, match x with inr l => l | inl _ => [] end
                          | _ => λ _, []
                          end x end.

Lemma resetStaleSentinels_safe_witness : ∃ trd c r v,
  trace demo_handle (resetStaleSentinels demoBudget (demoSentinelSpec 0) "pw" demoViews) tt = trd ++ [Ev (ODo c resetCmd) r] ∧
  v ∈ demoViews ∧ d_Host c = sentinelPodFQDN demoBudget (sv_ordinal v).
Proof.
  pose proof (run_exec demo_handle (resetStaleSentinels demoBudget (demoSentinelSpec 0) "pw" demoViews) tt) as Hx.
  destruct (resetStaleSentinels_safe demoBudget (demoSentinelSpec 0) "pw" demoViews _ _ Hx) as [[Hr|(trd & c & r & v & E & _ & Hv & _ & Hh & _)] _].
  - exfalso. apply (bool_decide_pack _) in Hr. vm_compute in Hr. exact Hr.
  - exists trd, c, r, v. split_and!; [exact E|exact Hv|exact Hh].
Defined.
Lemma applySentinelTimings_sync_witness : ∃ c, d_Host c = sentinelPodFQDN demoBudget 1 ∧
  synced (sentinelTimings (demoSentinelSpec 0)) c (trace demo_handle (applySentinelTimings demoBudget (demoSentinelSpec 0) "pw") tt).
Proof.
  pose proof (run_exec demo_handle (applySentinelTimings demoBudget (demoSentinelSpec 0) "pw") tt) as Hx.
  destruct (applySentinelTimings_sync demoBudget (demoSentinelSpec 0) "pw" _ _ Hx) as (_ & H & _).
  destruct H as (items & trl & E & H); [vm_compute; reflexivity|].
  apply (H {| rp_name := "demo-sentinel-1"; rp_ordinal := 1; rp_revision := ""; rp_ready := true |}); [|reflexivity].
  apply (f_equal (λ tr, from_option answeredPods [] (head tr))) in E. cbn [head from_option answeredPods] in E. rewrite <-E.
  apply (bool_decide_unpack _). vm_compute. exact I.
Defined.
