(* ===== verification/TlsReload.v ===== *)
(** * TlsReload: live TLS certificate reload (tls_reload.go)

    When the certificate Secret changes, the operator makes every data pod re-read
    its mounted files ([CONFIG SET tls-*]) and records the certificate's fingerprint
    in the status once the handshakes show it.

    PEM and X.509 parsing and SHA-256 are the parameters [pemDecode],
    [parseCertificate] and [sha256] (a byte string to its hexadecimal digest). *)

From S2P Require Import Prelude GoStd Kube Api Effects Naming Failover Rollout SentinelRollout ClusterNodes Status Rotation Config.

(** [pem.Block], the fields the code reads. *)
Record Block := { block_Type : string; block_Bytes : string }.

Section tls.
(** [pem.Decode]: the next block and the rest of the input.  [x509.ParseCertificate]: the
    certificate's [Raw]. *)
Context (pemDecode : string → option (Block * string)) (parseCertificate : string → error + string) (sha256 : string → string).
Context (retrySteps : nat) (hasAPIReader : bool).

Definition fingerprintDER (der : string) : string := sha256 der.

(** [for { block, pemBytes = pem.Decode(pemBytes); ... }]; [None]: out of fuel. *)
Fixpoint certFingerprintLoop (fuel : nat) (pemBytes : string) : option (error + string) :=
  match fuel with
  | O => None
  | S fuel' =>
      match pemDecode pemBytes with
      | None => Some (inl "no CERTIFICATE block in tls.crt")
      | Some (block, rest) =>
          if block_Type block != "CERTIFICATE" then certFingerprintLoop fuel' rest
          else Some (match parseCertificate (block_Bytes block) with
                     | inl err => inl err
                     | inr raw => inr (fingerprintDER raw)
                     end)
      end
  end.
(** [pem.Decode] consumes input, so the length of the input is fuel enough
    ([certFingerprint_total]). *)
Definition certFingerprintFromPEM (pemBytes : string) : error + string :=
  default (inl "") (certFingerprintLoop (S (String.length pemBytes)) pemBytes).

Definition peerFingerprint (host : string) (r : error + list string) : error + string :=
  match r with
  | inl err => inl err
  | inr [] => inl ("no peer certificate from " +:+ host)
  | inr (leaf :: _) => inr (fingerprintDER leaf)
  end.
Definition servedCertFingerprint (host : string) (port : Z) (clientCert : option string) : prog (error + string) :=
  r ← perform (OTLSDial host port clientCert);
  mret (peerFingerprint host r).

Definition tlsParams (vc : ValkeyCluster) : list (string * string) :=
  [("tls-cert-file", tlsMountPath +:+ "/" +:+ secretKeyTLSCert);
   ("tls-key-file", tlsMountPath +:+ "/" +:+ secretKeyTLSKey);
   ("tls-ca-cert-file", caCertPath vc)].
Fixpoint configSetAll (host : string) (c : replClient) (params : list (string * string)) : prog (option error) :=
  match params with
  | [] => mret None
  | (param, path) :: rest =>
      e ← configSet c param path;
      match e with
      | Some err => mret (Some ("tls reload " +:+ host +:+ ": set " +:+ param +:+ ": " +:+ err))
      | None => configSetAll host c rest
      end
  end.

Fixpoint reloadTLSLoop (vc : ValkeyCluster) (password : string) (clientCert : option string) (desiredFP : string)
    (pods : list podRef) (allServeNew : bool) : prog (error + bool) :=
  match pods with
  | [] => mret (inr allServeNew)
  | p :: rest =>
      let continue := reloadTLSLoop vc password clientCert desiredFP rest in
      let host := ref_host p in
      served ← servedCertFingerprint host valkeyTLSPort clientCert;
      match served with
      | inl _ => continue allServeNew
      | inr served =>
          if served == desiredFP then continue allServeNew
          else
            c ← dialReplClient host valkeyTLSPort password true clientCert (5 * second);
            match c with
            | None => continue false
            | Some c =>
                e ← configSetAll host c (tlsParams vc);
                match e with
                | Some err => mret (inl err)
                | None =>
                    served ← servedCertFingerprint host valkeyTLSPort clientCert;
                    continue (match served with
                              | inl _ => false
                              | inr served => if served != desiredFP then false else allServeNew
                              end)
                end
            end
      end
  end.
Definition reloadTLSOnPods (vc : ValkeyCluster) (password : string) (clientCert : option string) (desiredFP : string) :
    prog (error + bool) :=
  reloadTLSLoop vc password clientCert desiredFP (clusterDataPods vc) true.

Definition recordFingerprint (vc : ValkeyCluster) (fp : string) : prog (option KubeErr) :=
  r ← perform (OGetCluster (vcNamespace vc) (vcName vc));
  match r with
  | inl err => mret (Some err)
  | inr latest => perform (OUpdateStatus (with_status latest (set_Status_LastTLSCertFingerprint fp)))
  end.
Definition fingerprintRecorded (vc : ValkeyCluster) (fp : string) : prog (GoErr + bool) :=
  if hasAPIReader then
    r ← perform (OReadCluster (vcNamespace vc) (vcName vc));
    mret (match r with
          | inl err => inl (EKube err)
          | inr fresh => inr (fp == Status_LastTLSCertFingerprint (Status fresh))
          end)
  else mret (inr false).

(** From the point where the reload is decided. *)
Definition reloadNow (vc : ValkeyCluster) (sec : Secret) (desiredFP : string) : prog (bool * Z * option GoErr) :=
  clientCert ← perform (OX509KeyPair (map_get (sec_Data sec) secretKeyTLSCert) (map_get (sec_Data sec) secretKeyTLSKey));
  password ← ensurePasswordSecret vc;
  match password with
  | inl err => mret (false, 0%Z, Some err)
  | inr password =>
      allServeNew ← reloadTLSOnPods vc password clientCert desiredFP;
      match allServeNew with
      | inl err => mret (false, 0%Z, Some (EMsg err))
      | inr false => mret (false, (20 * second)%Z, None)
      | inr true =>
          e ← RetryOnConflict retrySteps (recordFingerprint vc desiredFP);
          mret (match e with
                | Some err => (false, 0%Z, Some (EKube err))
                | None => (true, 0%Z, None)
                end)
      end
  end.

Definition reconcileTLSReload (vc : ValkeyCluster) : prog (bool * Z * option GoErr) :=
  let nothing := (false, 0%Z, None) in
  if negb (tlsEnabled vc) then mret nothing
  else
    r ← perform (OGetSecret (vcNamespace vc) (tlsSecretName vc));
    match r with
    | inl err => mret (if IsNotFound err then nothing else (false, 0%Z, Some (EKube err)))
    | inr sec =>
        let certPEM := map_get (sec_Data sec) secretKeyTLSCert in
        if certPEM == "" then mret nothing
        else
          match certFingerprintFromPEM certPEM with
          | inl _ => mret nothing
          | inr desiredFP =>
              if desiredFP == Status_LastTLSCertFingerprint (Status vc) then mret nothing
              else
                t ← fingerprintRecorded vc desiredFP;
                match t with
                | inl err => mret (false, 0%Z, Some err)
                | inr true => mret nothing
                | inr false => reloadNow vc sec desiredFP
                end
          end
    end.

(** [pem.Decode] returns the input after the block it found: documented, and what makes the
    loop of [certFingerprintFromPEM] end. *)
Lemma certFingerprintLoop_total (fuel : nat) s :
  (∀ s b rest, pemDecode s = Some (b, rest) → String.length rest < String.length s) →
  String.length s < fuel → is_Some (certFingerprintLoop fuel s).
Proof.
  intros Hdec. revert s; induction fuel as [|n IH]; intros s Hn; [lia|]. cbn [certFingerprintLoop].
  destruct (pemDecode s) as [[b rest]|] eqn:E; [|done]. case_match; [|done]. apply IH. apply Hdec in E. lia.
Qed.
End tls.

(** ** What a reload does, whatever the pods answer *)
Section tls_trace.
Context (pemDecode : string → option (Block * string)) (parseCertificate : string → error + string) (sha256 : string → string).
Context (retrySteps : nat) (hasAPIReader : bool).
#[local] Abbreviation peer := (peerFingerprint sha256).

Definition tlsCmds (vc : ValkeyCluster) : list (list string) :=
  (λ '(param, path), ["CONFIG"; "SET"; param; path]) <$> tlsParams vc.
Definition tlsClient (host password : string) (cert : option string) : replClient := {|
  d_Host := host; d_Port := valkeyTLSPort; d_Password := password; d_TLS := true; d_ClientCert := cert; d_Timeout := 5 * second |}.

(** The events of one pod that leaves the reload complete: it could not be reached, it served the
    certificate already, or it acknowledged the three settings and then served it. *)
Inductive podOk (vc : ValkeyCluster) (password : string) (cert : option string) (fp : string) (p : podRef) : list Event → Prop :=
  | ok_unreachable x err : peer (ref_host p) x = inl err →
      podOk vc password cert fp p [Ev (OTLSDial (ref_host p) valkeyTLSPort cert) x]
  | ok_serving x : peer (ref_host p) x = inr fp →
      podOk vc password cert fp p [Ev (OTLSDial (ref_host p) valkeyTLSPort cert) x]
  | ok_reloaded x old replies y : peer (ref_host p) x = inr old → old ≠ fp → length replies = 3 →
      peer (ref_host p) y = inr fp →
      podOk vc password cert fp p
        ([Ev (OTLSDial (ref_host p) valkeyTLSPort cert) x; Ev (OPing (tlsClient (ref_host p) password cert)) true] ++
         zip_with (λ args v, Ev (ODo (tlsClient (ref_host p) password cert) args) (inr v)) (tlsCmds vc) replies ++
         [Ev (OTLSDial (ref_host p) valkeyTLSPort cert) y]).

(** A command a reload may send: one of the three settings, to a data pod, over TLS. *)
Definition tlsEvent (vc : ValkeyCluster) (e : Event) : Prop :=
  match ev_op e with
  | ODo c args => args ∈ tlsCmds vc ∧ d_TLS c = true ∧ d_Port c = valkeyTLSPort ∧ d_Host c ∈ ref_host <$> clusterDataPods vc
  | op => reads op = true
  end.
#[local] Instance tlsEvent_reads vc : IgnoresReads (tlsEvent vc).
Proof. intros op x H. unfold tlsEvent. simpl. by destruct op. Qed.

Lemma configSetAll_exec host c params tr e : exec (configSetAll host c params) tr e →
  Forall (λ ev, ∃ param path x, (param, path) ∈ params ∧ ev = Ev (ODo c ["CONFIG"; "SET"; param; path]) x) tr ∧
  (e = None → ∃ replies, length replies = length params ∧
     tr = zip_with (λ '(param, path) v, Ev (ODo c ["CONFIG"; "SET"; param; path]) (inr v)) params replies).
Proof.
  revert tr; induction params as [|[param path] params IH]; intros tr Hx; cbn [configSetAll] in Hx.
  { exec_inv. split; [done|]. intros _. by exists []. }
  apply exec_bind in Hx as (tr1 & tr2 & a & -> & Ha & Hx).
  assert (∃ x, tr1 = [Ev (ODo c ["CONFIG"; "SET"; param; path]) x] ∧ a = match x with inl e => Some e | inr _ => None end)
    as (x & -> & ->) by (unfold configSet, do_err in Ha; exec_inv; eauto).
  destruct x as [err|v].
  - exec_inv. split; [|done]. apply Forall_singleton. exists param, path. eexists. split; [by left|done].
  - apply IH in Hx as [HF HN]. split.
    + apply Forall_app. split; [apply Forall_singleton; exists param, path; eexists; by split; [left|]|].
      eapply Forall_impl; [exact HF|]. intros ev (q & r & y & ? & ->). exists q, r, y. split; [by right|done].
    + intros He. destruct (HN He) as (rs & Hl & ->). exists (v :: rs). split; [simpl; by rewrite Hl|done].
Qed.

Lemma reloadTLSLoop_exec vc pw cert fp pods acc tr r : (∀ p, p ∈ pods → p ∈ clusterDataPods vc) →
  exec (reloadTLSLoop sha256 vc pw cert fp pods acc) tr r →
  Forall (tlsEvent vc) tr ∧
  (r = inr true → acc = true ∧ ∃ segs, tr = concat segs ∧ Forall2 (podOk vc pw cert fp) pods segs).
Proof.
  revert acc tr; induction pods as [|p pods IH]; intros acc tr Hsub Hx; cbn [reloadTLSLoop] in Hx.
  { exec_inv. split; [done|]. intros [= ->]. split; [done|]. by exists []. }
  assert (∀ p, p ∈ pods → p ∈ clusterDataPods vc) as Hsub' by set_solver.
  assert (∀ seg acc' tr', podOk vc pw cert fp p seg ∨ acc' = false → Forall (tlsEvent vc) seg →
            (acc' = true → acc = true) →
            exec (reloadTLSLoop sha256 vc pw cert fp pods acc') tr' r →
            Forall (tlsEvent vc) (seg ++ tr') ∧
            (r = inr true → acc = true ∧ ∃ segs, seg ++ tr' = concat segs ∧ Forall2 (podOk vc pw cert fp) (p :: pods) segs)) as Hstep.
  { intros seg acc' tr' Hok Hseg Hacc [HF HT]%IH; [|done]. split; [by apply Forall_app|]. intros Hr.
    destruct (HT Hr) as (Ha & segs & -> & H2). destruct Hok as [Hok| ->]; [|done]. split; [auto|].
    exists (seg :: segs). split; [done|]. by constructor. }
  assert (∀ x, Forall (tlsEvent vc) [Ev (OTLSDial (ref_host p) valkeyTLSPort cert) x]) as Hdial by (intros; by repeat constructor).
  apply exec_bind in Hx as (tr1 & tr2 & a & -> & Ha & Hx).
  unfold servedCertFingerprint in Ha. apply exec_bind in Ha as (t1 & t2 & x & -> & ->%exec_perform & [-> <-]%exec_ret).
  rewrite app_nil_r. destruct (peer (ref_host p) x) as [err|served] eqn:Ep; [by eapply Hstep; [left; eapply ok_unreachable| | |]|].
  case_bool_decide as Hs; [subst served; by eapply Hstep; [left; eapply ok_serving| | |]|].
  unfold dialReplClient in Hx. apply exec_bind in Hx as (t3 & t4 & c & -> & Hc & Hx).
  apply exec_bind in Hc as (t5 & t6 & ok & -> & ->%exec_perform & [-> <-]%exec_ret). rewrite app_nil_r.
  rewrite app_assoc. destruct ok; [|apply (Hstep _ false); [by right| |done|done]; apply Forall_app; by repeat constructor].
  apply exec_bind in Hx as (t7 & t8 & e & -> & [HF HN]%configSetAll_exec & Hx).
  assert (Forall (tlsEvent vc) t7) as HF7.
  { eapply Forall_impl; [exact HF|]. intros ev (param & path & y & Hin & ->). unfold tlsEvent; simpl. split_and!; [|done|done|].
    - apply list_elem_of_fmap. by exists (param, path).
    - apply list_elem_of_fmap. exists p. split; [done|]. apply Hsub. by left. }
  destruct e as [err|].
  { exec_inv. split; [|done]. rewrite !Forall_app. split_and!; [done|by repeat constructor|done]. }
  destruct HN as (replies & Hl & Ht7); [done|].
  apply exec_bind in Hx as (t9 & t10 & b & -> & Hb & Hx).
  unfold servedCertFingerprint in Hb. apply exec_bind in Hb as (u1 & u2 & y & -> & ->%exec_perform & [-> <-]%exec_ret).
  rewrite app_nil_r, (app_assoc t7), (app_assoc (_ ++ _) (t7 ++ _)).
  eapply Hstep; [|rewrite !Forall_app; split_and!; [done|by repeat constructor|done|done]| |exact Hx].
  - destruct (peer (ref_host p) y) as [err|s2] eqn:E2; [by right|].
    case_bool_decide as Hs2; cbn [negb]; [left|by right]. subst s2.
    replace t7 with (zip_with (λ args v, Ev (ODo (tlsClient (ref_host p) pw cert) args) (inr v)) (tlsCmds vc) replies) by
      (rewrite Ht7; unfold tlsCmds; rewrite zip_with_fmap_l; by apply zip_with_ext; [intros [] ?|..]).
    by eapply (ok_reloaded _ _ _ _ _ x served replies y).
  - by destruct (peer (ref_host p) y); [|case_bool_decide].
Qed.

(** The runs of the function [RetryOnConflict] retries: it succeeds when one of them does. *)
Lemma RetryOnConflict_runs n fn tr e : exec (RetryOnConflict n fn) tr e →
  ∃ runs, tr = concat runs ∧ Forall (λ run, ∃ e', exec fn run e' ∧ (e' = None → e = None)) runs ∧
    (e = None → ∃ run, run ∈ runs ∧ exec fn run None).
Proof.
  revert tr; induction n as [|n IH]; intros tr Hx; cbn [RetryOnConflict] in Hx.
  { exec_inv. by exists []. }
  apply exec_bind in Hx as (tr1 & tr2 & e1 & -> & Hr & Hx).
  assert (e1 = Some Conflict ∨ tr2 = [] ∧ e = e1) as [-> |[-> ->]] by (destruct e1 as [[]|]; exec_inv; auto).
  - apply IH in Hx as (runs & -> & HF & HN). exists (tr1 :: runs). split_and!; [done|constructor; [by eexists|done]|].
    intros He. destruct (HN He) as (run & ? & ?). exists run. split; [by right|done].
  - exists [tr1]. simpl. split_and!; [done|apply Forall_singleton; eauto|]. intros ->. exists tr1. split; [by left|done].
Qed.

Definition recordsOnly (vc : ValkeyCluster) (fp : string) (e : Event) : Prop :=
  match ev_op e with
  | OUpdateStatus v => Status_LastTLSCertFingerprint (Status v) = fp
  | OGetCluster _ _ => True
  | _ => False
  end.
Lemma recordFingerprint_exec vc fp run e : exec (recordFingerprint vc fp) run e →
  Forall (recordsOnly vc fp) run ∧ (e = None ↔ ∃ v, Ev (OUpdateStatus v) None ∈ run).
Proof.
  unfold recordFingerprint. intros Hx. apply exec_bind in Hx as (t1 & t2 & a & -> & ->%exec_perform & Hx). destruct a as [err|latest].
  - exec_inv. split; [by repeat constructor|]. split; [done|]. intros [v Hv]. set_solver.
  - apply exec_perform in Hx as ->. split; [by apply Forall_app; split; apply Forall_singleton; [|destruct latest as [? ? []]]|].
    split; [intros ->; eexists; right; by left|]. intros [v Hv]. apply elem_of_app in Hv as [Hv|Hv];
      apply list_elem_of_singleton in Hv; [done|]. by apply (f_equal (λ e, match e with Ev (OUpdateStatus _) x => x | _ => Some Conflict end)) in Hv.
Qed.
Lemma recording_exec vc fp n tr e : exec (RetryOnConflict n (recordFingerprint vc fp)) tr e →
  Forall (recordsOnly vc fp) tr ∧ (e = None ↔ ∃ v, Ev (OUpdateStatus v) None ∈ tr).
Proof.
  intros (runs & -> & HF & HN)%RetryOnConflict_runs. split.
  - apply Forall_concat. eapply Forall_impl; [exact HF|]. by intros run (e' & [? _]%recordFingerprint_exec & _).
  - split.
    + intros He. destruct (HN He) as (run & Hin & [_ [Hv _]]%recordFingerprint_exec). destruct (Hv eq_refl) as [v ?]. exists v.
      apply list_elem_of_In, in_concat. exists run. by split; apply list_elem_of_In.
    + intros [v (run & Hr & Hv)%list_elem_of_In%in_concat]. apply list_elem_of_In in Hr, Hv.
      rewrite Forall_forall in HF. destruct (HF _ Hr) as (e' & [_ [_ He]]%recordFingerprint_exec & Hi). eauto.
Qed.

(** The status never changes before the pods were walked: [t] is what a reload did. *)
Record verified (vc : ValkeyCluster) (tr : list Event) (r : bool * Z * option GoErr) : Prop := {
  v_recorded : ∀ t1 v x t2, tr = t1 ++ Ev (OUpdateStatus v) x :: t2 →
    ∃ sec pre pw cert fp segs post, t1 = pre ++ concat segs ++ post ∧
      Ev (OGetSecret (vcNamespace vc) (tlsSecretName vc)) (inr sec) ∈ pre ∧
      certFingerprintFromPEM pemDecode parseCertificate sha256 (map_get (sec_Data sec) secretKeyTLSCert) = inr fp ∧
      Forall2 (podOk vc pw cert fp) (clusterDataPods vc) segs ∧ Forall (recordsOnly vc fp) post ∧
      Status_LastTLSCertFingerprint (Status v) = fp;
  v_success : r.1.1 = true ↔ ∃ v, Ev (OUpdateStatus v) None ∈ tr;
  v_commands : ∀ c args x, Ev (ODo c args) x ∈ tr →
    args ∈ tlsCmds vc ∧ d_TLS c = true ∧ d_Port c = valkeyTLSPort ∧ d_Host c ∈ ref_host <$> clusterDataPods vc
}.

(** Events that touch neither a pod nor a status. *)
Definition quiet (e : Event) : Prop := match ev_op e with ODo _ _ | OUpdateStatus _ => False | _ => True end.
Lemma verified_quiet vc tr d err : Forall quiet tr → verified vc tr (false, d, err).
Proof.
  intros HQ. rewrite Forall_forall in HQ. split.
  - intros t1 v x t2 ->. exfalso. apply (HQ (Ev (OUpdateStatus v) x)). set_solver.
  - split; [done|]. intros [v Hv]. by apply HQ in Hv.
  - intros c args x Hin. by apply HQ in Hin.
Qed.
Lemma ensurePasswordSecret_quiet vc tr r : exec (ensurePasswordSecret vc) tr r → Forall quiet tr.
Proof.
  unfold ensurePasswordSecret, generatePassword. intros Hx. repeat (repeat case_match; exec_inv); by repeat constructor.
Qed.

Lemma verified_pods vc pre pw cert fp tr (b : error + bool) d err : Forall quiet pre →
  exec (reloadTLSOnPods sha256 vc pw cert fp) tr b → verified vc (pre ++ tr) (false, d, err).
Proof.
  intros Hpre [HF _]%reloadTLSLoop_exec; [|done]. rewrite Forall_forall in Hpre, HF. split.
  - intros t1 v x t2 E. assert (Ev (OUpdateStatus v) x ∈ pre ++ tr) as [Hin|Hin]%elem_of_app by (rewrite E; set_solver);
      [by apply Hpre in Hin|by apply HF in Hin].
  - split; [done|]. intros [v [Hin|Hin]%elem_of_app]; [by apply Hpre in Hin|by apply HF in Hin].
  - intros c args x [Hin|Hin]%elem_of_app; [by apply Hpre in Hin|by apply HF in Hin].
Qed.

Lemma split_in_last (a b t1 t2 : list Event) e : e ∉ a → a ++ b = t1 ++ e :: t2 → ∃ m, t1 = a ++ m ∧ b = m ++ e :: t2.
Proof.
  revert t1; induction a as [|y a IH]; intros t1 Hn E; [by exists t1|].
  destruct t1 as [|z t1]; simplify_eq/=; [set_solver|]. destruct (IH t1) as (m & -> & ->); [set_solver|done|]. by exists m.
Qed.

Lemma verified_done vc sec pre pw cert fp segs tr err : Forall quiet pre →
  Ev (OGetSecret (vcNamespace vc) (tlsSecretName vc)) (inr sec) ∈ pre →
  certFingerprintFromPEM pemDecode parseCertificate sha256 (map_get (sec_Data sec) secretKeyTLSCert) = inr fp →
  Forall (tlsEvent vc) (concat segs) → Forall2 (podOk vc pw cert fp) (clusterDataPods vc) segs →
  Forall (recordsOnly vc fp) tr → (err = None ↔ ∃ v, Ev (OUpdateStatus v) None ∈ tr) →
  verified vc (pre ++ concat segs ++ tr)
    (match err with Some err => (false, 0%Z, Some (EKube err)) | None => (true, 0%Z, None) end).
Proof.
  intros Hpre Hsec Hfp Hpods Hsegs Htr Herr.
  assert (∀ v x, Ev (OUpdateStatus v) x ∉ pre ++ concat segs) as Hno.
  { rewrite Forall_forall in Hpre, Hpods. intros v x [Hin|Hin]%elem_of_app; [by apply Hpre in Hin|by apply Hpods in Hin]. }
  split.
  - intros t1 v x t2 E. rewrite app_assoc in E. apply split_in_last in E as (m & -> & ->); [|done].
    apply Forall_app in Htr as [Hm [Hv _]%Forall_cons]. exists sec, pre, pw, cert, fp, segs, m. by rewrite <-app_assoc.
  - destruct err as [k|]; simpl.
    + split; [done|]. intros [v Hv]. rewrite app_assoc in Hv. apply elem_of_app in Hv as [Hv|Hv]; [by apply Hno in Hv|].
      destruct Herr as [_ Herr]. by discriminate Herr; eauto.
    + split; [|done]. intros _. destruct Herr as [[v Hv] _]; [done|]. exists v. set_solver.
  - rewrite Forall_forall in Hpre, Hpods, Htr. intros c args x Hin. rewrite !elem_of_app in Hin.
    destruct Hin as [Hin|[Hin|Hin]]; [by apply Hpre in Hin|by apply Hpods in Hin|by apply Htr in Hin].
Qed.

(** C15: what a certificate reload does, whatever the pods and the API server answer.  The only
    commands it sends are the three [tls-*-file] settings, over TLS, to data pods.  The status is
    written only after a walk over all the data pods in which each one either could not be reached,
    or served the Secret's current certificate at once, or acknowledged the three settings (in the
    order certificate, key, CA) and was then seen to serve it; and what is written is the
    fingerprint of that certificate.  The reload is reported complete exactly when such a write
    succeeded.  When TLS is off, or the recorded fingerprint is the Secret's, no pod is contacted
    and nothing is written. *)
Theorem tlsReload_verified vc tr r :
  exec (reconcileTLSReload pemDecode parseCertificate sha256 retrySteps hasAPIReader vc) tr r →
  verified vc tr r ∧
  ((tlsEnabled vc = false ∨ ∀ sec fp, Ev (OGetSecret (vcNamespace vc) (tlsSecretName vc)) (inr sec) ∈ tr →
      certFingerprintFromPEM pemDecode parseCertificate sha256 (map_get (sec_Data sec) secretKeyTLSCert) = inr fp →
      fp = Status_LastTLSCertFingerprint (Status vc)) →
   r.1 = (false, 0%Z) ∧ ∀ e, e ∈ tr → ∃ ns name, ev_op e = OGetSecret ns name).
Proof.
  unfold reconcileTLSReload. destruct (tlsEnabled vc); cbn [negb];
    [|intros Hx; exec_inv; split; [by apply verified_quiet|split; [done|]; by intros e ?%not_elem_of_nil]].
  intros Hx. apply exec_bind in Hx as (t1 & t2 & a & -> & ->%exec_perform & Hx).
  set (get := Ev (OGetSecret _ _) a) in *.
  assert (∀ d err, t2 = [] → r = (false, d, err) → d = 0%Z → verified vc ([get] ++ t2) r ∧
            (r.1 = (false, 0%Z) ∧ ∀ e, e ∈ [get] ++ t2 → ∃ ns name, ev_op e = OGetSecret ns name)) as Hidle.
  { intros d err -> -> ->. split; [apply verified_quiet; by repeat constructor|]. split; [done|].
    intros e ->%list_elem_of_singleton. by eexists _, _. }
  destruct a as [err|sec]; [exec_inv; case_match; edestruct Hidle; eauto|].
  case_bool_decide; [exec_inv; edestruct Hidle; eauto|].
  destruct (certFingerprintFromPEM _ _ _ _) as [err|fp] eqn:Hfp; [exec_inv; edestruct Hidle; eauto|].
  case_bool_decide as Hne; [exec_inv; edestruct Hidle; eauto|]. clear Hidle.
  split; [|intros [?|Hall]; [done|]; destruct Hne; apply (Hall sec); [by left|done]].
  apply exec_bind in Hx as (t3 & t4 & t & -> & Ht & Hx).
  assert (Forall quiet ([get] ++ t3)) as Hq.
  { unfold fingerprintRecorded in Ht. destruct hasAPIReader; exec_inv; by repeat constructor. }
  rewrite app_assoc. assert (get ∈ [get] ++ t3) as Hget by (by left).
  revert Hq Hget. generalize ([get] ++ t3). subst get. clear Ht t3. intros pre Hq Hget.
  destruct t as [err|[]]; [exec_inv; by apply verified_quiet|exec_inv; by apply verified_quiet|].
  unfold reloadNow in Hx. apply exec_bind in Hx as (t5 & t6 & cert & -> & ->%exec_perform & Hx).
  apply exec_bind in Hx as (t7 & t8 & pw & -> & Hpw%ensurePasswordSecret_quiet & Hx). rewrite !app_assoc.
  set (pre' := (pre ++ _) ++ t7).
  assert (Forall quiet pre') as Hq' by (unfold pre'; rewrite !Forall_app; split_and!; [done|by repeat constructor|done]).
  assert (Ev (OGetSecret (vcNamespace vc) (tlsSecretName vc)) (inr sec) ∈ pre') as Hget' by (unfold pre'; set_solver).
  clearbody pre'. clear pre Hq Hget Hpw.
  destruct pw as [err|pw]; [exec_inv; by apply verified_quiet|].
  apply exec_bind in Hx as (t9 & t10 & b & -> & Hb & Hx).
  destruct b as [err|[]]; [exec_inv; by eapply verified_pods| |exec_inv; by eapply verified_pods].
  apply exec_bind in Hx as (t11 & t12 & e & -> & [HR HN]%recording_exec & [-> <-]%exec_ret). rewrite app_nil_r.
  apply reloadTLSLoop_exec in Hb as [Hev Hok]; [|done]. destruct Hok as (_ & segs & -> & H2); [done|].
  by eapply verified_done.
Qed.
End tls_trace.

(** ** Pods that behave as documented *)

(** A pod: whether it answers, the certificate it serves and the one in its mounted volume. *)
Record TlsPod := { tp_up : bool; tp_served : string; tp_mounted : string }.
(** [CONFIG SET tls-cert-file] makes the server read the mounted file again. *)
Definition tls_do (args : list string) (p : TlsPod) : TlsPod :=
  match args with
  | [_; _; param; _] =>
      if param == "tls-cert-file" then {| tp_up := tp_up p; tp_served := tp_mounted p; tp_mounted := tp_mounted p |} else p
  | _ => p
  end.
Record TlsWorld := { tw_pods : gmap string TlsPod; tw_secret : Secret; tw_vc : ValkeyCluster }.
Definition set_tw_pods (m : gmap string TlsPod) (w : TlsWorld) : TlsWorld :=
  {| tw_pods := m; tw_secret := tw_secret w; tw_vc := tw_vc w |}.
Definition podUp (w : TlsWorld) (host : string) : bool := match tw_pods w !! host with Some p => tp_up p | None => false end.
Definition tls_handle (op : Op) : TlsWorld → ans op * TlsWorld :=
  match op return TlsWorld → ans op * TlsWorld with
  | OTLSDial host _ _ => λ w,
      (match tw_pods w !! host with
       | Some p => if tp_up p then inr [tp_served p] else inl "dial tcp: timeout"
       | None => inl "no such host"
       end, w)
  | OPing o => λ w, (podUp w (d_Host o), w)
  | ODo o args => λ w, (inr (RStr "OK"), set_tw_pods (alter (tls_do args) (d_Host o) (tw_pods w)) w)
  | OGetSecret _ _ => λ w, (inr (tw_secret w), w)
  | OReadCluster _ _ | OGetCluster _ _ => λ w, (inr (tw_vc w), w)
  | OUpdateStatus v => λ w, (None, {| tw_pods := tw_pods w; tw_secret := tw_secret w; tw_vc := v |})
  | _op => λ w, (inhabitant, w)
  end.

Section tls_converge.
Context (pemDecode : string → option (Block * string)) (parseCertificate : string → error + string) (sha256 : string → string).
Context (retrySteps : nat) (hasAPIReader : bool) (fp : string).

(** A pod that answers and whose volume holds the certificate [fp]. *)
Definition synced (p : TlsPod) : Prop := tp_up p = true ∧ sha256 (tp_mounted p) = fp.
Definition serves (m : gmap string TlsPod) (p : podRef) : Prop :=
  ∃ pod, m !! ref_host p = Some pod ∧ sha256 (tp_served pod) = fp.

Lemma run_configSetAll host c params w :
  run tls_handle (configSetAll host c params) w =
    (None, set_tw_pods (foldl (λ m '(param, path), alter (tls_do ["CONFIG"; "SET"; param; path]) (d_Host c) m) (tw_pods w) params) w).
Proof.
  revert w; induction params as [|[param path] params IH]; intros w; cbn [configSetAll foldl]; [by destruct w|].
  unfold configSet, do_err. rewrite !run_bind, (run_perform _ (ODo _ _)). cbn [tls_handle].
  change (run tls_handle (mret ?x) ?w) with (x, w). cbv beta iota. by rewrite IH.
Qed.

Definition reloadPod (p : TlsPod) : TlsPod := tls_do ["CONFIG"; "SET"; "tls-cert-file"; ""] p.
Lemma tlsParams_alter vc (host : string) (m : gmap string TlsPod) :
  foldl (λ m '(param, path), alter (tls_do ["CONFIG"; "SET"; param; path]) host m) m (tlsParams vc) = alter reloadPod host m.
Proof.
  cbn [foldl tlsParams]. apply map_eq. intros h. destruct (decide (h = host)) as [->|Hne];
    [rewrite !lookup_alter_eq|by rewrite !lookup_alter_ne by done].
  by destruct (m !! host) as [[]|].
Qed.

Lemma run_served host port cert w pod : tw_pods w !! host = Some pod → tp_up pod = true →
  run tls_handle (servedCertFingerprint sha256 host port cert) w = (inr (sha256 (tp_served pod)), w).
Proof.
  intros E Hu. unfold servedCertFingerprint. rewrite run_bind, (run_perform _ (OTLSDial _ _ _)). cbn [tls_handle].
  by rewrite E, Hu.
Qed.

Lemma reloadTLSLoop_run vc pw cert pods acc w : map_Forall (λ _, synced) (tw_pods w) →
  (∀ p, p ∈ pods → is_Some (tw_pods w !! ref_host p)) →
  ∃ m, run tls_handle (reloadTLSLoop sha256 vc pw cert fp pods acc) w = (inr acc, set_tw_pods m w) ∧
    (∀ p, serves (tw_pods w) p ∨ p ∈ pods → serves m p).
Proof.
  revert w; induction pods as [|p pods IH]; intros w Hok Hin; cbn [reloadTLSLoop].
  { exists (tw_pods w). split; [by destruct w|]. intros p [?|?]; [done|set_solver]. }
  destruct (Hin p) as [pod Hpod]; [by left|]. destruct (Hok _ _ Hpod) as [Hup Hmnt].
  rewrite run_bind, (run_served _ _ _ _ pod) by done. case_bool_decide as Hs.
  - destruct (IH w) as (m & Hr & Hm); [done|intros; apply Hin; by right|]. exists m. split; [exact Hr|].
    intros q [Hq|[->|Hq]%elem_of_cons]; apply Hm; [by left| |by right]. left. by exists pod.
  - unfold dialReplClient. rewrite !run_bind, (run_perform _ (OPing _)). cbn [tls_handle d_Host]. unfold podUp. rewrite Hpod, Hup.
    change (run tls_handle (mret ?x) ?w) with (x, w). cbv beta iota.
    rewrite run_bind, run_configSetAll, tlsParams_alter. cbn [d_Host]. cbv beta iota.
    set (w1 := set_tw_pods (alter reloadPod (ref_host p) (tw_pods w)) w).
    assert (tw_pods w1 !! ref_host p = Some (reloadPod pod)) as Hpod1
      by (unfold w1; cbn [tw_pods set_tw_pods]; by rewrite lookup_alter_eq, Hpod).
    rewrite run_bind, (run_served _ _ _ _ (reloadPod pod)) by done.
    change (sha256 (tp_served (reloadPod pod))) with (sha256 (tp_mounted pod)). rewrite Hmnt, bool_decide_true by done. cbn [negb].
    assert (∀ h q, tw_pods w1 !! h = Some q → synced q) as Hok1.
    { intros h q Hq. unfold w1 in Hq. cbn [tw_pods set_tw_pods] in Hq. destruct (decide (h = ref_host p)) as [->|Hne].
      - rewrite lookup_alter_eq, Hpod in Hq. by simplify_eq/=.
      - rewrite lookup_alter_ne in Hq by done. by apply Hok in Hq. }
    destruct (IH w1) as (m & Hr & Hm); [exact Hok1| |].
    { intros q Hq. unfold w1. cbn [tw_pods set_tw_pods]. destruct (decide (ref_host q = ref_host p)) as [->|Hne];
        [by rewrite lookup_alter_eq, Hpod|]. rewrite lookup_alter_ne by done. apply Hin. by right. }
    exists m. split; [exact Hr|]. intros q Hq. apply Hm.
    destruct (decide (ref_host q = ref_host p)) as [Eq|Hne].
    { left. exists (reloadPod pod). by rewrite Eq. }
    destruct Hq as [(pd & Hpd & ?)|[->|Hq]%elem_of_cons]; [left|done|by right].
    exists pd. unfold w1. cbn [tw_pods set_tw_pods]. by rewrite lookup_alter_ne.
Qed.

Lemma run_ensurePassword vc w : ∃ pw, run tls_handle (ensurePasswordSecret vc) w = (inr pw, w).
Proof.
  unfold ensurePasswordSecret. destruct (AuthEnabled (Spec vc)); cbn [negb]; [|by exists ""].
  case_bool_decide; cbn [negb]; rewrite run_bind, (run_perform _ (OGetSecret _ _)); cbn [tls_handle]; by eexists.
Qed.

(** A renewed certificate reaches every pod in one pass.  When all the data pods answer and the
    kubelet has synced the Secret's certificate into their volumes, the reload reports success,
    leaves every data pod serving it and its fingerprint recorded; the next pass then changes
    nothing and asks for nothing. *)
Theorem tlsReload_converges w (vc := tw_vc w) (cert := map_get (sec_Data (tw_secret w)) secretKeyTLSCert) :
  let reconcile := reconcileTLSReload pemDecode parseCertificate sha256 retrySteps hasAPIReader in
  tlsEnabled vc = true → cert ≠ "" → certFingerprintFromPEM pemDecode parseCertificate sha256 cert = inr fp →
  Status_LastTLSCertFingerprint (Status vc) ≠ fp → 0 < retrySteps →
  map_Forall (λ _, synced) (tw_pods w) → (∀ p, p ∈ clusterDataPods vc → is_Some (tw_pods w !! ref_host p)) →
  ∃ w', run tls_handle (reconcile vc) w = ((true, 0%Z, None), w') ∧
    (∀ p, p ∈ clusterDataPods vc → serves (tw_pods w') p) ∧
    Status_LastTLSCertFingerprint (Status (tw_vc w')) = fp ∧
    run tls_handle (reconcile (tw_vc w')) w' = ((false, 0%Z, None), w').
Proof.
  intros reconcile Ht Hc Hfp Hst Hn Hok Hin. subst reconcile cert. unfold reconcileTLSReload at 1. rewrite Ht. cbn [negb].
  rewrite run_bind, (run_perform _ (OGetSecret _ _)). cbn [tls_handle]. rewrite bool_decide_false by done. rewrite Hfp.
  rewrite bool_decide_false by done.
  assert (run tls_handle (fingerprintRecorded hasAPIReader vc fp) w = (inr false, w)) as Hrec.
  { unfold fingerprintRecorded. destruct hasAPIReader; [|done]. rewrite run_bind, (run_perform _ (OReadCluster _ _)).
    cbn [tls_handle]. change (tw_vc w) with vc. by rewrite bool_decide_false. }
  rewrite run_bind, Hrec. cbv beta iota. unfold reloadNow. rewrite run_bind, (run_perform _ (OX509KeyPair _ _)).
  cbn [tls_handle]. cbv beta iota. rewrite run_bind. destruct (run_ensurePassword vc w) as [pw ->]. cbv beta iota.
  unfold reloadTLSOnPods. rewrite run_bind.
  match goal with |- context [reloadTLSLoop _ _ _ ?c] =>
    destruct (reloadTLSLoop_run vc pw c (clusterDataPods vc) true w Hok Hin) as (m & Hr & Hm) end.
  unfold error in Hr. rewrite Hr. cbv beta iota.
  destruct retrySteps as [|n]; [lia|]. cbn [RetryOnConflict]. unfold recordFingerprint.
  rewrite !run_bind, (run_perform _ (OGetCluster _ _)). cbn [tls_handle tw_vc set_tw_pods]. cbv beta iota.
  rewrite (run_perform _ (OUpdateStatus _)). cbn [tls_handle]. cbv beta iota.
  eexists. split; [reflexivity|]. cbn [tw_pods tw_vc set_tw_pods].
  assert (∀ x, Status_LastTLSCertFingerprint (Status (with_status x (set_Status_LastTLSCertFingerprint fp))) = fp) as Hset
    by (by intros [? ? []]).
  split_and!; [auto|apply Hset|]. unfold reconcileTLSReload.
  change (tlsEnabled (with_status (tw_vc w) _)) with (tlsEnabled vc). rewrite Ht. cbn [negb].
  rewrite run_bind, (run_perform _ (OGetSecret _ _)). cbn [tls_handle tw_secret set_tw_pods]. rewrite bool_decide_false by done.
  rewrite Hfp, Hset. by rewrite bool_decide_true.
Qed.
End tls_converge.

(** ** Concrete reloads *)
Definition demoTLS (fp : string) : ValkeyCluster :=
  {| Meta := {| Meta_Name := "demo"; Meta_Namespace := "ns"; Meta_UID := ""; Meta_Generation := 1;
                Meta_Annotations := ∅; Meta_Finalizers := []; Meta_Deleting := false |};
     Spec := set_Spec_TLS (Some {| TLS_Enabled := true; TLS_IssuerRef := None; TLS_ExistingSecret := "demo-tls"; TLS_MutualTLS := false |})
               (set_Spec_Replicas 3 (set_Spec_Topology TopologyReplication zeroSpec));
     Status := set_Status_LastTLSCertFingerprint fp zeroStatus |}.
(** A bundle of one-letter blocks: [K...] is a key, [C...] a certificate. *)
Definition demoDecode (s : string) : option (Block * string) :=
  match s with
  | String k (String b rest) =>
      Some ({| block_Type := if String k EmptyString == "C" then "CERTIFICATE" else "PRIVATE KEY"; block_Bytes := String b EmptyString |}, rest)
  | _ => None
  end.
Definition demoTlsWorld (up : Z → bool) : TlsWorld := {|
  tw_pods := list_to_map ((λ p, (ref_host p, {| tp_up := up (ref_ord p); tp_served := "1"; tp_mounted := "2" |})) <$> clusterDataPods (demoTLS "1"));
  tw_secret := {| sec_Name := "demo-tls"; sec_Namespace := "ns"; sec_Labels := ∅; sec_Data := {[secretKeyTLSCert := "K0C2"]} |};
  tw_vc := demoTLS "1" |}.
Definition demoReload : ValkeyCluster → prog (bool * Z * option GoErr) := reconcileTLSReload demoDecode inr (λ s, s) 5 true.

Lemma tlsReload_verified_witness :
  let tr := trace tls_handle (demoReload (demoTLS "1")) (demoTlsWorld (λ _, true)) in
  verified demoDecode inr (λ s, s) (demoTLS "1") tr (true, 0%Z, None) ∧ length tr = 23.
Proof.
  intros tr. split; [|vm_compute; reflexivity].
  pose proof (run_exec tls_handle (demoReload (demoTLS "1")) (demoTlsWorld (λ _, true))) as Hx.
  destruct (tlsReload_verified demoDecode inr (λ s, s) 5 true (demoTLS "1") _ _ Hx) as [HV _]. exact HV.
Defined.
Lemma tlsReload_converges_witness :
  ∃ w', run tls_handle (demoReload (demoTLS "1")) (demoTlsWorld (λ _, true)) = ((true, 0%Z, None), w') ∧
    Status_LastTLSCertFingerprint (Status (tw_vc w')) = "2".
Proof.
  destruct (tlsReload_converges demoDecode inr (λ s, s) 5 true "2" (demoTlsWorld (λ _, true))) as (w' & Hr & _ & Hs & _).
  - vm_compute; reflexivity.
  - discriminate.
  - vm_compute; reflexivity.
  - discriminate.
  - lia.
  - apply (bool_decide_unpack _). vm_compute. exact I.
  - apply Forall_forall, (bool_decide_unpack _). vm_compute. exact I.
  - exists w'. split; [exact Hr|exact Hs].
Defined.

(** The comment on an unreachable pod says it will be checked again on the next reconcile; but the
    pass that skipped it records the fingerprint, and the recorded fingerprint stops every later
    pass before any pod is dialled.  Here pod 1 is cut off (not restarted) during the pass and
    keeps serving the old certificate afterwards. *)
Example unreachable_pod_not_rechecked :
  let r1 := run tls_handle (demoReload (demoTLS "1")) (demoTlsWorld (λ i, negb (i =? 1)%Z)) in
  let healed := set_tw_pods ((λ p, {| tp_up := true; tp_served := tp_served p; tp_mounted := tp_mounted p |}) <$> tw_pods r1.2) r1.2 in
  let r2 := run tls_handle (demoReload (tw_vc healed)) healed in
  r1.1 = (true, 0%Z, None) ∧ r2.1 = (false, 0%Z, None) ∧
  (tp_served <$> tw_pods r2.2 !! demoHost 1) = Some "1".
Proof. vm_compute. auto. Qed.
