(* ===== verification/Backup.v ===== *)
(** * Backup: the scheduled snapshots (backup.go)

    The CronJob that dumps the data to S3, as the text and the objects the operator writes, and
    [ensureBackupCronJob], which keeps it up to date or removes it.  [cronHash] is the SHA-256 of
    the JSON of the CronJob's spec and labels that [appliedSpecHash] computes.

    The retention block of the upload script (list the cluster's keys, [sort], [head -n -N],
    delete) is also modelled as the function [expired]; [sort] is in byte order, the order of the
    POSIX locale. *)

From S2P Require Import Prelude GoStd Kube Api Effects Naming Failover Rollout SentinelRollout ClusterNodes Status Jobs Rotation Config Workload Ensure.

Definition backupVolumeName : string := "backup".
Definition ForbidConcurrent : string := "Forbid".

(** [strconv.Quote] on ASCII text, what [%q] prints. *)
Definition quoteByte (c : byte) : string :=
  let n := code c in
  if bool_decide (n = 34) then "\" +:+ dq
  else if bool_decide (n = 92) then "\\"
  else if bool_decide (n = 7) then "\a" else if bool_decide (n = 8) then "\b" else if bool_decide (n = 9) then "\t"
  else if bool_decide (n = 10) then "\n" else if bool_decide (n = 11) then "\v" else if bool_decide (n = 12) then "\f"
  else if bool_decide (n = 13) then "\r"
  else if (bool_decide (n < 32) || bool_decide (n = 127))%bool
  then "\x" +:+ String (hexDigit (n / 16)) (String (hexDigit (n mod 16)) "")
  else String c "".
Fixpoint quoteBytes (s : string) : string :=
  match s with "" => "" | String c s' => quoteByte c +:+ quoteBytes s' end.
Definition Quote (s : string) : string := dq +:+ quoteBytes s +:+ dq.

(** ** The scripts *)
Definition dumpClusterBody : string := unlines [
  "MANIFEST=/backup/manifest.txt";
  q "{ echo `# valkey-operator cluster restore manifest v1`; echo `# shard-index node-fqdn slot-ranges(csv)`; } > `$MANIFEST`";
  "i=0";
  "for FQDN in $HOSTS; do";
  q "  NODES=``; n=0";
  q "  until NODES=$(VC -t 20 -h `$FQDN` -p `$PORT` cluster nodes 2>/dev/null | tr -d '\r') && [ -n `$NODES` ]; do";
  q "    n=$((n + 1)); [ `$n` -ge 8 ] && { echo `FATAL: cannot reach $FQDN`; exit 1; }";
  q "    echo `  waiting for $FQDN`; sleep 3";
  "  done";
  q "  SELF=$(printf '%s\n' `$NODES` | awk '/myself/{print; exit}')";
  q "  FLAGS=$(printf '%s\n' `$SELF` | awk '{print $3}')";
  q "  case `$FLAGS` in";
  "    *master*)";
  q "      echo `  dumping shard $i (master $FQDN)`";
  "      m=0";
  q "      until VC -t 20 -h `$FQDN` -p `$PORT` --rdb /backup/shard-${i}.rdb; do";
  q "        m=$((m + 1)); [ `$m` -ge 5 ] && { echo `FATAL: shard $i dump failed after $m attempts`; exit 1; }";
  q "        echo `  shard $i dump attempt $m failed, retrying`; sleep 3";
  "      done";
  q "      echo `  verifying shard $i`";
  "      valkey-check-rdb /backup/shard-${i}.rdb";
  q "      SLOTS=$(printf '%s\n' `$SELF` | awk '{s=``;for(j=9;j<=NF;j++) if($j ~ /^[0-9]/) s=s (s==``?``:`,`) $j; print s}')";
  q "      echo `shard-${i} ${FQDN} ${SLOTS}` >> `$MANIFEST`";
  "      i=$((i + 1))";
  "      ;;";
  "  esac";
  "done";
  q "echo `total shards dumped: $i`";
  q "echo `manifest:`; cat `$MANIFEST`"].

(** [if vc.Spec.AuthEnabled() { pwArg = noAuthWarningArgs }]. *)
Definition backupPwArg (vc : ValkeyCluster) : string := if AuthEnabled (Spec vc) then noAuthWarningArgs else "".
Definition dumpScript (vc : ValkeyCluster) : string :=
  let port := dataPort vc in
  let tlsArgs := tlsArgsOf vc in
  let pwArg := backupPwArg vc in
  let host := clientServiceName vc +:+ "." +:+ vcNamespace vc +:+ ".svc.cluster.local" in
  if Spec_Topology (Spec vc) == TopologyCluster then
    let hostList := cat ((λ p, ref_host p +:+ " ") <$> clusterDataPods vc) in
    unlines ["set -eu"; "PORT=" +:+ Itoa port; q "HOSTS=`" +:+ trim_space hostList +:+ q "`";
             "VC() { valkey-cli" +:+ pwArg +:+ tlsArgs +:+ q " `$@`; }"] +:+ dumpClusterBody
  else
    unlines [
      "set -eu";
      q "echo `dumping RDB from " +:+ host +:+ ":" +:+ Itoa port +:+ q "`";
      "valkey-cli" +:+ pwArg +:+ tlsArgs +:+ " -h " +:+ host +:+ " -p " +:+ Itoa port +:+ " --rdb /backup/dump.rdb";
      q "echo `dump size: $(stat -c %s /backup/dump.rdb 2>/dev/null || wc -c </backup/dump.rdb) bytes`";
      q "echo `verifying dump.rdb`";
      "valkey-check-rdb /backup/dump.rdb"].

Definition backupEndpointFlag (s3 : S3Spec) : string := if S3_Endpoint s3 != "" then s3EndpointURLFlag else "".
Definition backupPrefix (s3 : S3Spec) : string :=
  if ((S3_Prefix s3 != "") && negb (has_suffix (S3_Prefix s3) "/"))%bool then S3_Prefix s3 +:+ "/" else S3_Prefix s3.
Definition sseFlag (s3 : S3Spec) : string :=
  if S3_Encryption s3 == "AES256" then " --sse AES256"
  else if S3_Encryption s3 == "KMS" then
    " --sse aws:kms" +:+ (if S3_KMSKeyID s3 != "" then " --sse-kms-key-id " +:+ Quote (S3_KMSKeyID s3) else "")
  else "".
(** How many files the retention keeps (32-bit arithmetic); at most 0 keeps them all. *)
Definition retainFiles (vc : ValkeyCluster) (b : BackupSpec) : Z :=
  match Spec_Shards (Spec vc) with
  | Some shards =>
      if ((0 <? RetentionCount b)%Z && (Spec_Topology (Spec vc) == TopologyCluster))%bool
      then wrap32 (RetentionCount b * wrap32 (shards + 1)) else RetentionCount b
  | None => RetentionCount b
  end.
Definition retentionBlock (vc : ValkeyCluster) (b : BackupSpec) (s3 : S3Spec) : string :=
  let n := retainFiles vc b in
  if (0 <? n)%Z then
    unlines [
      q "echo `retention: keeping " +:+ Itoa n +:+ q " newest files`";
      q "aws s3api list-objects-v2 --bucket `" +:+ S3_Bucket s3 +:+ q "` --prefix `" +:+ backupPrefix s3 +:+ vcName vc +:+
        q "-`" +:+ backupEndpointFlag s3 +:+ " \";
      "  --query 'Contents[].Key' --output text 2>/dev/null \";
      "  | tr '\t' '\n' | sort | head -n -" +:+ Itoa n +:+ " \";
      "  | while read -r KEY; do";
      q "      [ -z `$KEY` ] && continue";
      q "      echo `  deleting $KEY`";
      q "      aws s3 rm `s3://" +:+ S3_Bucket s3 +:+ q "/$KEY`" +:+ backupEndpointFlag s3;
      "    done"]
  else "".
Definition uploadScript (vc : ValkeyCluster) (b : BackupSpec) (s3 : S3Spec) : string :=
  let dest := "s3://" +:+ S3_Bucket s3 in
  let flags := backupEndpointFlag s3 +:+ sseFlag s3 in
  if Spec_Topology (Spec vc) == TopologyCluster then
    unlines [
      "set -eu";
      "STAMP=$(date -u +%Y%m%d-%H%M%S)";
      "for f in /backup/shard-*.rdb; do";
      q "  IDX=$(basename `$f` .rdb)";
      "  KEY=" +:+ backupPrefix s3 +:+ vcName vc +:+ "-${STAMP}-${IDX}.rdb";
      q "  echo `uploading to " +:+ dest +:+ q "/${KEY}`";
      q "  aws s3 cp `$f` " +:+ dest +:+ "/${KEY}" +:+ flags;
      "done";
      "MKEY=" +:+ backupPrefix s3 +:+ vcName vc +:+ "-${STAMP}-manifest.txt";
      q "echo `uploading manifest to " +:+ dest +:+ q "/${MKEY}`";
      "aws s3 cp /backup/manifest.txt " +:+ dest +:+ "/${MKEY}" +:+ flags;
      q "echo `ok`"] +:+ retentionBlock vc b s3
  else
    unlines [
      "set -eu";
      "STAMP=$(date -u +%Y%m%d-%H%M%S)";
      "KEY=" +:+ backupPrefix s3 +:+ vcName vc +:+ "-${STAMP}.rdb";
      q "echo `uploading to " +:+ dest +:+ q "/${KEY}`";
      "aws s3 cp /backup/dump.rdb " +:+ dest +:+ "/${KEY}" +:+ flags;
      q "echo `ok`"] +:+ retentionBlock vc b s3.

(** The client's error as the step's. *)
Definition kube (p : prog (option KubeErr)) : prog (option GoErr) := e ← p; mret (option_map EKube e).

(** ** The CronJob; [b] is [*vc.Spec.Backup] and [s3] is [*b.S3], which the caller has checked. *)
Definition backupEnv (vc : ValkeyCluster) : list EnvVar :=
  if AuthEnabled (Spec vc) then
    [{| env_Name := envValkeyPassword; env_From := secretRef (authSecretName vc) secretKeyPassword |}]
  else [].
Definition backupAWSEnv (s3 : S3Spec) : list EnvVar :=
  [{| env_Name := envAWSAccessKey; env_From := secretRef (S3_CredentialsSecret s3) envAWSAccessKey |};
   {| env_Name := envAWSSecretKey; env_From := secretRef (S3_CredentialsSecret s3) envAWSSecretKey |};
   {| env_Name := envAWSDefaultRegion; env_From := EnvValue (S3_Region s3) |};
   {| env_Name := "HOME"; env_From := EnvValue "/tmp" |}] ++
  (if S3_Endpoint s3 != "" then [{| env_Name := envS3EndpointURL; env_From := EnvValue (S3_Endpoint s3) |}] else []).
Definition backupMount : VolumeMount := {| vm_Name := backupVolumeName; vm_MountPath := "/backup"; vm_ReadOnly := false |}.

Definition backupPodSpec (vc : ValkeyCluster) (b : BackupSpec) (s3 : S3Spec) : PodSpec :=
  let dumpImage := if Backup_Image b == "" then Spec_Image (Spec vc) else Backup_Image b in
  let awsImage := if Backup_AWSCLIImage b == "" then defaultAWSCLIImage else Backup_AWSCLIImage b in
  jobPodSpec
    [plainContainer "dump" dumpImage [shellCmd; "-c"; dumpScript vc] (backupEnv vc) (backupMount :: jobMounts vc)
       (Some (containerSecurityContext vc))]
    [plainContainer "upload" awsImage [shellCmd; "-c"; uploadScript vc b s3] (backupAWSEnv s3) [backupMount]
       (Some (containerSecurityContext vc))]
    ({| vol_Name := backupVolumeName; vol_Source := VolEmptyDir "" None |} :: jobVolumes vc)
    (Spec_ImagePullSecrets (Spec vc)) (podSecurityContext vc).
Definition buildBackupCronJob (vc : ValkeyCluster) (b : BackupSpec) (s3 : S3Spec) (name : string) : CronJob :=
  {| cj_Name := name; cj_Namespace := vcNamespace vc; cj_Labels := labelsFor vc; cj_Annotations := ∅;
     cj_Spec := {|
       cjs_Schedule := Backup_Schedule b; cjs_ConcurrencyPolicy := ForbidConcurrent;
       cjs_JobLabels := labelsFor vc; cjs_PodLabels := podLabelsFor vc (labelsFor vc);
       cjs_PodSpec := backupPodSpec vc b s3 |} |}.

Section backup.
Context (cronHash : CronJobSpec * gmap string string → string).

Definition cronHashOf (c : CronJob) : string := cronHash (cj_Spec c, cj_Labels c).
Definition set_cj (spec : CronJobSpec) (labels ann : gmap string string) (c : CronJob) : CronJob := {|
  cj_Name := cj_Name c; cj_Namespace := cj_Namespace c; cj_Labels := labels; cj_Annotations := ann; cj_Spec := spec |}.
Definition cronSettled (hash : string) (existing : CronJob) : bool :=
  map_get (cj_Annotations existing) appliedHashAnnotation == hash.
Definition cronMerged (desired : CronJob) (hash : string) (existing : CronJob) : CronJob :=
  set_cj (cj_Spec desired) (cj_Labels desired) (<[appliedHashAnnotation := hash]> (cj_Annotations existing)) existing.
(** The desired CronJob with its hash. *)
Definition stampedCron (desired : CronJob) : CronJob :=
  set_cj (cj_Spec desired) (cj_Labels desired) (<[appliedHashAnnotation := cronHashOf desired]> (cj_Annotations desired)) desired.

Definition ensureBackupCronJob (vc : ValkeyCluster) : prog (option GoErr) :=
  let name := vcName vc +:+ "-backup" in
  match Spec_Backup (Spec vc) with
  | Some b =>
      if Backup_Enabled b then
        match Backup_S3 b with
        | None => mret (Some (EMsg "backup.s3 is required when backup.enabled=true"))
        | Some s3 =>
            let desired := buildBackupCronJob vc b s3 name in
            kube (orElse (setOwner vc name)
              (upsert KCronJob (vcNamespace vc) name (stampedCron desired) (cronSettled (cronHashOf desired))
                 (cronMerged desired (cronHashOf desired))))
        end
      else kube (deleteIfPresent KCronJob (vcNamespace vc) name)
  | None => kube (deleteIfPresent KCronJob (vcNamespace vc) name)
  end.
End backup.

(** ** Retention *)

(** The keys one snapshot taken at [stamp] uploads. *)
Definition snapshotKeys (vc : ValkeyCluster) (s3 : S3Spec) (stamp : string) : list string :=
  let base := (backupPrefix s3 +:+ vcName vc +:+ "-") +:+ stamp in
  if Spec_Topology (Spec vc) == TopologyCluster then
    ((λ i, base +:+ "-shard-" +:+ Itoa i +:+ ".rdb") <$> zrange 0 (shardCountOf vc)) ++ [base +:+ "-manifest.txt"]
  else [base +:+ ".rdb"].
(** The keys the retention block lists, and those of them it deletes. *)
Definition listedKeys (vc : ValkeyCluster) (s3 : S3Spec) (bucket : list string) : list string :=
  filter (λ k, has_prefix k (backupPrefix s3 +:+ vcName vc +:+ "-")) bucket.
Definition expired (n : Z) (keys : list string) : list string :=
  if (0 <? n)%Z then take (length keys - Z.to_nat n) (sort_strings keys) else [].

Lemma compare_prefix p s t : String.compare (p +:+ s) (p +:+ t) = String.compare s t.
Proof.
  induction p as [|c p IH]; [done|].
  rewrite !str_app_cons. cbn [String.compare]. unfold Ascii.compare. by rewrite N.compare_refl.
Qed.
Lemma compare_fixed a b x y : String.length a = String.length b → String.compare a b = Lt →
  String.compare (a +:+ x) (b +:+ y) = Lt.
Proof.
  revert b; induction a as [|c a IH]; intros [|d b] Hl Hc; try done. rewrite !str_app_cons. cbn [String.compare String.length] in *.
  destruct (Ascii.compare c d); try done. apply IH; [lia|done].
Qed.
Definition earlier (a b : string) : Prop := String.length a = String.length b ∧ String.compare a b = Lt.

(** Groups of keys under increasing stamps: sorting each group sorts the whole. *)
Lemma sort_groups {A} (keys : A → list string) (stamp : A → string) p (l : list A) :
  (∀ x k, k ∈ keys x → ∃ r, k = p +:+ stamp x +:+ r) → StronglySorted (λ a b, earlier (stamp a) (stamp b)) l →
  StronglySorted String.le (concat ((λ x, sort_strings (keys x)) <$> l)).
Proof.
  intros Hk. induction 1 as [|x l Hs IH Hx]; [constructor|]. cbn [fmap list_fmap concat].
  apply StronglySorted_app_2; [|apply StronglySorted_merge_sort; apply _|exact IH].
  intros a b Ha Hb. apply list_elem_of_In, in_concat in Hb as (g & Hg & Hb). apply list_elem_of_In in Hg, Hb.
  apply list_elem_of_fmap in Hg as (y & -> & Hy). rewrite sort_strings_elem in Ha, Hb.
  destruct (Hk _ _ Ha) as [r ->], (Hk _ _ Hb) as [r' ->]. rewrite Forall_forall in Hx. destruct (Hx _ Hy) as [Hl Hc].
  unfold String.le, String.leb. by rewrite compare_prefix, compare_fixed.
Qed.
Lemma take_groups {A B} (g : A → list B) m (l : list A) k :
  (∀ x, length (g x) = m) → take (k * m) (concat (g <$> l)) = concat (g <$> take k l).
Proof.
  intros Hm. revert l; induction k as [|k IH]; intros l; [by rewrite take_0|]. destruct l as [|x l]; [cbn; apply take_nil|].
  cbn [take fmap list_fmap concat]. rewrite take_app_ge by (rewrite Hm; lia). rewrite Hm.
  replace (S k * m - m) with (k * m) by lia. f_equal. apply IH.
Qed.
Lemma length_groups {A B} (g : A → list B) m (l : list A) : (∀ x, length (g x) = m) → length (concat (g <$> l)) = length l * m.
Proof. intros Hm. induction l as [|x l IH]; [done|]. rewrite fmap_cons. cbn [concat length]. rewrite length_app, Hm, IH. lia. Qed.
Lemma concat_perm {A B} (f g : A → list B) l : (∀ x, f x ≡ₚ g x) → concat (f <$> l) ≡ₚ concat (g <$> l).
Proof. intros H. induction l as [|x l IH]; [done|]. rewrite !fmap_cons. cbn [concat]. by rewrite (H x), IH. Qed.

(** Retention over groups of [m] files each, newest last. *)
Lemma expired_groups (keys : string → list string) p m N stamps l : 0 < m → (0 < N)%Z →
  (∀ x, length (keys x) = m) → (∀ x k, k ∈ keys x → ∃ r, k = p +:+ x +:+ r) → StronglySorted earlier stamps →
  l ≡ₚ concat (keys <$> stamps) →
  expired (N * Z.of_nat m) l ≡ₚ concat (keys <$> take (length stamps - Z.to_nat N) stamps).
Proof.
  intros Hm HN Hlen Hk Hs Hl. unfold expired. rewrite (proj2 (Z.ltb_lt _ _)) by nia.
  assert (sort_strings l = concat ((λ x, sort_strings (keys x)) <$> stamps)) as ->.
  { apply (StronglySorted_unique String.le); [apply StronglySorted_merge_sort; apply _|by apply (sort_groups keys id p)|].
    rewrite sort_strings_perm, Hl. apply concat_perm. intros x. by rewrite sort_strings_perm. }
  rewrite Hl, (length_groups keys m) by done.
  replace (length stamps * m - Z.to_nat (N * Z.of_nat m)) with ((length stamps - Z.to_nat N) * m)
    by (rewrite Z2Nat.inj_mul, Nat2Z.id by lia; nia).
  rewrite take_groups; [|intros x; rewrite sort_strings_perm; apply Hlen].
  apply concat_perm. intros x. apply sort_strings_perm.
Qed.

Lemma snapshotKeys_base vc s3 stamp k : k ∈ snapshotKeys vc s3 stamp →
  ∃ r, k = (backupPrefix s3 +:+ vcName vc +:+ "-") +:+ stamp +:+ r.
Proof.
  unfold snapshotKeys. case_bool_decide.
  - intros [(i & -> & _)%list_elem_of_fmap|Hk%list_elem_of_singleton]%elem_of_app; subst; rewrite <-str_app_assoc; by eexists.
  - intros ->%list_elem_of_singleton. rewrite <-str_app_assoc. by eexists.
Qed.
(** The number of files of a snapshot. *)
Definition snapshotFiles (vc : ValkeyCluster) : nat :=
  if Spec_Topology (Spec vc) == TopologyCluster then S (Z.to_nat (shardCountOf vc)) else 1.
Lemma length_snapshotKeys vc s3 stamp : length (snapshotKeys vc s3 stamp) = snapshotFiles vc.
Proof.
  unfold snapshotKeys, snapshotFiles. case_bool_decide; [|done].
  rewrite length_app, length_fmap, length_zrange. cbn. lia.
Qed.
Lemma filter_all {A} (P : A → bool) l : Forall (λ x, P x = true) l → filter P l = l.
Proof. induction 1 as [|x l Hx _ IH]; [done|]. rewrite filter_cons_True by (by rewrite Hx). by rewrite IH. Qed.
Lemma filter_none {A} (P : A → bool) l : Forall (λ x, P x = false) l → filter P l = [].
Proof. induction 1 as [|x l Hx _ IH]; [done|]. rewrite filter_cons_False; [done|]. rewrite Hx. by intros []. Qed.
Lemma listedKeys_own vc s3 stamps : listedKeys vc s3 (concat (snapshotKeys vc s3 <$> stamps)) = concat (snapshotKeys vc s3 <$> stamps).
Proof.
  apply filter_all, Forall_forall. intros k Hk. apply list_elem_of_In, in_concat in Hk as (g & Hg & Hk).
  apply list_elem_of_In in Hg, Hk. apply list_elem_of_fmap in Hg as (stamp & -> & _).
  destruct (snapshotKeys_base _ _ _ _ Hk) as [r ->]. unfold has_prefix. by rewrite strip_prefix_app.
Qed.


(** ** Keeping the CronJob *)
Section settle.
Context (admitObj : ∀ k, obj k → obj k) (admitSts : StatefulSet → StatefulSet) {Hadm : Admission admitObj}.
Context (cronHash : CronJobSpec * gmap string string → string) (vc : ValkeyCluster).
Hypothesis Hann : ∀ c, cj_Annotations (admitObj KCronJob c) = cj_Annotations c.
Let h := store_handle admitObj admitSts.
Let key : Key := (vcNamespace vc, vcName vc +:+ "-backup").

(** What becomes of the stored CronJob. *)
Definition cronAfter (desired : CronJob) (o : option CronJob) : CronJob :=
  match o with
  | None => admitObj KCronJob (stampedCron cronHash desired)
  | Some c => if cronSettled (cronHashOf cronHash desired) c then c
              else admitObj KCronJob (cronMerged desired (cronHashOf cronHash desired) c)
  end.
Lemma run_kube p w e w' : run h p w = (e, w') → run h (kube p) w = (option_map EKube e, w').
Proof. intros E. unfold kube. by rewrite run_bind, E. Qed.
Lemma onlyReads_kube p w : onlyReads admitObj admitSts p w → onlyReads admitObj admitSts (kube p) w.
Proof.
  intros H. unfold onlyReads, kube. rewrite trace_bind. apply Forall_app. split; [exact H|]. by destruct (run _ p w).
Qed.

Lemma upsert_stored k ns name desired settled merged w : keyOf k desired = (ns, name) →
  (∀ o, keyOf k o = (ns, name) → keyOf k (merged o) = (ns, name)) → keyed k w →
  objects k (run h (upsert k ns name desired settled merged) w).2 !! (ns, name) =
    Some (match objects k w !! (ns, name) with
          | None => admitObj k desired
          | Some o => if settled o then o else admitObj k (merged o)
          end).
Proof.
  intros Hk Hm Hw. unfold upsert, createOr. rewrite run_bind. unfold h. rewrite (run_get _ _ k ns name).
  destruct (objects k w !! (ns, name)) as [o|] eqn:E.
  - destruct (settled o); [exact E|]. rewrite (run_perform _ (OUpdate k (merged o))). cbn [store_handle].
    rewrite (Hm o) by (by apply Hw). rewrite E. cbn [snd]. apply objects_put.
  - cbn [IsNotFound]. rewrite (run_perform _ (OCreate k desired)). cbn [store_handle]. rewrite Hk, E. cbn [snd].
    rewrite objects_with. by rewrite lookup_insert, decide_True.
Qed.

(** The backup schedule follows the spec.  Backups that are on without an S3 target are an
    error, reported before any call to the API server.  Backups that are off leave no CronJob.
    Otherwise one pass leaves a CronJob stamped with the hash of the wanted one: a new one, the
    old one when it had that hash already, or the old one with exactly the wanted spec and labels
    and the stamp.  In each case no other CronJob is touched and a second pass only reads. *)
Theorem backup_follows_spec :
  let p := ensureBackupCronJob cronHash vc in
  match Spec_Backup (Spec vc) with
  | Some {| Backup_Enabled := true; Backup_S3 := None |} =>
      p = mret (Some (EMsg "backup.s3 is required when backup.enabled=true"))
  | _ => ∀ w, keyed KCronJob w → ∃ w', run h p w = (None, w') ∧
      objects KCronJob w' !! key =
        match Spec_Backup (Spec vc) with
        | Some {| Backup_Enabled := true; Backup_S3 := Some s3 |} as b =>
            b ≫= λ b, Some (cronAfter (buildBackupCronJob vc b s3 (vcName vc +:+ "-backup")) (objects KCronJob w !! key))
        | _ => None
        end ∧
      (∀ key', key' ≠ key → objects KCronJob w' !! key' = objects KCronJob w !! key') ∧ onlyReads admitObj admitSts p w'
  end.
Proof.
  assert (∀ q (o : option CronJob → option CronJob), settlesTo admitObj admitSts q KCronJob key (λ _, True) →
    (∀ w, keyed KCronJob w → objects KCronJob (run h q w).2 !! key = o (objects KCronJob w !! key)) →
    ∀ w, keyed KCronJob w → ∃ w', run h (kube q) w = (None, w') ∧ objects KCronJob w' !! key = o (objects KCronJob w !! key) ∧
      (∀ key', key' ≠ key → objects KCronJob w' !! key' = objects KCronJob w !! key') ∧ onlyReads admitObj admitSts (kube q) w') as Hlift.
  { intros q o Hq Ho w Hw. specialize (Hq w Hw). specialize (Ho w Hw). fold h in Hq. destruct (run h q w) as [e w'] eqn:E.
    destruct Hq as (-> & _ & H1 & H2). exists w'. split_and!; [by rewrite (run_kube _ _ _ _ E)|exact Ho|exact H1|by apply onlyReads_kube]. }
  assert (∀ w, keyed KCronJob w → ∃ w', run h (kube (deleteIfPresent KCronJob key.1 key.2)) w = (None, w') ∧
    objects KCronJob w' !! key = None ∧ (∀ key', key' ≠ key → objects KCronJob w' !! key' = objects KCronJob w !! key') ∧
    onlyReads admitObj admitSts (kube (deleteIfPresent KCronJob key.1 key.2)) w') as Hdel.
  { intros w Hw. pose proof (deleteIfPresent_settlesTo admitObj admitSts KCronJob key.1 key.2 w Hw) as H. fold h in H.
    destruct (run h _ w) as [e w'] eqn:E. destruct H as (-> & H0 & H1 & H2). exists w'.
    split_and!; [by rewrite (run_kube _ _ _ _ E)|exact H0|exact H1|by apply onlyReads_kube]. }
  intros p. subst p. unfold ensureBackupCronJob. destruct (Spec_Backup (Spec vc)) as [[[] sch [s3|] im aws ret]|]; try exact Hdel; [|done].
  cbn [Backup_Enabled Backup_S3]. set (b := {| Backup_Enabled := true |}). set (d := buildBackupCronJob _ _ _ _).
  apply (Hlift _ (λ o, Some (cronAfter d o))).
  - eapply settlesTo_mono; [apply settlesTo_owned, upsert_settlesTo|done]; [done|done| |].
    + unfold cronSettled. rewrite Hann. cbn. unfold map_get. by rewrite lookup_insert, decide_True, bool_decide_true.
    + intros o. unfold cronSettled. rewrite Hann. cbn. unfold map_get. by rewrite lookup_insert, decide_True, bool_decide_true.
  - intros w Hw. unfold h. rewrite run_owned. fold h. unfold key.
    etransitivity; [by apply (upsert_stored KCronJob)|]. by f_equal.
Qed.
End settle.

(** ** Concrete backups *)
Definition demoS3 : S3Spec := {|
  S3_Bucket := "b"; S3_Endpoint := ""; S3_Region := "r"; S3_Prefix := "bk"; S3_CredentialsSecret := "c"; S3_Encryption := "KMS";
  S3_KMSKeyID := "k" |}.
Definition demoBackup (s3 : option S3Spec) (n : Z) : BackupSpec := {|
  Backup_Enabled := true; Backup_Schedule := "@daily"; Backup_S3 := s3; Backup_Image := ""; Backup_AWSCLIImage := "";
  Backup_Retention := Some n |}.
Definition demoBackedUp (name : string) (shards : Z) : ValkeyCluster :=
  {| Meta := {| Meta_Name := name; Meta_Namespace := "ns"; Meta_UID := ""; Meta_Generation := 1;
                Meta_Annotations := ∅; Meta_Finalizers := []; Meta_Deleting := false |};
     Spec := set_Spec_Backup (Some (demoBackup (Some demoS3) 2))
               (set_Spec_Shards (Some shards) (set_Spec_Topology TopologyCluster zeroSpec));
     Status := zeroStatus |}.
Definition demoStamps : list string := ["20260101-000000"; "20260102-000000"; "20260103-000000"].

Lemma backup_follows_spec_witness : ∃ w', let vc := demoBackedUp "web" 2 in
  run (store_handle demoAdmit demoAdmitSts) (ensureBackupCronJob (λ _, "h") vc) emptyStore = (None, w') ∧
  onlyReads demoAdmit demoAdmitSts (ensureBackupCronJob (λ _, "h") vc) w'.
Proof.
  destruct (backup_follows_spec demoAdmit demoAdmitSts (λ _, "h") (demoBackedUp "web" 2) (λ _, eq_refl) emptyStore (emptyStore_keyed _))
    as (w' & H1 & _ & _ & H2).
  exists w'. split; [exact H1|exact H2].
Defined.

(** The listing prefix [<prefix><cluster>-] also matches the keys of a cluster whose name continues
    this one's with a hyphen.  In a bucket with three daily snapshots of "web" and the only
    snapshots of "web-1" and "web-2", which sort before the dates, the retention of "web" deletes
    the other clusters' snapshots. *)
Definition sentinelOf (name : string) : ValkeyCluster := with_spec (demoBackedUp name 2) (set_Spec_Topology TopologySentinel).
Example retention_deletes_other_clusters :
  let web := sentinelOf "web" in
  let bucket := concat (snapshotKeys web demoS3 <$> demoStamps) ++ snapshotKeys (sentinelOf "web-2") demoS3 "20260103-000000" ++
                snapshotKeys (sentinelOf "web-1") demoS3 "20260103-000000" in
  expired (retainFiles web (demoBackup (Some demoS3) 2)) (listedKeys web demoS3 bucket) =
    ["bk/web-1-20260103-000000.rdb"; "bk/web-2-20260103-000000.rdb"; "bk/web-20260101-000000.rdb"].
Proof. vm_compute. reflexivity. Qed.

(** After a scale from two shards to four the retention keeps twice five files, though the older
    snapshots have three: the oldest snapshot loses its manifest and keeps its shards. *)
Example retention_splits_after_scaling :
  let old := demoBackedUp "web" 2 in
  let new := demoBackedUp "web" 4 in
  let bucket := concat (snapshotKeys old demoS3 <$> ["20260101-000000"; "20260102-000000"]) ++
                concat (snapshotKeys new demoS3 <$> ["20260103-000000"]) in
  expired (retainFiles new (demoBackup (Some demoS3) 2)) (listedKeys new demoS3 bucket) = ["bk/web-20260101-000000-manifest.txt"].
Proof. vm_compute. reflexivity. Qed.
