(* ===== verification/Telemetry.v ===== *)
(** * Telemetry: data-plane gauges (telemetry.go)

    Best effort, never fatal: the earliest expiry of a served certificate and the busiest pod's
    thread utilisation, read from INFO, and the number of replication groups that sit in a single
    zone, read from node labels.  Samples and zones are kept in the process ([OSamples], [OZones]).

    Go visits a map in an unspecified order, and a sum of float64 depends on it: the order is the
    parameter [mapOrder], any permutation of the map's entries.  The uncached reader is the one the
    manager passes. *)

From S2P Require Import Prelude GoStd Float64 Kube Api Effects Naming Failover Rollout SentinelRollout Jobs Rotation Config.

Definition nodeZoneTTL : Z := 600 * second.
Definition LabelTopologyZone : string := "topology.kubernetes.io/zone".
Definition mainThreadField : string := "used_active_time_main_thread".
Definition ioThreadPrefix : string := "used_active_time_io_thread_".
Definition certExpiryField : string := "tls_server_cert_expires_in_seconds".

(** [t.Sub(u)]: a Duration, which saturates at the ends of int64. *)
Definition Sub (t u : Z) : Z := Z.max (- 2 ^ 63) (Z.min (t - u) (2 ^ 63 - 1)).

Definition samplePrefix (vc : ValkeyCluster) : string := vcNamespace vc +:+ "/" +:+ vcName vc +:+ "/".
Definition gaugeLabels (vc : ValkeyCluster) : list string := [vcNamespace vc; vcName vc].

Definition dropSamples (vc : ValkeyCluster) (m : gmap string threadSample) : gmap string threadSample :=
  filter (λ '(k, _), has_prefix k (samplePrefix vc) = false) m.
Definition forgetTelemetry (vc : ValkeyCluster) : prog () :=
  _ ← perform (OSamples (dropSamples vc));
  _ ← perform (OMetricDelete "tlsCertExpiryGauge" (gaugeLabels vc));
  _ ← perform (OMetricDelete "threadUtilGauge" (gaugeLabels vc));
  perform (OMetricDelete "zoneColocatedGauge" (gaugeLabels vc)).

Definition infoFloat (info : gmap string string) (key : string) : option float64 :=
  match info !! key with Some s => ParseFloat (trim_space s) | None => None end.

(** ** Thread utilisation *)
Section utilisation.
Context (mapOrder : gmap string string → list (string * string)).

(** The active time so far and the number of threads it covers. *)
Definition addThread (acc : float64 * Z) (v : float64) : float64 * Z := (f64_add acc.1 v, (acc.2 + 1)%Z).
Definition addIOThread (acc : float64 * Z) (kv : string * string) : float64 * Z :=
  if has_prefix kv.1 ioThreadPrefix
  then match ParseFloat kv.2 with Some v => addThread acc v | None => acc end
  else acc.
Definition activeTime (info : gmap string string) : float64 * Z :=
  let acc := (f64_zero, 0%Z) in
  let acc := match infoFloat info mainThreadField with Some v => addThread acc v | None => acc end in
  foldl addIOThread acc (mapOrder info).

Definition utilisation (active : float64) (threads now : Z) (prev : threadSample) : option float64 :=
  let elapsed := Seconds (Sub now (ts_at prev)) in
  let delta := f64_sub active (ts_activeUsec prev) in
  if (f64_leb elapsed f64_zero || f64_ltb delta f64_zero)%bool then None
  else
    let util := f64_div delta (f64_mul (f64_mul elapsed (f64_of_Z 1000000)) (f64_of_Z threads)) in
    Some (f64_min (f64_max util f64_zero) f64_one).
Definition podThreadUtilization (vc : ValkeyCluster) (host : string) (info : gmap string string) : prog (option float64) :=
  let '(active, threads) := activeTime info in
  if (threads =? 0)%Z then mret None
  else
    let key := samplePrefix vc +:+ host in
    now ← perform ONow;
    samples ← perform (OSamples <[key := {| ts_at := now; ts_activeUsec := active; ts_threads := threads |}]>);
    mret (match (samples : gmap string threadSample) !! key with
          | None => None
          | Some prev => utilisation active threads now prev
          end).

(** ** The INFO gauges *)

(** Smallest expiry and largest utilisation so far. *)
Definition keepExpiry (cur : option float64) (v : option float64) : option float64 :=
  match v with
  | Some v => match cur with Some m => if f64_ltb v m then Some v else cur | None => Some v end
  | None => cur
  end.
Definition keepUtil (cur : option float64) (v : option float64) : option float64 :=
  match v with
  | Some u => match cur with Some m => if f64_ltb m u then Some u else cur | None => Some u end
  | None => cur
  end.
Definition collectPod (vc : ValkeyCluster) (password : string) (cert : option string)
    (acc : option float64 * option float64) (i : Z) : prog (option float64 * option float64) :=
  let host := fqdn (statefulSetName vc) i (headlessServiceName vc) (vcNamespace vc) in
  c ← dialReplClient host (dataPort vc) password (tlsEnabled vc) cert (2 * second);
  match c with
  | None => mret acc
  | Some c =>
      r ← infoSection c "everything";
      match r with
      | inl _ => mret acc
      | inr info =>
          let expiry := if tlsEnabled vc then keepExpiry acc.1 (infoFloat info certExpiryField) else acc.1 in
          u ← podThreadUtilization vc host info;
          mret (expiry, keepUtil acc.2 u)
      end
  end.
Definition setGauge (name : string) (vc : ValkeyCluster) (v : option float64) : prog () :=
  match v with Some x => perform (OMetricSetFloat name (gaugeLabels vc) x) | None => mret () end.
Definition collectValkeyTelemetry (vc : ValkeyCluster) (password : string) : prog () :=
  if negb (valkeyImageAtLeast (Spec_Image (Spec vc)) 9 1) then mret ()
  else
    cert ← loadMTLSClientCert vc;
    r ← foldM (collectPod vc password cert) (None, None) (zrange 0 (totalReplicas vc));
    _ ← setGauge "tlsCertExpiryGauge" vc r.1;
    setGauge "threadUtilGauge" vc r.2.
End utilisation.

(** ** Zones *)
Definition shardGroup (s : ShardStatus) : list string :=
  (if Shard_Primary s != "" then [Shard_Primary s] else []) ++ Shard_Replicas s.
Definition replicationGroups (vc : ValkeyCluster) : list (list string) :=
  if Spec_Topology (Spec vc) == TopologyCluster
  then filter (λ g, g ≠ []) (shardGroup <$> Status_ShardDetails (Status vc))
  else if (Spec_Replicas (Spec vc) <=? 1)%Z then []
  else [(λ i, statefulSetName vc +:+ "-" +:+ Itoa i) <$> zrange 0 (Spec_Replicas (Spec vc))].

(** Past the cache: the node's label, kept with the time of the pass. *)
Definition readZone (name : string) (now : Z) : prog (KubeErr + string) :=
  g ← perform (OGetNode name);
  match g with
  | inl err => mret (inl err)
  | inr node =>
      let zone := map_get (node_Labels node) LabelTopologyZone in
      _ ← perform (OZones <[name := {| ze_zone := zone; ze_at := now |}]>);
      mret (inr zone)
  end.
Definition nodeZone (name : string) : prog (KubeErr + string) :=
  now ← perform ONow;
  zones ← perform (OZones id);
  match (zones : gmap string zoneEntry) !! name with
  | Some e => if (Sub now (ze_at e) <? nodeZoneTTL)%Z then mret (inr (ze_zone e)) else readZone name now
  | None => readZone name now
  end.
Fixpoint zonesOfPods (pods : list Pod) (out : gmap string string) : prog (KubeErr + gmap string string) :=
  match pods with
  | [] => mret (inr out)
  | p :: pods =>
      if pod_NodeName p == "" then zonesOfPods pods out
      else
        z ← nodeZone (pod_NodeName p);
        match z with
        | inl err => mret (inl err)
        | inr zone => zonesOfPods pods (<[pod_Name p := zone]> out)
        end
  end.
Definition podZones (vc : ValkeyCluster) : prog (KubeErr + gmap string string) :=
  l ← perform (OListPods (vcNamespace vc) (labelsFor vc));
  match l with inl err => mret (inl err) | inr pods => zonesOfPods pods ∅ end.

Definition groupZones (zoneOf : gmap string string) (group : list string) : gset string :=
  list_to_set (filter (λ z, z ≠ "") (omap (λ pod, zoneOf !! pod) group)).
Definition colocatedGroup (zoneOf : gmap string string) (group : list string) : bool :=
  ((1 <? length group)%nat && (size (groupZones zoneOf group) =? 1)%nat)%bool.
Definition checkZoneColocation (vc : ValkeyCluster) : prog () :=
  match replicationGroups vc with
  | [] => mret ()
  | groups =>
      z ← podZones vc;
      match z with
      | inl _ => mret ()
      | inr zoneOf =>
          if bool_decide (zoneOf = ∅) then mret ()
          else perform (OMetricSetFloat "zoneColocatedGauge" (gaugeLabels vc)
                          (f64_of_Z (Z.of_nat (length (filter (λ g, colocatedGroup zoneOf g = true) groups)))))
      end
  end.

(** ** Thread utilisation is exact on integer counters *)

(** The active-time counters INFO reports, and their sum. *)
Definition isCounter (k : string) : bool := ((k == mainThreadField) || has_prefix k ioThreadPrefix)%bool.
Definition counterOf (kv : string * string) : option Z := if isCounter kv.1 then Atoi kv.2 else None.
Definition counters (info : gmap string string) : list Z := omap counterOf (map_to_list info).
Definition total (l : list Z) : Z := foldr Z.add 0%Z l.
Definition integral (info : gmap string string) : Prop :=
  ∀ k s, info !! k = Some s → isCounter k = true → ∃ n, (0 ≤ n < 2 ^ 53)%Z ∧ s = Itoa n.

Lemma total_nonneg l : Forall (Z.le 0) l → (0 ≤ total l)%Z.
Proof. induction 1; simpl; lia. Qed.
#[global] Instance total_perm : Proper ((≡ₚ) ==> (=)) total.
Proof. intros l k H. induction H; simpl; lia. Qed.

Lemma infoFloat_Itoa info k n : (0 ≤ n < 2 ^ 53)%Z → info !! k = Some (Itoa n) → infoFloat info k = Some (f64_of_Z n).
Proof.
  intros Hn E. unfold infoFloat, trim_space. rewrite E, <- (str_app_nil_r (Itoa n)).
  rewrite trim_left_word by (apply Itoa_nonempty || apply Itoa_no_space; lia).
  rewrite str_app_nil_r, trim_right_no_space by (apply Itoa_no_space; lia). by apply ParseFloat_Itoa.
Qed.

Definition ioCounter (kv : string * string) : option Z := if has_prefix kv.1 ioThreadPrefix then Atoi kv.2 else None.
Definition ioIntegral (l : list (string * string)) : Prop :=
  Forall (λ kv, has_prefix kv.1 ioThreadPrefix = true → ∃ n, (0 ≤ n < 2 ^ 53)%Z ∧ kv.2 = Itoa n) l.
Lemma total_io l : ioIntegral l → (0 ≤ total (omap ioCounter l))%Z.
Proof.
  intros Hl. apply total_nonneg, Forall_forall. intros z (kv & Hin & Hz)%list_elem_of_omap. unfold ioCounter in Hz.
  unfold ioIntegral in Hl. rewrite Forall_forall in Hl. destruct (has_prefix kv.1 _) eqn:E; [|done].
  destruct (Hl kv Hin E) as (m & Hm & Em). rewrite Em, Atoi_Itoa in Hz by lia. simplify_eq. lia.
Qed.
Lemma addIOThreads_exact l a n : (0 ≤ a)%Z →
  ioIntegral l →
  (a + total (omap ioCounter l) < 2 ^ 53)%Z →
  foldl addIOThread (f64_of_Z a, n) l = (f64_of_Z (a + total (omap ioCounter l)), (n + Z.of_nat (length (omap ioCounter l)))%Z).
Proof.
  intros Ha Hl. revert a n Ha. induction Hl as [|[k s] l Hk Hl IH]; intros a n Ha Ht; cbn [foldl].
  { cbn. do 2 f_equal; lia. }
  change (addIOThread (f64_of_Z a, n) (k, s)) with
    (if has_prefix k ioThreadPrefix then match ParseFloat s with Some v => addThread (f64_of_Z a, n) v | None => (f64_of_Z a, n) end else (f64_of_Z a, n)).
  assert (ioCounter (k, s) = if has_prefix k ioThreadPrefix then Atoi s else None) as Ec by done. cbn [fst snd] in Hk.
  pose proof (total_io l Hl) as Hp.
  change (omap ioCounter ((k, s) :: l)) with (match ioCounter (k, s) with Some y => y :: omap ioCounter l | None => omap ioCounter l end) in *.
  destruct (has_prefix k ioThreadPrefix); rewrite Ec in *; [|by apply IH].
  destruct (Hk eq_refl) as (m & Hm & ->). rewrite Atoi_Itoa in * by lia. rewrite ParseFloat_Itoa by lia.
  change (total (m :: omap ioCounter l)) with (m + total (omap ioCounter l))%Z in *. cbn [length]. unfold addThread. cbn [fst snd].
  rewrite f64_add_int by lia. rewrite IH by lia. f_equal; [f_equal; lia|lia].
Qed.

Lemma omap_perm_len {A} (f : A → option Z) (l k : list A) : l ≡ₚ k → total (omap f l) = total (omap f k) ∧ length (omap f l) = length (omap f k).
Proof. intros H. assert (omap f l ≡ₚ omap f k) as Hp by (by rewrite H). by rewrite Hp. Qed.
Lemma omap_ext_in {A B} (f g : A → option B) (l : list A) : (∀ x, x ∈ l → f x = g x) → omap f l = omap g l.
Proof.
  induction l as [|x l IH]; intros H; [done|]. cbn [omap list_omap]. rewrite (H x) by left.
  rewrite IH by (intros y Hy; apply H; by right). done.
Qed.
(** The counters of INFO are the main thread's and those of the I/O threads. *)
Lemma counters_split info : counters info ≡ₚ
  match info !! mainThreadField with Some s => option_list (Atoi s) | None => [] end ++ omap ioCounter (map_to_list info).
Proof.
  assert (∀ m : gmap string string, m !! mainThreadField = None → omap counterOf (map_to_list m) = omap ioCounter (map_to_list m)) as Hrest.
  { intros m Hm. apply omap_ext_in. intros [k s] Hk%elem_of_map_to_list. unfold counterOf, ioCounter, isCounter. cbn [fst snd].
    rewrite (bool_decide_eq_false_2 (k = _)); [done|]. intros ->. congruence. }
  unfold counters. destruct (info !! mainThreadField) as [s|] eqn:E; [|by rewrite Hrest].
  rewrite <- (map_to_list_delete _ _ _ E). cbn [omap list_omap].
  change (counterOf (mainThreadField, s)) with (Atoi s). change (ioCounter (mainThreadField, s)) with (@None Z).
  rewrite Hrest by apply lookup_delete_eq. by destruct (Atoi s).
Qed.
Lemma activeTime_exact mapOrder info : mapOrder info ≡ₚ map_to_list info → integral info → (total (counters info) < 2 ^ 53)%Z →
  activeTime mapOrder info = (f64_of_Z (total (counters info)), Z.of_nat (length (counters info))).
Proof.
  intros Ho Hi Ht.
  assert (ioIntegral (map_to_list info)) as Hio.
  { apply Forall_forall. intros [k s] Hk%elem_of_map_to_list Hp. apply (Hi k s Hk). unfold isCounter. cbn [fst] in Hp. by rewrite Hp, orb_true_r. }
  assert (ioIntegral (mapOrder info)) as Hf by (unfold ioIntegral; by rewrite Ho).
  destruct (omap_perm_len ioCounter _ _ Ho) as [Hs Hl]. rewrite (counters_split info) in *. unfold activeTime.
  destruct (info !! mainThreadField) as [s|] eqn:E.
  - destruct (Hi _ _ E eq_refl) as (n & Hn & ->). rewrite (infoFloat_Itoa _ _ n) by done.
    rewrite Atoi_Itoa in * by lia.
    change (total (option_list (Some n) ++ omap ioCounter (map_to_list info))) with (n + total (omap ioCounter (map_to_list info)))%Z in *.
    change (length (option_list (Some n) ++ omap ioCounter (map_to_list info))) with (S (length (omap ioCounter (map_to_list info)))).
    unfold addThread. cbn [fst snd]. change f64_zero with (f64_of_Z 0).
    assert (0 ≤ total (omap ioCounter (map_to_list info)))%Z by (by apply total_io).
    rewrite (f64_add_int 0 n), Z.add_0_l by lia.
    rewrite addIOThreads_exact by (done || lia). f_equal; [by rewrite Hs|lia].
  - unfold infoFloat. rewrite E. cbn [app] in *. change f64_zero with (f64_of_Z 0).
    rewrite addIOThreads_exact by (done || lia). f_equal; [by rewrite Hs|lia].
Qed.

(** What a pass makes of a pod's counters, when they are whole microseconds below 2^53 in all: in
    whatever order Go visits the fields, the sample it keeps is their exact sum; the first sample
    of a pod, a clock that did not advance and a counter that went down report nothing; and
    otherwise the ratio is the growth over the elapsed time of all threads, rounded, and between
    0 and 1 (or NaN, for a quotient of two zeros). *)
Theorem thread_utilisation mapOrder vc host info tr r (active := total (counters info)) (threads := Z.of_nat (length (counters info))) :
  mapOrder info ≡ₚ map_to_list info → integral info → (active < 2 ^ 53)%Z →
  exec (podThreadUtilization mapOrder vc host info) tr r →
  (threads = 0%Z ∧ tr = [] ∧ r = None) ∨
  ∃ now samples (key := samplePrefix vc +:+ host), (0 < threads)%Z ∧
    tr = [Ev ONow now; Ev (OSamples <[key := {| ts_at := now; ts_activeUsec := f64_of_Z active; ts_threads := threads |}]>) samples] ∧
    match (samples : gmap string threadSample) !! key with
    | None => r = None
    | Some prev =>
        let elapsed := Seconds (Sub now (ts_at prev)) in
        (∀ n, ts_activeUsec prev = f64_of_Z n → (0 ≤ n < 2 ^ 53)%Z →
           r = if (f64_leb elapsed f64_zero || (active <? n)%Z)%bool then None
               else Some (f64_min (f64_max (f64_div (f64_of_Z (active - n))
                            (f64_mul (f64_mul elapsed (f64_of_Z 1000000)) (f64_of_Z threads))) f64_zero) f64_one)) ∧
        (∀ u, r = Some u → u = S754_nan ∨ (f64_leb f64_zero u = true ∧ f64_leb u f64_one = true))
    end.
Proof.
  intros Ho Hi Ht Hx. unfold podThreadUtilization in Hx. rewrite activeTime_exact in Hx by done. fold active threads in Hx.
  destruct (threads =? 0)%Z eqn:E.
  { apply exec_ret in Hx as [-> <-]. left. split; [lia|done]. }
  right. apply exec_bind in Hx as (tr1 & tr2 & now & -> & H1 & Hx). apply exec_perform in H1 as ->.
  apply exec_bind in Hx as (tr1 & tr3 & samples & -> & H1 & Hx). apply exec_perform in H1 as ->. apply exec_ret in Hx as [-> <-].
  exists now, samples. split; [lia|]. split; [done|].
  destruct ((samples : gmap string threadSample) !! _) as [prev|]; [|done]. unfold utilisation. split.
  - intros n -> Hn. assert (0 ≤ active)%Z.
    { apply total_nonneg, Forall_forall. intros z (kv & Hin & Hz)%list_elem_of_omap. unfold counterOf in Hz.
      destruct kv as [k s], (isCounter k) eqn:Ek; cbn [fst snd] in Hz; rewrite Ek in Hz; [|done].
      apply elem_of_map_to_list in Hin. destruct (Hi _ _ Hin Ek) as (m & Hm & ->). rewrite Atoi_Itoa in Hz by lia. simplify_eq. lia. }
    rewrite f64_sub_int, f64_neg_int by lia. replace (active - n <? 0)%Z with (active <? n)%Z; [done|].
    destruct (Z.ltb_spec active n), (Z.ltb_spec (active - n) 0); lia || done.
  - intros u Hu. destruct (_ || _)%bool; [done|]. simplify_eq.
    match goal with |- f64_min (f64_max ?x _) _ = _ ∨ _ => destruct (f64_clamp_bounds x) as [[_ ->]|(_ & H1 & H2)] end; [by left|by right].
Qed.

(** ** Zones *)

(** The zone the pass used for a node: a cache entry younger than ten minutes, or the label of the
    node it read. *)
Definition zoneKnown (tr : list Event) (node zone : string) : Prop :=
  (∃ now zones e, Ev ONow now ∈ tr ∧ Ev (OZones id) zones ∈ tr ∧ (zones : gmap string zoneEntry) !! node = Some e ∧
     ze_zone e = zone ∧ (Sub now (ze_at e) < nodeZoneTTL)%Z) ∨
  (∃ n, Ev (OGetNode node) (inr n) ∈ tr ∧ zone = map_get (node_Labels n) LabelTopologyZone).
Definition setsGauge (e : Event) : bool := match ev_op e with OMetricSetFloat _ _ _ => true | _ => false end.

Lemma zoneKnown_app tr1 tr2 tr3 node zone : zoneKnown tr2 node zone → zoneKnown (tr1 ++ tr2 ++ tr3) node zone.
Proof.
  intros [(now & zs & e & H1 & H2 & H3)|(n & H1 & H2)]; [left; exists now, zs, e|right; exists n];
    rewrite ?elem_of_app; tauto.
Qed.
Lemma readZone_exec name now tr r : exec (readZone name now) tr r →
  Forall (λ e, setsGauge e = false) tr ∧ ∀ zone, r = inr zone → zoneKnown tr name zone.
Proof.
  intros Ht. unfold readZone in Ht. apply exec_bind in Ht as (t1 & t2 & g & -> & H1 & Ht). apply exec_perform in H1 as ->.
  destruct g as [err|node]; [apply exec_ret in Ht as [-> <-]; split; [by repeat constructor|done]|]. cbv zeta in Ht.
  apply exec_bind in Ht as (t1 & t3 & u & -> & H1 & Ht). apply exec_perform in H1 as ->. apply exec_ret in Ht as [-> <-].
  split; [by repeat constructor|]. intros zone Hz. simplify_eq. right. exists node. split; [left|done].
Qed.
Lemma nodeZone_exec name tr r : exec (nodeZone name) tr r →
  Forall (λ e, setsGauge e = false) tr ∧ ∀ zone, r = inr zone → zoneKnown tr name zone.
Proof.
  intros Hx. unfold nodeZone in Hx. apply exec_bind in Hx as (t1 & tr2 & now & -> & H1 & Hx). apply exec_perform in H1 as ->.
  apply exec_bind in Hx as (t1 & tr3 & zones & -> & H1 & Hx). apply exec_perform in H1 as ->.
  assert (exec (readZone name now) tr3 r → Forall (λ e, setsGauge e = false) ([Ev ONow now] ++ [Ev (OZones id) zones] ++ tr3) ∧
    ∀ zone, r = inr zone → zoneKnown ([Ev ONow now] ++ [Ev (OZones id) zones] ++ tr3) name zone) as Hread.
  { intros [Hf Hz]%readZone_exec. split; [by repeat constructor|]. intros zone ->.
    change ([Ev ONow now] ++ [Ev (OZones id) zones] ++ tr3) with ([Ev ONow now; Ev (OZones id) zones] ++ tr3).
    rewrite <- (app_nil_r tr3). by apply zoneKnown_app, Hz. }
  destruct ((zones : gmap string zoneEntry) !! name) as [e|] eqn:E; [|by apply Hread].
  destruct (Sub now (ze_at e) <? nodeZoneTTL)%Z eqn:El; [|by apply Hread].
  apply exec_ret in Hx as [-> <-]. split; [by repeat constructor|]. intros zone Hz. simplify_eq. left. exists now, zones, e.
  cbn [app]. split; [left|]. split; [right; left|]. split; [done|]. split; [done|]. by apply Z.ltb_lt.
Qed.

(** The map [podZones] returns: exactly the listed pods that have a node, each with a known zone. *)
Definition zonesOf (pods : list Pod) (out0 zoneOf : gmap string string) (tr : list Event) : Prop :=
  (∀ pod zone, zoneOf !! pod = Some zone → out0 !! pod = Some zone ∨
     ∃ p, p ∈ pods ∧ pod_Name p = pod ∧ pod_NodeName p ≠ "" ∧ zoneKnown tr (pod_NodeName p) zone) ∧
  (∀ pod, is_Some (out0 !! pod) → is_Some (zoneOf !! pod)) ∧
  (∀ p, p ∈ pods → pod_NodeName p ≠ "" → is_Some (zoneOf !! pod_Name p)).
Lemma zonesOfPods_exec pods out tr r : exec (zonesOfPods pods out) tr r →
  Forall (λ e, setsGauge e = false) tr ∧ ∀ zoneOf, r = inr zoneOf → zonesOf pods out zoneOf tr.
Proof.
  revert out tr; induction pods as [|p pods IH]; intros out tr Hx; cbn [zonesOfPods] in Hx.
  { apply exec_ret in Hx as [-> <-]. split; [done|]. intros zoneOf [= ->]. split; [by left|]. split; [done|]. by intros p ?%not_elem_of_nil. }
  case_bool_decide as Hn.
  { destruct (IH _ _ Hx) as [Hf Hz]. split; [done|]. intros zoneOf E. destruct (Hz _ E) as (H1 & H2 & H3). split; [|split; [done|]].
    - intros pod zone Hp. destruct (H1 _ _ Hp) as [?|(q & Hq & ?)]; [by left|right]. exists q. split; [by right|done].
    - intros q [->|Hq]%elem_of_cons Hne; [done|by apply H3]. }
  apply exec_bind in Hx as (t1 & t2 & z & -> & H1 & Hx). apply nodeZone_exec in H1 as [Hf1 Hk].
  destruct z as [err|zone]; [apply exec_ret in Hx as [-> <-]; split; [by rewrite app_nil_r|done]|].
  destruct (IH _ _ Hx) as [Hf Hz]. split; [by apply Forall_app|]. intros zoneOf E. destruct (Hz _ E) as (H1 & H2 & H3). split; [|split].
  - intros pod zone' Hp. destruct (H1 _ _ Hp) as [Ho|(q & Hq & Hn1 & Hn2 & Hn3)].
    + destruct (decide (pod_Name p = pod)) as [<-|Hne].
      * rewrite lookup_insert_eq in Ho. simplify_eq. right. exists p. split; [left|]. split; [done|]. split; [done|].
        change (t1 ++ t2) with ([] ++ t1 ++ t2). by apply zoneKnown_app, Hk.
      * rewrite lookup_insert_ne in Ho by done. by left.
    + right. exists q. split; [by right|]. split; [done|]. split; [done|]. rewrite <- (app_nil_r t2). by apply zoneKnown_app.
  - intros pod Hp. apply H2. destruct (decide (pod_Name p = pod)) as [<-|Hne]; [rewrite lookup_insert_eq; by eexists|by rewrite lookup_insert_ne].
  - intros q [->|Hq]%elem_of_cons Hne; [|by apply H3]. apply H2. rewrite lookup_insert_eq. by eexists.
Qed.

(** A group counts when it has at least two pods and those with a known zone are all in one. *)
Lemma colocatedGroup_spec zoneOf group : colocatedGroup zoneOf group = true ↔
  1 < length group ∧ ∃ z, z ≠ "" ∧ (∃ pod, pod ∈ group ∧ zoneOf !! pod = Some z) ∧
    ∀ pod z', pod ∈ group → zoneOf !! pod = Some z' → z' = "" ∨ z' = z.
Proof.
  unfold colocatedGroup. rewrite andb_true_iff, Nat.ltb_lt, Nat.eqb_eq.
  assert (∀ z, z ∈ groupZones zoneOf group ↔ z ≠ "" ∧ ∃ pod, pod ∈ group ∧ zoneOf !! pod = Some z) as Hz.
  { intros z. unfold groupZones. by rewrite elem_of_list_to_set, list_elem_of_filter, list_elem_of_omap. }
  split; intros [Hl Hs]; (split; [done|]).
  - apply size_1_elem_of in Hs as [z Hs]. exists z. assert (z ∈ groupZones zoneOf group) as [Hne Hp]%Hz by (rewrite Hs; by apply elem_of_singleton).
    split; [done|]. split; [done|]. intros pod z' Hin E. destruct (decide (z' = "")) as [->|Hne']; [by left|right].
    assert (z' ∈ groupZones zoneOf group) as Hz' by (apply Hz; eauto). rewrite Hs in Hz'. by apply elem_of_singleton in Hz'.
  - destruct Hs as (z & Hne & Hp & Hall).
    assert (groupZones zoneOf group ≡ {[z]}) as ->; [|by rewrite size_singleton]. intros z'. rewrite Hz, elem_of_singleton. split.
    + intros [Hne' (pod & Hin & E)]. by destruct (Hall _ _ Hin E).
    + by intros ->.
Qed.

(** The zone check reports only what it has seen: a pass sets no gauge, or sets the cluster's zone
    gauge once, last, to the number of replication groups of at least two pods whose pods with a
    known zone are all in one zone; the zone of a pod is that of its node, read in this pass or
    remembered for less than ten minutes, and every listed pod that has a node takes part. *)
Theorem zone_check_justified vc tr : exec (checkZoneColocation vc) tr tt →
  Forall (λ e, setsGauge e = false) tr ∨
  ∃ pods zoneOf tr' n, tr = Ev (OListPods (vcNamespace vc) (labelsFor vc)) (inr pods) :: tr' ++
      [Ev (OMetricSetFloat "zoneColocatedGauge" (gaugeLabels vc) (f64_of_Z (Z.of_nat n))) tt] ∧
    zonesOf pods ∅ zoneOf tr' ∧ zoneOf ≠ ∅ ∧ Forall (λ e, setsGauge e = false) tr' ∧
    n = length (filter (λ g, colocatedGroup zoneOf g = true) (replicationGroups vc)) ∧
    ∀ g, g ∈ replicationGroups vc → (colocatedGroup zoneOf g = true ↔
      1 < length g ∧ ∃ z, z ≠ "" ∧ (∃ pod, pod ∈ g ∧ zoneOf !! pod = Some z) ∧
        ∀ pod z', pod ∈ g → zoneOf !! pod = Some z' → z' = "" ∨ z' = z).
Proof.
  intros Hx. unfold checkZoneColocation in Hx. destruct (replicationGroups vc) as [|g0 gs] eqn:Eg.
  { apply exec_ret in Hx as [-> _]. by left. }
  rewrite <- Eg in *. apply exec_bind in Hx as (t1 & t2 & z & -> & H1 & Hx).
  unfold podZones in H1. apply exec_bind in H1 as (t3 & t4 & l & -> & H1 & Hl). apply exec_perform in H1 as ->.
  destruct l as [err|pods].
  { apply exec_ret in Hl as [-> <-]. apply exec_ret in Hx as [-> _]. left. by repeat constructor. }
  apply zonesOfPods_exec in Hl as [Hf Hz]. destruct z as [err|zoneOf].
  { apply exec_ret in Hx as [-> _]. left. rewrite app_nil_r. by constructor. }
  destruct (bool_decide_reflect (zoneOf = ∅)) as [He|He].
  { apply exec_ret in Hx as [-> _]. left. rewrite app_nil_r. by constructor. }
  apply exec_perform in Hx as ->. right. eexists pods, zoneOf, t4, _.
  split; [cbn [app]; reflexivity|]. split; [by apply Hz|]. split; [done|]. split; [done|]. split; [done|].
  intros g _. apply colocatedGroup_spec.
Qed.

(** ** Forgetting a cluster *)

(** Names of namespaces and objects have no slash, so deleting a cluster drops exactly its own
    samples: those of a cluster whose namespace or name merely starts like this one's stay. *)
Lemma cut_slash_inj a b s t : lacks "/" a = true → lacks "/" b = true → a +:+ "/" +:+ s = b +:+ "/" +:+ t → a = b ∧ s = t.
Proof.
  intros Ha Hb E. pose proof (cut_byte_app "/"%char a s Ha) as H1. pose proof (cut_byte_app "/"%char b t Hb) as H2.
  change (String "/" s) with ("/" +:+ s) in H1. change (String "/" t) with ("/" +:+ t) in H2. rewrite E, H2 in H1. by simplify_eq.
Qed.
Theorem forgetTelemetry_own vc vc' host (m : gmap string threadSample) :
  lacks "/" (vcNamespace vc) = true → lacks "/" (vcName vc) = true →
  lacks "/" (vcNamespace vc') = true → lacks "/" (vcName vc') = true →
  dropSamples vc m !! (samplePrefix vc' +:+ host) =
    if bool_decide (vcNamespace vc' = vcNamespace vc ∧ vcName vc' = vcName vc) then None else m !! (samplePrefix vc' +:+ host).
Proof.
  intros Hn Hm Hn' Hm'. unfold dropSamples.
  assert (has_prefix (samplePrefix vc' +:+ host) (samplePrefix vc) =
    bool_decide (vcNamespace vc' = vcNamespace vc ∧ vcName vc' = vcName vc)) as Hp.
  { unfold has_prefix. case_bool_decide as H.
    - unfold samplePrefix. destruct H as [-> ->]. by rewrite strip_prefix_app.
    - destruct (strip_prefix (samplePrefix vc) _) as [rest|] eqn:E; [|done]. apply strip_prefix_Some in E. exfalso. apply H.
      unfold samplePrefix in E. rewrite <- !str_app_assoc in E. apply cut_slash_inj in E as [-> E]; [|done..].
      apply cut_slash_inj in E as [-> _]; done. }
  case_bool_decide as H.
  - apply map_lookup_filter_None. right. intros s _. cbn. rewrite Hp. done.
  - destruct (m !! _) as [s|] eqn:E.
    + apply map_lookup_filter_Some. split; [done|]. cbn. rewrite Hp. done.
    + apply map_lookup_filter_None. by left.
Qed.

(** ** Telemetry only looks *)
Abbreviation looks := (λ e : Event, reads (ev_op e) = true).

#[local] Instance looks_ignores_reads : IgnoresReads looks.
Proof. by intros op x H. Qed.
Lemma podThreadUtilization_looks mapOrder vc host info : spec (podThreadUtilization mapOrder vc host info) looks (λ _, True).
Proof.
  unfold podThreadUtilization. destruct (activeTime mapOrder info) as [active threads]. destruct (threads =? 0)%Z; [by apply spec_ret|].
  apply (spec_bind_op looks ONow); [done|]. intros now. apply (spec_bind_op looks (OSamples _)); [done|]. intros samples. by apply spec_ret.
Qed.
Lemma collectPod_looks mapOrder vc password cert acc i : spec (collectPod mapOrder vc password cert acc i) looks (λ _, True).
Proof.
  unfold collectPod, dialReplClient, infoSection. cbv zeta. eapply (spec_bind looks _ _ (λ _, True)).
  { apply (spec_bind_op looks (OPing _)); [done|]. intros x. by apply spec_ret. }
  intros [c|] _; [|by apply spec_ret]. eapply (spec_bind looks _ _ (λ _, True)).
  { apply (spec_bind_op looks (OInfo _ _)); [done|]. intros x. by apply spec_ret. }
  intros [err|info] _; [by apply spec_ret|]. eapply (spec_bind looks); [apply podThreadUtilization_looks|]. intros u _. by apply spec_ret.
Qed.
Lemma setGauge_looks name vc v : spec (setGauge name vc v) looks (λ _, True).
Proof. destruct v as [x|]; [by apply (spec_perform looks (OMetricSetFloat _ _ _))|by apply spec_ret]. Qed.
Lemma collectValkeyTelemetry_looks mapOrder vc password : spec (collectValkeyTelemetry mapOrder vc password) looks (λ _, True).
Proof.
  unfold collectValkeyTelemetry. destruct (negb _); [by apply spec_ret|].
  eapply (spec_bind looks); [apply (loadMTLSClientCert_spec looks)|]. intros cert _.
  eapply (spec_bind looks _ _ (λ _, True)); [apply spec_foldM; [done|intros; apply collectPod_looks]|]. intros r _.
  eapply (spec_bind looks); [apply setGauge_looks|]. intros _ _. apply setGauge_looks.
Qed.
Lemma zonesOfPods_looks pods out : spec (zonesOfPods pods out) looks (λ _, True).
Proof.
  revert out; induction pods as [|p pods IH]; intros out; cbn [zonesOfPods]; [by apply spec_ret|].
  destruct (pod_NodeName p == ""); [done|]. eapply (spec_bind looks _ _ (λ _, True)).
  - assert (∀ now, spec (readZone (pod_NodeName p) now) looks (λ _, True)) as Hr.
    { intros now. apply (spec_bind_op looks (OGetNode _)); [done|]. intros []; [by apply spec_ret|].
      apply (spec_bind_op looks (OZones _)); [done|]. intros ?. by apply spec_ret. }
    apply (spec_bind_op looks ONow); [done|]. intros now. apply (spec_bind_op looks (OZones id)); [done|]. intros zones.
    destruct ((zones : gmap string zoneEntry) !! _) as [e|]; [|done]. destruct (_ <? _)%Z; [by apply spec_ret|done].
  - intros [err|zone] _; [by apply spec_ret|done].
Qed.
Lemma checkZoneColocation_looks vc : spec (checkZoneColocation vc) looks (λ _, True).
Proof.
  unfold checkZoneColocation, podZones. destruct (replicationGroups vc); [by apply spec_ret|].
  eapply (spec_bind looks _ _ (λ _, True)).
  { apply (spec_bind_op looks (OListPods _ _)); [done|]. intros []; [by apply spec_ret|apply zonesOfPods_looks]. }
  intros [err|zoneOf] _; [by apply spec_ret|]. destruct (bool_decide _); [by apply spec_ret|by apply (spec_perform looks (OMetricSetFloat _ _ _))].
Qed.

(** ** Concrete passes *)
Definition demoFields : gmap string string :=
  list_to_map [("used_active_time_main_thread", "5000000"); ("used_active_time_io_thread_1", "5000000"); ("role", "master")].
Lemma demoFields_counters : counters demoFields ≡ₚ [5000000; 5000000]%Z.
Proof. apply (bool_decide_unpack _). vm_compute. exact I. Qed.
(** Two threads, half busy over ten seconds, with an earlier sample of 0. *)
Definition demoSamples (op : Op) : () → ans op * () :=
  match op return () → ans op * () with
  | ONow => λ w, (10 * second, w)%Z
  | OSamples _ => λ w, ({["ns/demo/h" := {| ts_at := 0; ts_activeUsec := f64_zero; ts_threads := 2 |}]}, w)
  | _op => λ w, (inhabitant, w)
  end.
Definition demoTelemetry : ValkeyCluster := newCluster "demo" "ns" (set_Spec_Replicas 3 (set_Spec_Topology TopologyReplication zeroSpec)).
Lemma thread_utilisation_witness :
  let p := podThreadUtilization map_to_list demoTelemetry "h" demoFields in
  (run demoSamples p tt).1 = ParseFloat "0.5" ∧
  ∃ u, (run demoSamples p tt).1 = Some u ∧ (f64_leb f64_zero u = true ∧ f64_leb u f64_one = true).
Proof.
  intros p. pose proof (run_exec demoSamples p tt) as Hx.
  assert (total (counters demoFields) = 10000000)%Z as Ht by (rewrite demoFields_counters; reflexivity).
  assert (integral demoFields) as Hi.
  { intros k s Hk Hc. exists 5000000%Z. split; [lia|].
    assert (bool_decide (map_Forall (λ k s, isCounter k = true → s = Itoa 5000000) demoFields) = true) as Hb by (vm_compute; reflexivity).
    apply bool_decide_eq_true in Hb. exact (Hb k s Hk Hc). }
  assert ((run demoSamples p tt).1 = ParseFloat "0.5") as Er by (vm_compute; reflexivity).
  split; [exact Er|].
  destruct (thread_utilisation map_to_list demoTelemetry "h" demoFields _ _ (reflexivity _) Hi ltac:(rewrite Ht; lia) Hx)
    as [(_ & _ & Hr)|(now & samples & _ & E & Hs)].
  { rewrite Er in Hr. vm_compute in Hr. discriminate Hr. }
  assert (ParseFloat "0.5" = Some (S754_finite false 4503599627370496 (-53))) as Ep by (vm_compute; reflexivity).
  rewrite Er, Ep in *. destruct ((samples : gmap string threadSample) !! _) as [prev|]; [|discriminate Hs].
  cbv zeta in Hs. destruct Hs as [_ Hs]. exists (S754_finite false 4503599627370496 (-53)). split; [reflexivity|].
  destruct (Hs _ eq_refl) as [Hn|Hb]; [discriminate Hn|exact Hb].
Defined.

(** An API server with three pods, all on one node of zone a. *)
Definition demoZones (op : Op) : () → ans op * () :=
  match op return () → ans op * () with
  | OListPods ns l => λ w, (inr ((λ i, {| pod_Name := "demo-" +:+ Itoa i; pod_Namespace := ns; pod_Labels := l;
      pod_Deleting := false; pod_Phase := "Running"; pod_NodeName := "n"; pod_IP := ""; pod_Conditions := [] |}) <$> zrange 0 3), w)
  | OGetNode _ => λ w, (inr {| node_Labels := {[LabelTopologyZone := "a"]}; node_Conditions := [] |}, w)
  | _op => λ w, (inhabitant, w)
  end.
Lemma zone_check_justified_witness :
  let tr := trace demoZones (checkZoneColocation demoTelemetry) tt in
  ∃ pods tr', tr = Ev (OListPods "ns" (labelsFor demoTelemetry)) (inr pods) :: tr' ++
    [Ev (OMetricSetFloat "zoneColocatedGauge" ["ns"; "demo"] (f64_of_Z 1)) tt].
Proof.
  intros tr. pose proof (run_exec demoZones (checkZoneColocation demoTelemetry) tt) as Hx.
  assert (last tr = Some (Ev (OMetricSetFloat "zoneColocatedGauge" ["ns"; "demo"] (f64_of_Z 1)) tt)) as El by (vm_compute; reflexivity).
  destruct (zone_check_justified demoTelemetry _ Hx) as [Hf|(pods & zoneOf & tr' & n & E & _)].
  - apply last_Some_elem_of in El. rewrite Forall_forall in Hf. discriminate (Hf _ El).
  - exists pods, tr'. fold tr in E. rewrite E, app_comm_cons, last_snoc in El. injection El as El. rewrite E. do 2 f_equal. by rewrite El.
Defined.
(** The comment says that an unresolved group tells nothing; a group of which a single pod has a
    known zone counts as sitting in one zone, here while two of three pods wait for a node. *)
Example one_known_pod_counts : colocatedGroup {["demo-0" := "a"]} ["demo-0"; "demo-1"; "demo-2"] = true.
Proof. vm_compute. reflexivity. Qed.
(** After a scale to one pod the check no longer runs, and the gauge keeps its last value. *)
Example zone_gauge_left_alone : checkZoneColocation (with_spec demoTelemetry (set_Spec_Replicas 1)) = mret tt.
Proof. reflexivity. Qed.
(** With a StatefulSet per shard the collector builds the host names of a single StatefulSet: none
    of them is a data pod of the cluster. *)
Example telemetry_misses_shards :
  Forall (λ i, fqdn (statefulSetName demoSharded) i (headlessServiceName demoSharded) (vcNamespace demoSharded) ∉
               ref_host <$> clusterDataPods demoSharded) (zrange 0 (totalReplicas demoSharded)).
Proof. apply (bool_decide_unpack _). vm_compute. exact I. Qed.
