(* ===== verification/Controller.v ===== *)
(** * Controller: the ValkeyCluster reconcile loop
      (valkeycluster_controller.go, sentinel.go, cluster.go, metrics.go)

    [Reconcile] and the pass of each topology, composed from the other files: the workload is
    ensured step by step, then the topology's own logic runs, then the status is written.

    What is not under src/ comes in as one record, [Libs]: the hashes, apimachinery's
    [DeepDerivative], the PEM and X.509 parsers, client-go's number of retries, and whether the
    manager passed an uncached reader; with them the order in which Go visits a map.
    Left out: logging and the wiring of watches ([SetupWithManager]). *)

From S2P Require Import Prelude GoStd Float64 Kube Api Effects Naming Failover Rollout ClusterNodes Status Jobs Recovery SentinelRollout Scaling Rotation Config Workload Ensure Sentinel TlsReload Backup Telemetry.

Definition finalizerName : string := "valkey.wellcake.io/cleanup".

(** ** Finalizers *)
Definition set_Finalizers (f : list string → list string) (vc : ValkeyCluster) : ValkeyCluster :=
  let m := Meta vc in
  {| Meta := {| Meta_Name := Meta_Name m; Meta_Namespace := Meta_Namespace m; Meta_UID := Meta_UID m;
                Meta_Generation := Meta_Generation m; Meta_Annotations := Meta_Annotations m;
                Meta_Finalizers := f (Meta_Finalizers m); Meta_Deleting := Meta_Deleting m |};
     Spec := Spec vc; Status := Status vc |}.
(** [controllerutil.ContainsFinalizer], [AddFinalizer] and [RemoveFinalizer]. *)
Definition ContainsFinalizer (vc : ValkeyCluster) (f : string) : bool := bool_decide (f ∈ Meta_Finalizers (Meta vc)).
Definition AddFinalizer (vc : ValkeyCluster) (f : string) : ValkeyCluster :=
  set_Finalizers (λ l, if bool_decide (f ∈ l) then l else l ++ [f]) vc.
Definition RemoveFinalizer (vc : ValkeyCluster) (f : string) : ValkeyCluster :=
  set_Finalizers (filter (λ g, g != f)) vc.

(** ** Which reconcile an event leads to *)
Record Request := { req_Namespace : string; req_Name : string }.
Definition secretMatches (name : string) (vc : ValkeyCluster) : bool :=
  ((tlsEnabled vc && (tlsSecretName vc == name)) ||
   (AuthEnabled (Spec vc) &&
    match Spec_Auth (Spec vc) with
    | Some a => (Auth_ExistingSecret a != "") && (Auth_ExistingSecret a == name)
    | None => false
    end))%bool.
Definition requestFor (vc : ValkeyCluster) : Request := {| req_Namespace := vcNamespace vc; req_Name := vcName vc |}.
Definition mapSecretToCluster (namespace name : string) : prog (list Request) :=
  l ← perform (OListClusters namespace);
  mret (match l with inl _ => [] | inr items => requestFor <$> filter (secretMatches name) items end).
Definition mapPodToCluster (namespace : string) (labels : gmap string string) : list Request :=
  if ((map_get labels managedByLabel != operatorName) || (map_get labels instanceLabel == ""))%bool then []
  else [{| req_Namespace := namespace; req_Name := map_get labels instanceLabel |}].

Record Libs := {
  lib_sha256 : string → string;
  lib_specHash : option Z * PodTemplateSpec * string * gmap string string → string;
  lib_cronHash : CronJobSpec * gmap string string → string;
  lib_deepDerivative : PodDisruptionBudgetSpec → PodDisruptionBudgetSpec → bool;
  lib_pemDecode : string → option (Block * string);
  lib_parseCertificate : string → error + string;
  lib_retrySteps : nat;
  lib_hasAPIReader : bool;
  lib_mapOrder : gmap string string → list (string * string)
}.

(** [if err := p; err != nil { return ctrl.Result{}, fmt.Errorf("<what>: %w", err) }; k]. *)
Definition must (what : string) (vc : ValkeyCluster) (p : prog (option KubeErr)) (k : prog Outcome) : prog Outcome :=
  e ← p; match e with Some err => mret (failed (EWrap what (EKube err)) vc) | None => k end.
(** The same for a step that also answers a value. *)
Definition mustGet {A} (what : string) (vc : ValkeyCluster) (p : prog (GoErr + A)) (k : A → prog Outcome) : prog Outcome :=
  r ← p; match r with inl err => mret (failed (EWrap what err) vc) | inr x => k x end.
Definition kubeGet {A} (p : prog (KubeErr + A)) : prog (GoErr + A) :=
  r ← p; mret (match r with inl err => inl (EKube err) | inr x => inr x end).
(** [if err == nil { res.RequeueAfter = d }]. *)
Definition requeueIfOk (d : Z) (o : Outcome) : Outcome :=
  match out_err o with None => requeue d (out_vc o) | Some _ => o end.

Section controller.
Context `{ConditionLib} (L : Libs).

Definition recordReconcile (controller namespace name : string) (err : option GoErr) : prog () :=
  perform (OMetricInc "reconcileTotal" [controller; namespace; name; match err with Some _ => "error" | None => "success" end]).

(** ** Standalone and Replication *)

(** From the failover on: the workload exists and [sts] is its StatefulSet. *)
Definition reportReplication (vc : ValkeyCluster) (sts : StatefulSet) (primary : string) (requeueAfter : Z) : prog Outcome :=
  _ ← ensureRoleLabels vc primary;
  o ← updateStatus vc sts primary;
  mret (if (0 <? requeueAfter)%Z then requeueIfOk requeueAfter o else o).
Definition failoverThenReport (vc : ValkeyCluster) (password : string) (sts : StatefulSet) (survey : list podRole) : prog Outcome :=
  r ← reconcileFailover vc password survey;
  let '(primary, vc) := r in
  let tok := annotation vc failoverAnnotation in
  if ((tok != "") && (tok != Status_LastFailoverToken (Status vc)))%bool then
    m ← manualFailover vc password survey tok;
    let '(np, vc) := m in
    reportReplication vc sts (if np != "" then np else primary) (15 * second)
  else reportReplication vc sts primary (15 * second).
Definition replicationPass (vc : ValkeyCluster) (password : string) (sts : StatefulSet) : prog Outcome :=
  if ((Spec_Topology (Spec vc) == TopologyReplication) && (0 <? sts_ReadyReplicas sts)%Z &&
      match Spec_ReplicateFrom (Spec vc) with None => true | Some _ => false end)%bool then
    survey ← surveyReplication vc password;
    if proactiveRolloutEnabled vc then
      r ← driveReplicationRollout vc password survey;
      let '(rp, inProgress, rerr) := r in
      match rerr with
      | Some err => mret (failed (EKube err) vc)
      | None =>
          if inProgress : bool then o ← updateStatus vc sts rp; mret (requeueIfOk (5 * second) o)
          else failoverThenReport vc password sts survey
      end
    else failoverThenReport vc password sts survey
  else reportReplication vc sts "" 0.

(** The objects, with the password known.  The ServiceMonitor and the backup CronJob are best effort
    here: their errors are logged. *)
Definition replicationWorkload (vc : ValkeyCluster) (password : string) : prog Outcome :=
  must "headless service" vc (ensureHeadlessService vc) (
  must "client service" vc (ensureClientService vc) (
  must "primary service" vc (ensurePrimaryService vc) (
  must "replicas service" vc (ensureReplicasService vc) (
  mustGet "configmap" vc (kubeGet (ensureConfigMap (lib_sha256 L) vc password)) (λ configHash,
  mustGet "statefulset" vc (ensureStatefulSet (lib_retrySteps L) (lib_specHash L) vc configHash) (λ sts,
  must "pdb" vc (ensurePDB (lib_retrySteps L) (lib_deepDerivative L) vc) (
  must "networkpolicy" vc (ensureNetworkPolicy vc) (
  _ ← ensureMetricsServiceMonitor vc;
  _ ← ensureBackupCronJob (lib_cronHash L) vc;
  replicationPass vc password sts)))))))).
Definition reconcileReplication (vc : ValkeyCluster) : prog Outcome :=
  mustGet "password secret" vc (ensurePasswordSecret vc) (replicationWorkload vc).

(** ** Sentinel *)
Definition sentinelStatus (vc : ValkeyCluster) (sts sentinelSTS : StatefulSet) (sentinelPending : bool) : prog Outcome :=
  let want := default 0%Z (sts_Replicas sts) in
  let sentinelWant := default 0%Z (sts_Replicas sentinelSTS) in
  let phase := if ((sts_ReadyReplicas sts == want) && (sts_ReadyReplicas sentinelSTS == sentinelWant))%bool
               then PhaseReady else PhaseCreating in
  let st := set_Status_Phase phase (set_Status_ObservedGeneration (vcGeneration vc)
              (set_Status_ReadyReplicas (sts_ReadyReplicas sts) (Status vc))) in
  let msg := "valkey " +:+ Itoa (sts_ReadyReplicas sts) +:+ "/" +:+ Itoa want +:+ ", sentinel " +:+
             Itoa (sts_ReadyReplicas sentinelSTS) +:+ "/" +:+ Itoa sentinelWant in
  st ← stampCondition st ConditionAvailable (condStatus (phase == PhaseReady)) phase msg (vcGeneration vc);
  let vc' := with_status vc (λ _, st) in
  err ← perform (OPatchStatus vc vc');
  mret (returning (if sentinelPending then 30 * second else 60 * second) err vc').
Definition sentinelUpdating (vc : ValkeyCluster) (sts : StatefulSet) : prog Outcome :=
  let st := set_Status_ReadyReplicas (sts_ReadyReplicas sts) (set_Status_ObservedGeneration (vcGeneration vc)
              (set_Status_Phase PhaseUpdating (Status vc))) in
  st ← stampCondition st ConditionAvailable (condStatus false) PhaseUpdating "proactive rolling restart in progress" (vcGeneration vc);
  let vc' := with_status vc (λ _, st) in
  err ← perform (OPatchStatus vc vc');
  mret (match err with Some e => failed (EKube e) vc' | None => requeue (5 * second) vc' end).
(** From the Sentinels' own work on. *)
Definition sentinelPass (vc : ValkeyCluster) (s : SentinelSpec) (password : string) (sts sentinelSTS : StatefulSet)
    (holdSentinels : bool) : prog Outcome :=
  pending ← applySentinelTimings vc s password;
  views ← collectSentinelViews vc password;
  reset ← resetStaleSentinels vc s password views;
  repaired ← repairSentinelDataPods vc s password views;
  let sentinelPending := (pending || holdSentinels || reset || repaired)%bool in
  b ← ensureBackupCronJob (lib_cronHash L) vc;
  match b with
  | Some err => mret (failed (EWrap "backup cronjob" err) vc)
  | None =>
      if (proactiveRolloutEnabled vc && (0 <? sts_ReadyReplicas sts)%Z)%bool then
        r ← driveSentinelRollout vc password;
        match r.2 with
        | Some err => mret (failed (EKube err) vc)
        | None => if r.1 : bool then sentinelUpdating vc sts else sentinelStatus vc sts sentinelSTS sentinelPending
        end
      else sentinelStatus vc sts sentinelSTS sentinelPending
  end.
Definition sentinelWorkload (vc : ValkeyCluster) (s : SentinelSpec) : prog Outcome :=
  mustGet "password secret" vc (ensurePasswordSecret vc) (λ password,
  must "headless service" vc (ensureHeadlessService vc) (
  must "client service" vc (ensureClientService vc) (
  mustGet "configmap" vc (kubeGet (ensureConfigMap (lib_sha256 L) vc password)) (λ configHash,
  mustGet "statefulset" vc (ensureStatefulSet (lib_retrySteps L) (lib_specHash L) vc configHash) (λ sts,
  must "pdb" vc (ensurePDB (lib_retrySteps L) (lib_deepDerivative L) vc) (
  must "sentinel pdb" vc (applyPDB (lib_retrySteps L) (lib_deepDerivative L) vc (buildSentinelPDB vc)) (
  must "networkpolicy" vc (ensureNetworkPolicy vc) (
  _ ← ensureMetricsServiceMonitor vc;
  mustGet "sentinel configmap" vc (kubeGet (ensureSentinelConfigMap (lib_sha256 L) vc s password)) (λ sentinelHash,
  must "sentinel service" vc (ensureSentinelService vc) (
  let holdSentinels := (negb (proactiveRolloutEnabled vc) && statefulSetRolling sts)%bool in
  mustGet "sentinel statefulset" vc (kubeGet (ensureSentinelStatefulSet vc s sentinelHash holdSentinels)) (λ sentinelSTS,
  sentinelPass vc s password sts sentinelSTS holdSentinels))))))))))).
Definition reconcileSentinel (vc : ValkeyCluster) : prog Outcome :=
  match Spec_Sentinel (Spec vc) with
  | Some s => if (Sentinel_Replicas s <? 3)%Z
              then setPhase vc "InvalidSpec" "sentinel.replicas must be >= 3 (recommended odd for quorum)"
              else sentinelWorkload vc s
  | None => setPhase vc "InvalidSpec" "sentinel.replicas must be >= 3 (recommended odd for quorum)"
  end.

(** ** Cluster *)

(** With the password known: the objects, and the number of ready data pods. *)
Definition clusterWorkload (vc : ValkeyCluster) (k : string → Z → prog Outcome) (password : string) : prog Outcome :=
  must "client service" vc (ensureClientService vc) (
  mustGet "configmap" vc (kubeGet (ensureConfigMap (lib_sha256 L) vc password)) (λ configHash,
  let rest ready :=
    must "pdb" vc (ensurePDB (lib_retrySteps L) (lib_deepDerivative L) vc) (
    must "networkpolicy" vc (ensureNetworkPolicy vc) (k password ready)) in
  if perShardEnabled vc then
    mustGet "shard workload" vc (ensureShardWorkload (lib_retrySteps L) (lib_specHash L) vc configHash) rest
  else
    must "headless service" vc (ensureHeadlessService vc) (
    mustGet "statefulset" vc (ensureStatefulSet (lib_retrySteps L) (lib_specHash L) vc configHash) (λ sts,
    rest (sts_ReadyReplicas sts))))).
Definition ensureClusterWorkload (vc : ValkeyCluster) (k : string → Z → prog Outcome) : prog Outcome :=
  mustGet "password secret" vc (ensurePasswordSecret vc) (clusterWorkload vc k).
(** The steps between the workload and the pass proper. *)
Definition clusterThenPass (vc : ValkeyCluster) (password : string) (ready : Z) : prog Outcome :=
  b ← ensureBackupCronJob (lib_cronHash L) vc;
  match b with
  | Some err => mret (failed (EWrap "backup cronjob" err) vc)
  | None => _ ← ensureMetricsServiceMonitor vc; clusterPass vc password ready
  end.
Definition reconcileCluster (vc : ValkeyCluster) : prog Outcome :=
  let invalid := setPhase vc "InvalidSpec" "shards must be set to at least 3 for Cluster topology" in
  match Spec_Shards (Spec vc) with
  | Some shards =>
      if (shards <? 3)%Z then invalid
      else
        ensureClusterWorkload vc (clusterThenPass vc)
  | None => invalid
  end.

(** ** Hibernation and deletion *)
Definition set_sts_Replicas (n : option Z) (s : StatefulSet) : StatefulSet :=
  set_sts_owned n (sts_Template s) (sts_UpdateStrategy s) (sts_Labels s) (sts_Annotations s) s.
Definition hibMsg : string :=
  "cluster is hibernated (scaled to 0); remove the valkey.wellcake.io/hibernate annotation to wake it".
Definition reportHibernated (vc : ValkeyCluster) (ready : Z) : prog Outcome :=
  let st := set_Status_ObservedGeneration (vcGeneration vc) (set_Status_ReadyReplicas ready
              (set_Status_Phase PhaseHibernated (Status vc))) in
  st ← stampCondition st ConditionAvailable ConditionFalse "Hibernated" hibMsg (vcGeneration vc);
  st ← setReadyCondition st false "Hibernated" hibMsg;
  let vc' := with_status vc (λ _, st) in
  err ← perform (OPatchStatus vc vc');
  mret (returning 0 err vc').
Definition reconcileHibernated (vc : ValkeyCluster) : prog Outcome :=
  g ← perform (OGetSts (vcNamespace vc) (statefulSetName vc));
  match g with
  | inr sts =>
      if bool_decide (sts_Replicas sts = Some 0%Z) then reportHibernated vc (sts_ReadyReplicas sts)
      else
        u ← perform (OUpdateSts (set_sts_Replicas (Some 0%Z) sts));
        match u with
        | inl err => mret (failed (EWrap "scaling down for hibernation" (EKube err)) vc)
        | inr sts => reportHibernated vc (sts_ReadyReplicas sts)
        end
  | inl err => if IsNotFound err then reportHibernated vc 0 else mret (failed (EKube err) vc)
  end.

Definition handleDeletion (vc : ValkeyCluster) : prog Outcome :=
  if negb (ContainsFinalizer vc finalizerName) then mret (ok vc)
  else
    _ ← forgetTelemetry vc;
    let vc := RemoveFinalizer vc finalizerName in
    u ← perform (OUpdateCluster vc);
    mret (match u with inl err => failed (EKube err) vc | inr vc => ok vc end).

(** ** The loop *)
Definition dispatch (vc : ValkeyCluster) : prog Outcome :=
  let t := Spec_Topology (Spec vc) in
  if ((t == TopologyStandalone) || (t == TopologyReplication))%bool then reconcileReplication vc
  else if t == TopologySentinel then reconcileSentinel vc
  else if t == TopologyCluster then reconcileCluster vc
  else mret (failed (EMsg ("unknown topology " +:+ Quote t)) vc).
Definition observeThenDispatch (vc : ValkeyCluster) : prog Outcome :=
  pw ← ensurePasswordSecret vc;
  _ ← (match pw with inr pw => collectValkeyTelemetry (lib_mapOrder L) vc pw | inl _ => mret () end);
  _ ← checkZoneColocation vc;
  dispatch vc.
Definition reloadThenRest (vc : ValkeyCluster) : prog Outcome :=
  r ← reconcileTLSReload (lib_pemDecode L) (lib_parseCertificate L) (lib_sha256 L) (lib_retrySteps L) (lib_hasAPIReader L) vc;
  let '(reloaded, after, err) := r in
  match err with
  | Some e => mret (failed e vc)
  | None =>
      if reloaded : bool then mret (requeue second vc)
      else if (0 <? after)%Z then mret (requeue after vc)
      else observeThenDispatch vc
  end.
Definition manage (vc : ValkeyCluster) : prog Outcome :=
  let vc := Default vc in
  if hibernated vc then reconcileHibernated vc
  else
    r ← reconcilePasswordRotation (lib_retrySteps L) (lib_hasAPIReader L) vc;
    match r.2 with
    | Some e => mret (failed e vc)
    | None => if r.1 : bool then mret (requeue second vc) else reloadThenRest vc
    end.
Definition reconcileBody (ns name : string) : prog (Z * option GoErr) :=
  let result (o : Outcome) := (out_Requeue o, out_err o) in
  g ← perform (OGetCluster ns name);
  match g with
  | inl err => mret (0%Z, if IsNotFound err then None else Some (EKube err))
  | inr vc =>
      if Meta_Deleting (Meta vc) then o ← handleDeletion vc; mret (result o)
      else if ContainsFinalizer vc finalizerName then o ← manage vc; mret (result o)
      else
        u ← perform (OUpdateCluster (AddFinalizer vc finalizerName));
        match u with
        | inl err => mret (0%Z, Some (EKube err))
        | inr vc => o ← manage vc; mret (result o)
        end
  end.
Definition Reconcile (ns name : string) : prog (Z * option GoErr) :=
  r ← reconcileBody ns name;
  _ ← recordReconcile "valkeycluster" ns name r.2;
  mret r.
End controller.

(** ** The workload comes first *)

(** An event that reaches no pod: no connection, no command, no deletion, no relabelling. *)
Definition apart (e : Event) : Prop :=
  match ev_op e with
  | OPing _ | OInfo _ _ | ODBSize _ | ODo _ _ | OTLSDial _ _ _ | ODeletePod _ _ | OPatchPod _ _ => False
  | _ => True
  end.

Ltac apart :=
  repeat first
    [ apply spec_ret; exact I
    | match goal with
      | |- spec (perform ?op) _ _ => apply (spec_perform apart op); intros ?; split; exact I
      | |- spec (mbind _ _) _ _ => eapply (spec_bind apart _ _ (λ _, True)); [|intros ? _]
      | |- spec (match ?x with _ => _ end) _ _ => destruct x
      end ].

Lemma apart_password vc : spec (ensurePasswordSecret vc) apart (λ _, True).
Proof. unfold ensurePasswordSecret, generatePassword. cbv zeta. apart. Qed.
Lemma apart_orElse {E} (p k : prog (option E)) : spec p apart (λ _, True) → spec k apart (λ _, True) → spec (orElse p k) apart (λ _, True).
Proof. intros Hp Hk. unfold orElse. eapply spec_bind; [exact Hp|]. intros e _. destruct e; [by apply spec_ret|done]. Qed.
Lemma apart_owner vc name : spec (setOwner vc name) apart (λ _, True).
Proof. unfold setOwner. apart. Qed.
Lemma apart_upsert k ns name d settled merged : spec (upsert k ns name d settled merged) apart (λ _, True).
Proof. unfold upsert, createOr. apart. Qed.
Lemma apart_delete k ns name : spec (deleteIfPresent k ns name) apart (λ _, True).
Proof. unfold deleteIfPresent. apart. Qed.
Lemma apart_service vc svc : spec (ensureService vc svc) apart (λ _, True).
Proof. apply apart_orElse; [apply apart_owner|apply apart_upsert]. Qed.
Lemma apart_kubeGet {A} (p : prog (KubeErr + A)) : spec p apart (λ _, True) → spec (kubeGet p) apart (λ _, True).
Proof. intros Hp. unfold kubeGet. eapply spec_bind; [exact Hp|]. intros r _. by apply spec_ret. Qed.
Lemma apart_configMap sha vc pw : spec (ensureConfigMap sha vc pw) apart (λ _, True).
Proof.
  unfold ensureConfigMap. cbv zeta. eapply spec_bind; [apply apart_orElse; [apply apart_owner|apply apart_upsert]|].
  intros e _. by apply spec_ret.
Qed.
Lemma apart_retry n fn : spec fn apart (λ _, True) → spec (RetryOnConflict n fn) apart (λ _, True).
Proof.
  intros Hf. induction n as [|n IH]; cbn [RetryOnConflict]; [by apply spec_ret|]. eapply spec_bind; [exact Hf|].
  intros e _. destruct e as [[]|]; try done; by apply spec_ret.
Qed.
Lemma apart_retryValue {A} n (fn : prog (KubeErr + A)) : spec fn apart (λ _, True) → spec (RetryOnConflictValue n fn) apart (λ _, True).
Proof.
  intros Hf. induction n as [|n IH]; cbn [RetryOnConflictValue]; [by apply spec_ret|]. eapply spec_bind; [exact Hf|].
  intros e _. destruct e as [[]|]; try done; by apply spec_ret.
Qed.
Lemma apart_sts n hash vc d : spec (applyStatefulSet n hash vc d) apart (λ _, True).
Proof.
  unfold applyStatefulSet. eapply spec_bind; [apply apart_owner|]. intros e _. destruct e; [by apply spec_ret|]. cbv zeta.
  spec_op; [done|]. intros [err|cur]; [destruct (IsNotFound err); apart|]. apply apart_retryValue. unfold reconcileSts. apart.
Qed.
Lemma apart_pvcs vc desired pvcs : spec (expandPVCs vc desired pvcs) apart (λ _, True).
Proof. induction pvcs as [|p pvcs IH]; cbn [expandPVCs]; cbv zeta; apart; done. Qed.
Lemma apart_pvcSize vc : spec (ensurePVCSize vc) apart (λ _, True).
Proof. unfold ensurePVCSize. cbv zeta. apart. apply apart_pvcs. Qed.
Lemma apart_ensureSts n hash vc ch : spec (ensureStatefulSet n hash vc ch) apart (λ _, True).
Proof.
  unfold ensureStatefulSet. eapply spec_bind; [apply apart_sts|]. intros r _. destruct r; [by apply spec_ret|].
  eapply spec_bind; [apply apart_pvcSize|]. intros e _. by apply spec_ret.
Qed.
Lemma apart_eachShard n hash vc ch l ready : spec (ensureShards n hash vc ch ready l) apart (λ _, True).
Proof.
  revert ready; induction l as [|s l IH]; intros ready; cbn [ensureShards]; [by apply spec_ret|].
  eapply spec_bind; [apply apart_service|]. intros e _. destruct e; [by apply spec_ret|].
  eapply spec_bind; [apply apart_sts|]. intros r _. destruct r; [by apply spec_ret|apply IH].
Qed.
Lemma apart_shards n hash vc ch : spec (ensureShardWorkload n hash vc ch) apart (λ _, True).
Proof.
  unfold ensureShardWorkload. eapply spec_bind; [apply apart_eachShard|].
  intros r _. destruct r; [by apply spec_ret|]. eapply spec_bind; [apply apart_pvcSize|]. intros e _. by apply spec_ret.
Qed.
Lemma apart_pdb n dd vc d : spec (applyPDB n dd vc d) apart (λ _, True).
Proof.
  unfold applyPDB. cbv zeta. destruct (negb (pdbEnabled vc)); [apply apart_delete|]. apply apart_orElse; [apply apart_owner|].
  unfold createOr. spec_op; [done|]. intros [err|cur]; [destruct (IsNotFound err); apart|]. apply apart_retry. unfold reconcilePDB. apart.
Qed.
Lemma apart_netpol vc : spec (ensureNetworkPolicy vc) apart (λ _, True).
Proof.
  unfold ensureNetworkPolicy. cbv zeta. destruct (negb _); [apply apart_delete|]. apply apart_orElse; [apply apart_owner|apply apart_upsert].
Qed.
Lemma apart_monitor vc : spec (ensureMetricsServiceMonitor vc) apart (λ _, True).
Proof. unfold ensureMetricsServiceMonitor, setOwner, orElse. cbv zeta. apart. Qed.
Lemma apart_backup hash vc : spec (ensureBackupCronJob hash vc) apart (λ _, True).
Proof.
  assert (∀ p, spec p apart (λ _, True) → spec (kube p) apart (λ _, True)) as Hk.
  { intros p Hp. unfold kube. eapply spec_bind; [exact Hp|]. intros e _. by apply spec_ret. }
  unfold ensureBackupCronJob. cbv zeta. destruct (Spec_Backup (Spec vc)) as [b|]; [|apply Hk, apart_delete].
  destruct (Backup_Enabled b); [|apply Hk, apart_delete]. destruct (Backup_S3 b); [|by apply spec_ret].
  apply Hk, apart_orElse; [apply apart_owner|apply apart_upsert].
Qed.

(** A run that reaches no pod until it enters one of the programs [K], and that otherwise ends
    with the error of the step that failed. *)
Definition staged {X} (names : list string) (K : X → prog Outcome) (p : prog Outcome) : Prop :=
  ∀ tr o, exec p tr o → ∃ t1 t2, tr = t1 ++ t2 ∧ Forall apart t1 ∧
    ((t2 = [] ∧ out_Requeue o = 0%Z ∧ ∃ what err, what ∈ names ∧ out_err o = Some (EWrap what err)) ∨ ∃ x, exec (K x) t2 o).
Section staged.
Context {X : Type} (names : list string) (K : X → prog Outcome).

Lemma staged_enter x : staged names K (K x).
Proof. intros tr o Hx. exists [], tr. split_and!; [done|constructor|]. right. by exists x. Qed.
Lemma staged_bind {A} (p : prog A) (k : A → prog Outcome) : spec p apart (λ _, True) → (∀ a, staged names K (k a)) →
  staged names K (p ≫= k).
Proof.
  intros Hp Hk tr o Hx. apply exec_bind in Hx as (tr1 & tr2 & a & -> & [H1 _]%Hp & Hx).
  destruct (Hk a _ _ Hx) as (t1 & t2 & -> & H2 & H3). exists (tr1 ++ t1), t2. rewrite <-app_assoc.
  split_and!; [done|by apply Forall_app|done].
Qed.
Lemma staged_failed what err vc : what ∈ names → staged names K (mret (failed (EWrap what err) vc)).
Proof. intros Hn tr o [-> <-]%exec_ret. exists [], []. split_and!; [done|constructor|]. left. eauto 10. Qed.
Lemma staged_must what vc p k : what ∈ names → spec p apart (λ _, True) → staged names K k → staged names K (must what vc p k).
Proof. intros Hn Hp Hk. apply staged_bind; [done|]. intros [err|]; [by apply staged_failed|done]. Qed.
Lemma staged_mustGet {A} what vc (p : prog (GoErr + A)) k : what ∈ names → spec p apart (λ _, True) → (∀ x, staged names K (k x)) →
  staged names K (mustGet what vc p k).
Proof. intros Hn Hp Hk. apply staged_bind; [done|]. intros [err|x]; [by apply staged_failed|done]. Qed.
End staged.

Create HintDb apart.
#[export] Hint Resolve apart_password apart_service apart_kubeGet apart_configMap apart_ensureSts apart_pdb apart_netpol
  apart_monitor apart_backup apart_shards : apart.
#[export] Hint Extern 2 (spec _ apart _) => first [apply apart_service | apply apart_pdb] : apart.

(** The steps whose failure ends a pass, in their order. *)
Definition replicationSteps : list string :=
  ["password secret"; "headless service"; "client service"; "primary service"; "replicas service"; "configmap"; "statefulset";
   "pdb"; "networkpolicy"].
Definition sentinelSteps : list string :=
  ["password secret"; "headless service"; "client service"; "configmap"; "statefulset"; "pdb"; "sentinel pdb"; "networkpolicy";
   "sentinel configmap"; "sentinel service"; "sentinel statefulset"].
Definition clusterSteps : list string :=
  ["password secret"; "client service"; "configmap"; "shard workload"; "headless service"; "statefulset"; "pdb"; "networkpolicy";
   "backup cronjob"].

Lemma apart_sentinelConfigMap sha vc s pw : spec (ensureSentinelConfigMap sha vc s pw) apart (λ _, True).
Proof.
  unfold ensureSentinelConfigMap. cbv zeta. eapply spec_bind; [apply apart_orElse; [apply apart_owner|apply apart_upsert]|].
  intros e _. by apply spec_ret.
Qed.
Lemma apart_sentinelService vc : spec (ensureSentinelService vc) apart (λ _, True).
Proof.
  unfold ensureSentinelService, sentinelPodsLabeled. eapply (spec_bind _ _ _ (λ _, True)); [apart|]. intros l _.
  destruct l; [by apply spec_ret|apply apart_service].
Qed.
Lemma apart_sentinelSts vc s h hold : spec (ensureSentinelStatefulSet vc s h hold) apart (λ _, True).
Proof. unfold ensureSentinelStatefulSet, setOwner. cbv zeta. apart. Qed.
#[export] Hint Resolve apart_sentinelConfigMap apart_sentinelService apart_sentinelSts : apart.

(** Walk down a chain of steps. *)
Ltac staged :=
  repeat first
    [ apply staged_must; [by apply (bool_decide_unpack _); vm_compute|by auto with apart|]
    | apply staged_mustGet; [by apply (bool_decide_unpack _); vm_compute|by auto with apart|intros ?] ].

Section stages.
Context `{ConditionLib} (L : Libs).

Lemma replication_staged vc : staged replicationSteps (λ '(pw, sts), replicationPass vc pw sts) (reconcileReplication L vc).
Proof.
  unfold reconcileReplication, replicationWorkload. staged.
  apply staged_bind; [by auto with apart|]. intros _.
  apply staged_bind; [by auto with apart|]. intros _. apply (staged_enter _ (λ '(pw, sts), replicationPass vc pw sts) (_, _)).
Qed.
Lemma sentinel_staged vc s :
  staged sentinelSteps (λ '(pw, sts, ssts, hold), sentinelPass L vc s pw sts ssts hold) (sentinelWorkload L vc s).
Proof.
  unfold sentinelWorkload. staged. apply staged_bind; [by auto with apart|]. intros _. staged.
  cbv zeta. staged. apply (staged_enter _ (λ '(pw, sts, ssts, hold), sentinelPass L vc s pw sts ssts hold) (_, _, _, _)).
Qed.
Lemma cluster_staged vc shards : Spec_Shards (Spec vc) = Some shards → (3 ≤ shards)%Z →
  staged clusterSteps (λ '(pw, ready), clusterPass vc pw ready) (reconcileCluster L vc).
Proof.
  intros E Hs. unfold reconcileCluster. cbv zeta. rewrite E, (proj2 (Z.ltb_ge _ _)) by lia. unfold ensureClusterWorkload, clusterWorkload, clusterThenPass. staged.
  assert (∀ pw ready, staged clusterSteps (λ '(pw, ready), clusterPass vc pw ready)
    (b ← ensureBackupCronJob (lib_cronHash L) vc;
     match b with
     | Some err => mret (failed (EWrap "backup cronjob" err) vc)
     | None => _ ← ensureMetricsServiceMonitor vc; clusterPass vc pw ready
     end)) as Hend.
  { intros pw ready. apply staged_bind; [by auto with apart|]. intros [err|].
    - apply staged_failed. by apply (bool_decide_unpack _); vm_compute.
    - apply staged_bind; [by auto with apart|]. intros _. apply (staged_enter _ (λ '(pw, ready), clusterPass vc pw ready) (_, _)). }
  cbv zeta. destruct (perShardEnabled vc); staged; apply Hend.
Qed.
End stages.

(** ** Errors of a pass *)

(** A spec no pass is run for. *)
Definition invalidSpec (vc : ValkeyCluster) : Prop :=
  (Spec_Topology (Spec vc) = TopologySentinel ∧ ∀ s, Spec_Sentinel (Spec vc) = Some s → (Sentinel_Replicas s < 3)%Z) ∨
  (Spec_Topology (Spec vc) = TopologyCluster ∧ ∀ n, Spec_Shards (Spec vc) = Some n → (n < 3)%Z).
Definition replicationLike (vc : ValkeyCluster) : Prop :=
  Spec_Topology (Spec vc) = TopologyStandalone ∨ Spec_Topology (Spec vc) = TopologyReplication.
#[global] Instance replicationLike_dec vc : Decision (replicationLike vc).
Proof. unfold replicationLike. apply _. Defined.
Definition knownTopology (vc : ValkeyCluster) : Prop :=
  replicationLike vc ∨ Spec_Topology (Spec vc) = TopologySentinel ∨ Spec_Topology (Spec vc) = TopologyCluster.

Section errors.
Context `{ConditionLib} (L : Libs).

(** What the work on the pods is, once the workload is there. *)
Inductive enters (vc : ValkeyCluster) : list Event → Outcome → Prop :=
  | enters_replication pw sts tr o : replicationLike vc →
      exec (replicationPass vc pw sts) tr o → enters vc tr o
  | enters_sentinel s pw sts ssts hold tr o : Spec_Topology (Spec vc) = TopologySentinel → Spec_Sentinel (Spec vc) = Some s →
      (3 ≤ Sentinel_Replicas s)%Z → exec (sentinelPass L vc s pw sts ssts hold) tr o → enters vc tr o
  | enters_cluster n pw ready tr o : Spec_Topology (Spec vc) = TopologyCluster → Spec_Shards (Spec vc) = Some n → (3 ≤ n)%Z →
      exec (clusterPass vc pw ready) tr o → enters vc tr o.

Lemma setPhase_trace vc reason msg tr o : exec (setPhase vc reason msg) tr o →
  ∃ x y vc' err, tr = [Ev ONow x; Ev ONow y; Ev (OPatchStatus vc vc') err] ∧ Status_Phase (Status vc') = PhaseFailed ∧
    o = returning 0 err vc'.
Proof.
  unfold setPhase, setReadyCondition, stampCondition. intros Hx. cbv zeta in Hx.
  apply exec_bind in Hx as (t1 & t2 & st & -> & Hst & Hx).
  apply exec_bind in Hst as (u1 & u2 & x & -> & ->%exec_perform & [-> <-]%exec_ret).
  apply exec_bind in Hx as (t3 & t4 & st' & -> & Hst & Hx).
  apply exec_bind in Hst as (u1 & u2 & y & -> & ->%exec_perform & [-> <-]%exec_ret).
  apply exec_bind in Hx as (t5 & t6 & err & -> & ->%exec_perform & [-> <-]%exec_ret).
  exists x, y. eexists _, err. split_and!; [by rewrite !app_nil_r| |done]. by destruct (Status vc).
Qed.

(** A failed step of some topology, or the topology's own pass. *)
Definition stopsOrEnters (vc : ValkeyCluster) (tr : list Event) (o : Outcome) : Prop :=
  ∃ t1 t2, tr = t1 ++ t2 ∧ Forall apart t1 ∧
    ((t2 = [] ∧ out_Requeue o = 0%Z ∧ ∃ what err, what ∈ replicationSteps ++ sentinelSteps ++ clusterSteps ∧
        out_err o = Some (EWrap what err)) ∨ enters vc t2 o).
Definition marksFailed (vc : ValkeyCluster) (tr : list Event) (o : Outcome) : Prop :=
  ∃ x y vc' err, tr = [Ev ONow x; Ev ONow y; Ev (OPatchStatus vc vc') err] ∧ Status_Phase (Status vc') = PhaseFailed ∧
    o = returning 0 err vc'.
Lemma staged_stops {X} names (K : X → prog Outcome) p vc tr o :
  (∀ what, what ∈ names → what ∈ replicationSteps ++ sentinelSteps ++ clusterSteps) →
  staged names K p → (∀ x t, exec (K x) t o → enters vc t o) → exec p tr o → stopsOrEnters vc tr o.
Proof.
  intros Hn Hp HK Hx. destruct (Hp _ _ Hx) as (t1 & t2 & -> & H1 & [(-> & Hr & what & err & Hw & He)|[x Hk]]);
    [|by exists t1, t2; eauto]. exists t1, []. split_and!; [done..|]. left. eauto 10.
Qed.
Lemma reconcileReplication_stops vc tr o : replicationLike vc → exec (reconcileReplication L vc) tr o → stopsOrEnters vc tr o.
Proof.
  intros Hr. apply (staged_stops _ _ _ _ _ _ (λ what Hw, proj2 (elem_of_app _ _ _) (or_introl Hw)) (replication_staged L vc)).
  intros [pw sts] t. by apply enters_replication.
Qed.
Lemma reconcileSentinel_stops vc tr o : Spec_Topology (Spec vc) = TopologySentinel → exec (reconcileSentinel L vc) tr o →
  (invalidSpec vc ∧ marksFailed vc tr o) ∨ (¬ invalidSpec vc ∧ stopsOrEnters vc tr o).
Proof.
  intros Ht. unfold reconcileSentinel. destruct (Spec_Sentinel (Spec vc)) as [s|] eqn:Es.
  - destruct (Sentinel_Replicas s <? 3)%Z eqn:E3; intros Hx.
    + apply Z.ltb_lt in E3. left. split; [|by apply setPhase_trace in Hx]. left. split; [done|]. intros s' E. by simplify_eq.
    + apply Z.ltb_ge in E3. right. split.
      { intros [[_ Hlt]|[E _]]; [specialize (Hlt s Es); lia|by rewrite Ht in E]. }
      eapply (staged_stops _ _ _ _ _ _ _ (sentinel_staged L vc s)); [|exact Hx].
      intros [[[pw sts] ssts] hold] t. by apply enters_sentinel.
      Unshelve. intros what Hw. apply elem_of_app. right. apply elem_of_app. by left.
  - intros Hx. left. split; [|by apply setPhase_trace in Hx]. left. split; [done|]. intros s E. by simplify_eq.
Qed.
Lemma reconcileCluster_stops vc tr o : Spec_Topology (Spec vc) = TopologyCluster → exec (reconcileCluster L vc) tr o →
  (invalidSpec vc ∧ marksFailed vc tr o) ∨ (¬ invalidSpec vc ∧ stopsOrEnters vc tr o).
Proof.
  intros Ht. destruct (Spec_Shards (Spec vc)) as [n|] eqn:En; [destruct (decide (n < 3)%Z) as [H3|H3]|].
  - unfold reconcileCluster. cbv zeta. rewrite En, (proj2 (Z.ltb_lt _ _)) by done. intros Hx. left.
    split; [|by apply setPhase_trace in Hx]. right. split; [done|]. intros n' E. by simplify_eq.
  - intros Hx. right. split.
    { intros [[E _]|[_ Hlt]]; [by rewrite Ht in E|by specialize (Hlt n En)]. }
    eapply (staged_stops _ _ _ _ _ _ _ (cluster_staged L vc n En ltac:(lia))); [|exact Hx].
    intros [pw ready] t. apply (enters_cluster _ n); [done|done|lia].
    Unshelve. intros what Hw. apply elem_of_app. right. apply elem_of_app. by right.
  - unfold reconcileCluster. rewrite En. intros Hx. left. split; [|by apply setPhase_trace in Hx]. right. split; [done|].
    intros n' E. by simplify_eq.
Qed.

Lemma dispatch_cases vc tr o : exec (dispatch L vc) tr o →
  (¬ knownTopology vc → tr = [] ∧ out_err o = Some (EMsg ("unknown topology " +:+ Quote (Spec_Topology (Spec vc))))) ∧
  (invalidSpec vc → marksFailed vc tr o) ∧
  (knownTopology vc → ¬ invalidSpec vc → stopsOrEnters vc tr o).
Proof.
  unfold dispatch, knownTopology, replicationLike. cbv zeta.
  destruct (decide (replicationLike vc)) as [Hr|Hr]; unfold replicationLike in Hr.
  { assert (((Spec_Topology (Spec vc) == TopologyStandalone) || (Spec_Topology (Spec vc) == TopologyReplication))%bool = true) as ->
      by (apply orb_true_iff; by rewrite !bool_decide_eq_true).
    intros Hx. split_and!; [tauto| |intros _ _; by apply reconcileReplication_stops].
    intros [[E _]|[E _]]; rewrite E in Hr; destruct Hr; discriminate. }
  rewrite !bool_decide_false by tauto. cbn [orb]. case_bool_decide as Hs.
  { intros [[? ?]|[? ?]]%reconcileSentinel_stops; [| |done]; tauto. }
  case_bool_decide as Hc.
  { intros [[? ?]|[? ?]]%reconcileCluster_stops; [| |done]; tauto. }
  intros [-> <-]%exec_ret. split_and!; [done| |tauto]. intros [[? _]|[? _]]; done.
Qed.

End errors.

(** ** What a pass may not do *)
Section limits.
Context `{ConditionLib} (L : Libs).

Lemma apart_updateStatus vc sts primary : spec (updateStatus vc sts primary) apart (λ _, True).
Proof. unfold updateStatus, setReadyCondition, stampCondition. cbv zeta. apart. Qed.

(** A cluster that follows an external primary ([spec.replicateFrom]), or a Standalone one, is
    never failed over: the whole pass dials no pod, sends no command, deletes no pod and moves no
    role label, whatever the API server and the pods answer. *)
Theorem downstream_never_promotes vc tr o : exec (reconcileReplication L vc) tr o →
  Spec_Topology (Spec vc) ≠ TopologyReplication ∨ is_Some (Spec_ReplicateFrom (Spec vc)) → Forall apart tr.
Proof.
  intros Hx Hd. destruct (replication_staged L vc _ _ Hx) as (t1 & t2 & -> & H1 & [(-> & _)|[[pw sts] Hk]]).
  { by rewrite app_nil_r. }
  apply Forall_app. split; [done|]. unfold replicationPass in Hk.
  assert (((Spec_Topology (Spec vc) == TopologyReplication) && (0 <? sts_ReadyReplicas sts)%Z &&
      match Spec_ReplicateFrom (Spec vc) with None => true | Some _ => false end)%bool = false) as E.
  { destruct Hd as [Hd|[rf ->]]; [|apply andb_false_r]. by rewrite bool_decide_false. }
  rewrite E in Hk. unfold reportReplication, ensureRoleLabels in Hk. rewrite bool_decide_true in Hk by done.
  apply exec_bind in Hk as (u1 & u2 & a & -> & [-> <-]%exec_ret & Hk).
  apply exec_bind in Hk as (u3 & u4 & b & -> & [Hu _]%apart_updateStatus & [-> <-]%exec_ret). by rewrite app_nil_r.
Qed.

(** ** Hibernation *)

(** What a hibernated pass may do: read, write back the StatefulSet it read with its size set to 0
    and nothing else changed, and patch the status to Hibernated. *)
Definition sleepEvent (vc : ValkeyCluster) (tr : list Event) (e : Event) : Prop :=
  match ev_op e with
  | OUpdateSts s => ∃ sts, Ev (OGetSts (vcNamespace vc) (statefulSetName vc)) (inr sts) ∈ tr ∧ sts_Replicas sts ≠ Some 0%Z ∧
                           s = set_sts_Replicas (Some 0%Z) sts
  | OPatchStatus base new => base = vc ∧ Status_Phase (Status new) = PhaseHibernated
  | op => reads op = true
  end.
Lemma reportHibernated_exec vc ready tr t o : exec (reportHibernated vc ready) tr o → Forall (sleepEvent vc t) tr.
Proof.
  unfold reportHibernated, setReadyCondition, stampCondition. cbv zeta. intros Hx.
  apply exec_bind in Hx as (t1 & t2 & st & -> & Hst & Hx).
  apply exec_bind in Hst as (u1 & u2 & x & -> & ->%exec_perform & [-> <-]%exec_ret).
  apply exec_bind in Hx as (t3 & t4 & st' & -> & Hst & Hx).
  apply exec_bind in Hst as (u1 & u2 & y & -> & ->%exec_perform & [-> <-]%exec_ret).
  apply exec_bind in Hx as (t5 & t6 & err & -> & ->%exec_perform & [-> <-]%exec_ret).
  rewrite !app_nil_r, !Forall_app, !Forall_singleton. split_and!; [done|done|]. split; [done|]. by destruct vc as [? ? []].
Qed.
Lemma reconcileHibernated_exec vc tr o : exec (reconcileHibernated vc) tr o → Forall (sleepEvent vc tr) tr.
Proof.
  unfold reconcileHibernated. intros Hx. apply exec_bind in Hx as (t1 & t2 & g & -> & ->%exec_perform & Hx).
  apply Forall_app. split; [by repeat constructor|]. destruct g as [err|sts].
  { destruct (IsNotFound err); [by eapply reportHibernated_exec|exec_inv; constructor]. }
  case_bool_decide as Ez; [by eapply reportHibernated_exec|].
  apply exec_bind in Hx as (t3 & t4 & u & -> & ->%exec_perform & Hx). apply Forall_app. split.
  - apply Forall_singleton. exists sts. split_and!; [by left|done|done].
  - destruct u; [exec_inv; constructor|by eapply reportHibernated_exec].
Qed.

(** ** The life of an object *)

(** What is dropped with a cluster: its samples and its series. *)
Definition forgets (vc : ValkeyCluster) (tr : list Event) : Prop :=
  ∃ old a b c, tr = [Ev (OSamples (dropSamples vc)) old; Ev (OMetricDelete "tlsCertExpiryGauge" (gaugeLabels vc)) a;
    Ev (OMetricDelete "threadUtilGauge" (gaugeLabels vc)) b; Ev (OMetricDelete "zoneColocatedGauge" (gaugeLabels vc)) c].
Lemma forgetTelemetry_exec vc tr x : exec (forgetTelemetry vc) tr x → forgets vc tr.
Proof.
  unfold forgetTelemetry. intros Hx. apply exec_bind in Hx as (t1 & t2 & old & -> & ->%exec_perform & Hx).
  apply exec_bind in Hx as (t3 & t4 & a & -> & ->%exec_perform & Hx). apply exec_bind in Hx as (t5 & t6 & b & -> & ->%exec_perform & Hx).
  apply exec_perform in Hx as ->. by exists old, a, b, x.
Qed.
Lemma handleDeletion_exec vc tr o : exec (handleDeletion vc) tr o →
  (ContainsFinalizer vc finalizerName = false ∧ tr = [] ∧ o = ok vc) ∨
  ∃ t u, tr = t ++ [Ev (OUpdateCluster (RemoveFinalizer vc finalizerName)) u] ∧ forgets vc t.
Proof.
  unfold handleDeletion. destruct (ContainsFinalizer vc finalizerName); cbn [negb]; [|intros Hx; exec_inv; by left].
  intros Hx. apply exec_bind in Hx as (t1 & t2 & x & -> & Ht%forgetTelemetry_exec & Hx). cbv zeta in Hx.
  apply exec_bind in Hx as (t3 & t4 & u & -> & ->%exec_perform & [-> <-]%exec_ret). right. exists t1, u. by rewrite app_nil_r.
Qed.

(** Telemetry never interferes: a pass that gets as far as the telemetry does with the cluster
    exactly what the topology's own pass does; before it come only the password Secret's step and
    calls that change neither a pod nor an object of the API server. *)
Theorem telemetry_never_interferes vc tr o : exec (observeThenDispatch L vc) tr o →
  ∃ t0 pw t1 t2, tr = t0 ++ t1 ++ t2 ∧ exec (ensurePasswordSecret vc) t0 pw ∧
    Forall (λ e, reads (ev_op e) = true) t1 ∧ exec (dispatch L vc) t2 o.
Proof.
  unfold observeThenDispatch. intros Hx. apply exec_bind in Hx as (t0 & u1 & pw & -> & Hp & Hx).
  apply exec_bind in Hx as (t1 & u2 & x & -> & Hc & Hx). apply exec_bind in Hx as (t2 & t3 & y & -> & Hz & Hx).
  exists t0, pw, (t1 ++ t2), t3. split; [by rewrite <- app_assoc|]. split; [done|]. split; [|done].
  apply Forall_app. split; [|by apply checkZoneColocation_looks in Hz as [? _]].
  destruct pw as [err|pw]; [by apply exec_ret in Hc as [-> _]|]. by apply collectValkeyTelemetry_looks in Hc as [? _].
Qed.

(** A run of the managing part on the object as the API server stored it. *)
Definition manages (vc : ValkeyCluster) (tr : list Event) (r : Z * option GoErr) : Prop :=
  ∃ o, exec (manage L vc) tr o ∧ r = (out_Requeue o, out_err o).

(** C10: the life of an object.  Every run reads the object, ends by counting itself as a success or
    an error according to what it returns, and in between: an object that is gone needs nothing;
    one that is being deleted has its samples and metric series dropped and loses the operator's
    finalizer (its volumes, Secrets and workload are not touched), and nothing at all happens once
    the finalizer is gone; one without the
    finalizer gets it stored before anything else is written, and when that is refused the run
    ends with that error; and a hibernated one is only read, scaled to 0 with every other field of
    its StatefulSet kept, and reported. *)
Theorem reconcile_lifecycle ns name tr r :
  exec (Reconcile L ns name) tr r →
  ∃ g body m, tr = Ev (OGetCluster ns name) g :: body ++
      [Ev (OMetricInc "reconcileTotal" ["valkeycluster"; ns; name; match r.2 with Some _ => "error" | None => "success" end]) m] ∧
    match g with
    | inl err => body = [] ∧ r = (0%Z, if IsNotFound err then None else Some (EKube err))
    | inr vc =>
        if Meta_Deleting (Meta vc) then
          (ContainsFinalizer vc finalizerName = false ∧ body = [] ∧ r = (0%Z, None)) ∨
          ∃ t u, body = t ++ [Ev (OUpdateCluster (RemoveFinalizer vc finalizerName)) u] ∧ forgets vc t
        else if ContainsFinalizer vc finalizerName then manages vc body r
        else ∃ u rest, body = Ev (OUpdateCluster (AddFinalizer vc finalizerName)) u :: rest ∧
             match u with
             | inl err => rest = [] ∧ r = (0%Z, Some (EKube err))
             | inr stored => manages stored rest r
             end
    end ∧
    (∀ vc t, manages vc t r → hibernated (Default vc) = true → Forall (sleepEvent (Default vc) t) t).
Proof.
  intros Hx. unfold Reconcile, recordReconcile in Hx.
  apply exec_bind in Hx as (t1 & t2 & r' & -> & Hb & Hx). apply exec_bind in Hx as (t3 & t4 & m & -> & ->%exec_perform & [-> ->]%exec_ret).
  unfold reconcileBody in Hb. cbv zeta in Hb. apply exec_bind in Hb as (u1 & body & g & -> & ->%exec_perform & Hb).
  exists g, body, m. split; [by rewrite app_nil_r|]. split.
  2:{ intros vc t (o & Ho & _) Hh. unfold manage in Ho. cbv zeta in Ho. rewrite Hh in Ho. by eapply reconcileHibernated_exec. }
  destruct g as [err|vc]; [apply exec_ret in Hb as [-> <-]; done|].
  destruct (Meta_Deleting (Meta vc)).
  { apply exec_bind in Hb as (v1 & v2 & o & -> & Ho%handleDeletion_exec & [-> <-]%exec_ret). rewrite app_nil_r.
    destruct Ho as [(? & -> & ->)|?]; [by left|by right]. }
  destruct (ContainsFinalizer vc finalizerName).
  { apply exec_bind in Hb as (v1 & v2 & o & -> & Ho & [-> <-]%exec_ret). rewrite app_nil_r. exists o. split; [exact Ho|reflexivity]. }
  apply exec_bind in Hb as (v1 & v2 & u & -> & ->%exec_perform & Hb). exists u, v2. split; [done|]. destruct u as [err|stored].
  { by apply exec_ret in Hb as [-> <-]. }
  apply exec_bind in Hb as (w1 & w2 & o & -> & Ho & [-> <-]%exec_ret). rewrite app_nil_r. exists o. split; [exact Ho|reflexivity].
Qed.
End limits.

(** ** Concrete passes *)
Definition demoLibs : Libs := {|
  lib_sha256 := λ s, s; lib_specHash := λ '(n, _, _, _), Itoa (default 0%Z n); lib_cronHash := λ _, "h";
  lib_deepDerivative := λ _ _, true; lib_pemDecode := demoDecode; lib_parseCertificate := inr; lib_retrySteps := 5;
  lib_hasAPIReader := true; lib_mapOrder := map_to_list |}.
Definition demoCluster (hibernate : bool) (finalizers : list string) : ValkeyCluster :=
  {| Meta := {| Meta_Name := "demo"; Meta_Namespace := "ns"; Meta_UID := ""; Meta_Generation := 1;
                Meta_Annotations := if hibernate then {[hibernateAnnotation := "true"]} else ∅; Meta_Finalizers := finalizers;
                Meta_Deleting := false |};
     Spec := set_Spec_Replicas 3 (set_Spec_Topology TopologyReplication zeroSpec);
     Status := zeroStatus |}.
(** Every call answers its type's default: nothing is found, nothing can be created. *)
Definition emptyAPI (op : Op) (w : ()) : ans op * () := (inhabitant, w).


(** A downstream cluster whose pods are all up. *)
Definition demoDownstream : ValkeyCluster :=
  with_spec (demoCluster false []) (set_Spec_ReplicateFrom (Some {| RF_Host := "src"; RF_Port := 6379; RF_PasswordSecret := None; RF_TLS := false; RF_CASecret := None |})).
Lemma downstream_never_promotes_witness :
  Forall apart (trace (store_handle demoAdmit demoAdmitSts) (reconcileReplication demoLibs demoDownstream) emptyStore).
Proof.
  apply (downstream_never_promotes demoLibs demoDownstream _ _
           (run_exec (store_handle demoAdmit demoAdmitSts) (reconcileReplication demoLibs demoDownstream) emptyStore)).
  right. eexists. reflexivity.
Defined.

(** An API server that holds one object, asleep, with a StatefulSet of three. *)
Definition sleepAPI (op : Op) : () → ans op * () :=
  match op return () → ans op * () with
  | OGetCluster _ _ => λ w, (inr (demoCluster true [finalizerName]), w)
  | OGetSts ns name => λ w, (inr (stsOfStatus name ns 1 (Some 3%Z) 1 3 3 "r" "r"), w)
  | OUpdateSts s => λ w, (inr s, w)
  | _op => λ w, (inhabitant, w)
  end.
Definition demoReconcile : string → string → prog (Z * option GoErr) := Reconcile demoLibs.
Lemma reconcile_lifecycle_witness :
  let tr := trace sleepAPI (demoReconcile "ns" "demo") tt in
  ∃ body m, tr = Ev (OGetCluster "ns" "demo") (inr (demoCluster true [finalizerName])) :: body ++
                 [Ev (OMetricInc "reconcileTotal" ["valkeycluster"; "ns"; "demo"; "success"]) m] ∧
    Forall (sleepEvent (Default (demoCluster true [finalizerName])) body) body.
Proof.
  intros tr. pose proof (run_exec sleepAPI (demoReconcile "ns" "demo") tt) as Hx.
  destruct (reconcile_lifecycle demoLibs "ns" "demo" _ _ Hx)
    as (g & body & m & E & Hg & Hh).
  assert (g = inr (demoCluster true [finalizerName])) as ->.
  { apply (f_equal (λ l, match l with Ev (OGetCluster _ _) x :: _ => x | _ => inl NotFound end)) in E. symmetry. exact E. }
  exists body, m. split; [exact E|]. apply Hh; [exact Hg|reflexivity].
Defined.

(** The comment on [reconcileHibernated] says that removing the annotation wakes the cluster.  It
    does not: hibernation leaves the applied-hash annotation on the StatefulSet it scales to 0, the
    next pass finds the hash of the wanted object there and skips the update. *)
Example hibernated_never_wakes :
  let h := store_handle demoAdmit demoAdmitSts in
  let ensure := ensureStatefulSet 5 (lib_specHash demoLibs) (demoCluster false []) "c" in
  let size w := sts_Replicas <$> st_Sts w !! ("ns", "demo") in
  let w1 := (run h ensure emptyStore).2 in
  let w2 := (run h (reconcileHibernated (demoCluster true [])) w1).2 in
  let w3 := (run h ensure w2).2 in
  (size w1, size w2, size w3) = (Some (Some 3%Z), Some (Some 0%Z), Some (Some 0%Z)).
Proof. vm_compute. reflexivity. Qed.

(** Hibernation scales one StatefulSet, the one named after the cluster: a Sentinel cluster keeps
    its Sentinels running, and a Cluster with a StatefulSet per shard keeps all of its pods. *)
Example hibernation_spares_sentinels :
  let h := store_handle demoAdmit demoAdmitSts in
  let w1 := (run h (ensureSentinelStatefulSet demoBudget (demoSentinelSpec 0) "" false) emptyStore).2 in
  let w2 := (run h (reconcileHibernated demoBudget) w1).2 in
  (sts_Replicas <$> st_Sts w2 !! ("ns", sentinelStatefulSetName demoBudget)) = Some (Some 3%Z).
Proof. vm_compute. reflexivity. Qed.
Example hibernation_spares_shards :
  let h := store_handle demoAdmit demoAdmitSts in
  let w1 := (run h (ensureShardWorkload 5 (lib_specHash demoLibs) demoSharded "c") emptyStore).2 in
  let w2 := (run h (reconcileHibernated demoSharded) w1).2 in
  (sts_Replicas <$> st_Sts w2 !! (vcNamespace demoSharded, shardStsName demoSharded 0)) = Some (Some (1 + replicasPerShardOf demoSharded)%Z).
Proof. vm_compute. reflexivity. Qed.

(** The type's documentation says the Ready condition is True exactly when the phase is Ready.  The
    Sentinel pass never writes that condition: a fully ready Sentinel cluster has none, and one
    that was hibernated or had an invalid spec keeps the False it got then. *)
Example sentinel_has_no_ready_condition :
  let full name n := stsOfStatus name "ns" 1 (Some n) 1 n n "r" "r" in
  let status vc := Status (out_vc (run emptyAPI (sentinelStatus vc (full "demo" 3%Z) (full "demo-sentinel" 3%Z) false) tt).1) in
  let asleep := out_vc (run emptyAPI (reportHibernated demoBudget 0) tt).1 in
  Status_Phase (status demoBudget) = PhaseReady ∧ findCondition ConditionReady (Status_Conditions (status demoBudget)) = None ∧
  Status_Phase (status asleep) = PhaseReady ∧
  (cond_Status <$> findCondition ConditionReady (Status_Conditions (status asleep))) = Some ConditionFalse.
Proof. vm_compute. auto. Qed.
