(* ===== verification/Settle.v ===== *)
(** * Settle: the whole workload of a pass converges and is then left alone

    Ensure shows of each step that it brings its object into shape and then only reads.  Here the steps
    are composed, as reconcileReplication and reconcileCluster compose them: a step writes to one [slot] of the API
    server's store and its goal depends on that slot only, so steps on different slots do not undo
    each other.  [leads] is the composed statement for a program that ends in another one. *)

From S2P Require Import Prelude GoStd Kube Api Effects Naming Failover Rollout Status Scaling Rotation Config Workload Ensure Backup Controller.

(** ** Slots of the store *)
Inductive slot := SObj (k : Kind) (key : Key) | SSts (key : Key) | SPVCs.
Definition agrees (s : slot) (w w' : Store) : Prop :=
  match s with
  | SObj k key => objects k w !! key = objects k w' !! key
  | SSts key => st_Sts w !! key = st_Sts w' !! key
  | SPVCs => st_PVCs w = st_PVCs w'
  end.
Definition pvcKey (p : PersistentVolumeClaim) : Key := (pvc_Namespace p, pvc_Name p).
(** What every API server guarantees: an object is stored under its own name, and no two volumes share one. *)
Record wellKeyed (w : Store) : Prop := {
  wk_objects : ∀ k, keyed k w;
  wk_sts : stsKeyed w;
  wk_pvcs : NoDup (pvcKey <$> st_PVCs w)
}.

Lemma agrees_refl s w : agrees s w w.
Proof. by destruct s. Qed.
Lemma agrees_sym s w w' : agrees s w w' → agrees s w' w.
Proof. destruct s; by intros H. Qed.
Lemma agrees_trans s w w' w'' : agrees s w w' → agrees s w' w'' → agrees s w w''.
Proof. destruct s; cbn; congruence. Qed.
Lemma objects_with_ne k k' w x : k' ≠ k → objects k' (with_objects k w x) = objects k' w.
Proof. intros H. destruct k, k'; try done; by destruct w. Qed.
Lemma with_objects_rest k w x : st_Sts (with_objects k w x) = st_Sts w ∧ st_PVCs (with_objects k w x) = st_PVCs w.
Proof. by destruct k, w. Qed.
#[global] Instance kind_eq_dec : EqDecision Kind.
Proof. solve_decision. Defined.

(** Only the slot of [key] changes when the objects of a kind change at [key] alone. *)
Lemma agrees_objects k key w x s : (∀ key', key' ≠ key → x !! key' = objects k w !! key') → s ≠ SObj k key → agrees s w (with_objects k w x).
Proof.
  intros Hx Hs. destruct (with_objects_rest k w x) as [E1 E2]. destruct s as [k' key'|key'|]; cbn.
  - destruct (decide (k' = k)) as [->|Hk]; [|by rewrite objects_with_ne]. rewrite objects_with. symmetry. apply Hx. by intros ->.
  - by rewrite E1.
  - by rewrite E2.
Qed.
Lemma wellKeyed_objects k w x : wellKeyed w → (∀ key o, x !! key = Some o → keyOf k o = key) → wellKeyed (with_objects k w x).
Proof.
  intros [H1 H2 H3] Hx. destruct (with_objects_rest k w x) as [E1 E2]. split.
  - intros k'. unfold keyed. destruct (decide (k' = k)) as [->|Hk]; [by rewrite objects_with|rewrite objects_with_ne by done; apply H1].
  - unfold stsKeyed. by rewrite E1.
  - by rewrite E2.
Qed.
Lemma wellKeyed_put k key o w : wellKeyed w → keyOf k o = key → wellKeyed (put k key o w).
Proof.
  intros Hw Ho. apply wellKeyed_objects; [done|]. intros key' o' E. destruct (decide (key' = key)) as [->|Hne].
  - rewrite lookup_insert_eq in E. by simplify_eq.
  - rewrite lookup_insert_ne in E by done. by apply (wk_objects _ Hw).
Qed.
Lemma wellKeyed_delete k key w : wellKeyed w → wellKeyed (with_objects k w (delete key (objects k w))).
Proof. intros Hw. apply wellKeyed_objects; [done|]. intros key' o' [_ E]%lookup_delete_Some. by apply (wk_objects _ Hw). Qed.

Section settle.
Context (admitObj : ∀ k, obj k → obj k) (admitSts : StatefulSet → StatefulSet).
Let h := store_handle admitObj admitSts.
Abbreviation onlyReads := (onlyReads admitObj admitSts).

(** ** Steps *)

(** [p] answers [a], brings [s] into a [good] state, and leaves the store alone once it is. *)
Record step {A} (p : prog A) (s : slot) (good : Store → Prop) (a : A) : Prop := {
  step_local : ∀ w w', agrees s w w' → good w → good w';
  step_runs : ∀ w, wellKeyed w → ∃ w', run h p w = (a, w') ∧ (∀ s', s' ≠ s → agrees s' w w') ∧ wellKeyed w' ∧ good w';
  step_quiet : ∀ w, good w → run h p w = (a, w) ∧ onlyReads p w
}.

Lemma step_bind_ret {A B} (p : prog A) s good a (f : A → B) : step p s good a → step (x ← p; mret (f x)) s good (f a).
Proof.
  intros [H1 H2 H3]. split; [done|..].
  - intros w Hw. destruct (H2 w Hw) as (w' & E & H). exists w'. by rewrite run_bind, E.
  - intros w Hg. destruct (H3 w Hg) as [E Ho]. rewrite run_bind, E. split; [done|].
    eapply onlyReads_bind; [exact Ho|exact E|apply onlyReads_ret].
Qed.
Lemma step_owned vc name p s good a : step p s good a → step (orElse (setOwner vc name) p) s good a.
Proof.
  intros [H1 H2 H3]. split; [done|..]; intros w Hw; unfold h in *; rewrite run_owned; [by apply H2|].
  destruct (H3 w Hw). split; [done|by apply onlyReads_owned].
Qed.
(** Get, create what is absent, and go on with [found], which leaves a settled object alone and writes
    [merged] otherwise. *)
Lemma createOr_step k ns name desired settled merged found :
  keyOf k (admitObj k desired) = (ns, name) → keyOf k desired = (ns, name) →
  (∀ o, keyOf k o = (ns, name) → keyOf k (admitObj k (merged o)) = (ns, name)) →
  settled (admitObj k desired) = true → (∀ o, settled (admitObj k (merged o)) = true) →
  (∀ w o, objects k w !! (ns, name) = Some o → settled o = true → run h (found o) w = (None, w) ∧ onlyReads (found o) w) →
  (∀ w o, objects k w !! (ns, name) = Some o → keyOf k o = (ns, name) → settled o = false →
          run h (found o) w = (None, put k (ns, name) (admitObj k (merged o)) w)) →
  step (createOr k ns name desired found) (SObj k (ns, name)) (λ w, ∃ x, objects k w !! (ns, name) = Some x ∧ settled x = true) None.
Proof.
  intros Ka Kd Km Sd Sm Hskip Hwrite.
  assert (∀ w x, wellKeyed w → keyOf k x = (ns, name) → settled x = true → let w' := put k (ns, name) x w in
    (∀ s', s' ≠ SObj k (ns, name) → agrees s' w w') ∧ wellKeyed w' ∧ ∃ y, objects k w' !! (ns, name) = Some y ∧ settled y = true) as Hput.
  { intros w x Hw Hk Hs. cbv zeta. split_and!; [|by apply wellKeyed_put|exists x; by rewrite objects_put].
    intros s'. apply agrees_objects. intros key' Hne. by rewrite lookup_insert_ne. }
  split.
  - intros w w' E (x & Hx & Hs). exists x. cbn in E. by rewrite <- E.
  - intros w Hw. unfold createOr. rewrite run_bind. unfold h. rewrite (run_get _ _ k ns name). fold h.
    destruct (objects k w !! (ns, name)) as [o|] eqn:E.
    + destruct (settled o) eqn:Eo.
      * exists w. rewrite (proj1 (Hskip w o E Eo)). split_and!; [done|intros; apply agrees_refl|done|eauto].
      * assert (keyOf k o = (ns, name)) as Ko by apply (wk_objects _ Hw _ _ _ E). exists (put k (ns, name) (admitObj k (merged o)) w). split; [by apply Hwrite|].
        apply Hput; [done|by apply Km|apply Sm].
    + exists (put k (ns, name) (admitObj k desired) w). cbn [IsNotFound]. rewrite (run_perform _ (OCreate k desired)). unfold h. cbn [store_handle].
      rewrite Kd, E. split; [done|]. by apply Hput.
  - intros w (o & E & Ho). destruct (Hskip w o E Ho) as [Hr Hro]. split.
    + unfold createOr. rewrite run_bind. unfold h. rewrite (run_get _ _ k ns name), E. exact Hr.
    + eapply onlyReads_bind; [apply onlyReads_get|apply run_get|]. by rewrite E.
Qed.
Lemma upsert_step k ns name desired settled merged : (∀ o, keyOf k (admitObj k o) = keyOf k o) →
  keyOf k desired = (ns, name) → (∀ o, keyOf k o = (ns, name) → keyOf k (merged o) = (ns, name)) →
  settled (admitObj k desired) = true → (∀ o, settled (admitObj k (merged o)) = true) →
  step (upsert k ns name desired settled merged) (SObj k (ns, name)) (λ w, ∃ x, objects k w !! (ns, name) = Some x ∧ settled x = true) None.
Proof.
  intros Ha Hd Hm H3 H4. apply (createOr_step _ _ _ _ _ merged); [by rewrite Ha|done|intros o Ho; rewrite Ha; by apply Hm|done|done|..].
  - intros w o _ ->. split; [done|apply onlyReads_ret].
  - intros w o E Hk ->. by eapply run_update; [|apply Hm].
Qed.
Lemma delete_step k ns name : step (deleteIfPresent k ns name) (SObj k (ns, name)) (λ w, objects k w !! (ns, name) = None) None.
Proof.
  split.
  - intros w w' E H. cbn in E. by rewrite <- E.
  - intros w Hw. unfold deleteIfPresent. rewrite run_bind. unfold h. rewrite (run_get _ _ k ns name). destruct (objects k w !! (ns, name)) eqn:E.
    + exists (with_objects k w (delete (ns, name) (objects k w))). rewrite (run_perform _ (ODelete k ns name)). split_and!; [done|..].
      * intros s'. apply agrees_objects. intros key' Hne. by rewrite lookup_delete_ne.
      * by apply wellKeyed_delete.
      * by rewrite objects_with, lookup_delete_eq.
    + exists w. split_and!; [done|intros; apply agrees_refl|done|done].
  - intros w E. split.
    + unfold deleteIfPresent. rewrite run_bind. unfold h. by rewrite (run_get _ _ k ns name), E.
    + eapply onlyReads_bind; [apply onlyReads_get|apply run_get|]. rewrite E. apply onlyReads_ret.
Qed.

Context {Hadm : Admission admitObj}.

Lemma service_step vc svc : step (ensureService vc svc) (SObj KService (svc_Namespace svc, svc_Name svc))
  (λ w, ∃ x, objects KService w !! (svc_Namespace svc, svc_Name svc) = Some x ∧ serviceSettled svc x = true) None.
Proof.
  apply step_owned, upsert_step; [exact (admit_key admitObj _)|done|done|..].
  - unfold serviceSettled. destruct (admit_service admitObj svc) as (-> & -> & ->). by rewrite !bool_decide_true, labelsContained_refl by done.
  - intros o. unfold serviceSettled. destruct (admit_service admitObj (serviceMerged svc o)) as (-> & -> & ->). by rewrite !bool_decide_true, labelsContained_refl by done.
Qed.
Definition netpolGood (vc : ValkeyCluster) (w : Store) : Prop :=
  let o := objects KNetPol w !! (vcNamespace vc, vcName vc +:+ "-allow") in
  if networkPolicyEnabled vc then ∃ x, o = Some x ∧ netpolSettled (buildNetworkPolicy vc) x = true else o = None.
Lemma netpol_step vc : step (ensureNetworkPolicy vc) (SObj KNetPol (vcNamespace vc, vcName vc +:+ "-allow")) (netpolGood vc) None.
Proof.
  unfold ensureNetworkPolicy, netpolGood. destruct (networkPolicyEnabled vc); cbn [negb]; [|apply delete_step].
  apply step_owned, upsert_step; [exact (admit_key admitObj _)|done|done|..].
  - unfold netpolSettled. destruct (admit_netpol admitObj (buildNetworkPolicy vc)) as (-> & ->). by rewrite bool_decide_true, labelsContained_refl by done.
  - intros o. unfold netpolSettled. destruct (admit_netpol admitObj (netpolMerged (buildNetworkPolicy vc) o)) as (-> & ->). by rewrite bool_decide_true, labelsContained_refl by done.
Qed.
Definition configMapGood (vc : ValkeyCluster) (password : string) (w : Store) : Prop :=
  ∃ x, objects KConfigMap w !! (vcNamespace vc, configMapName vc) = Some x ∧ cmSettled (buildConfigMap vc password) x = true.
Lemma configMap_step sha256 vc password :
  step (kubeGet (ensureConfigMap sha256 vc password)) (SObj KConfigMap (vcNamespace vc, configMapName vc)) (configMapGood vc password)
    (inr (configHashFromData sha256 (cm_Data (buildConfigMap vc password)))).
Proof.
  set (hash := configHashFromData _ _).
  apply (step_bind_ret _ _ _ (inr hash : KubeErr + string) (λ r : KubeErr + string, match r with inl err => inl (EKube err) | inr x => inr x end)).
  apply (step_bind_ret _ _ _ None (λ e : option KubeErr, match e with Some err => inl err | None => inr hash end)).
  apply step_owned, upsert_step; [exact (admit_key admitObj _)|done|done|..].
  - unfold cmSettled. destruct (admit_configMap admitObj (buildConfigMap vc password)) as (-> & ->). by rewrite bool_decide_true, labelsContained_refl by done.
  - intros o. unfold cmSettled. destruct (admit_configMap admitObj (cmMerged (buildConfigMap vc password) o)) as (-> & ->). by rewrite bool_decide_true, labelsContained_refl by done.
Qed.

Context (L : Libs).
Context (Hsteps : 0 < lib_retrySteps L).
Context (Hderive : ∀ p, lib_deepDerivative L (pdb_Spec p) (pdb_Spec (admitObj KPDB p)) = true).

Definition pdbGood (vc : ValkeyCluster) (w : Store) : Prop :=
  let d := buildPDB vc in
  let o := objects KPDB w !! (pdb_Namespace d, pdb_Name d) in
  if pdbEnabled vc then ∃ x, o = Some x ∧ resourceSettled (lib_deepDerivative L) d x = true else o = None.
Lemma pdb_step vc : step (ensurePDB (lib_retrySteps L) (lib_deepDerivative L) vc) (SObj KPDB (pdb_Namespace (buildPDB vc), pdb_Name (buildPDB vc))) (pdbGood vc) None.
Proof.
  unfold ensurePDB, applyPDB, pdbGood. set (d := buildPDB vc). destruct (pdbEnabled vc); cbn [negb]; [|apply delete_step].
  destruct (lib_retrySteps L) as [|n]; [lia|]. apply step_owned, (createOr_step KPDB _ _ d (resourceSettled (lib_deepDerivative L) d) (pdbMerged d));
    [by rewrite (admit_key admitObj)|done|intros o Ho; by rewrite (admit_key admitObj)|by apply settled_own|intros o; by apply settled_own|..].
  - intros w o E Ho. assert (run h (reconcilePDB (lib_deepDerivative L) d) w = (None, w)) as Er
      by (unfold reconcilePDB, h; by rewrite run_bind, (run_get _ _ KPDB (pdb_Namespace d) (pdb_Name d)), E, Ho).
    split; [by apply run_retry|]. eapply onlyReads_bind; [|exact Er|apply onlyReads_ret].
    eapply onlyReads_bind; [apply (onlyReads_get _ _ KPDB)|apply (run_get _ _ KPDB)|]. rewrite E, Ho. apply onlyReads_ret.
  - intros w o E Hk Ho. apply run_retry; [|done]. unfold reconcilePDB, h. rewrite run_bind, (run_get _ _ KPDB (pdb_Namespace d) (pdb_Name d)), E, Ho.
    by eapply run_update.
Qed.

(** ** The backup CronJob *)
Context (Hann : ∀ c, cj_Annotations (admitObj KCronJob c) = cj_Annotations c).
Definition cronGood (vc : ValkeyCluster) (w : Store) : Prop :=
  let name := vcName vc +:+ "-backup" in
  let o := objects KCronJob w !! (vcNamespace vc, name) in
  match Spec_Backup (Spec vc) with
  | Some b => if Backup_Enabled b
      then ∀ s3, Backup_S3 b = Some s3 → ∃ c, o = Some c ∧ cronSettled (cronHashOf (lib_cronHash L) (buildBackupCronJob vc b s3 name)) c = true
      else o = None
  | None => o = None
  end.
Lemma cron_step vc : (∀ b, Spec_Backup (Spec vc) = Some b → Backup_Enabled b = true → is_Some (Backup_S3 b)) →
  step (ensureBackupCronJob (lib_cronHash L) vc) (SObj KCronJob (vcNamespace vc, vcName vc +:+ "-backup")) (cronGood vc) None.
Proof.
  intros Hs. unfold ensureBackupCronJob, cronGood. cbv zeta.
  destruct (Spec_Backup (Spec vc)) as [b|]; [|apply (step_bind_ret _ _ _ None (option_map EKube)), delete_step].
  destruct (Backup_Enabled b) eqn:Eb; [|apply (step_bind_ret _ _ _ None (option_map EKube)), delete_step].
  destruct (Hs b eq_refl Eb) as [s3 Es]. rewrite Es. set (d := buildBackupCronJob _ _ _ _).
  assert (step (orElse (setOwner vc (vcName vc +:+ "-backup")) (upsert KCronJob (vcNamespace vc) (vcName vc +:+ "-backup") (stampedCron (lib_cronHash L) d)
      (cronSettled (cronHashOf (lib_cronHash L) d)) (cronMerged d (cronHashOf (lib_cronHash L) d)))) (SObj KCronJob (vcNamespace vc, vcName vc +:+ "-backup"))
    (λ w, ∃ c, objects KCronJob w !! (vcNamespace vc, vcName vc +:+ "-backup") = Some c ∧ cronSettled (cronHashOf (lib_cronHash L) d) c = true) None) as H.
  { apply step_owned, upsert_step; [exact (admit_key admitObj _)|done|done|..].
    - unfold cronSettled. rewrite Hann. cbn. unfold map_get. by rewrite lookup_insert_eq, bool_decide_true.
    - intros o. unfold cronSettled. rewrite Hann. cbn. unfold map_get. by rewrite lookup_insert_eq, bool_decide_true. }
  apply (step_bind_ret _ _ _ None (option_map EKube)). destruct H as [H1 H2 H3]. split.
  - intros w w' E Hg s3' [= <-]. by apply (H1 w w' E), Hg.
  - intros w Hw. destruct (H2 w Hw) as (w' & E & Hf & Hk & Hg). exists w'. split_and!; [done..|]. by intros s3' [= <-].
  - intros w Hg. by apply H3, Hg.
Qed.

(** ** Volumes *)
Section volumes.
Context (vc : ValkeyCluster) (desired : Z).
Definition listed (p : PersistentVolumeClaim) : bool :=
  ((pvc_Namespace p == vcNamespace vc) && bool_decide ({[instanceLabel := vcName vc]} ⊆ pvc_Labels p))%bool.
Definition large (p : PersistentVolumeClaim) : bool := (isSentinelPVC vc p || (desired <=? storageRequest p)%Z)%bool.
Definition grow (p : PersistentVolumeClaim) : PersistentVolumeClaim :=
  if large p then p else set_pvc_Requests (<[ResourceStorage := desired]> (pvc_Requests p)) p.
Definition growIn (l : list PersistentVolumeClaim) (p : PersistentVolumeClaim) : PersistentVolumeClaim :=
  if bool_decide (pvcKey p ∈ pvcKey <$> l) then grow p else p.

Lemma expandPVCs_cons p l : expandPVCs vc desired (p :: l) = if large p then expandPVCs vc desired l else
  e ← perform (OPatchPVC p (grow p)); match e with Some err => mret (Some (EWrap ("expand pvc " +:+ pvc_Name p) (EKube err))) | None => expandPVCs vc desired l end.
Proof. cbn [expandPVCs]. unfold grow, large, isSentinelPVC. destruct (has_prefix _ _); [done|]. cbn [orb]. by destruct (_ <=? _)%Z. Qed.
Lemma expandPVCs_quiet l : forallb large l = true → expandPVCs vc desired l = mret None.
Proof. induction l as [|p l IH]; [done|]. rewrite expandPVCs_cons. cbn [forallb]. destruct (large p); [exact IH|done]. Qed.
Lemma pvcKey_grow p : pvcKey (grow p) = pvcKey p.
Proof. unfold grow. by destruct (large p). Qed.
Lemma samePVC_key p q : samePVC p q = bool_decide (pvcKey p = pvcKey q).
Proof.
  unfold samePVC, pvcKey. repeat case_bool_decide; try done; try congruence.
  all: exfalso; naive_solver.
Qed.
Lemma key_inj (all : list PersistentVolumeClaim) p q : NoDup (pvcKey <$> all) → p ∈ all → q ∈ all → pvcKey p = pvcKey q → p = q.
Proof.
  intros Hn Hp Hq E. apply list_elem_of_lookup in Hp as [i Hi], Hq as [j Hj]. assert (i = j) as ->; [|by simplify_eq].
  eapply (NoDup_lookup _ _ _ (pvcKey p) Hn); rewrite list_lookup_fmap; [by rewrite Hi|by rewrite Hj, E].
Qed.
Lemma growIn_cons p l q : pvcKey q ≠ pvcKey p → growIn (p :: l) q = growIn l q.
Proof.
  intros E. unfold growIn. rewrite fmap_cons, (bool_decide_ext (pvcKey q ∈ pvcKey p :: (pvcKey <$> l)) (pvcKey q ∈ pvcKey <$> l)); [done|].
  rewrite elem_of_cons. tauto.
Qed.
Lemma growIn_here p l q : q ∈ l → pvcKey q = pvcKey p → growIn l p = grow p.
Proof. intros Hq E. unfold growIn. rewrite bool_decide_true; [done|]. rewrite <- E. by apply list_elem_of_fmap_2. Qed.
Lemma growIn_absent l p : (pvcKey p ∉ pvcKey <$> l) → growIn l p = p.
Proof. intros E. unfold growIn. by rewrite bool_decide_false. Qed.
Lemma pvcKey_growIn l p : pvcKey (growIn l p) = pvcKey p.
Proof. unfold growIn. case_bool_decide; [apply pvcKey_grow|done]. Qed.
Lemma expandPVCs_run l w : NoDup (pvcKey <$> st_PVCs w) → NoDup (pvcKey <$> l) → (∀ p, p ∈ l → p ∈ st_PVCs w) →
  run h (expandPVCs vc desired l) w = (None, with_pvcs (growIn l <$> st_PVCs w) w).
Proof.
  revert w; induction l as [|p l IH]; intros w Hn Hl Hin.
  { assert (growIn [] <$> st_PVCs w = st_PVCs w) as E.
    { rewrite <- (list_fmap_id (st_PVCs w)) at 2. apply list_fmap_ext. intros i q _. apply growIn_absent, not_elem_of_nil. }
    rewrite E. by destruct w. }
  rewrite fmap_cons in Hl. apply NoDup_cons in Hl as [Hp Hl]. rewrite expandPVCs_cons.
  assert (p ∈ st_PVCs w) as Hpw by (apply Hin; left). destruct (large p) eqn:Elarge.
  - rewrite IH; [|done|done|intros q Hq; apply Hin; by right]. f_equal. f_equal. apply list_fmap_ext. intros i q Hq%list_elem_of_lookup_2.
    destruct (decide (pvcKey q = pvcKey p)) as [E|E]; [|by rewrite growIn_cons].
    assert (q = p) as -> by (by apply (key_inj (st_PVCs w))). rewrite growIn_absent by done. rewrite (growIn_here p _ p); [|by left|done]. unfold grow. by rewrite Elarge.
  - rewrite run_bind, (run_perform _ (OPatchPVC p (grow p))). unfold h. cbn [store_handle]. fold h.
    set (w1 := with_pvcs _ w). assert (∀ q, pvcKey (if samePVC p q then grow p else q) = pvcKey q) as Hk.
    { intros q. rewrite samePVC_key. case_bool_decide as E; [by rewrite pvcKey_grow|done]. }
    rewrite IH.
    + change (with_pvcs (growIn l <$> st_PVCs w1) w1) with (with_pvcs (growIn l <$> st_PVCs w1) w). unfold w1. cbn [st_PVCs with_pvcs].
      rewrite <- list_fmap_compose. f_equal. f_equal. apply list_fmap_ext. intros i q Hq%list_elem_of_lookup_2. unfold compose. rewrite samePVC_key.
      case_bool_decide as E; [|by rewrite growIn_cons by congruence].
      assert (q = p) as -> by (by apply (key_inj (st_PVCs w))). rewrite growIn_absent by (by rewrite pvcKey_grow). rewrite (growIn_here p _ p); [done|by left|done].
    + unfold w1. cbn. rewrite <- list_fmap_compose. by rewrite (list_fmap_ext _ pvcKey) by (intros; apply Hk).
    + done.
    + intros q Hq. unfold w1. cbn. apply list_elem_of_fmap. exists q. split; [|apply Hin; by right]. rewrite samePVC_key, bool_decide_false; [done|].
      intros E. apply Hp. rewrite E. by apply list_elem_of_fmap_2.
Qed.
End volumes.

Lemma NoDup_keys_filter (P : PersistentVolumeClaim → bool) l : NoDup (pvcKey <$> l) → NoDup (pvcKey <$> filter (λ p, P p) l).
Proof.
  induction l as [|p l IH]; [done|]. rewrite fmap_cons. intros [Hp Hl]%NoDup_cons. rewrite filter_cons. case_decide; [|by apply IH].
  rewrite fmap_cons. apply NoDup_cons. split; [|by apply IH]. intros (q & E & [_ Hq]%list_elem_of_filter)%list_elem_of_fmap.
  apply Hp. rewrite E. by apply list_elem_of_fmap_2.
Qed.
Definition volumesGood (vc : ValkeyCluster) (w : Store) : Prop :=
  let desired := storageRequest (buildDataPVC vc) in
  usesMemoryStorage vc = true ∨ desired = 0%Z ∨ ∀ p, p ∈ st_PVCs w → listed vc p = true → large vc desired p = true.
Lemma grow_large vc desired p : large vc desired (grow vc desired p) = true.
Proof.
  unfold grow. destruct (large vc desired p) eqn:E; [done|]. unfold large. apply orb_true_iff. right. apply Z.leb_le.
  unfold storageRequest. cbn. by rewrite lookup_insert_eq.
Qed.
Lemma listed_growIn vc desired l p : listed vc (growIn vc desired l p) = listed vc p.
Proof. unfold growIn, grow. case_bool_decide; [|done]. by destruct (large vc desired p). Qed.
Lemma volumes_step vc : step (ensurePVCSize vc) SPVCs (volumesGood vc) None.
Proof.
  split.
  - intros w w' E. unfold volumesGood. cbn in E. by rewrite E.
  - intros w Hw. unfold ensurePVCSize, volumesGood. destruct (usesMemoryStorage vc).
    { exists w. split_and!; [done|intros; apply agrees_refl|done|by left]. }
    set (desired := storageRequest _). case_bool_decide as Ed.
    { exists w. split_and!; [done|intros; apply agrees_refl|done|by right; left]. }
    rewrite run_bind, (run_perform _ (OListPVCs _ _)). unfold h. cbn [store_handle]. fold h.
    change (filter _ (st_PVCs w)) with (filter (λ p, listed vc p) (st_PVCs w)). set (l := filter _ _).
    assert (∀ p, p ∈ l ↔ listed vc p = true ∧ p ∈ st_PVCs w) as Hl by (intros p; unfold l; by rewrite list_elem_of_filter, Is_true_true).
    exists (with_pvcs (growIn vc desired l <$> st_PVCs w) w). split_and!.
    + apply expandPVCs_run; [by apply (wk_pvcs _ Hw)|by apply NoDup_keys_filter, (wk_pvcs _ Hw)|]. intros p Hp. by apply Hl.
    + intros [k key|key|] Hs; cbn; [by destruct k|done|done].
    + destruct Hw as [H1 H2 H3]. split; [intros k; specialize (H1 k); by destruct k|done|]. cbn.
      rewrite <- list_fmap_compose. by rewrite (list_fmap_ext _ pvcKey) by (intros; apply pvcKey_growIn).
    + right. right. cbn. intros p (q & -> & Hq)%list_elem_of_fmap. rewrite listed_growIn. intros Hlq.
      rewrite (growIn_here _ _ q l q); [apply grow_large|by apply Hl|done].
  - intros w Hg. unfold ensurePVCSize, volumesGood in *. destruct (usesMemoryStorage vc); [split; [done|apply onlyReads_ret]|].
    set (desired := storageRequest _) in *. case_bool_decide as Ed; [split; [done|apply onlyReads_ret]|]. destruct Hg as [Hg|[Hg|Hg]]; [done..|].
    assert (expandPVCs vc desired (filter (λ p, listed vc p) (st_PVCs w)) = mret None) as Eq.
    { apply expandPVCs_quiet, forallb_forall. intros p Hp%list_elem_of_In. apply list_elem_of_filter in Hp as [Hp%Is_true_true Hin]. by apply Hg. }
    split.
    + rewrite run_bind, (run_perform _ (OListPVCs _ _)). unfold h. cbn [store_handle].
      change (filter _ (st_PVCs w)) with (filter (λ p, listed vc p) (st_PVCs w)). by rewrite Eq.
    + eapply onlyReads_bind; [by apply (onlyReads_read _ _ (OListPVCs _ _))|by rewrite (run_perform _ (OListPVCs _ _))|].
      change (onlyReads (expandPVCs vc desired (filter (λ p, listed vc p) (st_PVCs w))) w). rewrite Eq. apply onlyReads_ret.
Qed.

(** ** The StatefulSet *)
Section workload.
Context (admitTpl : PodTemplateSpec → PodTemplateSpec) {HadmSts : StsAdmission admitSts admitTpl} (vc : ValkeyCluster) (desired : StatefulSet).
Let hash := appliedSpecHash (lib_specHash L) desired.
Context (Hnocoll : ∀ d, appliedSpecHash (lib_specHash L) d = hash → ownedFields d = ownedFields desired) (Hhash : hash ≠ "").

Definition stsReady (w : Store) : Prop := ∀ cur, st_Sts w !! stsKey desired = Some cur → honest admitTpl (lib_specHash L) cur.
Definition stsIs (w : Store) (cur : StatefulSet) : Prop :=
  st_Sts w !! stsKey desired = Some cur ∧ stamped (lib_specHash L) desired cur ∧ runsAs admitTpl desired cur.
Let d' := set_sts_Annotations (<[appliedHashAnnotation := hash]> (sts_Annotations desired)) desired.

Lemma with_sts_frame w s : stsKey s = stsKey desired → wellKeyed w → let w' := with_sts (<[stsKey desired := s]> (st_Sts w)) w in
  (∀ s', s' ≠ SSts (stsKey desired) → agrees s' w w') ∧ wellKeyed w' ∧ st_Sts w' !! stsKey desired = Some s.
Proof.
  intros Hs [H1 H2 H3]. cbv zeta. split_and!; [| |by apply lookup_insert_eq].
  - intros [k key|key|] Hne; cbn; [by destruct k| |done]. symmetry. apply lookup_insert_ne. by intros <-.
  - split; [intros k; specialize (H1 k); by destruct k| |done]. intros key s' E. cbn in E. destruct (decide (key = stsKey desired)) as [->|Hne].
    + rewrite lookup_insert_eq in E. by injection E as <-.
    + rewrite lookup_insert_ne in E by done. by apply H2.
Qed.
(** One apply: the StatefulSet is what [desired] asks for, and nothing else moved. *)
Lemma applySts_runs w : wellKeyed w → stsReady w → ∃ cur w', run h (applyStatefulSet (lib_retrySteps L) (lib_specHash L) vc desired) w = (inr cur, w') ∧
  (∀ s', s' ≠ SSts (stsKey desired) → agrees s' w w') ∧ wellKeyed w' ∧ stsIs w' cur.
Proof.
  intros Hw Hr. unfold h. rewrite run_applySts. fold d' hash h. destruct (st_Sts w !! stsKey desired) as [cur|] eqn:E.
  - destruct (reconcileSts_run admitObj admitSts admitTpl (lib_specHash L) desired Hnocoll Hhash w cur (wk_sts _ Hw) E (Hr _ E))
      as (cur' & w' & Hrun & E' & Hra & Hst & Hor & _). exists cur', w'.
    destruct (lib_retrySteps L) as [|n]; [lia|]. split; [by apply run_retryValue|].
    destruct Hor as [->|[Hc ->]]; [split_and!; [intros; apply agrees_refl|done|by split_and!]|].
    destruct (with_sts_frame w cur') as (Hf & Hk & _); [|done|by split_and!].
    rewrite Hc, (admitSts_key admitSts admitTpl). apply (wk_sts _ Hw _ _ E).
  - exists (admitSts d'), (with_sts (<[stsKey desired := admitSts d']> (st_Sts w)) w). split; [done|].
    destruct (with_sts_frame w (admitSts d')) as (Hf & Hk & Hl); [by rewrite (admitSts_key admitSts admitTpl)|done|].
    split_and!; [done..|]. split_and!; [done| |by apply written_runsAs].
    unfold stamped, map_get. rewrite (admitSts_annotations admitSts admitTpl). cbn. by rewrite lookup_insert_eq.
Qed.
End workload.

(** ** Composition *)

(** [P] works on [slots] only and goes on as some program [q] that depends on what it left there; once
    it has been through, it leads to the same [q] by reading alone.  [G w q] says that the slots are
    in shape in [w] and that [q] is what follows. *)
Record leads {B} (P : prog B) (slots : list slot) (ready : Store → Prop) (G : Store → prog B → Prop) : Prop := {
  leads_ready : ∀ w w', (∀ s, s ∈ slots → agrees s w w') → ready w → ready w';
  leads_local : ∀ w w' q, (∀ s, s ∈ slots → agrees s w w') → G w q → G w' q;
  leads_runs : ∀ w, wellKeyed w → ready w → ∃ t w' q, trace h P w = t ++ trace h q w' ∧ run h P w = run h q w' ∧
    (∀ s, s ∉ slots → agrees s w w') ∧ wellKeyed w' ∧ G w' q;
  leads_quiet : ∀ w q, G w q → ∃ t, trace h P w = t ++ trace h q w ∧ run h P w = run h q w ∧ Forall (λ e, reads (ev_op e) = true) t
}.

Lemma leads_done {B} (q : prog B) : leads q [] (λ _, True) (λ _ q', q' = q).
Proof.
  split; [done|done|..].
  - intros w Hw _. exists [], w, q. split_and!; [done..|intros; apply agrees_refl|done|done].
  - intros w q' ->. by exists [].
Qed.
(** A step before it, on a slot it does not use. *)
Lemma leads_step {A B} (p : prog A) (f : A → prog B) s good a slots ready G : step p s good a → leads (f a) slots ready G → s ∉ slots →
  leads (p ≫= f) (s :: slots) ready (λ w q, good w ∧ G w q).
Proof.
  intros [S1 S2 S3] [L1 L2 L3 L4] Hs. split.
  - intros w w' H. apply L1. intros s' Hs'. apply H. by right.
  - intros w w' q H [Hg HG]. split; [eapply S1; [apply H; by left|done]|eapply L2; [|done]]. intros s' Hs'. apply H. by right.
  - intros w Hw Hr. destruct (S2 w Hw) as (w1 & E1 & F1 & K1 & G1).
    destruct (L3 w1 K1) as (t & w2 & q & Et & Er & F2 & K2 & G2).
    { eapply L1; [|exact Hr]. intros s' Hs'. apply F1. by intros ->. }
    exists (trace h p w ++ t), w2, q. rewrite trace_bind, run_bind, E1, Et, Er, (assoc_L (++)). split_and!; [done..| |done| |done].
    + intros s' [Hne Hs']%not_elem_of_cons. eapply agrees_trans; [by apply F1|by apply F2].
    + eapply S1; [by apply F2|done].
  - intros w q [Hg HG]. destruct (S3 w Hg) as [E Ho], (L4 w q HG) as (t & Et & Er & Ht).
    exists (trace h p w ++ t). rewrite trace_bind, run_bind, E, Et, Er, (assoc_L (++)). split_and!; [done..|]. by apply Forall_app.
Qed.
(** Programs that run alike lead alike. *)
Lemma leads_assoc {A A' B} (p : prog A) (g : A → prog A') (f : A' → prog B) slots ready G :
  leads (p ≫= λ x, g x ≫= f) slots ready G → leads ((p ≫= g) ≫= f) slots ready G.
Proof.
  assert (∀ w, run h ((p ≫= g) ≫= f) w = run h (p ≫= λ x, g x ≫= f) w ∧ trace h ((p ≫= g) ≫= f) w = trace h (p ≫= λ x, g x ≫= f) w) as E.
  { intros w. rewrite !run_bind, !trace_bind, run_bind. destruct (run h p w) as [x w']. rewrite run_bind, !trace_bind, (assoc_L (++)). done. }
  intros [L1 L2 L3 L4]. split; [done|done|..].
  - intros w Hw Hr. destruct (E w) as [-> ->]. by apply L3.
  - intros w q HG. destruct (E w) as [-> ->]. by apply L4.
Qed.
Lemma leads_mono {B} (P : prog B) slots ready G (ready' : Store → Prop) G' :
  leads P slots ready G → (∀ w, ready w ↔ ready' w) → (∀ w q, G w q ↔ G' w q) → leads P slots ready' G'.
Proof.
  intros [L1 L2 L3 L4] Hr HG. split.
  - intros w w' H. rewrite <- !Hr. by apply L1.
  - intros w w' q H. rewrite <- !HG. by apply L2.
  - intros w Hw Hr'%Hr. destruct (L3 w Hw Hr') as (t & w' & q & Ht & Er & Hf & Hk & HG'%HG). eauto 10.
  - intros w q HG'%HG. by apply L4.
Qed.

(** The StatefulSet comes next, and what follows depends on the object it answers. *)
Section workload_leads.
Context (admitTpl : PodTemplateSpec → PodTemplateSpec) {HadmSts : StsAdmission admitSts admitTpl} (vc : ValkeyCluster) (desired : StatefulSet).
Context (Hnocoll : ∀ d, appliedSpecHash (lib_specHash L) d = appliedSpecHash (lib_specHash L) desired → ownedFields d = ownedFields desired).
Context (Hhash : appliedSpecHash (lib_specHash L) desired ≠ "").

Lemma leads_applySts {B} (f : KubeErr + StatefulSet → prog B) slots ready (G : StatefulSet → Store → prog B → Prop) :
  (∀ cur, leads (f (inr cur)) slots ready (G cur)) → SSts (stsKey desired) ∉ slots →
  leads (applyStatefulSet (lib_retrySteps L) (lib_specHash L) vc desired ≫= f) (SSts (stsKey desired) :: slots)
    (λ w, stsReady admitTpl desired w ∧ ready w) (λ w q, ∃ cur, stsIs admitTpl desired w cur ∧ G cur w q).
Proof.
  intros HL Hs. assert (∀ w w', (∀ s, s ∈ SSts (stsKey desired) :: slots → agrees s w w') →
    st_Sts w' !! stsKey desired = st_Sts w !! stsKey desired ∧ ∀ s, s ∈ slots → agrees s w w') as Hag.
  { intros w w' H. split; [symmetry; apply (H (SSts (stsKey desired))); by left|]. intros s' Hs'. apply H. by right. }
  split.
  - intros w w' [E H]%Hag [H1 H2]. split; [intros cur; rewrite E; apply H1|by eapply (leads_ready _ _ _ _ (HL desired))].
  - intros w w' q [E H]%Hag (cur & [H1 H2] & HG). exists cur. split; [split; [by rewrite E|done]|by eapply (leads_local _ _ _ _ (HL cur))].
  - intros w Hw [Hr Hr']. destruct (applySts_runs admitTpl vc desired Hnocoll Hhash w Hw Hr) as (cur & w1 & E1 & F1 & K1 & G1).
    destruct (leads_runs _ _ _ _ (HL cur) w1 K1) as (t & w2 & q & Et & Er & F2 & K2 & G2).
    { eapply (leads_ready _ _ _ _ (HL cur)); [|exact Hr']. intros s' Hs'. apply F1. by intros ->. }
    eexists (_ ++ t), w2, q. rewrite trace_bind, run_bind, E1, Et, Er, (assoc_L (++)). split_and!; [done..| |done|].
    + intros s' [Hne Hs']%not_elem_of_cons. eapply agrees_trans; [by apply F1|by apply F2].
    + exists cur. split; [|done]. destruct G1 as [G1 G1']. split; [|done]. rewrite <- G1. symmetry. by apply (F2 (SSts (stsKey desired))).
  - intros w q (cur & (E & Hst & Hra) & HG). destruct (leads_quiet _ _ _ _ (HL cur) w q HG) as (t & Et & Er & Ht).
    assert (run h (applyStatefulSet (lib_retrySteps L) (lib_specHash L) vc desired) w = (inr cur, w)) as Erun by (by apply rerun_applySts).
    eexists (_ ++ t). rewrite trace_bind, run_bind, Erun, Et, Er, (assoc_L (++)). split_and!; [done..|].
    apply Forall_app. split; [by eapply onlyReads_applySts|done].
Qed.
End workload_leads.
Lemma leads_ensureSts admitTpl {HadmSts : StsAdmission admitSts admitTpl} {B} vc configHash (f : GoErr + StatefulSet → prog B) slots ready G :
  let desired := buildStatefulSet vc configHash (stsProactive vc) in
  (∀ d, appliedSpecHash (lib_specHash L) d = appliedSpecHash (lib_specHash L) desired → ownedFields d = ownedFields desired) →
  appliedSpecHash (lib_specHash L) desired ≠ "" →
  (∀ sts, leads (f (inr sts)) slots ready (G sts)) → SSts (stsKey desired) ∉ slots → SPVCs ∉ slots →
  leads (ensureStatefulSet (lib_retrySteps L) (lib_specHash L) vc configHash ≫= f) (SSts (stsKey desired) :: SPVCs :: slots)
    (λ w, stsReady admitTpl desired w ∧ ready w) (λ w q, ∃ sts, stsIs admitTpl desired w sts ∧ volumesGood vc w ∧ G sts w q).
Proof.
  intros desired Hnocoll Hhash HL Hs Hv. unfold ensureStatefulSet. apply leads_assoc.
  apply (leads_applySts admitTpl vc desired Hnocoll Hhash); [|set_solver]. intros sts. cbv beta iota. apply leads_assoc.
  by apply (leads_step (ensurePVCSize vc) _ _ _ None); [apply volumes_step|apply HL|].
Qed.

(** ** The workload of a Standalone or Replication cluster *)
Section replication.
Context `{ConditionLib} (admitTpl : PodTemplateSpec → PodTemplateSpec) {HadmSts : StsAdmission admitSts admitTpl} (vc : ValkeyCluster) (password : string).
Definition wantedSts : StatefulSet :=
  buildStatefulSet vc (configHashFromData (lib_sha256 L) (cm_Data (buildConfigMap vc password))) (stsProactive vc).
Definition serviceGood (svc : Service) (w : Store) : Prop :=
  ∃ x, objects KService w !! (svc_Namespace svc, svc_Name svc) = Some x ∧ serviceSettled svc x = true.
(** Every object is what the resource asks for; [sts] is the live StatefulSet. *)
Record workloadGood (w : Store) (sts : StatefulSet) : Prop := {
  good_services : ∀ svc, svc ∈ [buildHeadlessService vc; buildClientService vc; buildPrimaryService vc; buildReplicasService vc] → serviceGood svc w;
  good_configMap : configMapGood vc password w;
  good_sts : stsIs admitTpl wantedSts w sts;
  good_volumes : volumesGood vc w;
  good_pdb : pdbGood vc w;
  good_netpol : netpolGood vc w;
  good_cron : cronGood vc w
}.
Definition serviceMonitorOff : Prop :=
  match Spec_Metrics (Spec vc) with Some m => (Metrics_Enabled m && Metrics_ServiceMonitor m)%bool = false | None => True end.
Definition backupHasTarget : Prop := ∀ b, Spec_Backup (Spec vc) = Some b → Backup_Enabled b = true → is_Some (Backup_S3 b).

Lemma monitor_off : serviceMonitorOff → ensureMetricsServiceMonitor vc = mret None.
Proof. unfold serviceMonitorOff, ensureMetricsServiceMonitor. destruct (Spec_Metrics (Spec vc)) as [m|]; [|done]. by intros ->. Qed.

Context (Hmon : serviceMonitorOff) (Hb : backupHasTarget).
Context (Hnocoll : ∀ d, appliedSpecHash (lib_specHash L) d = appliedSpecHash (lib_specHash L) wantedSts → ownedFields d = ownedFields wantedSts).
Context (Hhash : appliedSpecHash (lib_specHash L) wantedSts ≠ "").

(** The steps after the StatefulSet. *)
Lemma tail_leads (sts : StatefulSet) : leads
  (must "pdb" vc (ensurePDB (lib_retrySteps L) (lib_deepDerivative L) vc) (
   must "networkpolicy" vc (ensureNetworkPolicy vc) (
   _ ← ensureMetricsServiceMonitor vc;
   _ ← ensureBackupCronJob (lib_cronHash L) vc;
   replicationPass vc password sts)))
  [SObj KPDB (pdb_Namespace (buildPDB vc), pdb_Name (buildPDB vc)); SObj KNetPol (vcNamespace vc, vcName vc +:+ "-allow");
   SObj KCronJob (vcNamespace vc, vcName vc +:+ "-backup")] (λ _, True)
  (λ w q, pdbGood vc w ∧ netpolGood vc w ∧ cronGood vc w ∧ q = replicationPass vc password sts).
Proof.
  rewrite monitor_off by done.
  apply (leads_step _ _ _ _ None); [apply pdb_step| |set_solver].
  apply (leads_step _ _ _ _ None); [apply netpol_step| |set_solver].
  apply (leads_step (ensureBackupCronJob (lib_cronHash L) vc) _ _ _ None); [by apply cron_step|apply leads_done|set_solver].
Qed.
Lemma ensureSts_leads : leads
  (mustGet "statefulset" vc (ensureStatefulSet (lib_retrySteps L) (lib_specHash L) vc (configHashFromData (lib_sha256 L) (cm_Data (buildConfigMap vc password))))
     (λ sts,
   must "pdb" vc (ensurePDB (lib_retrySteps L) (lib_deepDerivative L) vc) (
   must "networkpolicy" vc (ensureNetworkPolicy vc) (
   _ ← ensureMetricsServiceMonitor vc;
   _ ← ensureBackupCronJob (lib_cronHash L) vc;
   replicationPass vc password sts))))
  [SSts (stsKey wantedSts); SPVCs; SObj KPDB (pdb_Namespace (buildPDB vc), pdb_Name (buildPDB vc)); SObj KNetPol (vcNamespace vc, vcName vc +:+ "-allow");
   SObj KCronJob (vcNamespace vc, vcName vc +:+ "-backup")] (λ w, stsReady admitTpl wantedSts w ∧ True)
  (λ w q, ∃ sts, stsIs admitTpl wantedSts w sts ∧ volumesGood vc w ∧ pdbGood vc w ∧ netpolGood vc w ∧ cronGood vc w ∧ q = replicationPass vc password sts).
Proof.
  refine (leads_ensureSts admitTpl vc _ _ _ (λ _, True)
    (λ sts w q, pdbGood vc w ∧ netpolGood vc w ∧ cronGood vc w ∧ q = replicationPass vc password sts) Hnocoll Hhash (λ sts, tail_leads sts) _ _); set_solver.
Qed.
Definition replicationSlots : list slot :=
  ((λ name, SObj KService (vcNamespace vc, name)) <$> [headlessServiceName vc; clientServiceName vc; primaryServiceName vc; replicasServiceName vc]) ++
  [SObj KConfigMap (vcNamespace vc, configMapName vc); SSts (stsKey wantedSts); SPVCs;
   SObj KPDB (pdb_Namespace (buildPDB vc), pdb_Name (buildPDB vc)); SObj KNetPol (vcNamespace vc, vcName vc +:+ "-allow");
   SObj KCronJob (vcNamespace vc, vcName vc +:+ "-backup")].
(** The four Services have different names. *)
Lemma longer_name (name t : string) : t ≠ "" → name ≠ name +:+ t.
Proof. intros Ht E. apply Ht. apply (inj (String.app name)). by rewrite <- E, str_app_nil_r. Qed.
Lemma service_names : NoDup [headlessServiceName vc; clientServiceName vc; primaryServiceName vc; replicasServiceName vc].
Proof.
  unfold headlessServiceName, clientServiceName, primaryServiceName, replicasServiceName.
  pose proof (longer_name (vcName vc)) as Hself.
  repeat (apply NoDup_cons; split; [rewrite ?elem_of_cons, elem_of_nil; intros Hin; repeat destruct Hin as [Hin|Hin]|]); try (done || apply NoDup_nil_2).
  all: try (by apply (inj (String.app (vcName vc))) in Hin). all: first [by eapply Hself; [|exact Hin]|by eapply Hself; [|symmetry; exact Hin]].
Qed.
Lemma workload_leads : leads (replicationWorkload L vc password) replicationSlots (stsReady admitTpl wantedSts)
  (λ w q, ∃ sts, workloadGood w sts ∧ q = replicationPass vc password sts).
Proof.
  pose proof service_names as Hn. repeat (apply NoDup_cons in Hn as [?Hne Hn]).
  unfold replicationSlots. cbn [fmap list_fmap app].
  eapply leads_mono.
  - eapply (leads_step _ _ _ _ _ _ _ _ (service_step vc (buildHeadlessService vc))); [|set_solver].
    eapply (leads_step _ _ _ _ _ _ _ _ (service_step vc (buildClientService vc))); [|set_solver].
    eapply (leads_step _ _ _ _ _ _ _ _ (service_step vc (buildPrimaryService vc))); [|set_solver].
    eapply (leads_step _ _ _ _ _ _ _ _ (service_step vc (buildReplicasService vc))); [|set_solver].
    eapply (leads_step _ _ _ _ _ _ _ _ (configMap_step (lib_sha256 L) vc password)); [apply ensureSts_leads|set_solver].
  - intros w. tauto.
  - intros w q. split.
    + intros (H1 & H2 & H3 & H4 & H5 & sts & H6 & H7 & H8 & H9 & H10 & ->). exists sts. split; [|done]. split; try done.
      intros svc Hs. rewrite !elem_of_cons, elem_of_nil in Hs. by destruct Hs as [->|[->|[->|[->|[]]]]].
    + intros (sts & [G1 G2 G3 G4 G5 G6 G7] & ->). split_and!; [apply G1; set_solver..|done|]. by exists sts.
Qed.

End replication.

(** ** The workload of a Cluster, in both layouts *)
Section cluster.
Context `{ConditionLib} (admitTpl : PodTemplateSpec → PodTemplateSpec) {HadmSts : StsAdmission admitSts admitTpl} (vc : ValkeyCluster) (password : string).
Definition wantedHash : string := configHashFromData (lib_sha256 L) (cm_Data (buildConfigMap vc password)).
Definition shardSts (s : Z) : StatefulSet := buildShardStatefulSet vc s wantedHash (proactiveRolloutEnabled vc).
Definition shardSlots (shards : list Z) : list slot :=
  concat ((λ s, [SObj KService (vcNamespace vc, shardHeadlessName vc s); SSts (vcNamespace vc, shardStsName vc s)]) <$> shards).
Definition totalReady (ready : Z) (curs : list StatefulSet) : Z := foldl (λ r cur, wrap32 (r + sts_ReadyReplicas cur)) ready curs.
(** Distinguishable by its hash. *)
Definition hashTells (d : StatefulSet) : Prop :=
  appliedSpecHash (lib_specHash L) d ≠ "" ∧ ∀ d', appliedSpecHash (lib_specHash L) d' = appliedSpecHash (lib_specHash L) d → ownedFields d' = ownedFields d.
Definition shardGood (w : Store) (s : Z) (cur : StatefulSet) : Prop :=
  serviceGood (buildShardHeadlessService vc s) w ∧ stsIs admitTpl (shardSts s) w cur.

Lemma elem_of_shardSlots sl shards : sl ∈ shardSlots shards ↔
  ∃ s, s ∈ shards ∧ (sl = SObj KService (vcNamespace vc, shardHeadlessName vc s) ∨ sl = SSts (vcNamespace vc, shardStsName vc s)).
Proof.
  unfold shardSlots. induction shards as [|s shards IH]; [set_solver|]. rewrite fmap_cons, concat_cons, elem_of_app, IH. set_solver.
Qed.
Lemma shardStsName_inj s s' : shardStsName vc s = shardStsName vc s' → s = s'.
Proof. unfold shardStsName. intros E%str_app_inj_l%str_app_inj_l. by apply Itoa_inj. Qed.

(** The loop over the shards. *)
Lemma leads_shards {B} (f : GoErr + Z → prog B) slots rdy G shards : (∀ total, leads (f (inr total)) slots rdy (G total)) →
  NoDup shards → (∀ sl, sl ∈ shardSlots shards → sl ∉ slots) → (∀ s, s ∈ shards → hashTells (shardSts s)) → ∀ ready,
  leads (ensureShards (lib_retrySteps L) (lib_specHash L) vc wantedHash ready shards ≫= f) (shardSlots shards ++ slots)
    (λ w, (∀ s, s ∈ shards → stsReady admitTpl (shardSts s) w) ∧ rdy w)
    (λ w q, ∃ curs, Forall2 (shardGood w) shards curs ∧ G (totalReady ready curs) w q).
Proof.
  intros HL. induction shards as [|s shards IH]; intros Hn Hsl Hh ready.
  { eapply leads_mono; [apply (HL ready)|intros w; set_solver|]. intros w q. split; [intros HG; by exists []|].
    intros (curs & ->%Forall2_nil_inv_l & HG). exact HG. }
  apply NoDup_cons in Hn as [Hs Hn]. cbn [ensureShards].
  destruct (Hh s) as [Hne Hcoll]; [by left|].
  assert (SObj KService (vcNamespace vc, shardHeadlessName vc s) ∉ shardSlots shards ++ slots) as H1.
  { rewrite elem_of_app, elem_of_shardSlots. intros [(s' & Hs' & [[= E%shardStsName_inj]|[=]])|Hin]; [by subst|].
    apply (Hsl (SObj KService (vcNamespace vc, shardHeadlessName vc s))); [|done]. apply elem_of_shardSlots. exists s. split; [by left|by left]. }
  assert (SSts (vcNamespace vc, shardStsName vc s) ∉ shardSlots shards ++ slots) as H2.
  { rewrite elem_of_app, elem_of_shardSlots. intros [(s' & Hs' & [[=]|[= E%shardStsName_inj]])|Hin]; [by subst|].
    apply (Hsl (SSts (vcNamespace vc, shardStsName vc s))); [|done]. apply elem_of_shardSlots. exists s. split; [by left|by right]. }
  change (shardSlots (s :: shards) ++ slots) with
    (SObj KService (vcNamespace vc, shardHeadlessName vc s) :: SSts (stsKey (shardSts s)) :: shardSlots shards ++ slots).
  eapply leads_mono.
  - apply leads_assoc. eapply (leads_step _ _ _ _ _ _ _ _ (service_step vc (buildShardHeadlessService vc s))).
    + cbv beta iota. apply leads_assoc. eapply (leads_applySts admitTpl vc (shardSts s) Hcoll Hne); [|exact H2]. intros cur. cbv beta iota.
      apply IH; [done|intros sl Hin; apply Hsl, elem_of_shardSlots|intros s' Hs'; apply Hh; by right].
      apply elem_of_shardSlots in Hin as (s' & ? & ?). exists s'. split; [by right|done].
    + rewrite not_elem_of_cons. by split.
  - intros w. cbn. split; [intros (Hr & Hrs & ?); split; [|done]; intros s' [->|Hin]%elem_of_cons; auto|].
    intros [Hr ?]. split_and!; [apply Hr; by left|intros s' Hin; apply Hr; by right|done].
  - intros w q. cbn. split.
    + intros (Hsvc & cur & Hcur & curs & Hf & HG). exists (cur :: curs). split; [constructor; [by split|done]|exact HG].
    + intros (curs & Hf & HG). apply Forall2_cons_inv_l in Hf as (cur & curs' & [Hsvc Hcur] & Hf & ->). split; [exact Hsvc|]. exists cur. split; [done|]. by exists curs'.
Qed.

(** The StatefulSets of the layout; the live ones add up to [ready]. *)
Definition wantedSets : list StatefulSet := if perShardEnabled vc then shardSts <$> zrange 0 (shardCountOf vc) else [wantedSts vc password].
Definition setsGood (w : Store) (ready : Z) : Prop :=
  if perShardEnabled vc then ∃ curs, Forall2 (shardGood w) (zrange 0 (shardCountOf vc)) curs ∧ ready = totalReady 0 curs
  else serviceGood (buildHeadlessService vc) w ∧ ∃ sts, stsIs admitTpl (wantedSts vc password) w sts ∧ ready = sts_ReadyReplicas sts.
Record clusterGood (w : Store) (ready : Z) : Prop := {
  cgood_service : serviceGood (buildClientService vc) w;
  cgood_configMap : configMapGood vc password w;
  cgood_sets : setsGood w ready;
  cgood_volumes : volumesGood vc w;
  cgood_pdb : pdbGood vc w;
  cgood_netpol : netpolGood vc w;
  cgood_cron : cronGood vc w
}.
Definition clusterSlots : list slot :=
  SObj KService (vcNamespace vc, clientServiceName vc) :: SObj KConfigMap (vcNamespace vc, configMapName vc) ::
  (if perShardEnabled vc then shardSlots (zrange 0 (shardCountOf vc))
   else [SObj KService (vcNamespace vc, headlessServiceName vc); SSts (stsKey (wantedSts vc password))]) ++
  [SPVCs; SObj KPDB (pdb_Namespace (buildPDB vc), pdb_Name (buildPDB vc)); SObj KNetPol (vcNamespace vc, vcName vc +:+ "-allow");
   SObj KCronJob (vcNamespace vc, vcName vc +:+ "-backup")].

Context (Hmon : serviceMonitorOff vc) (Hb : backupHasTarget vc).

Definition tailGood (w : Store) (ready : Z) (q : prog Outcome) : Prop :=
  pdbGood vc w ∧ netpolGood vc w ∧ cronGood vc w ∧ q = clusterPass vc password ready.
Lemma clusterTail_leads (ready : Z) : leads
  (must "pdb" vc (ensurePDB (lib_retrySteps L) (lib_deepDerivative L) vc) (
   must "networkpolicy" vc (ensureNetworkPolicy vc) (clusterThenPass L vc password ready)))
  [SObj KPDB (pdb_Namespace (buildPDB vc), pdb_Name (buildPDB vc)); SObj KNetPol (vcNamespace vc, vcName vc +:+ "-allow");
   SObj KCronJob (vcNamespace vc, vcName vc +:+ "-backup")] (λ _, True) (λ w q, tailGood w ready q).
Proof.
  unfold clusterThenPass. rewrite monitor_off by done.
  apply (leads_step _ _ _ _ None); [apply pdb_step| |set_solver].
  apply (leads_step _ _ _ _ None); [apply netpol_step| |set_solver].
  apply (leads_step (ensureBackupCronJob (lib_cronHash L) vc) _ _ _ None); [by apply cron_step|apply leads_done|set_solver].
Qed.
Context (Htells : ∀ d, d ∈ wantedSets → hashTells d).
(** From the StatefulSets on, in either layout. *)
Lemma sets_leads : let rest ready :=
    must "pdb" vc (ensurePDB (lib_retrySteps L) (lib_deepDerivative L) vc) (
    must "networkpolicy" vc (ensureNetworkPolicy vc) (clusterThenPass L vc password ready)) in
  leads (if perShardEnabled vc then mustGet "shard workload" vc (ensureShardWorkload (lib_retrySteps L) (lib_specHash L) vc wantedHash) rest
         else must "headless service" vc (ensureHeadlessService vc) (
              mustGet "statefulset" vc (ensureStatefulSet (lib_retrySteps L) (lib_specHash L) vc wantedHash) (λ sts, rest (sts_ReadyReplicas sts))))
    (drop 2 clusterSlots) (λ w, ∀ d, d ∈ wantedSets → stsReady admitTpl d w)
    (λ w q, ∃ ready, setsGood w ready ∧ volumesGood vc w ∧ tailGood w ready q).
Proof.
  pose proof Htells as Hts. unfold clusterSlots, setsGood, wantedSets in Hts |- *. cbn [drop]. destruct (perShardEnabled vc).
  - eapply leads_mono.
    + unfold mustGet, ensureShardWorkload. apply leads_assoc.
      apply (leads_shards _ _ (λ _, True) (λ total w q, volumesGood vc w ∧ tailGood w total q)).
      * intros total. cbv beta iota. apply leads_assoc.
        apply (leads_step (ensurePVCSize vc) _ _ _ None); [apply volumes_step|apply clusterTail_leads|set_solver].
      * apply NoDup_zrange.
      * intros sl (s & _ & [-> | ->])%elem_of_shardSlots; set_solver.
      * intros s Hs. apply Hts. by apply list_elem_of_fmap_2.
    + intros w. split; [intros [Hr _] d (s & -> & Hs)%list_elem_of_fmap; by apply Hr|]. intros Hr. split; [|done]. intros s Hs. by apply Hr, list_elem_of_fmap_2.
    + intros w q. split; [intros (curs & Hf & Hv & Htl); eauto 10|]. intros (ready & (curs & Hf & ->) & Hv & Ht). eauto.
  - destruct (Hts (wantedSts vc password)) as [Hne Hcoll]; [by left|]. eapply leads_mono.
    + eapply (leads_step _ _ _ _ _ _ _ _ (service_step vc (buildHeadlessService vc))); [|set_solver].
      refine (leads_ensureSts admitTpl vc _ _ _ (λ _, True) (λ sts w q, tailGood w (sts_ReadyReplicas sts) q) Hcoll Hne
                (λ sts, clusterTail_leads (sts_ReadyReplicas sts)) _ _); set_solver.
    + intros w. split; [intros [Hr _] d ->%list_elem_of_singleton; done|]. intros Hr. split; [|done]. apply Hr. by left.
    + intros w q. split; [intros (Hsvc & sts & Hs & Hv & Ht); eauto 10|]. intros (ready & (Hsvc & sts & Hs & ->) & Hv & Ht). eauto.
Qed.
Lemma cluster_leads : leads (clusterWorkload L vc (clusterThenPass L vc) password) clusterSlots (λ w, ∀ d, d ∈ wantedSets → stsReady admitTpl d w)
  (λ w q, ∃ ready, clusterGood w ready ∧ q = clusterPass vc password ready).
Proof.
  assert (∀ sl, sl ∈ drop 2 clusterSlots → sl ≠ SObj KConfigMap (vcNamespace vc, configMapName vc) ∧ sl ≠ SObj KService (vcNamespace vc, clientServiceName vc)) as Hd.
  { unfold clusterSlots. cbn [drop]. intros sl [Hin|Hin]%elem_of_app; [|set_solver]. destruct (perShardEnabled vc).
    - apply elem_of_shardSlots in Hin as (s & _ & [-> | ->]); [|done]. split; [done|]. intros [= E]. symmetry in E. by apply longer_name in E.
    - apply elem_of_cons in Hin as [-> | ->%list_elem_of_singleton]; [|done]. split; [done|]. intros [= E]. symmetry in E. by apply longer_name in E. }
  change clusterSlots with (SObj KService (vcNamespace vc, clientServiceName vc) :: SObj KConfigMap (vcNamespace vc, configMapName vc) :: drop 2 clusterSlots).
  eapply leads_mono.
  - eapply (leads_step _ _ _ _ _ _ _ _ (service_step vc (buildClientService vc))).
    + eapply (leads_step _ _ _ _ _ _ _ _ (configMap_step (lib_sha256 L) vc password)); [apply sets_leads|]. intros Hin. by apply Hd in Hin as [].
    + rewrite not_elem_of_cons. split; [done|]. intros Hin. by apply Hd in Hin as [].
  - done.
  - intros w q. split.
    + intros (H1 & H2 & ready & H3 & H4 & H5 & H6 & H7 & ->). exists ready. split; [by split|done].
    + intros (ready & [G1 G2 G3 G4 G5 G6 G7] & ->). split; [exact G1|]. split; [exact G2|]. exists ready. by split_and!.
Qed.

End cluster.
End settle.

(** ** A concrete cluster *)
Definition settleWanted : StatefulSet := buildStatefulSet demoConf (configHashFromData (λ s, s) (cm_Data (buildConfigMap demoConf "pw"))) (stsProactive demoConf).
Definition settleLibs : Libs := {|
  lib_sha256 := λ s, s; lib_specHash := demoSpecHash settleWanted; lib_cronHash := λ _, "h"; lib_deepDerivative := λ _ _, true;
  lib_pemDecode := lib_pemDecode demoLibs; lib_parseCertificate := inr; lib_retrySteps := 5; lib_hasAPIReader := true; lib_mapOrder := map_to_list |}.
Lemma settleWanted_hash : appliedSpecHash (lib_specHash settleLibs) settleWanted = "wanted".
Proof. unfold appliedSpecHash, settleLibs, demoSpecHash. cbn [lib_specHash]. by rewrite bool_decide_true. Qed.
Lemma emptyStore_wellKeyed : wellKeyed emptyStore.
Proof. split; [apply emptyStore_keyed|by intros key s|constructor]. Qed.


(** A Cluster of three shards with a StatefulSet each, on an empty API server. *)
Definition shardedConf : ValkeyCluster :=
  with_spec demoConf (λ s, set_Spec_Topology TopologyCluster (set_Spec_Shards (Some 3%Z) (set_Spec_PerShardWorkload (Some true) s))).
(** A hash that tells the wanted StatefulSets from each other and from all others. *)
Definition tells (ds : list StatefulSet) (x : option Z * PodTemplateSpec * string * gmap string string) : string :=
  match list_find (λ d, ownedFields d = x) ds with Some (i, _) => "set " +:+ Itoa (Z.of_nat i) | None => "other" end.
Lemma tells_apart ds d d' : d ∈ ds → tells ds (ownedFields d) ≠ "" ∧ (tells ds (ownedFields d') = tells ds (ownedFields d) → ownedFields d' = ownedFields d).
Proof.
  intros Hd. unfold tells. destruct (list_find_elem_of (λ x, ownedFields x = ownedFields d) ds d Hd eq_refl) as [[i x] E]. rewrite E.
  split; [done|]. destruct (list_find (λ x, ownedFields x = ownedFields d') ds) as [[j y]|] eqn:E'; [|done].
  intros Eq%str_app_inj_l%Itoa_inj%Nat2Z.inj. subst j.
  apply list_find_Some in E as (Ex & Hx & _). apply list_find_Some in E' as (Ey & Hy & _). congruence.
Qed.
Definition shardedLibs : Libs := {|
  lib_sha256 := λ s, s; lib_specHash := tells (wantedSets settleLibs shardedConf "pw"); lib_cronHash := λ _, "h"; lib_deepDerivative := λ _ _, true;
  lib_pemDecode := lib_pemDecode demoLibs; lib_parseCertificate := inr; lib_retrySteps := 5; lib_hasAPIReader := true; lib_mapOrder := map_to_list |}.
