(* ===== verification/Json.v ===== *)
(** * Json: what encoding/json does with Go values

    A value is marshalled to a tree [json] and unmarshalled from one; the bytes in between are not
    modelled (strings are valid UTF-8, as everything the API server stores).  A Go type is described
    by a [Codec]: its zero value, what [omitempty] takes for empty, and the two directions.
    [Unmarshal] fills a value that is already there: what the document does not mention stays.

    Two types agree when unmarshalling the one from what the other marshals to is a given function:
    the class [Converts], with an instance for every way of building a type. *)

From S2P Require Import Prelude GoStd.

#[local] Unset Elimination Schemes.
Inductive json :=
  | JNull
  | JBool (b : bool)
  | JNum (n : Z)
  | JStr (s : string)
  | JArr (l : list json)
  | JObj (l : list (string * json)).
#[local] Set Elimination Schemes.

Record Codec (A : Type) := {
  c_zero : A;
  c_empty : A → bool;
  c_enc : A → json;
  c_dec : json → A → option A              (* into the value that is there; [None] is an error *)
}.
Arguments c_zero {_} _.
Arguments c_empty {_} _ _.
Arguments c_enc {_} _ _.
Arguments c_dec {_} _ _ _.

(** ** Basic types: [null] leaves them as they are *)
Definition strC : Codec string := {|
  c_zero := ""; c_empty := λ s, s == ""; c_enc := JStr;
  c_dec := λ j cur, match j with JStr s => Some s | JNull => Some cur | _ => None end |}.
Definition boolC : Codec bool := {|
  c_zero := false; c_empty := negb; c_enc := JBool;
  c_dec := λ j cur, match j with JBool b => Some b | JNull => Some cur | _ => None end |}.
(** An integer of the given width: a number that does not fit is an error. *)
Definition intC (bits : Z) : Codec Z := {|
  c_zero := 0%Z; c_empty := λ n, (n =? 0)%Z; c_enc := JNum;
  c_dec := λ j cur, match j with
                    | JNum n => if ((- 2 ^ (bits - 1) <=? n) && (n <? 2 ^ (bits - 1)))%Z%bool then Some n else None
                    | JNull => Some cur
                    | _ => None
                    end |}.
Definition int32C : Codec Z := intC 32.
Definition int64C : Codec Z := intC 64.

(** ** Pointers, slices and maps: [null] makes them nil *)
Definition optC {A} (c : Codec A) : Codec (option A) := {|
  c_zero := None; c_empty := λ o, bool_decide (o = None);
  c_enc := λ o, match o with Some x => c_enc c x | None => JNull end;
  c_dec := λ j cur, match j with JNull => Some None | _ => Some <$> c_dec c j (default (c_zero c) cur) end |}.
(** An element of a slice is decoded into the element that is there, if there is one. *)
Fixpoint decElems {A} (c : Codec A) (js : list json) (cur : list A) : option (list A) :=
  match js with
  | [] => Some []
  | j :: js' => x ← c_dec c j (default (c_zero c) (head cur)); xs ← decElems c js' (tail cur); Some (x :: xs)
  end.
Definition listC {A} (c : Codec A) : Codec (list A) := {|
  c_zero := []; c_empty := λ l, bool_decide (length l = 0); c_enc := λ l, JArr (c_enc c <$> l);
  c_dec := λ j cur, match j with JArr js => decElems c js cur | JNull => Some [] | _ => None end |}.
(** A map is written with its keys in order; entries are added to the ones that are there. *)
Definition sortedEntries {A} (m : gmap string A) : list (string * A) :=
  omap (λ k, pair k <$> m !! k) (sort_strings (map_to_list m).*1).
Fixpoint decEntries {A} (c : Codec A) (kvs : list (string * json)) (cur : gmap string A) : option (gmap string A) :=
  match kvs with
  | [] => Some cur
  | (k, j) :: kvs' => x ← c_dec c j (c_zero c); decEntries c kvs' (<[k := x]> cur)
  end.
Definition mapC {A} (c : Codec A) : Codec (gmap string A) := {|
  c_zero := ∅; c_empty := λ m, bool_decide (size m = 0); c_enc := λ m, JObj (prod_map id (c_enc c) <$> sortedEntries m);
  c_dec := λ j cur, match j with JObj kvs => decEntries c kvs cur | JNull => Some ∅ | _ => None end |}.

(** ** Structs *)

(** One field under its tag: nothing when it is empty and tagged [omitempty]. *)
Definition entry {A} (tag : string) (omitempty : bool) (c : Codec A) (x : A) : string * option json :=
  (tag, if (omitempty && c_empty c x)%bool then None else Some (c_enc c x)).
Definition present (es : list (string * option json)) : list (string * json) := omap (λ '(t, o), pair t <$> o) es.
(** A key names the field whose tag it equals up to case; the last one counts. *)
Definition decField {A} (c : Codec A) (kvs : list (string * json)) (tag : string) (cur : A) : option A :=
  foldl (λ acc kv, if to_lower kv.1 == to_lower tag then acc ≫= c_dec c kv.2 else acc) (Some cur) kvs.
Definition structC {A} (zero : A) (enc : A → list (string * option json)) (dec : list (string * json) → A → option A) : Codec A := {|
  c_zero := zero; c_empty := λ _, false; c_enc := λ x, JObj (present (enc x));
  c_dec := λ j cur, match j with JObj kvs => dec kvs cur | JNull => Some cur | _ => None end |}.

(** [jsonRoundTrip(src, dst)] between two types. *)
Definition jsonRoundTrip {A B} (ca : Codec A) (cb : Codec B) (src : A) (dst : B) : option B := c_dec cb (c_enc ca src) dst.

(** ** When two types agree *)

(** What [ca] writes for the values of [V] is read by [cb], into a zero value, as [f] of them. *)
Class Converts {A B} (ca : Codec A) (cb : Codec B) (V : A → Prop) (f : A → B) : Prop := {
  converts_dec x : V x → c_dec cb (c_enc ca x) (c_zero cb) = Some (f x);
  converts_empty x : V x → c_empty ca x = true → f x = c_zero cb
}.
(** Values that are not written as [null]. *)
Class NonNull {A} (c : Codec A) (V : A → Prop) : Prop := non_null x : V x → c_enc c x ≠ JNull.
#[global] Hint Mode Converts ! ! - - - - : typeclass_instances.

Abbreviation Faithful c V := (Converts c c V id).
Definition anything {A} (x : A) : Prop := True.

#[global] Instance strC_faithful : Faithful strC anything.
Proof. split; [done|]. intros x _ H. by apply bool_decide_eq_true in H. Qed.
#[global] Instance boolC_faithful : Faithful boolC anything.
Proof. split; [done|]. by intros []. Qed.
Lemma intC_faithful bits : Faithful (intC bits) (λ n, - 2 ^ (bits - 1) ≤ n < 2 ^ (bits - 1))%Z.
Proof.
  split.
  - intros n [H1 H2]. cbn. by rewrite (proj2 (Z.leb_le _ _) H1), (proj2 (Z.ltb_lt _ _) H2).
  - intros n _ H. by apply Z.eqb_eq in H.
Qed.
#[global] Instance int32C_faithful : Faithful int32C is_int32.
Proof. apply (intC_faithful 32). Qed.
#[global] Instance int64C_faithful : Faithful int64C is_int64.
Proof. apply (intC_faithful 64). Qed.

#[global] Instance strC_nonnull V : NonNull strC V.
Proof. by intros x _. Qed.
#[global] Instance boolC_nonnull V : NonNull boolC V.
Proof. by intros x _. Qed.
#[global] Instance int32C_nonnull V : NonNull int32C V.
Proof. by intros x _. Qed.
#[global] Instance int64C_nonnull V : NonNull int64C V.
Proof. by intros x _. Qed.
#[global] Instance structC_nonnull {A} zero enc dec (V : A → Prop) : NonNull (structC zero enc dec) V.
Proof. by intros x _. Qed.

Definition optAll {A} (V : A → Prop) (o : option A) : Prop := from_option V True o.
Definition mapAll {A} (V : A → Prop) (m : gmap string A) : Prop := map_Forall (λ _, V) m.

Lemma sortedEntries_perm {A} (m : gmap string A) : sortedEntries m ≡ₚ map_to_list m.
Proof.
  unfold sortedEntries. rewrite sort_strings_perm.
  assert (∀ l : list (string * A), (∀ kv, kv ∈ l → m !! kv.1 = Some kv.2) → omap (λ k, pair k <$> m !! k) l.*1 = l) as H.
  { induction l as [|[k x] l IH]; intros Hl; [done|]. cbn. pose proof (Hl (k, x) ltac:(left)) as Hk. cbn in Hk. rewrite Hk. cbn. f_equal. apply IH. intros kv Hkv. apply Hl. by right. }
  rewrite H; [done|]. intros [k x] Hkv. by apply elem_of_map_to_list.
Qed.
Lemma sortedEntries_NoDup {A} (m : gmap string A) : NoDup (sortedEntries m).*1.
Proof. rewrite sortedEntries_perm. apply NoDup_fst_map_to_list. Qed.

Section containers.
Context {A B} (ca : Codec A) (cb : Codec B) (V : A → Prop) (f : A → B) `{HC : !Converts ca cb V f}.

#[global] Instance optC_converts `{!NonNull ca V} : Converts (optC ca) (optC cb) (optAll V) (fmap f).
Proof.
  split; intros [x|] Hx; cbn; [|done| |done].
  - pose proof (non_null x Hx) as Hn. pose proof (converts_dec (ca := ca) (cb := cb) (f := f) x Hx) as Hd.
    destruct (c_enc ca x) eqn:E; [done|by rewrite Hd..].
  - done.
Qed.
#[global] Instance listC_converts : Converts (listC ca) (listC cb) (Forall V) (fmap f).
Proof.
  split.
  - intros l Hl. cbn. induction Hl as [|x l Hx _ IH]; [done|]. cbn.
    rewrite (converts_dec (ca := ca) (cb := cb) (f := f) x Hx). cbn. by rewrite IH.
  - intros l _ H%bool_decide_eq_true. by destruct l.
Qed.
Lemma decEntries_converts l cur : NoDup l.*1 → Forall V l.*2 →
  decEntries cb (prod_map id (c_enc ca) <$> l) cur = Some (list_to_map (prod_map id f <$> l) ∪ cur).
Proof.
  revert cur; induction l as [|[k x] l IH]; intros cur Hn Hv; [cbn; by rewrite (left_id_L ∅ (∪))|].
  apply NoDup_cons in Hn as [Hk Hn]. apply Forall_cons in Hv as [Hx Hv]. cbn.
  rewrite (converts_dec (ca := ca) (cb := cb) (f := f) x Hx). cbn. rewrite IH by done. f_equal.
  rewrite <- insert_union_l. symmetry. apply insert_union_r. apply not_elem_of_list_to_map_1.
  intros (kv & -> & (kv' & -> & Hin)%list_elem_of_fmap)%list_elem_of_fmap. apply Hk. cbn. apply list_elem_of_fmap. by exists kv'.
Qed.
#[global] Instance mapC_converts : Converts (mapC ca) (mapC cb) (mapAll V) (fmap f).
Proof.
  split.
  - intros m Hm. cbn. rewrite decEntries_converts.
    + f_equal. rewrite (right_id_L ∅ (∪)), list_to_map_fmap. f_equal.
      rewrite <- (list_to_map_to_list m) at 2. apply list_to_map_proper; [apply sortedEntries_NoDup|apply sortedEntries_perm].
    + apply sortedEntries_NoDup.
    + rewrite sortedEntries_perm. apply Forall_forall. intros x ([k y] & -> & Hin)%list_elem_of_fmap.
      apply elem_of_map_to_list in Hin. exact (Hm k y Hin).
  - intros m _ H%bool_decide_eq_true. cbn. apply map_size_empty_iff in H. subst. by rewrite fmap_empty.
Qed.
End containers.

(** The same, for a type that is the same on both sides. *)
Section same.
Context {A} (c : Codec A) (V : A → Prop) `{HC : !Faithful c V}.
#[global] Instance optC_faithful `{!NonNull c V} : Faithful (optC c) (optAll V).
Proof. pose proof (optC_converts c c V id) as [H1 H2]. split; intros x Hx; [rewrite (H1 x Hx); by destruct x|]. intros He. specialize (H2 x Hx He). by destruct x. Qed.
#[global] Instance listC_faithful : Faithful (listC c) (Forall V).
Proof.
  pose proof (listC_converts c c V id) as [H1 H2]. split; intros x Hx; [rewrite (H1 x Hx)|intros He; rewrite <- (H2 x Hx He)]; by rewrite list_fmap_id.
Qed.
#[global] Instance mapC_faithful : Faithful (mapC c) (mapAll V).
Proof.
  pose proof (mapC_converts c c V id) as [H1 H2]. split; intros x Hx; [rewrite (H1 x Hx)|intros He; rewrite <- (H2 x Hx He)]; by rewrite map_fmap_id.
Qed.
End same.

(** ** Structs, field by field *)

Lemma decField_skip {A} (c : Codec A) es t acc : to_lower t ∉ to_lower <$> es.*1 →
  foldl (λ acc kv, if to_lower kv.1 == to_lower t then acc ≫= c_dec c kv.2 else acc) acc (present es) = acc.
Proof.
  revert acc; induction es as [|[t' o] es IH]; intros acc Hn; [done|]. cbn in Hn. apply not_elem_of_cons in Hn as [Hne Hn].
  unfold present. cbn. destruct o as [j|]; cbn; [|by apply IH]. rewrite bool_decide_eq_false_2 by congruence. by apply IH.
Qed.
(** The keys of a struct being distinct, a field is decoded from its own entry. *)
Lemma decField_at {A} (c : Codec A) i es t o cur : NoDup (to_lower <$> es.*1) → es !! i = Some (t, o) →
  decField c (present es) t cur = match o with Some j => c_dec c j cur | None => Some cur end.
Proof.
  intros Hn Hi. rewrite <- (take_drop_middle es i (t, o) Hi) in *. rewrite !fmap_app, fmap_cons, fmap_cons in Hn.
  apply NoDup_app in Hn as (_ & Hd & Hn). apply NoDup_cons in Hn as [Hr _]. cbn [fst] in *.
  unfold decField, present. rewrite omap_app, foldl_app.
  fold (present (take i es)). rewrite (decField_skip c (take i es)) by (intros Hin; apply (Hd _ Hin); left).
  cbn [omap list_omap]. fold (present (drop (S i) es)).
  destruct o as [j|]; cbn [fmap option_fmap option_map foldl fst snd]; [rewrite bool_decide_eq_true_2 by done; cbn|]; by apply decField_skip.
Qed.
Lemma decField_entry {A B} (ca : Codec A) (cb : Codec B) V f i es t omitempty x cur :
  NoDup (to_lower <$> es.*1) → es !! i = Some (entry t omitempty ca x) → cur = c_zero cb → Converts ca cb V f → V x →
  decField cb (present es) t cur = Some (f x).
Proof.
  intros Hn Hi -> HC Hx. erewrite decField_at by done. destruct (omitempty && c_empty ca x)%bool eqn:E.
  - apply andb_true_iff in E as [_ E]. f_equal. symmetry. by eapply converts_empty.
  - by eapply converts_dec.
Qed.
Lemma bind_Some_intro {A B} (o : option A) (k : A → option B) x r : o = Some x → k x = r → o ≫= k = r.
Proof. by intros -> <-. Qed.

Lemma optAll_anything {A} (o : option A) : optAll anything o.
Proof. by destruct o. Qed.
Lemma Forall_anything {A} (l : list A) : Forall anything l.
Proof. by apply Forall_forall. Qed.
Lemma mapAll_anything {A} (m : gmap string A) : mapAll anything m.
Proof. done. Qed.
Lemma optAll_fmap {A B} (f : A → B) V o : optAll V (f <$> o) ↔ optAll (V ∘ f) o.
Proof. by destruct o. Qed.
Lemma optAll_iff {A} (V W : A → Prop) o : (∀ x, V x ↔ W x) → optAll V o ↔ optAll W o.
Proof. intros H. by destruct o; cbn. Qed.
Create HintDb json.
#[export] Hint Resolve optAll_anything Forall_anything mapAll_anything I : json.

(** Decode a struct field by field; the hypothesis says which values the fields may hold. *)
Ltac convert_field Hn i :=
  eapply bind_Some_intro;
  [eapply (decField_entry _ _ _ _ i); [exact Hn|reflexivity|reflexivity|apply _|first [exact I|assumption|solve [auto with json]]]|];
  cbv beta.
Ltac convert_fields Hn i :=
  lazymatch goal with
  | |- _ ≫= _ = _ => convert_field Hn i; convert_fields Hn constr:(S i)
  | _ => reflexivity
  end.
Ltac convert_struct ca cb :=
  let x := fresh "x" in let Hx := fresh "Hx" in
  split; [intros x Hx; unfold ca, cb; cbn [structC c_enc c_dec c_zero]|by intros ? _ ?];
  lazymatch type of Hx with ?V x => try unfold V in Hx end; destruct_and? Hx;
  lazymatch goal with
  | |- context [present ?es] =>
      let Hn := fresh "Hn" in
      assert (NoDup (to_lower <$> es.*1)) as Hn by (cbn [fmap list_fmap entry fst]; apply (bool_decide_unpack _); vm_compute; exact I);
      convert_fields Hn 0
  end.
