(* ===== verification/ApiJson.v ===== *)
(** * ApiJson: how the v1beta1 resources are written as JSON

    One codec per struct of [valkeycluster_types.go] and [valkeyacl_types.go]: the tags of its
    fields, which of them are [omitempty], and the codec of each field's type.  The types of other
    packages (quantities, times, affinities, ...) marshal themselves: their codecs are parameters,
    the class [KubeCodecs], with what their documentation promises as laws.  [valid...] says that
    the integers of an object are within the width of their Go type. *)

From S2P Require Import Prelude GoStd Kube Api Json.

(** ** What the types of other packages hold *)

(** [resource.Quantity]: no more than 2^63-1 in magnitude. *)
Definition validQuantity (q : Z) : Prop := (Z.abs q < 2 ^ 63)%Z.
Definition validResources (r : ResourceRequirements) : Prop := mapAll validQuantity (Limits r) ∧ mapAll validQuantity (Requests r).
Definition validIntOrString (x : IntOrString) : Prop := match x with IntVal n => is_int32 n | StrVal _ => True end.
Definition validPort (p : NetworkPolicyPort) : Prop := optAll validIntOrString (np_Port p) ∧ optAll is_int32 (np_EndPort p).
Definition validEgressRule (r : NetworkPolicyEgressRule) : Prop := Forall validPort (eg_Ports r).
Definition validPodSecurity (c : PodSecurityContext) : Prop := optAll is_int64 (psc_FSGroup c) ∧ optAll is_int64 (psc_RunAsUser c).
Definition validAffinity (a : Affinity) : Prop :=
  optAll (λ p, Forall (λ wt, is_int32 wt.1) (paa_Preferred p)) (aff_PodAntiAffinity a).
Definition validSpread (c : TopologySpreadConstraint) : Prop := is_int32 (tsc_MaxSkew c).
(** [metav1.Time] is written in RFC 3339 with a second's precision, and the zero time as [null]:
    what comes back is what was there for whole seconds after the zero time, up to the year 9999. *)
Definition storedTime (t : Z) : Prop :=
  (t mod 10 ^ 9 = 0)%Z ∧ (-62135596800 * 10 ^ 9 < t < 253402300800 * 10 ^ 9)%Z.
Definition validCondition (c : Condition) : Prop :=
  is_int64 (cond_ObservedGeneration c) ∧ storedTime (cond_LastTransitionTime c).

(** ** The codecs of other packages *)
Class KubeCodecs := {
  localRefC : Codec string;                  (* corev1.LocalObjectReference, by its name *)
  tolerationC : Codec Opaque;
  resourcesC : Codec ResourceRequirements;
  affinityC : Codec Affinity;
  spreadC : Codec TopologySpreadConstraint;
  podSecurityC : Codec PodSecurityContext;
  securityC : Codec SecurityContext;
  intOrStringC : Codec IntOrString;
  peerC : Codec NetworkPolicyPeer;
  egressRuleC : Codec NetworkPolicyEgressRule;
  quantityC : Codec Z;
  timeC : Codec Z;
  conditionC : Codec Condition;
  #[global] localRefC_faithful :: Faithful localRefC anything;
  #[global] tolerationC_faithful :: Faithful tolerationC anything;
  #[global] resourcesC_faithful :: Faithful resourcesC validResources;
  #[global] affinityC_faithful :: Faithful affinityC validAffinity;
  #[global] spreadC_faithful :: Faithful spreadC validSpread;
  #[global] podSecurityC_faithful :: Faithful podSecurityC validPodSecurity;
  #[global] securityC_faithful :: Faithful securityC anything;
  #[global] intOrStringC_faithful :: Faithful intOrStringC validIntOrString;
  #[global] peerC_faithful :: Faithful peerC anything;
  #[global] egressRuleC_faithful :: Faithful egressRuleC validEgressRule;
  #[global] quantityC_faithful :: Faithful quantityC validQuantity;
  #[global] timeC_faithful :: Faithful timeC storedTime;
  #[global] conditionC_faithful :: Faithful conditionC validCondition;
  #[global] affinityC_nonnull :: NonNull affinityC validAffinity;
  #[global] podSecurityC_nonnull :: NonNull podSecurityC validPodSecurity;
  #[global] securityC_nonnull :: NonNull securityC anything;
  #[global] intOrStringC_nonnull :: NonNull intOrStringC validIntOrString;
  #[global] timeC_nonnull :: NonNull timeC storedTime
}.

(** ** Valid objects *)
Definition validReplicateFromSpec (x : ReplicateFromSpec) : Prop :=
  is_int32 (RF_Port x).
Definition validBackupSpec (x : BackupSpec) : Prop :=
  optAll is_int32 (Backup_Retention x).
Definition validPDBSpec (x : PDBSpec) : Prop :=
  optAll validIntOrString (PDB_MaxUnavailable x) ∧ optAll validIntOrString (PDB_MinAvailable x).
Definition validNetworkPolicyEgressSpec (x : NetworkPolicyEgressSpec) : Prop :=
  Forall validEgressRule (Egress_Extra x).
Definition validNetworkPolicySpec (x : NetworkPolicySpec) : Prop :=
  optAll validNetworkPolicyEgressSpec (NP_Egress x).
Definition validStorageSpec (x : StorageSpec) : Prop :=
  validQuantity (Storage_Size x).
Definition validMetricsSpec (x : MetricsSpec) : Prop :=
  validResources (Metrics_Resources x).
Definition validSentinelSpec (x : SentinelSpec) : Prop :=
  is_int32 (Sentinel_Replicas x) ∧ is_int32 (Sentinel_Quorum x) ∧ validResources (Sentinel_Resources x) ∧
  is_int32 (Sentinel_DownAfterMilliseconds x) ∧ is_int32 (Sentinel_FailoverTimeout x).
Definition validValkeyClusterSpec (x : ValkeyClusterSpec) : Prop :=
  is_int32 (Spec_Replicas x) ∧ optAll is_int32 (Spec_Shards x) ∧ optAll is_int32 (Spec_ReplicasPerShard x) ∧
  optAll validSentinelSpec (Spec_Sentinel x) ∧ validResources (Spec_Resources x) ∧
  optAll validStorageSpec (Spec_Storage x) ∧ optAll validMetricsSpec (Spec_Metrics x) ∧
  optAll validAffinity (Spec_Affinity x) ∧ Forall validSpread (Spec_TopologySpreadConstraints x) ∧
  optAll validPodSecurity (Spec_PodSecurityContext x) ∧ optAll validPDBSpec (Spec_PodDisruptionBudget x) ∧
  optAll validNetworkPolicySpec (Spec_NetworkPolicy x) ∧ optAll validBackupSpec (Spec_Backup x) ∧
  optAll validReplicateFromSpec (Spec_ReplicateFrom x).
Definition validReplicaOffset (x : ReplicaOffset) : Prop :=
  is_int64 (RO_Offset x).
Definition validShardStatus (x : ShardStatus) : Prop :=
  is_int32 (Shard_Index x) ∧ is_int32 (Shard_SlotCount x) ∧ is_int64 (Shard_PrimaryOffset x) ∧
  Forall validReplicaOffset (Shard_ReplicaOffsets x) ∧ is_int64 (Shard_MaxLagBytes x).
Definition validValkeyClusterStatus (x : ValkeyClusterStatus) : Prop :=
  is_int32 (Status_ReadyReplicas x) ∧ optAll storedTime (Status_PrimaryDownSince x) ∧
  optAll storedTime (Status_QuorumDownSince x) ∧ is_int32 (Status_Shards x) ∧ is_int32 (Status_ReadyShards x) ∧
  is_int32 (Status_LastAppliedReplicas x) ∧ Forall validShardStatus (Status_ShardDetails x) ∧
  is_int64 (Status_ObservedGeneration x) ∧ Forall validCondition (Status_Conditions x).
Definition validValkeyACLStatus (x : ValkeyACLStatus) : Prop :=
  is_int64 (ACL_ObservedGeneration x) ∧ Forall validCondition (ACL_Conditions x).

(** ** The structs of api/v1beta1 *)
Section codecs.
Context `{KubeCodecs}.

Definition loggingSpecC : Codec LoggingSpec := structC
  {| Log_Format := c_zero strC |}
  (λ x, [entry "format" true strC (Log_Format x)])
  (λ kvs x,
     f0 ← decField strC kvs "format" (Log_Format x);
     Some {| Log_Format := f0 |}).
Definition secretKeyReferenceC : Codec SecretKeyReference := structC
  {| SKR_Name := c_zero strC; SKR_Key := c_zero strC |}
  (λ x, [entry "name" false strC (SKR_Name x); entry "key" true strC (SKR_Key x)])
  (λ kvs x,
     f0 ← decField strC kvs "name" (SKR_Name x); f1 ← decField strC kvs "key" (SKR_Key x);
     Some {| SKR_Name := f0; SKR_Key := f1 |}).
Definition sourceCASecretRefC : Codec SourceCASecretRef := structC
  {| CA_Name := c_zero strC; CA_Key := c_zero strC |}
  (λ x, [entry "name" false strC (CA_Name x); entry "key" true strC (CA_Key x)])
  (λ kvs x,
     f0 ← decField strC kvs "name" (CA_Name x); f1 ← decField strC kvs "key" (CA_Key x);
     Some {| CA_Name := f0; CA_Key := f1 |}).
Definition replicateFromSpecC : Codec ReplicateFromSpec := structC
  {| RF_Host := c_zero strC; RF_Port := c_zero int32C; RF_PasswordSecret := None; RF_TLS := c_zero boolC;
     RF_CASecret := None |}
  (λ x, [entry "host" false strC (RF_Host x); entry "port" true int32C (RF_Port x);
         entry "passwordSecret" true (optC secretKeyReferenceC) (RF_PasswordSecret x);
         entry "tls" true boolC (RF_TLS x); entry "caSecret" true (optC sourceCASecretRefC) (RF_CASecret x)])
  (λ kvs x,
     f0 ← decField strC kvs "host" (RF_Host x); f1 ← decField int32C kvs "port" (RF_Port x);
     f2 ← decField (optC secretKeyReferenceC) kvs "passwordSecret" (RF_PasswordSecret x);
     f3 ← decField boolC kvs "tls" (RF_TLS x);
     f4 ← decField (optC sourceCASecretRefC) kvs "caSecret" (RF_CASecret x);
     Some {| RF_Host := f0; RF_Port := f1; RF_PasswordSecret := f2; RF_TLS := f3; RF_CASecret := f4 |}).
Definition S3SpecC : Codec S3Spec := structC
  {| S3_Bucket := c_zero strC; S3_Endpoint := c_zero strC; S3_Region := c_zero strC; S3_Prefix := c_zero strC;
     S3_CredentialsSecret := c_zero strC; S3_Encryption := c_zero strC; S3_KMSKeyID := c_zero strC |}
  (λ x, [entry "bucket" false strC (S3_Bucket x); entry "endpoint" true strC (S3_Endpoint x);
         entry "region" true strC (S3_Region x); entry "prefix" true strC (S3_Prefix x);
         entry "credentialsSecret" false strC (S3_CredentialsSecret x);
         entry "encryption" true strC (S3_Encryption x); entry "kmsKeyId" true strC (S3_KMSKeyID x)])
  (λ kvs x,
     f0 ← decField strC kvs "bucket" (S3_Bucket x); f1 ← decField strC kvs "endpoint" (S3_Endpoint x);
     f2 ← decField strC kvs "region" (S3_Region x); f3 ← decField strC kvs "prefix" (S3_Prefix x);
     f4 ← decField strC kvs "credentialsSecret" (S3_CredentialsSecret x);
     f5 ← decField strC kvs "encryption" (S3_Encryption x); f6 ← decField strC kvs "kmsKeyId" (S3_KMSKeyID x);
     Some {| S3_Bucket := f0; S3_Endpoint := f1; S3_Region := f2; S3_Prefix := f3; S3_CredentialsSecret := f4;
            S3_Encryption := f5; S3_KMSKeyID := f6 |}).
Definition restoreSpecC : Codec RestoreSpec := structC
  {| Restore_S3 := None; Restore_SourceKey := c_zero strC; Restore_AWSCLIImage := c_zero strC |}
  (λ x, [entry "s3" true (optC S3SpecC) (Restore_S3 x); entry "sourceKey" false strC (Restore_SourceKey x);
         entry "awsCLIImage" true strC (Restore_AWSCLIImage x)])
  (λ kvs x,
     f0 ← decField (optC S3SpecC) kvs "s3" (Restore_S3 x); f1 ← decField strC kvs "sourceKey" (Restore_SourceKey x);
     f2 ← decField strC kvs "awsCLIImage" (Restore_AWSCLIImage x);
     Some {| Restore_S3 := f0; Restore_SourceKey := f1; Restore_AWSCLIImage := f2 |}).
Definition backupSpecC : Codec BackupSpec := structC
  {| Backup_Enabled := c_zero boolC; Backup_Schedule := c_zero strC; Backup_S3 := None; Backup_Image := c_zero strC;
     Backup_AWSCLIImage := c_zero strC; Backup_Retention := None |}
  (λ x, [entry "enabled" true boolC (Backup_Enabled x); entry "schedule" true strC (Backup_Schedule x);
         entry "s3" true (optC S3SpecC) (Backup_S3 x); entry "image" true strC (Backup_Image x);
         entry "awsCLIImage" true strC (Backup_AWSCLIImage x);
         entry "retention" true (optC int32C) (Backup_Retention x)])
  (λ kvs x,
     f0 ← decField boolC kvs "enabled" (Backup_Enabled x); f1 ← decField strC kvs "schedule" (Backup_Schedule x);
     f2 ← decField (optC S3SpecC) kvs "s3" (Backup_S3 x); f3 ← decField strC kvs "image" (Backup_Image x);
     f4 ← decField strC kvs "awsCLIImage" (Backup_AWSCLIImage x);
     f5 ← decField (optC int32C) kvs "retention" (Backup_Retention x);
     Some {| Backup_Enabled := f0; Backup_Schedule := f1; Backup_S3 := f2; Backup_Image := f3;
            Backup_AWSCLIImage := f4; Backup_Retention := f5 |}).
Definition PDBSpecC : Codec PDBSpec := structC
  {| PDB_Enabled := None; PDB_MaxUnavailable := None; PDB_MinAvailable := None |}
  (λ x, [entry "enabled" true (optC boolC) (PDB_Enabled x);
         entry "maxUnavailable" true (optC intOrStringC) (PDB_MaxUnavailable x);
         entry "minAvailable" true (optC intOrStringC) (PDB_MinAvailable x)])
  (λ kvs x,
     f0 ← decField (optC boolC) kvs "enabled" (PDB_Enabled x);
     f1 ← decField (optC intOrStringC) kvs "maxUnavailable" (PDB_MaxUnavailable x);
     f2 ← decField (optC intOrStringC) kvs "minAvailable" (PDB_MinAvailable x);
     Some {| PDB_Enabled := f0; PDB_MaxUnavailable := f1; PDB_MinAvailable := f2 |}).
Definition networkPolicyEgressSpecC : Codec NetworkPolicyEgressSpec := structC
  {| Egress_Enabled := c_zero boolC; Egress_DNS := []; Egress_Extra := [] |}
  (λ x, [entry "enabled" true boolC (Egress_Enabled x); entry "dns" true (listC peerC) (Egress_DNS x);
         entry "extra" true (listC egressRuleC) (Egress_Extra x)])
  (λ kvs x,
     f0 ← decField boolC kvs "enabled" (Egress_Enabled x); f1 ← decField (listC peerC) kvs "dns" (Egress_DNS x);
     f2 ← decField (listC egressRuleC) kvs "extra" (Egress_Extra x);
     Some {| Egress_Enabled := f0; Egress_DNS := f1; Egress_Extra := f2 |}).
Definition networkPolicySpecC : Codec NetworkPolicySpec := structC
  {| NP_Enabled := c_zero boolC; NP_AllowFrom := []; NP_MetricsFrom := []; NP_Egress := None |}
  (λ x, [entry "enabled" true boolC (NP_Enabled x); entry "allowFrom" true (listC peerC) (NP_AllowFrom x);
         entry "metricsFrom" true (listC peerC) (NP_MetricsFrom x);
         entry "egress" true (optC networkPolicyEgressSpecC) (NP_Egress x)])
  (λ kvs x,
     f0 ← decField boolC kvs "enabled" (NP_Enabled x); f1 ← decField (listC peerC) kvs "allowFrom" (NP_AllowFrom x);
     f2 ← decField (listC peerC) kvs "metricsFrom" (NP_MetricsFrom x);
     f3 ← decField (optC networkPolicyEgressSpecC) kvs "egress" (NP_Egress x);
     Some {| NP_Enabled := f0; NP_AllowFrom := f1; NP_MetricsFrom := f2; NP_Egress := f3 |}).
Definition storageSpecC : Codec StorageSpec := structC
  {| Storage_Size := c_zero quantityC; Storage_StorageClassName := None; Storage_Mode := c_zero strC;
     Storage_Medium := c_zero strC |}
  (λ x, [entry "size" true quantityC (Storage_Size x);
         entry "storageClassName" true (optC strC) (Storage_StorageClassName x);
         entry "mode" true strC (Storage_Mode x); entry "medium" true strC (Storage_Medium x)])
  (λ kvs x,
     f0 ← decField quantityC kvs "size" (Storage_Size x);
     f1 ← decField (optC strC) kvs "storageClassName" (Storage_StorageClassName x);
     f2 ← decField strC kvs "mode" (Storage_Mode x); f3 ← decField strC kvs "medium" (Storage_Medium x);
     Some {| Storage_Size := f0; Storage_StorageClassName := f1; Storage_Mode := f2; Storage_Medium := f3 |}).
Definition authSpecC : Codec AuthSpec := structC
  {| Auth_Enabled := None; Auth_ExistingSecret := c_zero strC |}
  (λ x, [entry "enabled" true (optC boolC) (Auth_Enabled x); entry "existingSecret" true strC (Auth_ExistingSecret x)])
  (λ kvs x,
     f0 ← decField (optC boolC) kvs "enabled" (Auth_Enabled x);
     f1 ← decField strC kvs "existingSecret" (Auth_ExistingSecret x);
     Some {| Auth_Enabled := f0; Auth_ExistingSecret := f1 |}).
Definition certIssuerRefC : Codec CertIssuerRef := structC
  {| Issuer_Name := c_zero strC; Issuer_Kind := c_zero strC; Issuer_Group := c_zero strC |}
  (λ x, [entry "name" false strC (Issuer_Name x); entry "kind" true strC (Issuer_Kind x);
         entry "group" true strC (Issuer_Group x)])
  (λ kvs x,
     f0 ← decField strC kvs "name" (Issuer_Name x); f1 ← decField strC kvs "kind" (Issuer_Kind x);
     f2 ← decField strC kvs "group" (Issuer_Group x);
     Some {| Issuer_Name := f0; Issuer_Kind := f1; Issuer_Group := f2 |}).
Definition TLSSpecC : Codec TLSSpec := structC
  {| TLS_Enabled := c_zero boolC; TLS_IssuerRef := None; TLS_ExistingSecret := c_zero strC;
     TLS_MutualTLS := c_zero boolC |}
  (λ x, [entry "enabled" true boolC (TLS_Enabled x); entry "issuerRef" true (optC certIssuerRefC) (TLS_IssuerRef x);
         entry "existingSecret" true strC (TLS_ExistingSecret x); entry "mutualTLS" true boolC (TLS_MutualTLS x)])
  (λ kvs x,
     f0 ← decField boolC kvs "enabled" (TLS_Enabled x);
     f1 ← decField (optC certIssuerRefC) kvs "issuerRef" (TLS_IssuerRef x);
     f2 ← decField strC kvs "existingSecret" (TLS_ExistingSecret x);
     f3 ← decField boolC kvs "mutualTLS" (TLS_MutualTLS x);
     Some {| TLS_Enabled := f0; TLS_IssuerRef := f1; TLS_ExistingSecret := f2; TLS_MutualTLS := f3 |}).
Definition metricsSpecC : Codec MetricsSpec := structC
  {| Metrics_Enabled := c_zero boolC; Metrics_Image := c_zero strC; Metrics_ImagePullPolicy := c_zero strC;
     Metrics_ServiceMonitor := c_zero boolC; Metrics_Resources := c_zero resourcesC; Metrics_Sentinel := c_zero boolC |}
  (λ x, [entry "enabled" true boolC (Metrics_Enabled x); entry "image" true strC (Metrics_Image x);
         entry "imagePullPolicy" true strC (Metrics_ImagePullPolicy x);
         entry "serviceMonitor" true boolC (Metrics_ServiceMonitor x);
         entry "resources" true resourcesC (Metrics_Resources x); entry "sentinel" true boolC (Metrics_Sentinel x)])
  (λ kvs x,
     f0 ← decField boolC kvs "enabled" (Metrics_Enabled x); f1 ← decField strC kvs "image" (Metrics_Image x);
     f2 ← decField strC kvs "imagePullPolicy" (Metrics_ImagePullPolicy x);
     f3 ← decField boolC kvs "serviceMonitor" (Metrics_ServiceMonitor x);
     f4 ← decField resourcesC kvs "resources" (Metrics_Resources x);
     f5 ← decField boolC kvs "sentinel" (Metrics_Sentinel x);
     Some {| Metrics_Enabled := f0; Metrics_Image := f1; Metrics_ImagePullPolicy := f2; Metrics_ServiceMonitor := f3;
            Metrics_Resources := f4; Metrics_Sentinel := f5 |}).
Definition sentinelSpecC : Codec SentinelSpec := structC
  {| Sentinel_Replicas := c_zero int32C; Sentinel_Quorum := c_zero int32C; Sentinel_Image := c_zero strC;
     Sentinel_Resources := c_zero resourcesC; Sentinel_DownAfterMilliseconds := c_zero int32C;
     Sentinel_FailoverTimeout := c_zero int32C |}
  (λ x, [entry "replicas" true int32C (Sentinel_Replicas x); entry "quorum" true int32C (Sentinel_Quorum x);
         entry "image" true strC (Sentinel_Image x); entry "resources" true resourcesC (Sentinel_Resources x);
         entry "downAfterMilliseconds" true int32C (Sentinel_DownAfterMilliseconds x);
         entry "failoverTimeout" true int32C (Sentinel_FailoverTimeout x)])
  (λ kvs x,
     f0 ← decField int32C kvs "replicas" (Sentinel_Replicas x);
     f1 ← decField int32C kvs "quorum" (Sentinel_Quorum x); f2 ← decField strC kvs "image" (Sentinel_Image x);
     f3 ← decField resourcesC kvs "resources" (Sentinel_Resources x);
     f4 ← decField int32C kvs "downAfterMilliseconds" (Sentinel_DownAfterMilliseconds x);
     f5 ← decField int32C kvs "failoverTimeout" (Sentinel_FailoverTimeout x);
     Some {| Sentinel_Replicas := f0; Sentinel_Quorum := f1; Sentinel_Image := f2; Sentinel_Resources := f3;
            Sentinel_DownAfterMilliseconds := f4; Sentinel_FailoverTimeout := f5 |}).
Definition valkeyClusterSpecC : Codec ValkeyClusterSpec := structC
  {| Spec_Topology := c_zero strC; Spec_Profile := c_zero strC; Spec_Image := c_zero strC;
     Spec_ImagePullPolicy := c_zero strC; Spec_ImagePullSecrets := []; Spec_PodLabels := ∅;
     Spec_Replicas := c_zero int32C; Spec_Shards := None; Spec_ReplicasPerShard := None;
     Spec_PerShardWorkload := None; Spec_AutoReshard := None; Spec_Sentinel := None;
     Spec_Resources := c_zero resourcesC; Spec_Storage := None; Spec_Auth := None; Spec_TLS := None;
     Spec_Metrics := None; Spec_Config := ∅; Spec_NodeSelector := ∅; Spec_Tolerations := []; Spec_Affinity := None;
     Spec_TopologySpreadConstraints := []; Spec_PodSecurityContext := None; Spec_ContainerSecurityContext := None;
     Spec_PodDisruptionBudget := None; Spec_NetworkPolicy := None; Spec_Backup := None; Spec_RestoreFrom := None;
     Spec_ReplicateFrom := None; Spec_Logging := None |}
  (λ x, [entry "topology" true strC (Spec_Topology x); entry "profile" true strC (Spec_Profile x);
         entry "image" true strC (Spec_Image x); entry "imagePullPolicy" true strC (Spec_ImagePullPolicy x);
         entry "imagePullSecrets" true (listC localRefC) (Spec_ImagePullSecrets x);
         entry "podLabels" true (mapC strC) (Spec_PodLabels x); entry "replicas" true int32C (Spec_Replicas x);
         entry "shards" true (optC int32C) (Spec_Shards x);
         entry "replicasPerShard" true (optC int32C) (Spec_ReplicasPerShard x);
         entry "perShardWorkload" true (optC boolC) (Spec_PerShardWorkload x);
         entry "autoReshard" true (optC boolC) (Spec_AutoReshard x);
         entry "sentinel" true (optC sentinelSpecC) (Spec_Sentinel x);
         entry "resources" true resourcesC (Spec_Resources x);
         entry "storage" true (optC storageSpecC) (Spec_Storage x); entry "auth" true (optC authSpecC) (Spec_Auth x);
         entry "tls" true (optC TLSSpecC) (Spec_TLS x); entry "metrics" true (optC metricsSpecC) (Spec_Metrics x);
         entry "config" true (mapC strC) (Spec_Config x);
         entry "nodeSelector" true (mapC strC) (Spec_NodeSelector x);
         entry "tolerations" true (listC tolerationC) (Spec_Tolerations x);
         entry "affinity" true (optC affinityC) (Spec_Affinity x);
         entry "topologySpreadConstraints" true (listC spreadC) (Spec_TopologySpreadConstraints x);
         entry "podSecurityContext" true (optC podSecurityC) (Spec_PodSecurityContext x);
         entry "containerSecurityContext" true (optC securityC) (Spec_ContainerSecurityContext x);
         entry "podDisruptionBudget" true (optC PDBSpecC) (Spec_PodDisruptionBudget x);
         entry "networkPolicy" true (optC networkPolicySpecC) (Spec_NetworkPolicy x);
         entry "backup" true (optC backupSpecC) (Spec_Backup x);
         entry "restoreFrom" true (optC restoreSpecC) (Spec_RestoreFrom x);
         entry "replicateFrom" true (optC replicateFromSpecC) (Spec_ReplicateFrom x);
         entry "logging" true (optC loggingSpecC) (Spec_Logging x)])
  (λ kvs x,
     f0 ← decField strC kvs "topology" (Spec_Topology x); f1 ← decField strC kvs "profile" (Spec_Profile x);
     f2 ← decField strC kvs "image" (Spec_Image x);
     f3 ← decField strC kvs "imagePullPolicy" (Spec_ImagePullPolicy x);
     f4 ← decField (listC localRefC) kvs "imagePullSecrets" (Spec_ImagePullSecrets x);
     f5 ← decField (mapC strC) kvs "podLabels" (Spec_PodLabels x);
     f6 ← decField int32C kvs "replicas" (Spec_Replicas x); f7 ← decField (optC int32C) kvs "shards" (Spec_Shards x);
     f8 ← decField (optC int32C) kvs "replicasPerShard" (Spec_ReplicasPerShard x);
     f9 ← decField (optC boolC) kvs "perShardWorkload" (Spec_PerShardWorkload x);
     f10 ← decField (optC boolC) kvs "autoReshard" (Spec_AutoReshard x);
     f11 ← decField (optC sentinelSpecC) kvs "sentinel" (Spec_Sentinel x);
     f12 ← decField resourcesC kvs "resources" (Spec_Resources x);
     f13 ← decField (optC storageSpecC) kvs "storage" (Spec_Storage x);
     f14 ← decField (optC authSpecC) kvs "auth" (Spec_Auth x); f15 ← decField (optC TLSSpecC) kvs "tls" (Spec_TLS x);
     f16 ← decField (optC metricsSpecC) kvs "metrics" (Spec_Metrics x);
     f17 ← decField (mapC strC) kvs "config" (Spec_Config x);
     f18 ← decField (mapC strC) kvs "nodeSelector" (Spec_NodeSelector x);
     f19 ← decField (listC tolerationC) kvs "tolerations" (Spec_Tolerations x);
     f20 ← decField (optC affinityC) kvs "affinity" (Spec_Affinity x);
     f21 ← decField (listC spreadC) kvs "topologySpreadConstraints" (Spec_TopologySpreadConstraints x);
     f22 ← decField (optC podSecurityC) kvs "podSecurityContext" (Spec_PodSecurityContext x);
     f23 ← decField (optC securityC) kvs "containerSecurityContext" (Spec_ContainerSecurityContext x);
     f24 ← decField (optC PDBSpecC) kvs "podDisruptionBudget" (Spec_PodDisruptionBudget x);
     f25 ← decField (optC networkPolicySpecC) kvs "networkPolicy" (Spec_NetworkPolicy x);
     f26 ← decField (optC backupSpecC) kvs "backup" (Spec_Backup x);
     f27 ← decField (optC restoreSpecC) kvs "restoreFrom" (Spec_RestoreFrom x);
     f28 ← decField (optC replicateFromSpecC) kvs "replicateFrom" (Spec_ReplicateFrom x);
     f29 ← decField (optC loggingSpecC) kvs "logging" (Spec_Logging x);
     Some {| Spec_Topology := f0; Spec_Profile := f1; Spec_Image := f2; Spec_ImagePullPolicy := f3;
            Spec_ImagePullSecrets := f4; Spec_PodLabels := f5; Spec_Replicas := f6; Spec_Shards := f7;
            Spec_ReplicasPerShard := f8; Spec_PerShardWorkload := f9; Spec_AutoReshard := f10; Spec_Sentinel := f11;
            Spec_Resources := f12; Spec_Storage := f13; Spec_Auth := f14; Spec_TLS := f15; Spec_Metrics := f16;
            Spec_Config := f17; Spec_NodeSelector := f18; Spec_Tolerations := f19; Spec_Affinity := f20;
            Spec_TopologySpreadConstraints := f21; Spec_PodSecurityContext := f22;
            Spec_ContainerSecurityContext := f23; Spec_PodDisruptionBudget := f24; Spec_NetworkPolicy := f25;
            Spec_Backup := f26; Spec_RestoreFrom := f27; Spec_ReplicateFrom := f28; Spec_Logging := f29 |}).
Definition replicaOffsetC : Codec ReplicaOffset := structC
  {| RO_Pod := c_zero strC; RO_Offset := c_zero int64C |}
  (λ x, [entry "pod" false strC (RO_Pod x); entry "offset" false int64C (RO_Offset x)])
  (λ kvs x,
     f0 ← decField strC kvs "pod" (RO_Pod x); f1 ← decField int64C kvs "offset" (RO_Offset x);
     Some {| RO_Pod := f0; RO_Offset := f1 |}).
Definition shardStatusC : Codec ShardStatus := structC
  {| Shard_Index := c_zero int32C; Shard_Primary := c_zero strC; Shard_PrimaryNodeID := c_zero strC;
     Shard_Replicas := []; Shard_SlotRanges := []; Shard_SlotCount := c_zero int32C; Shard_Health := c_zero strC;
     Shard_PrimaryOffset := c_zero int64C; Shard_ReplicaOffsets := []; Shard_MaxLagBytes := c_zero int64C |}
  (λ x, [entry "index" false int32C (Shard_Index x); entry "primary" false strC (Shard_Primary x);
         entry "primaryNodeID" true strC (Shard_PrimaryNodeID x);
         entry "replicas" true (listC strC) (Shard_Replicas x);
         entry "slotRanges" true (listC strC) (Shard_SlotRanges x);
         entry "slotCount" true int32C (Shard_SlotCount x); entry "health" true strC (Shard_Health x);
         entry "primaryOffset" true int64C (Shard_PrimaryOffset x);
         entry "replicaOffsets" true (listC replicaOffsetC) (Shard_ReplicaOffsets x);
         entry "maxLagBytes" true int64C (Shard_MaxLagBytes x)])
  (λ kvs x,
     f0 ← decField int32C kvs "index" (Shard_Index x); f1 ← decField strC kvs "primary" (Shard_Primary x);
     f2 ← decField strC kvs "primaryNodeID" (Shard_PrimaryNodeID x);
     f3 ← decField (listC strC) kvs "replicas" (Shard_Replicas x);
     f4 ← decField (listC strC) kvs "slotRanges" (Shard_SlotRanges x);
     f5 ← decField int32C kvs "slotCount" (Shard_SlotCount x); f6 ← decField strC kvs "health" (Shard_Health x);
     f7 ← decField int64C kvs "primaryOffset" (Shard_PrimaryOffset x);
     f8 ← decField (listC replicaOffsetC) kvs "replicaOffsets" (Shard_ReplicaOffsets x);
     f9 ← decField int64C kvs "maxLagBytes" (Shard_MaxLagBytes x);
     Some {| Shard_Index := f0; Shard_Primary := f1; Shard_PrimaryNodeID := f2; Shard_Replicas := f3;
            Shard_SlotRanges := f4; Shard_SlotCount := f5; Shard_Health := f6; Shard_PrimaryOffset := f7;
            Shard_ReplicaOffsets := f8; Shard_MaxLagBytes := f9 |}).
Definition valkeyClusterStatusC : Codec ValkeyClusterStatus := structC
  {| Status_Phase := c_zero strC; Status_ReadyReplicas := c_zero int32C; Status_Primary := c_zero strC;
     Status_PrimaryDownSince := None; Status_QuorumDownSince := None; Status_InternalEndpoint := c_zero strC;
     Status_Shards := c_zero int32C; Status_ReadyShards := c_zero int32C; Status_ClusterInitialized := c_zero boolC;
     Status_LastAppliedReplicas := c_zero int32C; Status_ShardDetails := [];
     Status_ObservedGeneration := c_zero int64C; Status_LastReshardToken := c_zero strC;
     Status_LastFailoverToken := c_zero strC; Status_LastPasswordRotationToken := c_zero strC;
     Status_LastTLSCertFingerprint := c_zero strC; Status_Conditions := [] |}
  (λ x, [entry "phase" true strC (Status_Phase x); entry "readyReplicas" true int32C (Status_ReadyReplicas x);
         entry "primary" true strC (Status_Primary x);
         entry "primaryDownSince" true (optC timeC) (Status_PrimaryDownSince x);
         entry "quorumDownSince" true (optC timeC) (Status_QuorumDownSince x);
         entry "internalEndpoint" true strC (Status_InternalEndpoint x);
         entry "shards" true int32C (Status_Shards x); entry "readyShards" true int32C (Status_ReadyShards x);
         entry "clusterInitialized" true boolC (Status_ClusterInitialized x);
         entry "lastAppliedReplicas" true int32C (Status_LastAppliedReplicas x);
         entry "shardDetails" true (listC shardStatusC) (Status_ShardDetails x);
         entry "observedGeneration" true int64C (Status_ObservedGeneration x);
         entry "lastReshardToken" true strC (Status_LastReshardToken x);
         entry "lastFailoverToken" true strC (Status_LastFailoverToken x);
         entry "lastPasswordRotationToken" true strC (Status_LastPasswordRotationToken x);
         entry "lastTLSCertFingerprint" true strC (Status_LastTLSCertFingerprint x);
         entry "conditions" true (listC conditionC) (Status_Conditions x)])
  (λ kvs x,
     f0 ← decField strC kvs "phase" (Status_Phase x);
     f1 ← decField int32C kvs "readyReplicas" (Status_ReadyReplicas x);
     f2 ← decField strC kvs "primary" (Status_Primary x);
     f3 ← decField (optC timeC) kvs "primaryDownSince" (Status_PrimaryDownSince x);
     f4 ← decField (optC timeC) kvs "quorumDownSince" (Status_QuorumDownSince x);
     f5 ← decField strC kvs "internalEndpoint" (Status_InternalEndpoint x);
     f6 ← decField int32C kvs "shards" (Status_Shards x);
     f7 ← decField int32C kvs "readyShards" (Status_ReadyShards x);
     f8 ← decField boolC kvs "clusterInitialized" (Status_ClusterInitialized x);
     f9 ← decField int32C kvs "lastAppliedReplicas" (Status_LastAppliedReplicas x);
     f10 ← decField (listC shardStatusC) kvs "shardDetails" (Status_ShardDetails x);
     f11 ← decField int64C kvs "observedGeneration" (Status_ObservedGeneration x);
     f12 ← decField strC kvs "lastReshardToken" (Status_LastReshardToken x);
     f13 ← decField strC kvs "lastFailoverToken" (Status_LastFailoverToken x);
     f14 ← decField strC kvs "lastPasswordRotationToken" (Status_LastPasswordRotationToken x);
     f15 ← decField strC kvs "lastTLSCertFingerprint" (Status_LastTLSCertFingerprint x);
     f16 ← decField (listC conditionC) kvs "conditions" (Status_Conditions x);
     Some {| Status_Phase := f0; Status_ReadyReplicas := f1; Status_Primary := f2; Status_PrimaryDownSince := f3;
            Status_QuorumDownSince := f4; Status_InternalEndpoint := f5; Status_Shards := f6;
            Status_ReadyShards := f7; Status_ClusterInitialized := f8; Status_LastAppliedReplicas := f9;
            Status_ShardDetails := f10; Status_ObservedGeneration := f11; Status_LastReshardToken := f12;
            Status_LastFailoverToken := f13; Status_LastPasswordRotationToken := f14;
            Status_LastTLSCertFingerprint := f15; Status_Conditions := f16 |}).
Definition valkeyACLUserC : Codec ValkeyACLUser := structC
  {| User_Name := c_zero strC; User_PasswordSecret := None; User_Rules := c_zero strC |}
  (λ x, [entry "name" false strC (User_Name x);
         entry "passwordSecret" true (optC secretKeyReferenceC) (User_PasswordSecret x);
         entry "rules" true strC (User_Rules x)])
  (λ kvs x,
     f0 ← decField strC kvs "name" (User_Name x);
     f1 ← decField (optC secretKeyReferenceC) kvs "passwordSecret" (User_PasswordSecret x);
     f2 ← decField strC kvs "rules" (User_Rules x);
     Some {| User_Name := f0; User_PasswordSecret := f1; User_Rules := f2 |}).
Definition valkeyACLSpecC : Codec ValkeyACLSpec := structC
  {| ACL_ClusterRef := c_zero localRefC; ACL_Users := [] |}
  (λ x, [entry "clusterRef" false localRefC (ACL_ClusterRef x);
         entry "users" true (listC valkeyACLUserC) (ACL_Users x)])
  (λ kvs x,
     f0 ← decField localRefC kvs "clusterRef" (ACL_ClusterRef x);
     f1 ← decField (listC valkeyACLUserC) kvs "users" (ACL_Users x);
     Some {| ACL_ClusterRef := f0; ACL_Users := f1 |}).
Definition valkeyACLStatusC : Codec ValkeyACLStatus := structC
  {| ACL_AppliedUsers := []; ACL_ObservedGeneration := c_zero int64C; ACL_Conditions := [] |}
  (λ x, [entry "appliedUsers" true (listC strC) (ACL_AppliedUsers x);
         entry "observedGeneration" true int64C (ACL_ObservedGeneration x);
         entry "conditions" true (listC conditionC) (ACL_Conditions x)])
  (λ kvs x,
     f0 ← decField (listC strC) kvs "appliedUsers" (ACL_AppliedUsers x);
     f1 ← decField int64C kvs "observedGeneration" (ACL_ObservedGeneration x);
     f2 ← decField (listC conditionC) kvs "conditions" (ACL_Conditions x);
     Some {| ACL_AppliedUsers := f0; ACL_ObservedGeneration := f1; ACL_Conditions := f2 |}).

End codecs.
