(* ===== verification/DeepCopy.v ===== *)
(** * DeepCopy: Go's memory, and the steps deep copies are made of

    Everywhere else in the development an object is a value, so that copying it means nothing.  In
    the code it is a struct whose pointers, slices and maps may be shared, and every status patch
    relies on [DeepCopy] for its base: [client.MergeFrom(vc.DeepCopy())] and then assignments to
    [vc].  Here is the memory these functions work on: a [heap] of variables, arrays and maps; the
    [content] of a Go value, read through all its references ([denotes]); and the statements
    controller-gen emits.  [deepOf f c] says that [f] copies content [c] into new memory alone. *)

From S2P Require Import Prelude GoStd Kube Api.

(** ** Values and memory *)
Inductive base := BStr (s : string) | BInt (n : Z) | BBool (b : bool).
Abbreviation loc := positive (only parsing).
(** A nil pointer, slice or map is [VNil]; a slice is a window of an array; [VZero] is what [new] and [make] put there. *)
Inductive val :=
  | VBase (b : base)
  | VZero
  | VNil
  | VPtr (l : loc)
  | VSlice (l : loc) (off len : nat)
  | VMap (l : loc)
  | VStruct (fields : list (string * val)).
Inductive cell := Var (v : val) | Arr (vs : list val) | Dict (m : gmap string val).
Abbreviation heap := (gmap positive cell).

(** Code over the memory; [None] is a run-time panic. *)
Definition heapM (A : Type) : Type := heap → option (A * heap).
#[global] Instance heapM_ret : MRet heapM := λ A a h, Some (a, h).
#[global] Instance heapM_bind : MBind heapM := λ A B k p h, match p h with Some (a, h') => k a h' | None => None end.
Definition panic {A} : heapM A := λ _, None.
Definition alloc (c : cell) : heapM loc := λ h, let l := fresh (dom h) in Some (l, <[l := c]> h).
Definition load (l : loc) : heapM cell := λ h, (λ c, (c, h)) <$> h !! l.
Definition store (l : loc) (c : cell) : heapM () := λ h, match h !! l with Some _ => Some (tt, <[l := c]> h) | None => None end.
(** [*p], [s[i]], [s[i] = v], [len(s)]. *)
Definition deref (l : loc) : heapM val := c ← load l; match c with Var v => mret v | _ => panic end.
Definition index (l : loc) (i : nat) : heapM val :=
  c ← load l; match c with Arr vs => match vs !! i with Some v => mret v | None => panic end | _ => panic end.
Definition assign (l : loc) (i : nat) (v : val) : heapM () :=
  c ← load l; match c with Arr vs => if i <? length vs then store l (Arr (<[i := v]> vs)) else panic | _ => panic end.
(** [x.f] and [x.f = v]. *)
Fixpoint fieldOf (f : string) (fs : list (string * val)) : option val :=
  match fs with [] => None | (n, v) :: rest => if f == n then Some v else fieldOf f rest end.
Definition setField (f : string) (v : val) (fs : list (string * val)) : list (string * val) :=
  (λ '(n, x), (n, if f == n then v else x)) <$> fs.

(** ** The statements of the generated functions *)

(** [out.F = in.F], and [**out = **in] inside another statement. *)
Definition plain (v : val) : heapM val := mret v.
(** [if in.F != nil { *out = new(T); f }]; also the body of every [DeepCopy]. *)
Definition newThen (f : val → heapM val) (v : val) : heapM val :=
  match v with
  | VNil => mret VNil
  | VPtr l => out ← alloc (Var VZero); x ← deref l; y ← f x; _ ← store out (Var y); mret (VPtr out)
  | _ => panic
  end.
(** [*out = make([]T, len( *in)); copy( *out, *in)]. *)
Definition makeCopy (v : val) : heapM val :=
  match v with
  | VNil => mret VNil
  | VSlice l off n =>
      c ← load l;
      match c with
      | Arr vs => if off + n <=? length vs then out ← alloc (Arr (take n (drop off vs))); mret (VSlice out 0 n) else panic
      | _ => panic
      end
  | _ => panic
  end.
(** [for i := range *in { ( *in)[i].DeepCopyInto(&( *out)[i]) }]. *)
Fixpoint eachElem (f : val → heapM val) (l : loc) (off : nat) (out : loc) (i n : nat) : heapM () :=
  match n with
  | O => mret tt
  | S n' => x ← index l (off + i); y ← f x; _ ← assign out i y; eachElem f l off out (S i) n'
  end.
Definition makeEach (f : val → heapM val) (v : val) : heapM val :=
  match v with
  | VNil => mret VNil
  | VSlice l off n => out ← alloc (Arr (replicate n VZero)); _ ← eachElem f l off out 0 n; mret (VSlice out 0 n)
  | _ => panic
  end.
(** [*out = make(map[K]T, len( *in)); for key, val := range *in { ( *out)[key] = val }]. *)
Definition makeMap (v : val) : heapM val :=
  match v with
  | VNil => mret VNil
  | VMap l =>
      c ← load l;
      match c with
      | Dict m => out ← alloc (Dict (foldr (λ '(key, val) o, <[key := val]> o) ∅ (map_to_list m))); mret (VMap out)
      | _ => panic
      end
  | _ => panic
  end.
(** The body of a [DeepCopyInto]: [*out = *in], and one statement per listed field. *)
Fixpoint fieldStmts (stmts : list (string * (val → heapM val))) (inp out : list (string * val)) : heapM val :=
  match stmts with
  | [] => mret (VStruct out)
  | (F, f) :: rest =>
      match fieldOf F inp with Some v => y ← f v; fieldStmts rest inp (setField F y out) | None => panic end
  end.
Definition intoStruct (stmts : list (string * (val → heapM val))) (v : val) : heapM val :=
  match v with VStruct fs => fieldStmts stmts fs fs | _ => panic end.
(** [if c := in.DeepCopy(); c != nil { return c }; return nil]. *)
Definition asObject (deepCopy : val → heapM val) (v : val) : heapM val :=
  c ← deepCopy v; mret (match c with VNil => VNil | _ => c end).

(** ** Contents *)
Inductive content :=
  | CBase (b : base)
  | CPtr (c : option content)
  | CSlice (cs : list content)
  | CMap (m : gmap string base)
  | CStruct (fields : list (string * content)).

(** [v], read in [h], is [c].  A nil slice or map is an empty one. *)
Fixpoint denotes (h : heap) (v : val) (c : content) {struct c} : Prop :=
  match c with
  | CBase b => v = VBase b
  | CPtr None => v = VNil
  | CPtr (Some c) => ∃ l x, v = VPtr l ∧ h !! l = Some (Var x) ∧ denotes h x c
  | CSlice cs =>
      let fix elems (vs : list val) (cs : list content) {struct cs} : Prop :=
        match vs, cs with [], [] => True | v :: vs, c :: cs => denotes h v c ∧ elems vs cs | _, _ => False end in
      v = VNil ∧ cs = [] ∨
      ∃ l off n vs, v = VSlice l off n ∧ h !! l = Some (Arr vs) ∧ off + n ≤ length vs ∧ elems (take n (drop off vs)) cs
  | CMap m => v = VNil ∧ m = ∅ ∨ ∃ l, v = VMap l ∧ h !! l = Some (Dict (VBase <$> m))
  | CStruct fs =>
      let fix fields (vs : list (string * val)) (fs : list (string * content)) {struct fs} : Prop :=
        match vs, fs with
        | [], [] => True
        | (n, v) :: vs, (n', c) :: fs => n = n' ∧ denotes h v c ∧ fields vs fs
        | _, _ => False
        end in
      ∃ vs, v = VStruct vs ∧ fields vs fs
  end.
(** Content without references. *)
Fixpoint flat (c : content) : bool :=
  match c with
  | CBase _ => true
  | CStruct fs => forallb (λ '(_, c), flat c) fs
  | _ => false
  end.
(** Induction through the lists. *)
Fixpoint content_rect' (P : content → Prop) (Hb : ∀ b, P (CBase b)) (Hn : P (CPtr None)) (Hp : ∀ c, P c → P (CPtr (Some c)))
    (Hs : ∀ cs, Forall P cs → P (CSlice cs)) (Hm : ∀ m, P (CMap m)) (Ht : ∀ fs, Forall (λ '(_, c), P c) fs → P (CStruct fs)) (c : content) : P c :=
  match c with
  | CBase b => Hb b
  | CPtr None => Hn
  | CPtr (Some c) => Hp c (content_rect' P Hb Hn Hp Hs Hm Ht c)
  | CSlice cs => Hs cs ((fix go cs := match cs return Forall P cs with [] => Forall_nil_2 _ | c :: cs => Forall_cons_2 _ _ _ (content_rect' P Hb Hn Hp Hs Hm Ht c) (go cs) end) cs)
  | CMap m => Hm m
  | CStruct fs => Ht fs ((fix go fs := match fs return Forall (λ '(_, c), P c) fs with
      | [] => Forall_nil_2 _
      | (n, c) :: fs => Forall_cons_2 (λ '(_, c), P c) (n, c) fs (content_rect' P Hb Hn Hp Hs Hm Ht c) (go fs) end) fs)
  end.

Definition fieldsDenote (h : heap) : list (string * val) → list (string * content) → Prop :=
  Forall2 (λ '(n, v) '(n', c), n = n' ∧ denotes h v c).
Lemma denotes_slice h v cs : denotes h v (CSlice cs) ↔ v = VNil ∧ cs = [] ∨
  ∃ l off n vs, v = VSlice l off n ∧ h !! l = Some (Arr vs) ∧ off + n ≤ length vs ∧ Forall2 (denotes h) (take n (drop off vs)) cs.
Proof.
  assert (∀ vs cs, (fix elems (vs : list val) (cs : list content) {struct cs} : Prop :=
    match vs, cs with [], [] => True | v :: vs, c :: cs => denotes h v c ∧ elems vs cs | _, _ => False end) vs cs ↔ Forall2 (denotes h) vs cs) as E.
  { clear. induction vs as [|v vs IH]; intros [|c cs]; try (by split; [|inversion 1]). rewrite Forall2_cons, IH. done. }
  cbn [denotes]. by setoid_rewrite E.
Qed.
Lemma denotes_struct h v fs : denotes h v (CStruct fs) ↔ ∃ vs, v = VStruct vs ∧ fieldsDenote h vs fs.
Proof.
  assert (∀ vs fs, (fix fields (vs : list (string * val)) (fs : list (string * content)) {struct fs} : Prop :=
    match vs, fs with
    | [], [] => True
    | (n, v) :: vs, (n', c) :: fs => n = n' ∧ denotes h v c ∧ fields vs fs
    | _, _ => False
    end) vs fs ↔ fieldsDenote h vs fs) as E.
  { clear. unfold fieldsDenote. induction vs as [|[n v] vs IH]; intros [|[n' c] fs]; try (by split; [|inversion 1]). rewrite Forall2_cons, IH. tauto. }
  cbn [denotes]. by setoid_rewrite E.
Qed.

(** More memory changes nothing. *)
Lemma denotes_mono h h' v c : h ⊆ h' → denotes h v c → denotes h' v c.
Proof.
  intros Hh. revert v. induction c as [b| |c IH|cs IH|m|fs IH] using content_rect'; intros v.
  - done.
  - done.
  - intros (l & x & -> & El & Hx). exists l, x. split_and!; [done|by eapply lookup_weaken|by apply IH].
  - rewrite !denotes_slice. intros [?|(l & off & n & vs & -> & El & Hle & Hf)]; [by left|right]. exists l, off, n, vs.
    split_and!; [done|by eapply lookup_weaken|done|]. clear -IH Hf. revert IH. induction Hf; intros Ha; [constructor|].
    apply Forall_cons in Ha as [Hc Ha]. constructor; auto.
  - intros [?|(l & -> & El)]; [by left|right]. exists l. split; [done|by eapply lookup_weaken].
  - rewrite !denotes_struct. intros (vs & -> & Hf). exists vs. split; [done|]. clear -IH Hf. revert IH.
    induction Hf as [|[n x] [n' c] vs fs [-> Hx] Hf IHf]; intros Ha; [constructor|]. apply Forall_cons in Ha as [Hc Ha]. constructor; [by split; [|apply Hc]|by apply IHf].
Qed.
Lemma denotes_flat h h' v c : flat c = true → denotes h v c → denotes h' v c.
Proof.
  revert v. induction c as [b| |c IH|cs IH|m|fs IH] using content_rect'; intros v Hflat; try done.
  rewrite !denotes_struct. intros (vs & -> & Hf). exists vs. split; [done|]. cbn in Hflat. clear -IH Hf Hflat. revert IH Hflat.
  induction Hf as [|[n x] [n' c] vs fs [-> Hx] Hf IHf]; intros Ha Hfl; [constructor|]. apply Forall_cons in Ha as [Hc Ha].
  cbn in Hfl. apply andb_prop in Hfl as [H1 H2]. constructor; [by split; [|apply Hc]|by apply IHf].
Qed.

(** ** Deep copies *)

(** [f] succeeds on every value that reads as [c], leaves all memory as it was, and its result reads
    as [c] in the new memory alone: it shares nothing with what was there. *)
Definition deepOf (f : val → heapM val) (c : content) : Prop :=
  ∀ h v, denotes h v c → ∃ v' h', f v h = Some (v', h') ∧ h ⊆ h' ∧ denotes (h' ∖ h) v' c.

Lemma bind_Some {A B} (p : heapM A) (k : A → heapM B) h a h' : p h = Some (a, h') → (p ≫= k) h = k a h'.
Proof. unfold mbind, heapM_bind. by intros ->. Qed.
Lemma alloc_Some c h : alloc c h = Some (fresh (dom h), <[fresh (dom h) := c]> h) ∧ h !! fresh (dom h) = None.
Proof. split; [done|]. apply not_elem_of_dom, is_fresh. Qed.
Lemma deref_Some l x h : h !! l = Some (Var x) → deref l h = Some (x, h).
Proof. intros E. unfold deref. rewrite (bind_Some _ _ _ (Var x) h); [done|]. unfold load. by rewrite E. Qed.
Lemma index_Some l i vs x h : h !! l = Some (Arr vs) → vs !! i = Some x → index l i h = Some (x, h).
Proof. intros E Ex. unfold index. rewrite (bind_Some _ _ _ (Arr vs) h); [by rewrite Ex|]. unfold load. by rewrite E. Qed.
Lemma assign_Some l i v vs h : h !! l = Some (Arr vs) → i < length vs → assign l i v h = Some (tt, <[l := Arr (<[i := v]> vs)]> h).
Proof.
  intros E Hi. unfold assign. rewrite (bind_Some _ _ _ (Arr vs) h); [|unfold load; by rewrite E].
  apply Nat.ltb_lt in Hi. rewrite Hi. unfold store. by rewrite E.
Qed.

(** Memory that is new stays new. *)
Lemma diff_lookup (h h' : heap) l x : (h' ∖ h) !! l = Some x ↔ h' !! l = Some x ∧ h !! l = None.
Proof. apply lookup_difference_Some. Qed.
Lemma diff_mono (h h0 h1 h2 : heap) : h0 ⊆ h → h1 ⊆ h2 → h1 ∖ h ⊆ h2 ∖ h0.
Proof.
  intros H0 H12. apply map_subseteq_spec. intros l x [E1 E2]%diff_lookup. apply diff_lookup. split; [by eapply lookup_weaken|].
  by eapply lookup_weaken_None.
Qed.

Lemma deep_plain c : flat c = true → deepOf plain c.
Proof. intros Hc h v Hv. exists v, h. split_and!; [done..|by eapply denotes_flat]. Qed.
Lemma deep_newThen f (c : option content) : (∀ x, c = Some x → deepOf f x) → deepOf (newThen f) (CPtr c).
Proof.
  intros Hf h v. destruct c as [c|]; [|intros ->; exists VNil, h; by split_and!]. intros (l & x & -> & El & Hx). cbn [newThen].
  destruct (alloc_Some (Var VZero) h) as [Ea Hfresh]. set (out := fresh (dom h)) in *. set (h1 := <[out := Var VZero]> h) in *.
  assert (h ⊆ h1) as Hs1 by (by apply insert_subseteq).
  destruct (Hf c eq_refl h1 x (denotes_mono _ _ _ _ Hs1 Hx)) as (y & h2 & Ef & Hs2 & Hy).
  assert (is_Some (h2 !! out)) as [z Ez] by (exists (Var VZero); eapply lookup_weaken; [apply lookup_insert_eq|exact Hs2]).
  exists (VPtr out), (<[out := Var y]> h2). split_and!.
  - rewrite (bind_Some _ _ _ _ _ Ea), (bind_Some _ _ _ _ _ (deref_Some l x h1 (lookup_weaken _ _ _ _ El Hs1))), (bind_Some _ _ _ _ _ Ef).
    unfold mbind, heapM_bind, store. by rewrite Ez.
  - apply insert_subseteq_r; [done|]. by trans h1.
  - exists out, y. split_and!; [done|apply diff_lookup; split; [apply lookup_insert_eq|done]|].
    eapply denotes_mono; [|exact Hy]. apply map_subseteq_spec. intros l' w [E1 E2]%diff_lookup. apply diff_lookup.
    apply lookup_insert_None in E2 as [E2 Hne]. by rewrite lookup_insert_ne.
Qed.
Lemma Forall2_flat h h' vs cs : Forall (λ c, flat c = true) cs → Forall2 (denotes h) vs cs → Forall2 (denotes h') vs cs.
Proof. intros Hc Hf. induction Hf; constructor; apply Forall_cons in Hc as [? ?]; [by eapply denotes_flat|by auto]. Qed.
Lemma deep_makeCopy cs : Forall (λ c, flat c = true) cs → deepOf makeCopy (CSlice cs).
Proof.
  intros Hc h v. rewrite denotes_slice. intros [[-> ->]|(l & off & n & vs & -> & El & Hle & Hf)]; [by exists VNil, h; split_and!; [..|left]|].
  cbn [makeCopy]. destruct (alloc_Some (Arr (take n (drop off vs))) h) as [Ea Hfresh]. eexists _, _. split_and!.
  - rewrite (bind_Some _ _ _ (Arr vs) h) by (unfold load; by rewrite El). apply Nat.leb_le in Hle. rewrite Hle. by rewrite (bind_Some _ _ _ _ _ Ea).
  - by apply insert_subseteq.
  - rewrite denotes_slice. right. eexists _, 0, n, _. split_and!; [done|apply diff_lookup; split; [apply lookup_insert_eq|done]|..].
    { cbn. rewrite length_take, length_drop. lia. }
    rewrite drop_0, take_take, Nat.min_id. by eapply Forall2_flat.
Qed.
Lemma deep_makeMap m : deepOf makeMap (CMap m).
Proof.
  intros h v [[-> ->]|(l & -> & El)]; [by exists VNil, h; split_and!; [..|left]|]. cbn [makeMap].
  set (m' := VBase <$> m) in *. assert (foldr (λ '(key, val) o, <[key := val]> o) ∅ (map_to_list m') = m') as Em.
  { transitivity (list_to_map (map_to_list m') : gmap string val); [|apply list_to_map_to_list].
    induction (map_to_list m') as [|[k x] l' IH]; [done|]. cbn. by rewrite IH. }
  destruct (alloc_Some (Dict m') h) as [Ea Hfresh]. eexists _, _. split_and!.
  - rewrite (bind_Some _ _ _ (Dict m') h) by (unfold load; by rewrite El). rewrite Em. by rewrite (bind_Some _ _ _ _ _ Ea).
  - by apply insert_subseteq.
  - right. eexists. split; [done|]. apply diff_lookup. split; [apply lookup_insert_eq|done].
Qed.

(** The loop over a slice: the elements before [i] are copied, the rest of the new array is still zero. *)
Lemma eachElem_runs f h l off vs out cs n : ∀ i hk dones, Forall (deepOf f) cs → h !! l = Some (Arr vs) → h !! out = None →
  Forall2 (denotes h) (take n (drop (off + i) vs)) (drop i cs) → length cs = i + n → off + i + n ≤ length vs →
  h ⊆ hk → hk !! out = Some (Arr (dones ++ replicate n VZero)) → length dones = i → Forall2 (denotes (delete out (hk ∖ h))) dones (take i cs) →
  ∃ h' ys, eachElem f l off out i n hk = Some (tt, h') ∧ h ⊆ h' ∧ h' !! out = Some (Arr ys) ∧ length ys = i + n ∧ Forall2 (denotes (delete out (h' ∖ h))) ys cs.
Proof.
  induction n as [|n IH]; intros i hk dones Hdeep El Hout Hin Hlen Hle Hsub Eout Hd Hdones.
  { exists hk, dones. rewrite app_nil_r in Eout. split_and!; [done..|lia|]. by rewrite take_ge in Hdones by lia. }
  assert (off + i < length vs) as [x Ex]%lookup_lt_is_Some_2 by lia. rewrite (drop_S _ _ _ Ex) in Hin. cbn [take] in Hin.
  assert (i < length cs) as [c Ec]%lookup_lt_is_Some_2 by lia. rewrite (drop_S _ _ _ Ec) in Hin. apply Forall2_cons in Hin as [Hx Hin].
  assert (l ≠ out) as Hne by congruence. cbn [eachElem].
  destruct (proj1 (Forall_lookup _ _) Hdeep i c Ec hk x (denotes_mono _ _ _ _ Hsub Hx)) as (y & h2 & Ef & Hs2 & Hy).
  pose proof (lookup_weaken _ _ _ _ Eout Hs2) as Eout2. set (h3 := <[out := Arr ((dones ++ [y]) ++ replicate n VZero)]> h2).
  assert (delete out (hk ∖ h) ⊆ delete out (h3 ∖ h)) as Hold.
  { unfold h3. apply map_subseteq_spec. intros k z [Hk [E1 E2]%diff_lookup]%lookup_delete_Some. apply lookup_delete_Some. split; [done|].
    apply diff_lookup. rewrite lookup_insert_ne by done. split; [by eapply lookup_weaken|done]. }
  assert (h2 ∖ hk ⊆ delete out (h3 ∖ h)) as Hnew.
  { unfold h3. apply map_subseteq_spec. intros k z [E1 E2]%diff_lookup. assert (out ≠ k) by congruence. apply lookup_delete_Some. split; [done|].
    apply diff_lookup. rewrite lookup_insert_ne by done. split; [done|]. by eapply lookup_weaken_None. }
  destruct (IH (S i) h3 (dones ++ [y])) as (h' & ys & Er & Hs' & Eo' & Hl' & Hf'); try done.
  - by rewrite Nat.add_succ_r.
  - lia.
  - lia.
  - apply insert_subseteq_r; [done|]. by trans hk.
  - unfold h3. apply lookup_insert_eq.
  - rewrite length_app. cbn. lia.
  - rewrite (take_S_r _ _ _ Ec). apply Forall2_app; [|constructor; [|constructor]].
    + eapply Forall2_impl; [exact Hdones|]. intros ? ?. by apply denotes_mono.
    + by eapply denotes_mono.
  - exists h', ys. split_and!; [|done..|lia|done].
    rewrite (bind_Some _ _ _ _ _ (index_Some _ _ _ _ _ (lookup_weaken _ _ _ _ El Hsub) Ex)), (bind_Some _ _ _ _ _ Ef).
    rewrite (bind_Some _ _ _ _ _ (assign_Some out i y _ h2 Eout2 ltac:(rewrite length_app, length_replicate; lia))).
    assert (<[i := y]> (dones ++ replicate (S n) VZero) = (dones ++ [y]) ++ replicate n VZero) as ->; [|exact Er].
    rewrite insert_app_r_alt, Hd, Nat.sub_diag by lia. by rewrite <- (assoc_L (++)).
Qed.
Lemma deep_makeEach f cs : Forall (deepOf f) cs → deepOf (makeEach f) (CSlice cs).
Proof.
  intros Hc h v. rewrite denotes_slice. intros [[-> ->]|(l & off & n & vs & -> & El & Hle & Hf)]; [by exists VNil, h; split_and!; [..|left]|].
  cbn [makeEach]. destruct (alloc_Some (Arr (replicate n VZero)) h) as [Ea Hfresh]. set (out := fresh (dom h)) in *.
  pose proof (Forall2_length _ _ _ Hf) as Hlen. rewrite length_take, length_drop in Hlen.
  destruct (eachElem_runs f h l off vs out cs n 0 (<[out := Arr (replicate n VZero)]> h) []) as (h' & ys & Er & Hs & Eo & Hl & Hys); try done.
  - by rewrite Nat.add_0_r, drop_0.
  - lia.
  - lia.
  - by apply insert_subseteq.
  - apply lookup_insert_eq.
  - exists (VSlice out 0 n), h'. split_and!; [|done|].
    + by rewrite (bind_Some _ _ _ _ _ Ea), (bind_Some _ _ _ _ _ Er).
    + rewrite denotes_slice. right. exists out, 0, n, ys. split_and!; [done|by apply diff_lookup|lia|]. rewrite drop_0, take_ge by lia.
      eapply Forall2_impl; [exact Hys|]. intros ? ?. apply denotes_mono, delete_subseteq.
Qed.

(** Fields by name. *)
Fixpoint assoc (f : string) (fs : list (string * content)) : option content :=
  match fs with [] => None | (n, c) :: rest => if f == n then Some c else assoc f rest end.
Lemma fieldOf_denotes h F vs fs c : fieldsDenote h vs fs → assoc F fs = Some c → ∃ v, fieldOf F vs = Some v ∧ denotes h v c.
Proof.
  induction 1 as [|[n v] [n' c'] vs fs [-> Hv] Hf IH]; cbn; [done|]. case_bool_decide; [|done]. intros [= <-]. eauto.
Qed.
Lemma setField_denotes h F y (todo : list string) outs fs c : NoDup fs.*1 → assoc F fs = Some c → denotes h y c →
  Forall2 (λ '(n, v) '(n', c), n = n' ∧ (n ∉ F :: todo → denotes h v c)) outs fs →
  Forall2 (λ '(n, v) '(n', c), n = n' ∧ (n ∉ todo → denotes h v c)) (setField F y outs) fs.
Proof.
  intros Hn Hc Hy. induction 1 as [|[n v] [n' c'] vs fs [-> Hv] Hf IH]; [done|]. cbn in Hc. cbn [fmap list_fmap] in Hn. apply NoDup_cons in Hn as [Hnot Hn].
  constructor; [split; [done|]|].
  - case_bool_decide as E; [|intros Hin; apply Hv; rewrite not_elem_of_cons; by split; [intros ->|]]. by simplify_eq.
  - case_bool_decide as E; [|by apply IH]. subst. clear IH. induction Hf as [|[n v1] [n2 c2] vs fs [-> Hv1] Hf IH]; [constructor|].
    cbn in Hnot. rewrite not_elem_of_cons in Hnot. destruct Hnot as [Hne Hnot]. cbn in Hn. apply NoDup_cons in Hn as [_ Hn]. constructor; [split; [done|]|by apply IH].
    case_bool_decide; [done|]. intros Hin. apply Hv1. rewrite not_elem_of_cons. by split.
Qed.
(** The statements: each settles its field, in new memory. *)
Lemma fieldStmts_runs h vs fs stmts : fieldsDenote h vs fs → NoDup fs.*1 →
  Forall (λ '(F, f), ∃ c, assoc F fs = Some c ∧ deepOf f c) stmts → ∀ hk outs, h ⊆ hk →
  Forall2 (λ '(n, v) '(n', c), n = n' ∧ (n ∉ stmts.*1 → denotes (hk ∖ h) v c)) outs fs →
  ∃ outs' h', fieldStmts stmts vs outs hk = Some (VStruct outs', h') ∧ h ⊆ h' ∧ fieldsDenote (h' ∖ h) outs' fs.
Proof.
  intros Hin Hn. induction stmts as [|[F f] stmts IH]; intros Hst hk outs Hsub Hout.
  { exists outs, hk. split_and!; [done..|]. eapply Forall2_impl; [exact Hout|]. intros [n v] [n' c] [-> H]. split; [done|]. apply H, not_elem_of_nil. }
  apply Forall_cons in Hst as [(c & Ec & Hdeep) Hst]. destruct (fieldOf_denotes h F vs fs c Hin Ec) as (v & Ev & Hv).
  destruct (Hdeep hk v (denotes_mono _ _ _ _ Hsub Hv)) as (y & h2 & Ef & Hs2 & Hy).
  destruct (IH Hst h2 (setField F y outs)) as (outs' & h' & Er & Hs' & Hout').
  - by trans hk.
  - eapply setField_denotes; [done|exact Ec| |].
    + eapply denotes_mono; [|exact Hy]. by apply diff_mono.
    + eapply Forall2_impl; [exact Hout|]. intros [n x] [n' c'] [-> H]. split; [done|]. intros Hnot. eapply denotes_mono; [|by apply H]. by apply diff_mono.
  - exists outs', h'. split_and!; [|done..]. cbn [fieldStmts]. rewrite Ev. by rewrite (bind_Some _ _ _ _ _ Ef).
Qed.
(** A struct is copied deeply when every field with references has a statement that copies it deeply. *)
Lemma deep_intoStruct stmts fs : NoDup fs.*1 → Forall (λ '(F, f), ∃ c, assoc F fs = Some c ∧ deepOf f c) stmts →
  Forall (λ '(n, c), n ∈ stmts.*1 ∨ flat c = true) fs → deepOf (intoStruct stmts) (CStruct fs).
Proof.
  intros Hn Hst Hrest h v. rewrite denotes_struct. intros (vs & -> & Hvs). cbn [intoStruct].
  destruct (fieldStmts_runs h vs fs stmts Hvs Hn Hst h vs) as (outs & h' & Er & Hs & Ho); [done| |].
  - clear -Hvs Hrest. revert Hrest. induction Hvs as [|[n v] [n' c] vs fs [-> Hv] Hf IH]; intros Hr; [constructor|].
    apply Forall_cons in Hr as [H Hr]. constructor; [split; [done|]|by apply IH]. intros Hnot. destruct H; [done|by eapply denotes_flat].
  - exists (VStruct outs), h'. split_and!; [done..|]. rewrite denotes_struct. eauto.
Qed.
Lemma deep_asObject f c : deepOf f c → deepOf (asObject f) c.
Proof.
  intros Hf h v Hv. destruct (Hf h v Hv) as (v' & h' & E & Hs & Hd). exists v', h'. split_and!; [|done..].
  unfold asObject. rewrite (bind_Some _ _ _ _ _ E). by destruct v'.
Qed.

(** What a deep copy is for: writes to the old memory do not show in the copy, and writes to the new memory
    do not show in the original. *)
Lemma deep_isolates f c h v : deepOf f c → denotes h v c → ∃ v' h', f v h = Some (v', h') ∧ h ⊆ h' ∧
  (∀ h2, (∀ l, l ∉ dom h → h2 !! l = h' !! l) → denotes h2 v' c) ∧ (∀ h2, (∀ l, l ∈ dom h → h2 !! l = h' !! l) → denotes h2 v c).
Proof.
  intros Hf Hv. destruct (Hf h v Hv) as (v' & h' & E & Hs & Hd). exists v', h'. split_and!; [done..| |].
  - intros h2 H. eapply denotes_mono; [|exact Hd]. apply map_subseteq_spec. intros l x [E1 E2]%diff_lookup. rewrite H; [done|by apply not_elem_of_dom].
  - intros h2 H. eapply denotes_mono; [|exact Hv]. apply map_subseteq_spec. intros l x E1. rewrite H; [by eapply lookup_weaken|by apply elem_of_dom_2 in E1].
Qed.

(** ** Contents of Go types *)
Definition strC (s : string) : content := CBase (BStr s).
Definition intC (n : Z) : content := CBase (BInt n).
Definition boolC (b : bool) : content := CBase (BBool b).
Definition ptrC {A} (f : A → content) (o : option A) : content := CPtr (f <$> o).
Definition sliceC {A} (f : A → content) (l : list A) : content := CSlice (f <$> l).
Definition strMapC (m : gmap string string) : content := CMap (BStr <$> m).
(** [corev1.LocalObjectReference], [metav1.TypeMeta] and [intstr.IntOrString]: structs of plain fields, copied by assignment. *)
Definition localObjectReferenceC (name : string) : content := CStruct [("Name", strC name)].
Definition TypeMeta : Type := string * string.
Definition typeMetaC (t : TypeMeta) : content := CStruct [("Kind", strC t.1); ("APIVersion", strC t.2)].
Definition intOrStringC (x : IntOrString) : content :=
  match x with
  | IntVal n => CStruct [("Type", intC 0); ("IntVal", intC n); ("StrVal", strC "")]
  | StrVal s => CStruct [("Type", intC 1); ("IntVal", intC 0); ("StrVal", strC s)]
  end.

(** Types of Kubernetes come with copy functions of their own, documented to be deep. *)
Record foreign (A : Type) := {
  foreignC : A → content;
  foreign_DeepCopyInto : val → heapM val;
  foreign_deep : ∀ x, deepOf foreign_DeepCopyInto (foreignC x)
}.
Arguments foreignC {A} _.
Arguments foreign_DeepCopyInto {A} _.
Arguments foreign_deep {A} _.
(** [resource.Quantity] has a [DeepCopy] on values and [metav1.Time] one on pointers. *)
Class K8sCopies := {
  k_ResourceRequirements : foreign ResourceRequirements;
  k_Toleration : foreign Opaque;
  k_Affinity : foreign Affinity;
  k_TopologySpreadConstraint : foreign TopologySpreadConstraint;
  k_PodSecurityContext : foreign PodSecurityContext;
  k_SecurityContext : foreign SecurityContext;
  k_NetworkPolicyPeer : foreign NetworkPolicyPeer;
  k_NetworkPolicyEgressRule : foreign NetworkPolicyEgressRule;
  k_Condition : foreign Condition;
  k_ObjectMeta : foreign ObjectMeta;
  k_ListMeta : foreign Opaque;
  k_Quantity : foreign Z;
  timeC : Z → content;
  time_DeepCopy : val → heapM val;
  time_deep : ∀ t, deepOf time_DeepCopy (ptrC timeC (Some t))
}.

(** [if in.F != nil { *out = ( *in).DeepCopy() }]. *)
Definition ifNotNil (f : val → heapM val) (v : val) : heapM val := match v with VNil => mret VNil | _ => f v end.

Lemma deep_ptr {A} g (f : A → content) o : (∀ x, deepOf g (f x)) → deepOf (newThen g) (ptrC f o).
Proof. intros H. apply deep_newThen. intros c. destruct o; intros [= <-]. apply H. Qed.
Lemma deep_each {A} g (f : A → content) l : (∀ x, deepOf g (f x)) → deepOf (makeEach g) (sliceC f l).
Proof. intros H. apply deep_makeEach, Forall_fmap, Forall_true. exact H. Qed.
Lemma deep_copy {A} (f : A → content) l : (∀ x, flat (f x) = true) → deepOf makeCopy (sliceC f l).
Proof. intros H. apply deep_makeCopy, Forall_fmap, Forall_true. exact H. Qed.
Lemma deep_strMap m : deepOf makeMap (strMapC m).
Proof. apply deep_makeMap. Qed.
Lemma deep_time `{K8sCopies} o : deepOf (ifNotNil time_DeepCopy) (ptrC timeC o).
Proof.
  intros h v Hv. destruct o as [t|]; [|rewrite Hv; exists VNil, h; by split_and!].
  destruct (time_deep t h v Hv) as (v' & h' & E & H'). exists v', h'. split; [|done]. destruct Hv as (l & x & -> & _). exact E.
Qed.
Lemma flat_intOrString x : flat (intOrStringC x) = true.
Proof. by destruct x. Qed.

Create HintDb deep.
#[export] Hint Resolve deep_ptr deep_each deep_copy deep_strMap deep_time deep_plain foreign_deep flat_intOrString : deep.
#[export] Hint Extern 0 (flat _ = true) => reflexivity : deep.
(** A [DeepCopyInto]: distinct names, each statement deep, no reference left out. *)
Ltac deep_struct :=
  apply deep_intoStruct;
  [ cbn [fmap list_fmap fst]; apply (bool_decide_unpack _); vm_compute; exact I
  | repeat (apply Forall_cons; split; [eexists; split; [reflexivity|by auto with deep]|]); apply Forall_nil; exact I
  | repeat (apply Forall_cons; split;
      [first [right; reflexivity|left; cbn [fmap list_fmap fst]; apply (bool_decide_unpack _); vm_compute; exact I]|]); apply Forall_nil; exact I ].

(** The copy holds what the original held, however the original is changed afterwards, and the other way round. *)
Definition isolates {A} (f : val → heapM val) (contentOf : A → content) : Prop :=
  ∀ (x : option A) h v, denotes h v (ptrC contentOf x) → ∃ v' h', f v h = Some (v', h') ∧ h ⊆ h' ∧
    (∀ h2, (∀ l, l ∉ dom h → h2 !! l = h' !! l) → denotes h2 v' (ptrC contentOf x)) ∧
    (∀ h2, (∀ l, l ∈ dom h → h2 !! l = h' !! l) → denotes h2 v (ptrC contentOf x)).
Lemma isolates_deep {A} f (contentOf : A → content) : (∀ x, deepOf f (ptrC contentOf x)) → isolates f contentOf.
Proof. intros H x h v Hv. by apply deep_isolates. Qed.
