(* ===== verification/DeepCopyBeta.v ===== *)
(** * DeepCopyBeta: the generated deep copies of the v1beta1 types (zz_generated.deepcopy.go)

    For every struct its content, field by field as the struct lists them, and its [DeepCopyInto],
    [DeepCopy] and [DeepCopyObject], with the lemma that the copy is deep.  [TypeMeta], which the
    rest of the development leaves out, is an argument here, and the lists of objects are added. *)

From S2P Require Import Prelude GoStd Kube Api DeepCopy.

Section copies.
Context `{K8sCopies}.

Definition AuthSpec_content (x : AuthSpec) : content :=
  CStruct [("Enabled", ptrC boolC (Auth_Enabled x)); ("ExistingSecret", strC (Auth_ExistingSecret x))].
Definition AuthSpec_DeepCopyInto : val → heapM val :=
  intoStruct [("Enabled", newThen plain)].
Definition AuthSpec_DeepCopy : val → heapM val := newThen AuthSpec_DeepCopyInto.
Lemma AuthSpec_deep x : deepOf AuthSpec_DeepCopyInto (AuthSpec_content x).
Proof. deep_struct. Qed.
#[local] Hint Resolve AuthSpec_deep : deep.

Definition S3Spec_content (x : S3Spec) : content :=
  CStruct [("Bucket", strC (S3_Bucket x)); ("Endpoint", strC (S3_Endpoint x)); ("Region", strC (S3_Region x)); ("Prefix", strC (S3_Prefix x));
          ("CredentialsSecret", strC (S3_CredentialsSecret x)); ("Encryption", strC (S3_Encryption x)); ("KMSKeyID", strC (S3_KMSKeyID x))].
Definition S3Spec_DeepCopyInto : val → heapM val :=
  intoStruct [].
Definition S3Spec_DeepCopy : val → heapM val := newThen S3Spec_DeepCopyInto.
Lemma S3Spec_deep x : deepOf S3Spec_DeepCopyInto (S3Spec_content x).
Proof. deep_struct. Qed.
#[local] Hint Resolve S3Spec_deep : deep.

Definition BackupSpec_content (x : BackupSpec) : content :=
  CStruct [("Enabled", boolC (Backup_Enabled x)); ("Schedule", strC (Backup_Schedule x)); ("S3", ptrC S3Spec_content (Backup_S3 x));
          ("Image", strC (Backup_Image x)); ("AWSCLIImage", strC (Backup_AWSCLIImage x)); ("Retention", ptrC intC (Backup_Retention x))].
Definition BackupSpec_DeepCopyInto : val → heapM val :=
  intoStruct [("S3", newThen plain); ("Retention", newThen plain)].
Definition BackupSpec_DeepCopy : val → heapM val := newThen BackupSpec_DeepCopyInto.
Lemma BackupSpec_deep x : deepOf BackupSpec_DeepCopyInto (BackupSpec_content x).
Proof. deep_struct. Qed.
#[local] Hint Resolve BackupSpec_deep : deep.

Definition CertIssuerRef_content (x : CertIssuerRef) : content :=
  CStruct [("Name", strC (Issuer_Name x)); ("Kind", strC (Issuer_Kind x)); ("Group", strC (Issuer_Group x))].
Definition CertIssuerRef_DeepCopyInto : val → heapM val :=
  intoStruct [].
Definition CertIssuerRef_DeepCopy : val → heapM val := newThen CertIssuerRef_DeepCopyInto.
Lemma CertIssuerRef_deep x : deepOf CertIssuerRef_DeepCopyInto (CertIssuerRef_content x).
Proof. deep_struct. Qed.
#[local] Hint Resolve CertIssuerRef_deep : deep.

Definition LoggingSpec_content (x : LoggingSpec) : content :=
  CStruct [("Format", strC (Log_Format x))].
Definition LoggingSpec_DeepCopyInto : val → heapM val :=
  intoStruct [].
Definition LoggingSpec_DeepCopy : val → heapM val := newThen LoggingSpec_DeepCopyInto.
Lemma LoggingSpec_deep x : deepOf LoggingSpec_DeepCopyInto (LoggingSpec_content x).
Proof. deep_struct. Qed.
#[local] Hint Resolve LoggingSpec_deep : deep.

Definition MetricsSpec_content (x : MetricsSpec) : content :=
  CStruct [("Enabled", boolC (Metrics_Enabled x)); ("Image", strC (Metrics_Image x)); ("ImagePullPolicy", strC (Metrics_ImagePullPolicy x));
          ("ServiceMonitor", boolC (Metrics_ServiceMonitor x)); ("Resources", (foreignC k_ResourceRequirements) (Metrics_Resources x));
          ("Sentinel", boolC (Metrics_Sentinel x))].
Definition MetricsSpec_DeepCopyInto : val → heapM val :=
  intoStruct [("Resources", foreign_DeepCopyInto k_ResourceRequirements)].
Definition MetricsSpec_DeepCopy : val → heapM val := newThen MetricsSpec_DeepCopyInto.
Lemma MetricsSpec_deep x : deepOf MetricsSpec_DeepCopyInto (MetricsSpec_content x).
Proof. deep_struct. Qed.
#[local] Hint Resolve MetricsSpec_deep : deep.

Definition NetworkPolicyEgressSpec_content (x : NetworkPolicyEgressSpec) : content :=
  CStruct [("Enabled", boolC (Egress_Enabled x)); ("DNS", sliceC (foreignC k_NetworkPolicyPeer) (Egress_DNS x));
          ("Extra", sliceC (foreignC k_NetworkPolicyEgressRule) (Egress_Extra x))].
Definition NetworkPolicyEgressSpec_DeepCopyInto : val → heapM val :=
  intoStruct [("DNS", makeEach (foreign_DeepCopyInto k_NetworkPolicyPeer)); ("Extra", makeEach (foreign_DeepCopyInto k_NetworkPolicyEgressRule))].
Definition NetworkPolicyEgressSpec_DeepCopy : val → heapM val := newThen NetworkPolicyEgressSpec_DeepCopyInto.
Lemma NetworkPolicyEgressSpec_deep x : deepOf NetworkPolicyEgressSpec_DeepCopyInto (NetworkPolicyEgressSpec_content x).
Proof. deep_struct. Qed.
#[local] Hint Resolve NetworkPolicyEgressSpec_deep : deep.

Definition NetworkPolicySpec_content (x : NetworkPolicySpec) : content :=
  CStruct [("Enabled", boolC (NP_Enabled x)); ("AllowFrom", sliceC (foreignC k_NetworkPolicyPeer) (NP_AllowFrom x));
          ("MetricsFrom", sliceC (foreignC k_NetworkPolicyPeer) (NP_MetricsFrom x)); ("Egress", ptrC NetworkPolicyEgressSpec_content (NP_Egress x))].
Definition NetworkPolicySpec_DeepCopyInto : val → heapM val :=
  intoStruct [("AllowFrom", makeEach (foreign_DeepCopyInto k_NetworkPolicyPeer));
             ("MetricsFrom", makeEach (foreign_DeepCopyInto k_NetworkPolicyPeer)); ("Egress", newThen NetworkPolicyEgressSpec_DeepCopyInto)].
Definition NetworkPolicySpec_DeepCopy : val → heapM val := newThen NetworkPolicySpec_DeepCopyInto.
Lemma NetworkPolicySpec_deep x : deepOf NetworkPolicySpec_DeepCopyInto (NetworkPolicySpec_content x).
Proof. deep_struct. Qed.
#[local] Hint Resolve NetworkPolicySpec_deep : deep.

Definition PDBSpec_content (x : PDBSpec) : content :=
  CStruct [("Enabled", ptrC boolC (PDB_Enabled x)); ("MaxUnavailable", ptrC intOrStringC (PDB_MaxUnavailable x));
          ("MinAvailable", ptrC intOrStringC (PDB_MinAvailable x))].
Definition PDBSpec_DeepCopyInto : val → heapM val :=
  intoStruct [("Enabled", newThen plain); ("MaxUnavailable", newThen plain); ("MinAvailable", newThen plain)].
Definition PDBSpec_DeepCopy : val → heapM val := newThen PDBSpec_DeepCopyInto.
Lemma PDBSpec_deep x : deepOf PDBSpec_DeepCopyInto (PDBSpec_content x).
Proof. deep_struct. Qed.
#[local] Hint Resolve PDBSpec_deep : deep.

Definition ReplicaOffset_content (x : ReplicaOffset) : content :=
  CStruct [("Pod", strC (RO_Pod x)); ("Offset", intC (RO_Offset x))].
Definition ReplicaOffset_DeepCopyInto : val → heapM val :=
  intoStruct [].
Definition ReplicaOffset_DeepCopy : val → heapM val := newThen ReplicaOffset_DeepCopyInto.
Lemma ReplicaOffset_deep x : deepOf ReplicaOffset_DeepCopyInto (ReplicaOffset_content x).
Proof. deep_struct. Qed.
#[local] Hint Resolve ReplicaOffset_deep : deep.

Definition SecretKeyReference_content (x : SecretKeyReference) : content :=
  CStruct [("Name", strC (SKR_Name x)); ("Key", strC (SKR_Key x))].
Definition SecretKeyReference_DeepCopyInto : val → heapM val :=
  intoStruct [].
Definition SecretKeyReference_DeepCopy : val → heapM val := newThen SecretKeyReference_DeepCopyInto.
Lemma SecretKeyReference_deep x : deepOf SecretKeyReference_DeepCopyInto (SecretKeyReference_content x).
Proof. deep_struct. Qed.
#[local] Hint Resolve SecretKeyReference_deep : deep.

Definition SourceCASecretRef_content (x : SourceCASecretRef) : content :=
  CStruct [("Name", strC (CA_Name x)); ("Key", strC (CA_Key x))].
Definition SourceCASecretRef_DeepCopyInto : val → heapM val :=
  intoStruct [].
Definition SourceCASecretRef_DeepCopy : val → heapM val := newThen SourceCASecretRef_DeepCopyInto.
Lemma SourceCASecretRef_deep x : deepOf SourceCASecretRef_DeepCopyInto (SourceCASecretRef_content x).
Proof. deep_struct. Qed.
#[local] Hint Resolve SourceCASecretRef_deep : deep.

Definition ReplicateFromSpec_content (x : ReplicateFromSpec) : content :=
  CStruct [("Host", strC (RF_Host x)); ("Port", intC (RF_Port x)); ("PasswordSecret", ptrC SecretKeyReference_content (RF_PasswordSecret x));
          ("TLS", boolC (RF_TLS x)); ("CASecret", ptrC SourceCASecretRef_content (RF_CASecret x))].
Definition ReplicateFromSpec_DeepCopyInto : val → heapM val :=
  intoStruct [("PasswordSecret", newThen plain); ("CASecret", newThen plain)].
Definition ReplicateFromSpec_DeepCopy : val → heapM val := newThen ReplicateFromSpec_DeepCopyInto.
Lemma ReplicateFromSpec_deep x : deepOf ReplicateFromSpec_DeepCopyInto (ReplicateFromSpec_content x).
Proof. deep_struct. Qed.
#[local] Hint Resolve ReplicateFromSpec_deep : deep.

Definition RestoreSpec_content (x : RestoreSpec) : content :=
  CStruct [("S3", ptrC S3Spec_content (Restore_S3 x)); ("SourceKey", strC (Restore_SourceKey x)); ("AWSCLIImage", strC (Restore_AWSCLIImage x))].
Definition RestoreSpec_DeepCopyInto : val → heapM val :=
  intoStruct [("S3", newThen plain)].
Definition RestoreSpec_DeepCopy : val → heapM val := newThen RestoreSpec_DeepCopyInto.
Lemma RestoreSpec_deep x : deepOf RestoreSpec_DeepCopyInto (RestoreSpec_content x).
Proof. deep_struct. Qed.
#[local] Hint Resolve RestoreSpec_deep : deep.

Definition SentinelSpec_content (x : SentinelSpec) : content :=
  CStruct [("Replicas", intC (Sentinel_Replicas x)); ("Quorum", intC (Sentinel_Quorum x)); ("Image", strC (Sentinel_Image x));
          ("Resources", (foreignC k_ResourceRequirements) (Sentinel_Resources x));
          ("DownAfterMilliseconds", intC (Sentinel_DownAfterMilliseconds x)); ("FailoverTimeout", intC (Sentinel_FailoverTimeout x))].
Definition SentinelSpec_DeepCopyInto : val → heapM val :=
  intoStruct [("Resources", foreign_DeepCopyInto k_ResourceRequirements)].
Definition SentinelSpec_DeepCopy : val → heapM val := newThen SentinelSpec_DeepCopyInto.
Lemma SentinelSpec_deep x : deepOf SentinelSpec_DeepCopyInto (SentinelSpec_content x).
Proof. deep_struct. Qed.
#[local] Hint Resolve SentinelSpec_deep : deep.

Definition ShardStatus_content (x : ShardStatus) : content :=
  CStruct [("Index", intC (Shard_Index x)); ("Primary", strC (Shard_Primary x)); ("PrimaryNodeID", strC (Shard_PrimaryNodeID x));
          ("Replicas", sliceC strC (Shard_Replicas x)); ("SlotRanges", sliceC strC (Shard_SlotRanges x)); ("SlotCount", intC (Shard_SlotCount x));
          ("Health", strC (Shard_Health x)); ("PrimaryOffset", intC (Shard_PrimaryOffset x));
          ("ReplicaOffsets", sliceC ReplicaOffset_content (Shard_ReplicaOffsets x)); ("MaxLagBytes", intC (Shard_MaxLagBytes x))].
Definition ShardStatus_DeepCopyInto : val → heapM val :=
  intoStruct [("Replicas", makeCopy); ("SlotRanges", makeCopy); ("ReplicaOffsets", makeCopy)].
Definition ShardStatus_DeepCopy : val → heapM val := newThen ShardStatus_DeepCopyInto.
Lemma ShardStatus_deep x : deepOf ShardStatus_DeepCopyInto (ShardStatus_content x).
Proof. deep_struct. Qed.
#[local] Hint Resolve ShardStatus_deep : deep.

Definition StorageSpec_content (x : StorageSpec) : content :=
  CStruct [("Size", (foreignC k_Quantity) (Storage_Size x)); ("StorageClassName", ptrC strC (Storage_StorageClassName x));
          ("Mode", strC (Storage_Mode x)); ("Medium", strC (Storage_Medium x))].
Definition StorageSpec_DeepCopyInto : val → heapM val :=
  intoStruct [("Size", foreign_DeepCopyInto k_Quantity); ("StorageClassName", newThen plain)].
Definition StorageSpec_DeepCopy : val → heapM val := newThen StorageSpec_DeepCopyInto.
Lemma StorageSpec_deep x : deepOf StorageSpec_DeepCopyInto (StorageSpec_content x).
Proof. deep_struct. Qed.
#[local] Hint Resolve StorageSpec_deep : deep.

Definition TLSSpec_content (x : TLSSpec) : content :=
  CStruct [("Enabled", boolC (TLS_Enabled x)); ("IssuerRef", ptrC CertIssuerRef_content (TLS_IssuerRef x));
          ("ExistingSecret", strC (TLS_ExistingSecret x)); ("MutualTLS", boolC (TLS_MutualTLS x))].
Definition TLSSpec_DeepCopyInto : val → heapM val :=
  intoStruct [("IssuerRef", newThen plain)].
Definition TLSSpec_DeepCopy : val → heapM val := newThen TLSSpec_DeepCopyInto.
Lemma TLSSpec_deep x : deepOf TLSSpec_DeepCopyInto (TLSSpec_content x).
Proof. deep_struct. Qed.
#[local] Hint Resolve TLSSpec_deep : deep.

Definition ValkeyACLUser_content (x : ValkeyACLUser) : content :=
  CStruct [("Name", strC (User_Name x)); ("PasswordSecret", ptrC SecretKeyReference_content (User_PasswordSecret x)); ("Rules", strC (User_Rules x))].
Definition ValkeyACLUser_DeepCopyInto : val → heapM val :=
  intoStruct [("PasswordSecret", newThen plain)].
Definition ValkeyACLUser_DeepCopy : val → heapM val := newThen ValkeyACLUser_DeepCopyInto.
Lemma ValkeyACLUser_deep x : deepOf ValkeyACLUser_DeepCopyInto (ValkeyACLUser_content x).
Proof. deep_struct. Qed.
#[local] Hint Resolve ValkeyACLUser_deep : deep.

Definition ValkeyACLSpec_content (x : ValkeyACLSpec) : content :=
  CStruct [("ClusterRef", localObjectReferenceC (ACL_ClusterRef x)); ("Users", sliceC ValkeyACLUser_content (ACL_Users x))].
Definition ValkeyACLSpec_DeepCopyInto : val → heapM val :=
  intoStruct [("ClusterRef", plain); ("Users", makeEach ValkeyACLUser_DeepCopyInto)].
Definition ValkeyACLSpec_DeepCopy : val → heapM val := newThen ValkeyACLSpec_DeepCopyInto.
Lemma ValkeyACLSpec_deep x : deepOf ValkeyACLSpec_DeepCopyInto (ValkeyACLSpec_content x).
Proof. deep_struct. Qed.
#[local] Hint Resolve ValkeyACLSpec_deep : deep.

Definition ValkeyACLStatus_content (x : ValkeyACLStatus) : content :=
  CStruct [("AppliedUsers", sliceC strC (ACL_AppliedUsers x)); ("ObservedGeneration", intC (ACL_ObservedGeneration x));
          ("Conditions", sliceC (foreignC k_Condition) (ACL_Conditions x))].
Definition ValkeyACLStatus_DeepCopyInto : val → heapM val :=
  intoStruct [("AppliedUsers", makeCopy); ("Conditions", makeEach (foreign_DeepCopyInto k_Condition))].
Definition ValkeyACLStatus_DeepCopy : val → heapM val := newThen ValkeyACLStatus_DeepCopyInto.
Lemma ValkeyACLStatus_deep x : deepOf ValkeyACLStatus_DeepCopyInto (ValkeyACLStatus_content x).
Proof. deep_struct. Qed.
#[local] Hint Resolve ValkeyACLStatus_deep : deep.

Definition ValkeyACL_content (tx : TypeMeta * ValkeyACL) : content :=
  let '(t, x) := tx in
  CStruct [("TypeMeta", typeMetaC t); ("ObjectMeta", (foreignC k_ObjectMeta) (ACL_Meta x)); ("Spec", ValkeyACLSpec_content (ACL_Spec x));
          ("Status", ValkeyACLStatus_content (ACL_Status x))].
Definition ValkeyACL_DeepCopyInto : val → heapM val :=
  intoStruct [("TypeMeta", plain); ("ObjectMeta", foreign_DeepCopyInto k_ObjectMeta); ("Spec", ValkeyACLSpec_DeepCopyInto);
             ("Status", ValkeyACLStatus_DeepCopyInto)].
Definition ValkeyACL_DeepCopy : val → heapM val := newThen ValkeyACL_DeepCopyInto.
Definition ValkeyACL_DeepCopyObject : val → heapM val := asObject ValkeyACL_DeepCopy.
Lemma ValkeyACL_deep x : deepOf ValkeyACL_DeepCopyInto (ValkeyACL_content x).
Proof. destruct x as [t x]. deep_struct. Qed.
#[local] Hint Resolve ValkeyACL_deep : deep.

Record ValkeyACLList := { ValkeyACLList_ListMeta : Opaque; ValkeyACLList_Items : list (TypeMeta * ValkeyACL) }.
Definition ValkeyACLList_content (tx : TypeMeta * ValkeyACLList) : content :=
  let '(t, x) := tx in
  CStruct [("TypeMeta", typeMetaC t); ("ListMeta", foreignC k_ListMeta (ValkeyACLList_ListMeta x));
          ("Items", sliceC ValkeyACL_content (ValkeyACLList_Items x))].
Definition ValkeyACLList_DeepCopyInto : val → heapM val :=
  intoStruct [("TypeMeta", plain); ("ListMeta", foreign_DeepCopyInto k_ListMeta); ("Items", makeEach ValkeyACL_DeepCopyInto)].
Definition ValkeyACLList_DeepCopy : val → heapM val := newThen ValkeyACLList_DeepCopyInto.
Definition ValkeyACLList_DeepCopyObject : val → heapM val := asObject ValkeyACLList_DeepCopy.
Lemma ValkeyACLList_deep x : deepOf ValkeyACLList_DeepCopyInto (ValkeyACLList_content x).
Proof. destruct x as [t x]. deep_struct. Qed.
#[local] Hint Resolve ValkeyACLList_deep : deep.

Definition ValkeyClusterSpec_content (x : ValkeyClusterSpec) : content :=
  CStruct [("Topology", strC (Spec_Topology x)); ("Profile", strC (Spec_Profile x)); ("Image", strC (Spec_Image x));
          ("ImagePullPolicy", strC (Spec_ImagePullPolicy x)); ("ImagePullSecrets", sliceC localObjectReferenceC (Spec_ImagePullSecrets x));
          ("PodLabels", strMapC (Spec_PodLabels x)); ("Replicas", intC (Spec_Replicas x)); ("Shards", ptrC intC (Spec_Shards x));
          ("ReplicasPerShard", ptrC intC (Spec_ReplicasPerShard x)); ("PerShardWorkload", ptrC boolC (Spec_PerShardWorkload x));
          ("AutoReshard", ptrC boolC (Spec_AutoReshard x)); ("Sentinel", ptrC SentinelSpec_content (Spec_Sentinel x));
          ("Resources", (foreignC k_ResourceRequirements) (Spec_Resources x)); ("Storage", ptrC StorageSpec_content (Spec_Storage x));
          ("Auth", ptrC AuthSpec_content (Spec_Auth x)); ("TLS", ptrC TLSSpec_content (Spec_TLS x));
          ("Metrics", ptrC MetricsSpec_content (Spec_Metrics x)); ("Config", strMapC (Spec_Config x));
          ("NodeSelector", strMapC (Spec_NodeSelector x)); ("Tolerations", sliceC (foreignC k_Toleration) (Spec_Tolerations x));
          ("Affinity", ptrC (foreignC k_Affinity) (Spec_Affinity x));
          ("TopologySpreadConstraints", sliceC (foreignC k_TopologySpreadConstraint) (Spec_TopologySpreadConstraints x));
          ("PodSecurityContext", ptrC (foreignC k_PodSecurityContext) (Spec_PodSecurityContext x));
          ("ContainerSecurityContext", ptrC (foreignC k_SecurityContext) (Spec_ContainerSecurityContext x));
          ("PodDisruptionBudget", ptrC PDBSpec_content (Spec_PodDisruptionBudget x));
          ("NetworkPolicy", ptrC NetworkPolicySpec_content (Spec_NetworkPolicy x)); ("Backup", ptrC BackupSpec_content (Spec_Backup x));
          ("RestoreFrom", ptrC RestoreSpec_content (Spec_RestoreFrom x)); ("ReplicateFrom", ptrC ReplicateFromSpec_content (Spec_ReplicateFrom x));
          ("Logging", ptrC LoggingSpec_content (Spec_Logging x))].
Definition ValkeyClusterSpec_DeepCopyInto : val → heapM val :=
  intoStruct [("ImagePullSecrets", makeCopy); ("PodLabels", makeMap); ("Shards", newThen plain); ("ReplicasPerShard", newThen plain);
             ("PerShardWorkload", newThen plain); ("AutoReshard", newThen plain); ("Sentinel", newThen SentinelSpec_DeepCopyInto);
             ("Resources", foreign_DeepCopyInto k_ResourceRequirements); ("Storage", newThen StorageSpec_DeepCopyInto);
             ("Auth", newThen AuthSpec_DeepCopyInto); ("TLS", newThen TLSSpec_DeepCopyInto); ("Metrics", newThen MetricsSpec_DeepCopyInto);
             ("Config", makeMap); ("NodeSelector", makeMap); ("Tolerations", makeEach (foreign_DeepCopyInto k_Toleration));
             ("Affinity", newThen (foreign_DeepCopyInto k_Affinity));
             ("TopologySpreadConstraints", makeEach (foreign_DeepCopyInto k_TopologySpreadConstraint));
             ("PodSecurityContext", newThen (foreign_DeepCopyInto k_PodSecurityContext));
             ("ContainerSecurityContext", newThen (foreign_DeepCopyInto k_SecurityContext)); ("PodDisruptionBudget", newThen PDBSpec_DeepCopyInto);
             ("NetworkPolicy", newThen NetworkPolicySpec_DeepCopyInto); ("Backup", newThen BackupSpec_DeepCopyInto);
             ("RestoreFrom", newThen RestoreSpec_DeepCopyInto); ("ReplicateFrom", newThen ReplicateFromSpec_DeepCopyInto); ("Logging", newThen plain)].
Definition ValkeyClusterSpec_DeepCopy : val → heapM val := newThen ValkeyClusterSpec_DeepCopyInto.
Lemma ValkeyClusterSpec_deep x : deepOf ValkeyClusterSpec_DeepCopyInto (ValkeyClusterSpec_content x).
Proof. deep_struct. Qed.
#[local] Hint Resolve ValkeyClusterSpec_deep : deep.

Definition ValkeyClusterStatus_content (x : ValkeyClusterStatus) : content :=
  CStruct [("Phase", strC (Status_Phase x)); ("ReadyReplicas", intC (Status_ReadyReplicas x)); ("Primary", strC (Status_Primary x));
          ("PrimaryDownSince", ptrC timeC (Status_PrimaryDownSince x)); ("QuorumDownSince", ptrC timeC (Status_QuorumDownSince x));
          ("InternalEndpoint", strC (Status_InternalEndpoint x)); ("Shards", intC (Status_Shards x)); ("ReadyShards", intC (Status_ReadyShards x));
          ("ClusterInitialized", boolC (Status_ClusterInitialized x)); ("LastAppliedReplicas", intC (Status_LastAppliedReplicas x));
          ("ShardDetails", sliceC ShardStatus_content (Status_ShardDetails x)); ("ObservedGeneration", intC (Status_ObservedGeneration x));
          ("LastReshardToken", strC (Status_LastReshardToken x)); ("LastFailoverToken", strC (Status_LastFailoverToken x));
          ("LastPasswordRotationToken", strC (Status_LastPasswordRotationToken x));
          ("LastTLSCertFingerprint", strC (Status_LastTLSCertFingerprint x)); ("Conditions", sliceC (foreignC k_Condition) (Status_Conditions x))].
Definition ValkeyClusterStatus_DeepCopyInto : val → heapM val :=
  intoStruct [("PrimaryDownSince", ifNotNil time_DeepCopy); ("QuorumDownSince", ifNotNil time_DeepCopy);
             ("ShardDetails", makeEach ShardStatus_DeepCopyInto); ("Conditions", makeEach (foreign_DeepCopyInto k_Condition))].
Definition ValkeyClusterStatus_DeepCopy : val → heapM val := newThen ValkeyClusterStatus_DeepCopyInto.
Lemma ValkeyClusterStatus_deep x : deepOf ValkeyClusterStatus_DeepCopyInto (ValkeyClusterStatus_content x).
Proof. deep_struct. Qed.
#[local] Hint Resolve ValkeyClusterStatus_deep : deep.

Definition ValkeyCluster_content (tx : TypeMeta * ValkeyCluster) : content :=
  let '(t, x) := tx in
  CStruct [("TypeMeta", typeMetaC t); ("ObjectMeta", (foreignC k_ObjectMeta) (Meta x)); ("Spec", ValkeyClusterSpec_content (Spec x));
          ("Status", ValkeyClusterStatus_content (Status x))].
Definition ValkeyCluster_DeepCopyInto : val → heapM val :=
  intoStruct [("TypeMeta", plain); ("ObjectMeta", foreign_DeepCopyInto k_ObjectMeta); ("Spec", ValkeyClusterSpec_DeepCopyInto);
             ("Status", ValkeyClusterStatus_DeepCopyInto)].
Definition ValkeyCluster_DeepCopy : val → heapM val := newThen ValkeyCluster_DeepCopyInto.
Definition ValkeyCluster_DeepCopyObject : val → heapM val := asObject ValkeyCluster_DeepCopy.
Lemma ValkeyCluster_deep x : deepOf ValkeyCluster_DeepCopyInto (ValkeyCluster_content x).
Proof. destruct x as [t x]. deep_struct. Qed.
#[local] Hint Resolve ValkeyCluster_deep : deep.

Record ValkeyClusterList := { ValkeyClusterList_ListMeta : Opaque; ValkeyClusterList_Items : list (TypeMeta * ValkeyCluster) }.
Definition ValkeyClusterList_content (tx : TypeMeta * ValkeyClusterList) : content :=
  let '(t, x) := tx in
  CStruct [("TypeMeta", typeMetaC t); ("ListMeta", foreignC k_ListMeta (ValkeyClusterList_ListMeta x));
          ("Items", sliceC ValkeyCluster_content (ValkeyClusterList_Items x))].
Definition ValkeyClusterList_DeepCopyInto : val → heapM val :=
  intoStruct [("TypeMeta", plain); ("ListMeta", foreign_DeepCopyInto k_ListMeta); ("Items", makeEach ValkeyCluster_DeepCopyInto)].
Definition ValkeyClusterList_DeepCopy : val → heapM val := newThen ValkeyClusterList_DeepCopyInto.
Definition ValkeyClusterList_DeepCopyObject : val → heapM val := asObject ValkeyClusterList_DeepCopy.
Lemma ValkeyClusterList_deep x : deepOf ValkeyClusterList_DeepCopyInto (ValkeyClusterList_content x).
Proof. destruct x as [t x]. deep_struct. Qed.
#[local] Hint Resolve ValkeyClusterList_deep : deep.
End copies.
