(* ===== verification/DeepCopyAlpha.v ===== *)
(** * DeepCopyAlpha: the generated deep copies of the v1alpha1 types (zz_generated.deepcopy.go)

    As DeepCopyBeta, for the structs of the older version; then what the copies of both versions are for. *)

From S2P Require Import Prelude GoStd Kube Api Json ApiJson V1alpha1 DeepCopy DeepCopyBeta.

Section copies.
Context `{K8sCopies}.

Definition AuthSpec_content (x : V1alpha1.AuthSpec) : content :=
  CStruct [("Enabled", ptrC boolC (V1alpha1.Auth_Enabled x)); ("ExistingSecret", strC (V1alpha1.Auth_ExistingSecret x))].
Definition AuthSpec_DeepCopyInto : val → heapM val :=
  intoStruct [("Enabled", newThen plain)].
Definition AuthSpec_DeepCopy : val → heapM val := newThen AuthSpec_DeepCopyInto.
Lemma AuthSpec_deep_alpha x : deepOf AuthSpec_DeepCopyInto (AuthSpec_content x).
Proof. deep_struct. Qed.
#[local] Hint Resolve AuthSpec_deep_alpha : deep.

Definition S3Spec_content (x : V1alpha1.S3Spec) : content :=
  CStruct [("Bucket", strC (V1alpha1.S3_Bucket x)); ("Endpoint", strC (V1alpha1.S3_Endpoint x)); ("Region", strC (V1alpha1.S3_Region x));
          ("Prefix", strC (V1alpha1.S3_Prefix x)); ("CredentialsSecret", strC (V1alpha1.S3_CredentialsSecret x));
          ("Encryption", strC (V1alpha1.S3_Encryption x)); ("KMSKeyID", strC (V1alpha1.S3_KMSKeyID x))].
Definition S3Spec_DeepCopyInto : val → heapM val :=
  intoStruct [].
Definition S3Spec_DeepCopy : val → heapM val := newThen S3Spec_DeepCopyInto.
Lemma S3Spec_deep_alpha x : deepOf S3Spec_DeepCopyInto (S3Spec_content x).
Proof. deep_struct. Qed.
#[local] Hint Resolve S3Spec_deep_alpha : deep.

Definition BackupSpec_content (x : V1alpha1.BackupSpec) : content :=
  CStruct [("Enabled", boolC (V1alpha1.Backup_Enabled x)); ("Schedule", strC (V1alpha1.Backup_Schedule x));
          ("S3", ptrC S3Spec_content (V1alpha1.Backup_S3 x)); ("Image", strC (V1alpha1.Backup_Image x));
          ("AWSCLIImage", strC (V1alpha1.Backup_AWSCLIImage x)); ("Retention", ptrC intC (V1alpha1.Backup_Retention x))].
Definition BackupSpec_DeepCopyInto : val → heapM val :=
  intoStruct [("S3", newThen plain); ("Retention", newThen plain)].
Definition BackupSpec_DeepCopy : val → heapM val := newThen BackupSpec_DeepCopyInto.
Lemma BackupSpec_deep_alpha x : deepOf BackupSpec_DeepCopyInto (BackupSpec_content x).
Proof. deep_struct. Qed.
#[local] Hint Resolve BackupSpec_deep_alpha : deep.

Definition CertIssuerRef_content (x : V1alpha1.CertIssuerRef) : content :=
  CStruct [("Name", strC (V1alpha1.Issuer_Name x)); ("Kind", strC (V1alpha1.Issuer_Kind x)); ("Group", strC (V1alpha1.Issuer_Group x))].
Definition CertIssuerRef_DeepCopyInto : val → heapM val :=
  intoStruct [].
Definition CertIssuerRef_DeepCopy : val → heapM val := newThen CertIssuerRef_DeepCopyInto.
Lemma CertIssuerRef_deep_alpha x : deepOf CertIssuerRef_DeepCopyInto (CertIssuerRef_content x).
Proof. deep_struct. Qed.
#[local] Hint Resolve CertIssuerRef_deep_alpha : deep.

Definition LoggingSpec_content (x : V1alpha1.LoggingSpec) : content :=
  CStruct [("Format", strC (V1alpha1.Log_Format x))].
Definition LoggingSpec_DeepCopyInto : val → heapM val :=
  intoStruct [].
Definition LoggingSpec_DeepCopy : val → heapM val := newThen LoggingSpec_DeepCopyInto.
Lemma LoggingSpec_deep_alpha x : deepOf LoggingSpec_DeepCopyInto (LoggingSpec_content x).
Proof. deep_struct. Qed.
#[local] Hint Resolve LoggingSpec_deep_alpha : deep.

Definition MetricsSpec_content (x : V1alpha1.MetricsSpec) : content :=
  CStruct [("Enabled", boolC (V1alpha1.Metrics_Enabled x)); ("Image", strC (V1alpha1.Metrics_Image x));
          ("ImagePullPolicy", strC (V1alpha1.Metrics_ImagePullPolicy x)); ("ServiceMonitor", boolC (V1alpha1.Metrics_ServiceMonitor x));
          ("Resources", (foreignC k_ResourceRequirements) (V1alpha1.Metrics_Resources x)); ("Sentinel", boolC (V1alpha1.Metrics_Sentinel x))].
Definition MetricsSpec_DeepCopyInto : val → heapM val :=
  intoStruct [("Resources", foreign_DeepCopyInto k_ResourceRequirements)].
Definition MetricsSpec_DeepCopy : val → heapM val := newThen MetricsSpec_DeepCopyInto.
Lemma MetricsSpec_deep_alpha x : deepOf MetricsSpec_DeepCopyInto (MetricsSpec_content x).
Proof. deep_struct. Qed.
#[local] Hint Resolve MetricsSpec_deep_alpha : deep.

Definition NetworkPolicyEgressSpec_content (x : V1alpha1.NetworkPolicyEgressSpec) : content :=
  CStruct [("Enabled", boolC (V1alpha1.Egress_Enabled x)); ("DNS", sliceC (foreignC k_NetworkPolicyPeer) (V1alpha1.Egress_DNS x));
          ("Extra", sliceC (foreignC k_NetworkPolicyEgressRule) (V1alpha1.Egress_Extra x))].
Definition NetworkPolicyEgressSpec_DeepCopyInto : val → heapM val :=
  intoStruct [("DNS", makeEach (foreign_DeepCopyInto k_NetworkPolicyPeer)); ("Extra", makeEach (foreign_DeepCopyInto k_NetworkPolicyEgressRule))].
Definition NetworkPolicyEgressSpec_DeepCopy : val → heapM val := newThen NetworkPolicyEgressSpec_DeepCopyInto.
Lemma NetworkPolicyEgressSpec_deep_alpha x : deepOf NetworkPolicyEgressSpec_DeepCopyInto (NetworkPolicyEgressSpec_content x).
Proof. deep_struct. Qed.
#[local] Hint Resolve NetworkPolicyEgressSpec_deep_alpha : deep.

Definition NetworkPolicySpec_content (x : V1alpha1.NetworkPolicySpec) : content :=
  CStruct [("Enabled", boolC (V1alpha1.NP_Enabled x)); ("AllowFrom", sliceC (foreignC k_NetworkPolicyPeer) (V1alpha1.NP_AllowFrom x));
          ("MetricsFrom", sliceC (foreignC k_NetworkPolicyPeer) (V1alpha1.NP_MetricsFrom x));
          ("Egress", ptrC NetworkPolicyEgressSpec_content (V1alpha1.NP_Egress x))].
Definition NetworkPolicySpec_DeepCopyInto : val → heapM val :=
  intoStruct [("AllowFrom", makeEach (foreign_DeepCopyInto k_NetworkPolicyPeer));
             ("MetricsFrom", makeEach (foreign_DeepCopyInto k_NetworkPolicyPeer)); ("Egress", newThen NetworkPolicyEgressSpec_DeepCopyInto)].
Definition NetworkPolicySpec_DeepCopy : val → heapM val := newThen NetworkPolicySpec_DeepCopyInto.
Lemma NetworkPolicySpec_deep_alpha x : deepOf NetworkPolicySpec_DeepCopyInto (NetworkPolicySpec_content x).
Proof. deep_struct. Qed.
#[local] Hint Resolve NetworkPolicySpec_deep_alpha : deep.

Definition PDBSpec_content (x : V1alpha1.PDBSpec) : content :=
  CStruct [("Enabled", ptrC boolC (V1alpha1.PDB_Enabled x)); ("MaxUnavailable", ptrC intOrStringC (V1alpha1.PDB_MaxUnavailable x));
          ("MinAvailable", ptrC intOrStringC (V1alpha1.PDB_MinAvailable x))].
Definition PDBSpec_DeepCopyInto : val → heapM val :=
  intoStruct [("Enabled", newThen plain); ("MaxUnavailable", newThen plain); ("MinAvailable", newThen plain)].
Definition PDBSpec_DeepCopy : val → heapM val := newThen PDBSpec_DeepCopyInto.
Lemma PDBSpec_deep_alpha x : deepOf PDBSpec_DeepCopyInto (PDBSpec_content x).
Proof. deep_struct. Qed.
#[local] Hint Resolve PDBSpec_deep_alpha : deep.

Definition ReplicaOffset_content (x : V1alpha1.ReplicaOffset) : content :=
  CStruct [("Pod", strC (V1alpha1.RO_Pod x)); ("Offset", intC (V1alpha1.RO_Offset x))].
Definition ReplicaOffset_DeepCopyInto : val → heapM val :=
  intoStruct [].
Definition ReplicaOffset_DeepCopy : val → heapM val := newThen ReplicaOffset_DeepCopyInto.
Lemma ReplicaOffset_deep_alpha x : deepOf ReplicaOffset_DeepCopyInto (ReplicaOffset_content x).
Proof. deep_struct. Qed.
#[local] Hint Resolve ReplicaOffset_deep_alpha : deep.

Definition SecretKeyReference_content (x : V1alpha1.SecretKeyReference) : content :=
  CStruct [("Name", strC (V1alpha1.SKR_Name x)); ("Key", strC (V1alpha1.SKR_Key x))].
Definition SecretKeyReference_DeepCopyInto : val → heapM val :=
  intoStruct [].
Definition SecretKeyReference_DeepCopy : val → heapM val := newThen SecretKeyReference_DeepCopyInto.
Lemma SecretKeyReference_deep_alpha x : deepOf SecretKeyReference_DeepCopyInto (SecretKeyReference_content x).
Proof. deep_struct. Qed.
#[local] Hint Resolve SecretKeyReference_deep_alpha : deep.

Definition SourceCASecretRef_content (x : V1alpha1.SourceCASecretRef) : content :=
  CStruct [("Name", strC (V1alpha1.CA_Name x)); ("Key", strC (V1alpha1.CA_Key x))].
Definition SourceCASecretRef_DeepCopyInto : val → heapM val :=
  intoStruct [].
Definition SourceCASecretRef_DeepCopy : val → heapM val := newThen SourceCASecretRef_DeepCopyInto.
Lemma SourceCASecretRef_deep_alpha x : deepOf SourceCASecretRef_DeepCopyInto (SourceCASecretRef_content x).
Proof. deep_struct. Qed.
#[local] Hint Resolve SourceCASecretRef_deep_alpha : deep.

Definition ReplicateFromSpec_content (x : V1alpha1.ReplicateFromSpec) : content :=
  CStruct [("Host", strC (V1alpha1.RF_Host x)); ("Port", intC (V1alpha1.RF_Port x));
          ("PasswordSecret", ptrC SecretKeyReference_content (V1alpha1.RF_PasswordSecret x)); ("TLS", boolC (V1alpha1.RF_TLS x));
          ("CASecret", ptrC SourceCASecretRef_content (V1alpha1.RF_CASecret x))].
Definition ReplicateFromSpec_DeepCopyInto : val → heapM val :=
  intoStruct [("PasswordSecret", newThen plain); ("CASecret", newThen plain)].
Definition ReplicateFromSpec_DeepCopy : val → heapM val := newThen ReplicateFromSpec_DeepCopyInto.
Lemma ReplicateFromSpec_deep_alpha x : deepOf ReplicateFromSpec_DeepCopyInto (ReplicateFromSpec_content x).
Proof. deep_struct. Qed.
#[local] Hint Resolve ReplicateFromSpec_deep_alpha : deep.

Definition RestoreSpec_content (x : V1alpha1.RestoreSpec) : content :=
  CStruct [("S3", ptrC S3Spec_content (V1alpha1.Restore_S3 x)); ("SourceKey", strC (V1alpha1.Restore_SourceKey x));
          ("AWSCLIImage", strC (V1alpha1.Restore_AWSCLIImage x))].
Definition RestoreSpec_DeepCopyInto : val → heapM val :=
  intoStruct [("S3", newThen plain)].
Definition RestoreSpec_DeepCopy : val → heapM val := newThen RestoreSpec_DeepCopyInto.
Lemma RestoreSpec_deep_alpha x : deepOf RestoreSpec_DeepCopyInto (RestoreSpec_content x).
Proof. deep_struct. Qed.
#[local] Hint Resolve RestoreSpec_deep_alpha : deep.

Definition SentinelSpec_content (x : V1alpha1.SentinelSpec) : content :=
  CStruct [("Replicas", intC (V1alpha1.Sentinel_Replicas x)); ("Quorum", intC (V1alpha1.Sentinel_Quorum x));
          ("Image", strC (V1alpha1.Sentinel_Image x)); ("Resources", (foreignC k_ResourceRequirements) (V1alpha1.Sentinel_Resources x));
          ("DownAfterMilliseconds", intC (V1alpha1.Sentinel_DownAfterMilliseconds x)); ("FailoverTimeout", intC (V1alpha1.Sentinel_FailoverTimeout x))].
Definition SentinelSpec_DeepCopyInto : val → heapM val :=
  intoStruct [("Resources", foreign_DeepCopyInto k_ResourceRequirements)].
Definition SentinelSpec_DeepCopy : val → heapM val := newThen SentinelSpec_DeepCopyInto.
Lemma SentinelSpec_deep_alpha x : deepOf SentinelSpec_DeepCopyInto (SentinelSpec_content x).
Proof. deep_struct. Qed.
#[local] Hint Resolve SentinelSpec_deep_alpha : deep.

Definition ShardStatus_content (x : V1alpha1.ShardStatus) : content :=
  CStruct [("Index", intC (V1alpha1.Shard_Index x)); ("Primary", strC (V1alpha1.Shard_Primary x));
          ("PrimaryNodeID", strC (V1alpha1.Shard_PrimaryNodeID x)); ("Replicas", sliceC strC (V1alpha1.Shard_Replicas x));
          ("SlotRanges", sliceC strC (V1alpha1.Shard_SlotRanges x)); ("SlotCount", intC (V1alpha1.Shard_SlotCount x));
          ("Health", strC (V1alpha1.Shard_Health x)); ("PrimaryOffset", intC (V1alpha1.Shard_PrimaryOffset x));
          ("ReplicaOffsets", sliceC ReplicaOffset_content (V1alpha1.Shard_ReplicaOffsets x)); ("MaxLagBytes", intC (V1alpha1.Shard_MaxLagBytes x))].
Definition ShardStatus_DeepCopyInto : val → heapM val :=
  intoStruct [("Replicas", makeCopy); ("SlotRanges", makeCopy); ("ReplicaOffsets", makeCopy)].
Definition ShardStatus_DeepCopy : val → heapM val := newThen ShardStatus_DeepCopyInto.
Lemma ShardStatus_deep_alpha x : deepOf ShardStatus_DeepCopyInto (ShardStatus_content x).
Proof. deep_struct. Qed.
#[local] Hint Resolve ShardStatus_deep_alpha : deep.

Definition StorageSpec_content (x : V1alpha1.StorageSpec) : content :=
  CStruct [("Size", (foreignC k_Quantity) (V1alpha1.Storage_Size x)); ("StorageClassName", ptrC strC (V1alpha1.Storage_StorageClassName x));
          ("Mode", strC (V1alpha1.Storage_Mode x)); ("Medium", strC (V1alpha1.Storage_Medium x))].
Definition StorageSpec_DeepCopyInto : val → heapM val :=
  intoStruct [("Size", foreign_DeepCopyInto k_Quantity); ("StorageClassName", newThen plain)].
Definition StorageSpec_DeepCopy : val → heapM val := newThen StorageSpec_DeepCopyInto.
Lemma StorageSpec_deep_alpha x : deepOf StorageSpec_DeepCopyInto (StorageSpec_content x).
Proof. deep_struct. Qed.
#[local] Hint Resolve StorageSpec_deep_alpha : deep.

Definition TLSSpec_content (x : V1alpha1.TLSSpec) : content :=
  CStruct [("Enabled", boolC (V1alpha1.TLS_Enabled x)); ("IssuerRef", ptrC CertIssuerRef_content (V1alpha1.TLS_IssuerRef x));
          ("ExistingSecret", strC (V1alpha1.TLS_ExistingSecret x)); ("MutualTLS", boolC (V1alpha1.TLS_MutualTLS x))].
Definition TLSSpec_DeepCopyInto : val → heapM val :=
  intoStruct [("IssuerRef", newThen plain)].
Definition TLSSpec_DeepCopy : val → heapM val := newThen TLSSpec_DeepCopyInto.
Lemma TLSSpec_deep_alpha x : deepOf TLSSpec_DeepCopyInto (TLSSpec_content x).
Proof. deep_struct. Qed.
#[local] Hint Resolve TLSSpec_deep_alpha : deep.

Definition ValkeyACLUser_content (x : V1alpha1.ValkeyACLUser) : content :=
  CStruct [("Name", strC (V1alpha1.User_Name x)); ("PasswordSecret", ptrC SecretKeyReference_content (V1alpha1.User_PasswordSecret x));
          ("Rules", strC (V1alpha1.User_Rules x))].
Definition ValkeyACLUser_DeepCopyInto : val → heapM val :=
  intoStruct [("PasswordSecret", newThen plain)].
Definition ValkeyACLUser_DeepCopy : val → heapM val := newThen ValkeyACLUser_DeepCopyInto.
Lemma ValkeyACLUser_deep_alpha x : deepOf ValkeyACLUser_DeepCopyInto (ValkeyACLUser_content x).
Proof. deep_struct. Qed.
#[local] Hint Resolve ValkeyACLUser_deep_alpha : deep.

Definition ValkeyACLSpec_content (x : V1alpha1.ValkeyACLSpec) : content :=
  CStruct [("ClusterRef", localObjectReferenceC (V1alpha1.ACL_ClusterRef x)); ("Users", sliceC ValkeyACLUser_content (V1alpha1.ACL_Users x))].
Definition ValkeyACLSpec_DeepCopyInto : val → heapM val :=
  intoStruct [("ClusterRef", plain); ("Users", makeEach ValkeyACLUser_DeepCopyInto)].
Definition ValkeyACLSpec_DeepCopy : val → heapM val := newThen ValkeyACLSpec_DeepCopyInto.
Lemma ValkeyACLSpec_deep_alpha x : deepOf ValkeyACLSpec_DeepCopyInto (ValkeyACLSpec_content x).
Proof. deep_struct. Qed.
#[local] Hint Resolve ValkeyACLSpec_deep_alpha : deep.

Definition ValkeyACLStatus_content (x : V1alpha1.ValkeyACLStatus) : content :=
  CStruct [("AppliedUsers", sliceC strC (V1alpha1.ACL_AppliedUsers x)); ("ObservedGeneration", intC (V1alpha1.ACL_ObservedGeneration x));
          ("Conditions", sliceC (foreignC k_Condition) (V1alpha1.ACL_Conditions x))].
Definition ValkeyACLStatus_DeepCopyInto : val → heapM val :=
  intoStruct [("AppliedUsers", makeCopy); ("Conditions", makeEach (foreign_DeepCopyInto k_Condition))].
Definition ValkeyACLStatus_DeepCopy : val → heapM val := newThen ValkeyACLStatus_DeepCopyInto.
Lemma ValkeyACLStatus_deep_alpha x : deepOf ValkeyACLStatus_DeepCopyInto (ValkeyACLStatus_content x).
Proof. deep_struct. Qed.
#[local] Hint Resolve ValkeyACLStatus_deep_alpha : deep.

Definition ValkeyACL_content (tx : TypeMeta * V1alpha1.ValkeyACL) : content :=
  let '(t, x) := tx in
  CStruct [("TypeMeta", typeMetaC t); ("ObjectMeta", (foreignC k_ObjectMeta) (V1alpha1.ACL_Meta x));
          ("Spec", ValkeyACLSpec_content (V1alpha1.ACL_Spec x)); ("Status", ValkeyACLStatus_content (V1alpha1.ACL_Status x))].
Definition ValkeyACL_DeepCopyInto : val → heapM val :=
  intoStruct [("TypeMeta", plain); ("ObjectMeta", foreign_DeepCopyInto k_ObjectMeta); ("Spec", ValkeyACLSpec_DeepCopyInto);
             ("Status", ValkeyACLStatus_DeepCopyInto)].
Definition ValkeyACL_DeepCopy : val → heapM val := newThen ValkeyACL_DeepCopyInto.
Definition ValkeyACL_DeepCopyObject : val → heapM val := asObject ValkeyACL_DeepCopy.
Lemma ValkeyACL_deep_alpha x : deepOf ValkeyACL_DeepCopyInto (ValkeyACL_content x).
Proof. destruct x as [t x]. deep_struct. Qed.
#[local] Hint Resolve ValkeyACL_deep_alpha : deep.

Record ValkeyACLList := { ValkeyACLList_ListMeta : Opaque; ValkeyACLList_Items : list (TypeMeta * V1alpha1.ValkeyACL) }.
Definition ValkeyACLList_content (tx : TypeMeta * ValkeyACLList) : content :=
  let '(t, x) := tx in
  CStruct [("TypeMeta", typeMetaC t); ("ListMeta", foreignC k_ListMeta (ValkeyACLList_ListMeta x));
          ("Items", sliceC ValkeyACL_content (ValkeyACLList_Items x))].
Definition ValkeyACLList_DeepCopyInto : val → heapM val :=
  intoStruct [("TypeMeta", plain); ("ListMeta", foreign_DeepCopyInto k_ListMeta); ("Items", makeEach ValkeyACL_DeepCopyInto)].
Definition ValkeyACLList_DeepCopy : val → heapM val := newThen ValkeyACLList_DeepCopyInto.
Definition ValkeyACLList_DeepCopyObject : val → heapM val := asObject ValkeyACLList_DeepCopy.
Lemma ValkeyACLList_deep_alpha x : deepOf ValkeyACLList_DeepCopyInto (ValkeyACLList_content x).
Proof. destruct x as [t x]. deep_struct. Qed.
#[local] Hint Resolve ValkeyACLList_deep_alpha : deep.

Definition ValkeyClusterSpec_content (x : V1alpha1.ValkeyClusterSpec) : content :=
  CStruct [("Topology", strC (V1alpha1.Spec_Topology x)); ("Profile", strC (V1alpha1.Spec_Profile x)); ("Image", strC (V1alpha1.Spec_Image x));
          ("ImagePullPolicy", strC (V1alpha1.Spec_ImagePullPolicy x));
          ("ImagePullSecrets", sliceC localObjectReferenceC (V1alpha1.Spec_ImagePullSecrets x)); ("PodLabels", strMapC (V1alpha1.Spec_PodLabels x));
          ("Replicas", intC (V1alpha1.Spec_Replicas x)); ("Shards", ptrC intC (V1alpha1.Spec_Shards x));
          ("ReplicasPerShard", ptrC intC (V1alpha1.Spec_ReplicasPerShard x)); ("PerShardWorkload", ptrC boolC (V1alpha1.Spec_PerShardWorkload x));
          ("AutoReshard", ptrC boolC (V1alpha1.Spec_AutoReshard x)); ("Sentinel", ptrC SentinelSpec_content (V1alpha1.Spec_Sentinel x));
          ("Resources", (foreignC k_ResourceRequirements) (V1alpha1.Spec_Resources x));
          ("Storage", ptrC StorageSpec_content (V1alpha1.Spec_Storage x)); ("Auth", ptrC AuthSpec_content (V1alpha1.Spec_Auth x));
          ("TLS", ptrC TLSSpec_content (V1alpha1.Spec_TLS x)); ("Metrics", ptrC MetricsSpec_content (V1alpha1.Spec_Metrics x));
          ("Config", strMapC (V1alpha1.Spec_Config x)); ("NodeSelector", strMapC (V1alpha1.Spec_NodeSelector x));
          ("Tolerations", sliceC (foreignC k_Toleration) (V1alpha1.Spec_Tolerations x));
          ("Affinity", ptrC (foreignC k_Affinity) (V1alpha1.Spec_Affinity x));
          ("TopologySpreadConstraints", sliceC (foreignC k_TopologySpreadConstraint) (V1alpha1.Spec_TopologySpreadConstraints x));
          ("PodSecurityContext", ptrC (foreignC k_PodSecurityContext) (V1alpha1.Spec_PodSecurityContext x));
          ("ContainerSecurityContext", ptrC (foreignC k_SecurityContext) (V1alpha1.Spec_ContainerSecurityContext x));
          ("PodDisruptionBudget", ptrC PDBSpec_content (V1alpha1.Spec_PodDisruptionBudget x));
          ("NetworkPolicy", ptrC NetworkPolicySpec_content (V1alpha1.Spec_NetworkPolicy x));
          ("Backup", ptrC BackupSpec_content (V1alpha1.Spec_Backup x)); ("RestoreFrom", ptrC RestoreSpec_content (V1alpha1.Spec_RestoreFrom x));
          ("ReplicateFrom", ptrC ReplicateFromSpec_content (V1alpha1.Spec_ReplicateFrom x));
          ("Logging", ptrC LoggingSpec_content (V1alpha1.Spec_Logging x))].
Definition ValkeyClusterSpec_DeepCopyInto : val → heapM val :=
  intoStruct [("ImagePullSecrets", makeCopy); ("PodLabels", makeMap); ("Shards", newThen plain); ("ReplicasPerShard", newThen plain);
             ("PerShardWorkload", newThen plain); ("AutoReshard", newThen plain); ("Sentinel", newThen SentinelSpec_DeepCopyInto);
             ("Resources", foreign_DeepCopyInto k_ResourceRequirements); ("Storage", newThen StorageSpec_DeepCopyInto);
             ("Auth", newThen AuthSpec_DeepCopyInto); ("TLS", newThen TLSSpec_DeepCopyInto); ("Metrics", newThen MetricsSpec_DeepCopyInto);
             ("Config", makeMap); ("NodeSelector", makeMap); ("Tolerations", makeEach (foreign_DeepCopyInto k_Toleration));
             ("Affinity", newThen (foreign_DeepCopyInto k_Affinity));
             ("TopologySpreadConstraints", makeEach (foreign_DeepCopyInto k_TopologySpreadConstraint));
             ("PodSecurityContext", newThen (foreign_DeepCopyInto k_PodSecurityContext));
             ("ContainerSecurityContext", newThen (foreign_DeepCopyInto k_SecurityContext)); ("PodDisruptionBudget", newThen PDBSpec_DeepCopyInto);
             ("NetworkPolicy", newThen NetworkPolicySpec_DeepCopyInto); ("Backup", newThen BackupSpec_DeepCopyInto);
             ("RestoreFrom", newThen RestoreSpec_DeepCopyInto); ("ReplicateFrom", newThen ReplicateFromSpec_DeepCopyInto); ("Logging", newThen plain)].
Definition ValkeyClusterSpec_DeepCopy : val → heapM val := newThen ValkeyClusterSpec_DeepCopyInto.
Lemma ValkeyClusterSpec_deep_alpha x : deepOf ValkeyClusterSpec_DeepCopyInto (ValkeyClusterSpec_content x).
Proof. deep_struct. Qed.
#[local] Hint Resolve ValkeyClusterSpec_deep_alpha : deep.

Definition ValkeyClusterStatus_content (x : V1alpha1.ValkeyClusterStatus) : content :=
  CStruct [("Phase", strC (V1alpha1.Status_Phase x)); ("ReadyReplicas", intC (V1alpha1.Status_ReadyReplicas x));
          ("Primary", strC (V1alpha1.Status_Primary x)); ("PrimaryDownSince", ptrC timeC (V1alpha1.Status_PrimaryDownSince x));
          ("QuorumDownSince", ptrC timeC (V1alpha1.Status_QuorumDownSince x)); ("InternalEndpoint", strC (V1alpha1.Status_InternalEndpoint x));
          ("Shards", intC (V1alpha1.Status_Shards x)); ("ReadyShards", intC (V1alpha1.Status_ReadyShards x));
          ("ClusterInitialized", boolC (V1alpha1.Status_ClusterInitialized x));
          ("LastAppliedReplicas", intC (V1alpha1.Status_LastAppliedReplicas x));
          ("ShardDetails", sliceC ShardStatus_content (V1alpha1.Status_ShardDetails x));
          ("ObservedGeneration", intC (V1alpha1.Status_ObservedGeneration x)); ("LastReshardToken", strC (V1alpha1.Status_LastReshardToken x));
          ("LastFailoverToken", strC (V1alpha1.Status_LastFailoverToken x));
          ("LastPasswordRotationToken", strC (V1alpha1.Status_LastPasswordRotationToken x));
          ("LastTLSCertFingerprint", strC (V1alpha1.Status_LastTLSCertFingerprint x));
          ("Conditions", sliceC (foreignC k_Condition) (V1alpha1.Status_Conditions x))].
Definition ValkeyClusterStatus_DeepCopyInto : val → heapM val :=
  intoStruct [("PrimaryDownSince", ifNotNil time_DeepCopy); ("QuorumDownSince", ifNotNil time_DeepCopy);
             ("ShardDetails", makeEach ShardStatus_DeepCopyInto); ("Conditions", makeEach (foreign_DeepCopyInto k_Condition))].
Definition ValkeyClusterStatus_DeepCopy : val → heapM val := newThen ValkeyClusterStatus_DeepCopyInto.
Lemma ValkeyClusterStatus_deep_alpha x : deepOf ValkeyClusterStatus_DeepCopyInto (ValkeyClusterStatus_content x).
Proof. deep_struct. Qed.
#[local] Hint Resolve ValkeyClusterStatus_deep_alpha : deep.

Definition ValkeyCluster_content (tx : TypeMeta * V1alpha1.ValkeyCluster) : content :=
  let '(t, x) := tx in
  CStruct [("TypeMeta", typeMetaC t); ("ObjectMeta", (foreignC k_ObjectMeta) (V1alpha1.Meta x));
          ("Spec", ValkeyClusterSpec_content (V1alpha1.Spec x)); ("Status", ValkeyClusterStatus_content (V1alpha1.Status x))].
Definition ValkeyCluster_DeepCopyInto : val → heapM val :=
  intoStruct [("TypeMeta", plain); ("ObjectMeta", foreign_DeepCopyInto k_ObjectMeta); ("Spec", ValkeyClusterSpec_DeepCopyInto);
             ("Status", ValkeyClusterStatus_DeepCopyInto)].
Definition ValkeyCluster_DeepCopy : val → heapM val := newThen ValkeyCluster_DeepCopyInto.
Definition ValkeyCluster_DeepCopyObject : val → heapM val := asObject ValkeyCluster_DeepCopy.
Lemma ValkeyCluster_deep_alpha x : deepOf ValkeyCluster_DeepCopyInto (ValkeyCluster_content x).
Proof. destruct x as [t x]. deep_struct. Qed.
#[local] Hint Resolve ValkeyCluster_deep_alpha : deep.

Record ValkeyClusterList := { ValkeyClusterList_ListMeta : Opaque; ValkeyClusterList_Items : list (TypeMeta * V1alpha1.ValkeyCluster) }.
Definition ValkeyClusterList_content (tx : TypeMeta * ValkeyClusterList) : content :=
  let '(t, x) := tx in
  CStruct [("TypeMeta", typeMetaC t); ("ListMeta", foreignC k_ListMeta (ValkeyClusterList_ListMeta x));
          ("Items", sliceC ValkeyCluster_content (ValkeyClusterList_Items x))].
Definition ValkeyClusterList_DeepCopyInto : val → heapM val :=
  intoStruct [("TypeMeta", plain); ("ListMeta", foreign_DeepCopyInto k_ListMeta); ("Items", makeEach ValkeyCluster_DeepCopyInto)].
Definition ValkeyClusterList_DeepCopy : val → heapM val := newThen ValkeyClusterList_DeepCopyInto.
Definition ValkeyClusterList_DeepCopyObject : val → heapM val := asObject ValkeyClusterList_DeepCopy.
Lemma ValkeyClusterList_deep_alpha x : deepOf ValkeyClusterList_DeepCopyInto (ValkeyClusterList_content x).
Proof. destruct x as [t x]. deep_struct. Qed.
#[local] Hint Resolve ValkeyClusterList_deep_alpha : deep.

(** C25: a deep copy is a copy: for every kind of object of both API versions, the generated [DeepCopy] and
    [DeepCopyObject] never panic, leave all memory as it was and answer an object with the same
    content, field by field, that shares no memory with the original: whatever is then written to
    the memory that existed before (the object that is patched), the copy (the base of the patch)
    still reads as the original did, and whatever is written to the copy, the original does.  A
    nil object is copied to nil. *)
Theorem deepCopy_isolates :
  isolates DeepCopyBeta.ValkeyCluster_DeepCopy DeepCopyBeta.ValkeyCluster_content ∧
  isolates DeepCopyBeta.ValkeyCluster_DeepCopyObject DeepCopyBeta.ValkeyCluster_content ∧
  isolates DeepCopyBeta.ValkeyClusterList_DeepCopyObject DeepCopyBeta.ValkeyClusterList_content ∧
  isolates DeepCopyBeta.ValkeyACL_DeepCopy DeepCopyBeta.ValkeyACL_content ∧
  isolates DeepCopyBeta.ValkeyACL_DeepCopyObject DeepCopyBeta.ValkeyACL_content ∧
  isolates DeepCopyBeta.ValkeyACLList_DeepCopyObject DeepCopyBeta.ValkeyACLList_content ∧
  isolates ValkeyCluster_DeepCopyObject ValkeyCluster_content ∧
  isolates ValkeyClusterList_DeepCopyObject ValkeyClusterList_content ∧
  isolates ValkeyACL_DeepCopyObject ValkeyACL_content ∧
  isolates ValkeyACLList_DeepCopyObject ValkeyACLList_content.
Proof.
  split_and!; apply isolates_deep; intros x; try apply deep_asObject; apply deep_ptr.
  - apply ValkeyCluster_deep.
  - apply ValkeyCluster_deep.
  - apply ValkeyClusterList_deep.
  - apply ValkeyACL_deep.
  - apply ValkeyACL_deep.
  - apply ValkeyACLList_deep.
  - apply ValkeyCluster_deep_alpha.
  - apply ValkeyClusterList_deep_alpha.
  - apply ValkeyACL_deep_alpha.
  - apply ValkeyACLList_deep_alpha.
Qed.
End copies.

(** ** A concrete copy *)

(** The metadata is copied field by field, what is not looked at here is empty. *)
Definition hidden {A} : foreign A := {| foreignC := λ _, CStruct []; foreign_DeepCopyInto := plain; foreign_deep := λ _, deep_plain (CStruct []) eq_refl |}.
Definition demoMetaC (m : ObjectMeta) : content :=
  CStruct [("Name", strC (Meta_Name m)); ("Annotations", strMapC (Meta_Annotations m)); ("Finalizers", sliceC strC (Meta_Finalizers m))].
Lemma demoMeta_deep m : deepOf (intoStruct [("Annotations", makeMap); ("Finalizers", makeCopy)]) (demoMetaC m).
Proof. deep_struct. Qed.
Definition demoCopies : K8sCopies := {|
  k_ResourceRequirements := hidden; k_Toleration := hidden; k_Affinity := hidden; k_TopologySpreadConstraint := hidden;
  k_PodSecurityContext := hidden; k_SecurityContext := hidden; k_NetworkPolicyPeer := hidden; k_NetworkPolicyEgressRule := hidden;
  k_Condition := hidden; k_ObjectMeta := {| foreignC := demoMetaC; foreign_DeepCopyInto := _; foreign_deep := demoMeta_deep |};
  k_ListMeta := hidden; k_Quantity := hidden; timeC := intC; time_DeepCopy := newThen plain;
  time_deep := λ t, deep_ptr plain intC (Some t) (λ x, deep_plain (intC x) eq_refl) |}.

(** A ValkeyACL with one user, as it lies in memory: the object, the array of users and the reference to the Secret. *)
Definition demoACL : ValkeyACL := {|
  ACL_Meta := {| Meta_Name := "acl"; Meta_Namespace := "ns"; Meta_UID := ""; Meta_Generation := 1; Meta_Annotations := ∅; Meta_Finalizers := []; Meta_Deleting := false |};
  ACL_Spec := {| ACL_ClusterRef := "demo"; ACL_Users := [{| User_Name := "app"; User_PasswordSecret := Some {| SKR_Name := "pw"; SKR_Key := "k" |}; User_Rules := "+@all" |}] |};
  ACL_Status := {| ACL_AppliedUsers := []; ACL_ObservedGeneration := 1; ACL_Conditions := [] |} |}.
Definition vstr (s : string) : val := VBase (BStr s).
Definition demoMemory : heap := {[
  1%positive := Var (VStruct [("TypeMeta", VStruct [("Kind", vstr "ValkeyACL"); ("APIVersion", vstr "v1beta1")]);
    ("ObjectMeta", VStruct [("Name", vstr "acl"); ("Annotations", VNil); ("Finalizers", VNil)]);
    ("Spec", VStruct [("ClusterRef", VStruct [("Name", vstr "demo")]); ("Users", VSlice 2 0 1)]);
    ("Status", VStruct [("AppliedUsers", VNil); ("ObservedGeneration", VBase (BInt 1)); ("Conditions", VNil)])]);
  2%positive := Arr [VStruct [("Name", vstr "app"); ("PasswordSecret", VPtr 3); ("Rules", vstr "+@all")]];
  3%positive := Var (VStruct [("Name", vstr "pw"); ("Key", vstr "k")]) ]}.
Lemma demoMemory_holds : denotes demoMemory (VPtr 1) (ptrC (DeepCopyBeta.ValkeyACL_content (H := demoCopies)) (Some ("ValkeyACL", "v1beta1", demoACL))).
Proof.
  eexists 1%positive, _. split_and!; [done|reflexivity|]. cbn. eexists. split; [reflexivity|]. split_and!; try done.
  - eexists. split; [reflexivity|done].
  - eexists. split; [reflexivity|]. split_and!; try done; by left.
  - eexists. split; [reflexivity|]. split_and!; try done; [eexists; split; [reflexivity|done]|]. right. eexists 2%positive, 0, 1, _.
    split; [done|]. split; [reflexivity|]. split; [cbn; lia|]. cbn. split; [|done]. eexists. split; [reflexivity|]. split_and!; try done.
    eexists 3%positive, _. split; [done|]. split; [reflexivity|]. eexists. split; [reflexivity|done].
  - eexists. split; [reflexivity|]. split_and!; try done; by left.
Qed.
(** The user's Secret is renamed in the object after the copy; the copy keeps the old name. *)
Definition renamed (h : heap) : heap := <[3%positive := Var (VStruct [("Name", vstr "other"); ("Key", vstr "k")])]> h.
Lemma deepCopy_isolates_witness : ∃ v' h', DeepCopyBeta.ValkeyACL_DeepCopy (H := demoCopies) (VPtr 1) demoMemory = Some (v', h') ∧
  denotes (renamed h') v' (ptrC (DeepCopyBeta.ValkeyACL_content (H := demoCopies)) (Some ("ValkeyACL", "v1beta1", demoACL))).
Proof.
  destruct (deepCopy_isolates (H := demoCopies)) as (_ & _ & _ & Hacl & _).
  destruct (Hacl _ _ _ demoMemory_holds) as (v' & h' & E & _ & Hcopy & _). exists v', h'. split; [exact E|].
  apply Hcopy. intros l Hl. unfold renamed. apply lookup_insert_ne. intros <-. apply Hl, elem_of_dom. eexists. reflexivity.
Defined.
