(* ===== verification/Conversion.v ===== *)
(** * Conversion: v1alpha1 and v1beta1 (api/v1alpha1/conversion.go)

    v1beta1 is the hub, the version the operator works on and the API server stores; v1alpha1 is a
    spoke.  The source converts by marshalling one and unmarshalling the other; [hub...] and
    [spoke...] are the field-by-field copies that this is meant to be, and the theorems say that it
    is: nothing is lost either way, no conversion fails, and defaulting the one or the other gives
    the same object. *)

From S2P Require Import Prelude GoStd Kube Api Json ApiJson V1alpha1.

(** ** The source (conversion.go) *)
Section conversion.
Context `{KubeCodecs}.

(** [ConvertTo] and [ConvertFrom] write to the object they are given; on an error what has been
    written so far stays written. *)
Definition ConvertTo (src : V1alpha1.ValkeyCluster) (dst : ValkeyCluster) : option ValkeyCluster :=
  let dst := {| Meta := V1alpha1.Meta src; Spec := Spec dst; Status := Status dst |} in
  spec ← jsonRoundTrip V1alpha1.valkeyClusterSpecC valkeyClusterSpecC (V1alpha1.Spec src) (Spec dst);
  let dst := {| Meta := Meta dst; Spec := spec; Status := Status dst |} in
  status ← jsonRoundTrip V1alpha1.valkeyClusterStatusC valkeyClusterStatusC (V1alpha1.Status src) (Status dst);
  Some {| Meta := Meta dst; Spec := Spec dst; Status := status |}.
Definition ConvertFrom (src : ValkeyCluster) (dst : V1alpha1.ValkeyCluster) : option V1alpha1.ValkeyCluster :=
  let dst := {| V1alpha1.Meta := Meta src; V1alpha1.Spec := V1alpha1.Spec dst; V1alpha1.Status := V1alpha1.Status dst |} in
  spec ← jsonRoundTrip valkeyClusterSpecC V1alpha1.valkeyClusterSpecC (Spec src) (V1alpha1.Spec dst);
  let dst := {| V1alpha1.Meta := V1alpha1.Meta dst; V1alpha1.Spec := spec; V1alpha1.Status := V1alpha1.Status dst |} in
  status ← jsonRoundTrip valkeyClusterStatusC V1alpha1.valkeyClusterStatusC (Status src) (V1alpha1.Status dst);
  Some {| V1alpha1.Meta := V1alpha1.Meta dst; V1alpha1.Spec := V1alpha1.Spec dst; V1alpha1.Status := status |}.
Definition aclConvertTo (src : V1alpha1.ValkeyACL) (dst : ValkeyACL) : option ValkeyACL :=
  let dst := {| ACL_Meta := V1alpha1.ACL_Meta src; ACL_Spec := ACL_Spec dst; ACL_Status := ACL_Status dst |} in
  spec ← jsonRoundTrip V1alpha1.valkeyACLSpecC valkeyACLSpecC (V1alpha1.ACL_Spec src) (ACL_Spec dst);
  let dst := {| ACL_Meta := ACL_Meta dst; ACL_Spec := spec; ACL_Status := ACL_Status dst |} in
  status ← jsonRoundTrip V1alpha1.valkeyACLStatusC valkeyACLStatusC (V1alpha1.ACL_Status src) (ACL_Status dst);
  Some {| ACL_Meta := ACL_Meta dst; ACL_Spec := ACL_Spec dst; ACL_Status := status |}.
Definition aclConvertFrom (src : ValkeyACL) (dst : V1alpha1.ValkeyACL) : option V1alpha1.ValkeyACL :=
  let dst := {| V1alpha1.ACL_Meta := ACL_Meta src; V1alpha1.ACL_Spec := V1alpha1.ACL_Spec dst; V1alpha1.ACL_Status := V1alpha1.ACL_Status dst |} in
  spec ← jsonRoundTrip valkeyACLSpecC V1alpha1.valkeyACLSpecC (ACL_Spec src) (V1alpha1.ACL_Spec dst);
  let dst := {| V1alpha1.ACL_Meta := V1alpha1.ACL_Meta dst; V1alpha1.ACL_Spec := spec; V1alpha1.ACL_Status := V1alpha1.ACL_Status dst |} in
  status ← jsonRoundTrip valkeyACLStatusC V1alpha1.valkeyACLStatusC (ACL_Status src) (V1alpha1.ACL_Status dst);
  Some {| V1alpha1.ACL_Meta := V1alpha1.ACL_Meta dst; V1alpha1.ACL_Spec := V1alpha1.ACL_Spec dst; V1alpha1.ACL_Status := status |}.
End conversion.

(** ** What it is meant to be: every field copied *)
Definition hubLoggingSpec (x : V1alpha1.LoggingSpec) : LoggingSpec := {|
  Log_Format := V1alpha1.Log_Format x |}.
Definition hubSecretKeyReference (x : V1alpha1.SecretKeyReference) : SecretKeyReference := {|
  SKR_Name := V1alpha1.SKR_Name x; SKR_Key := V1alpha1.SKR_Key x |}.
Definition hubSourceCASecretRef (x : V1alpha1.SourceCASecretRef) : SourceCASecretRef := {|
  CA_Name := V1alpha1.CA_Name x; CA_Key := V1alpha1.CA_Key x |}.
Definition hubReplicateFromSpec (x : V1alpha1.ReplicateFromSpec) : ReplicateFromSpec := {|
  RF_Host := V1alpha1.RF_Host x; RF_Port := V1alpha1.RF_Port x;
  RF_PasswordSecret := hubSecretKeyReference <$> V1alpha1.RF_PasswordSecret x; RF_TLS := V1alpha1.RF_TLS x;
  RF_CASecret := hubSourceCASecretRef <$> V1alpha1.RF_CASecret x |}.
Definition hubS3Spec (x : V1alpha1.S3Spec) : S3Spec := {|
  S3_Bucket := V1alpha1.S3_Bucket x; S3_Endpoint := V1alpha1.S3_Endpoint x; S3_Region := V1alpha1.S3_Region x;
  S3_Prefix := V1alpha1.S3_Prefix x; S3_CredentialsSecret := V1alpha1.S3_CredentialsSecret x;
  S3_Encryption := V1alpha1.S3_Encryption x; S3_KMSKeyID := V1alpha1.S3_KMSKeyID x |}.
Definition hubRestoreSpec (x : V1alpha1.RestoreSpec) : RestoreSpec := {|
  Restore_S3 := hubS3Spec <$> V1alpha1.Restore_S3 x; Restore_SourceKey := V1alpha1.Restore_SourceKey x;
  Restore_AWSCLIImage := V1alpha1.Restore_AWSCLIImage x |}.
Definition hubBackupSpec (x : V1alpha1.BackupSpec) : BackupSpec := {|
  Backup_Enabled := V1alpha1.Backup_Enabled x; Backup_Schedule := V1alpha1.Backup_Schedule x;
  Backup_S3 := hubS3Spec <$> V1alpha1.Backup_S3 x; Backup_Image := V1alpha1.Backup_Image x;
  Backup_AWSCLIImage := V1alpha1.Backup_AWSCLIImage x; Backup_Retention := V1alpha1.Backup_Retention x |}.
Definition hubPDBSpec (x : V1alpha1.PDBSpec) : PDBSpec := {|
  PDB_Enabled := V1alpha1.PDB_Enabled x; PDB_MaxUnavailable := V1alpha1.PDB_MaxUnavailable x;
  PDB_MinAvailable := V1alpha1.PDB_MinAvailable x |}.
Definition hubNetworkPolicyEgressSpec (x : V1alpha1.NetworkPolicyEgressSpec) : NetworkPolicyEgressSpec := {|
  Egress_Enabled := V1alpha1.Egress_Enabled x; Egress_DNS := V1alpha1.Egress_DNS x;
  Egress_Extra := V1alpha1.Egress_Extra x |}.
Definition hubNetworkPolicySpec (x : V1alpha1.NetworkPolicySpec) : NetworkPolicySpec := {|
  NP_Enabled := V1alpha1.NP_Enabled x; NP_AllowFrom := V1alpha1.NP_AllowFrom x;
  NP_MetricsFrom := V1alpha1.NP_MetricsFrom x; NP_Egress := hubNetworkPolicyEgressSpec <$> V1alpha1.NP_Egress x |}.
Definition hubStorageSpec (x : V1alpha1.StorageSpec) : StorageSpec := {|
  Storage_Size := V1alpha1.Storage_Size x; Storage_StorageClassName := V1alpha1.Storage_StorageClassName x;
  Storage_Mode := V1alpha1.Storage_Mode x; Storage_Medium := V1alpha1.Storage_Medium x |}.
Definition hubAuthSpec (x : V1alpha1.AuthSpec) : AuthSpec := {|
  Auth_Enabled := V1alpha1.Auth_Enabled x; Auth_ExistingSecret := V1alpha1.Auth_ExistingSecret x |}.
Definition hubCertIssuerRef (x : V1alpha1.CertIssuerRef) : CertIssuerRef := {|
  Issuer_Name := V1alpha1.Issuer_Name x; Issuer_Kind := V1alpha1.Issuer_Kind x;
  Issuer_Group := V1alpha1.Issuer_Group x |}.
Definition hubTLSSpec (x : V1alpha1.TLSSpec) : TLSSpec := {|
  TLS_Enabled := V1alpha1.TLS_Enabled x; TLS_IssuerRef := hubCertIssuerRef <$> V1alpha1.TLS_IssuerRef x;
  TLS_ExistingSecret := V1alpha1.TLS_ExistingSecret x; TLS_MutualTLS := V1alpha1.TLS_MutualTLS x |}.
Definition hubMetricsSpec (x : V1alpha1.MetricsSpec) : MetricsSpec := {|
  Metrics_Enabled := V1alpha1.Metrics_Enabled x; Metrics_Image := V1alpha1.Metrics_Image x;
  Metrics_ImagePullPolicy := V1alpha1.Metrics_ImagePullPolicy x;
  Metrics_ServiceMonitor := V1alpha1.Metrics_ServiceMonitor x; Metrics_Resources := V1alpha1.Metrics_Resources x;
  Metrics_Sentinel := V1alpha1.Metrics_Sentinel x |}.
Definition hubSentinelSpec (x : V1alpha1.SentinelSpec) : SentinelSpec := {|
  Sentinel_Replicas := V1alpha1.Sentinel_Replicas x; Sentinel_Quorum := V1alpha1.Sentinel_Quorum x;
  Sentinel_Image := V1alpha1.Sentinel_Image x; Sentinel_Resources := V1alpha1.Sentinel_Resources x;
  Sentinel_DownAfterMilliseconds := V1alpha1.Sentinel_DownAfterMilliseconds x;
  Sentinel_FailoverTimeout := V1alpha1.Sentinel_FailoverTimeout x |}.
Definition hubValkeyClusterSpec (x : V1alpha1.ValkeyClusterSpec) : ValkeyClusterSpec := {|
  Spec_Topology := V1alpha1.Spec_Topology x; Spec_Profile := V1alpha1.Spec_Profile x;
  Spec_Image := V1alpha1.Spec_Image x; Spec_ImagePullPolicy := V1alpha1.Spec_ImagePullPolicy x;
  Spec_ImagePullSecrets := V1alpha1.Spec_ImagePullSecrets x; Spec_PodLabels := V1alpha1.Spec_PodLabels x;
  Spec_Replicas := V1alpha1.Spec_Replicas x; Spec_Shards := V1alpha1.Spec_Shards x;
  Spec_ReplicasPerShard := V1alpha1.Spec_ReplicasPerShard x;
  Spec_PerShardWorkload := V1alpha1.Spec_PerShardWorkload x; Spec_AutoReshard := V1alpha1.Spec_AutoReshard x;
  Spec_Sentinel := hubSentinelSpec <$> V1alpha1.Spec_Sentinel x; Spec_Resources := V1alpha1.Spec_Resources x;
  Spec_Storage := hubStorageSpec <$> V1alpha1.Spec_Storage x; Spec_Auth := hubAuthSpec <$> V1alpha1.Spec_Auth x;
  Spec_TLS := hubTLSSpec <$> V1alpha1.Spec_TLS x; Spec_Metrics := hubMetricsSpec <$> V1alpha1.Spec_Metrics x;
  Spec_Config := V1alpha1.Spec_Config x; Spec_NodeSelector := V1alpha1.Spec_NodeSelector x;
  Spec_Tolerations := V1alpha1.Spec_Tolerations x; Spec_Affinity := V1alpha1.Spec_Affinity x;
  Spec_TopologySpreadConstraints := V1alpha1.Spec_TopologySpreadConstraints x;
  Spec_PodSecurityContext := V1alpha1.Spec_PodSecurityContext x;
  Spec_ContainerSecurityContext := V1alpha1.Spec_ContainerSecurityContext x;
  Spec_PodDisruptionBudget := hubPDBSpec <$> V1alpha1.Spec_PodDisruptionBudget x;
  Spec_NetworkPolicy := hubNetworkPolicySpec <$> V1alpha1.Spec_NetworkPolicy x;
  Spec_Backup := hubBackupSpec <$> V1alpha1.Spec_Backup x;
  Spec_RestoreFrom := hubRestoreSpec <$> V1alpha1.Spec_RestoreFrom x;
  Spec_ReplicateFrom := hubReplicateFromSpec <$> V1alpha1.Spec_ReplicateFrom x;
  Spec_Logging := hubLoggingSpec <$> V1alpha1.Spec_Logging x |}.
Definition hubReplicaOffset (x : V1alpha1.ReplicaOffset) : ReplicaOffset := {|
  RO_Pod := V1alpha1.RO_Pod x; RO_Offset := V1alpha1.RO_Offset x |}.
Definition hubShardStatus (x : V1alpha1.ShardStatus) : ShardStatus := {|
  Shard_Index := V1alpha1.Shard_Index x; Shard_Primary := V1alpha1.Shard_Primary x;
  Shard_PrimaryNodeID := V1alpha1.Shard_PrimaryNodeID x; Shard_Replicas := V1alpha1.Shard_Replicas x;
  Shard_SlotRanges := V1alpha1.Shard_SlotRanges x; Shard_SlotCount := V1alpha1.Shard_SlotCount x;
  Shard_Health := V1alpha1.Shard_Health x; Shard_PrimaryOffset := V1alpha1.Shard_PrimaryOffset x;
  Shard_ReplicaOffsets := hubReplicaOffset <$> V1alpha1.Shard_ReplicaOffsets x;
  Shard_MaxLagBytes := V1alpha1.Shard_MaxLagBytes x |}.
Definition hubValkeyClusterStatus (x : V1alpha1.ValkeyClusterStatus) : ValkeyClusterStatus := {|
  Status_Phase := V1alpha1.Status_Phase x; Status_ReadyReplicas := V1alpha1.Status_ReadyReplicas x;
  Status_Primary := V1alpha1.Status_Primary x; Status_PrimaryDownSince := V1alpha1.Status_PrimaryDownSince x;
  Status_QuorumDownSince := V1alpha1.Status_QuorumDownSince x;
  Status_InternalEndpoint := V1alpha1.Status_InternalEndpoint x; Status_Shards := V1alpha1.Status_Shards x;
  Status_ReadyShards := V1alpha1.Status_ReadyShards x;
  Status_ClusterInitialized := V1alpha1.Status_ClusterInitialized x;
  Status_LastAppliedReplicas := V1alpha1.Status_LastAppliedReplicas x;
  Status_ShardDetails := hubShardStatus <$> V1alpha1.Status_ShardDetails x;
  Status_ObservedGeneration := V1alpha1.Status_ObservedGeneration x;
  Status_LastReshardToken := V1alpha1.Status_LastReshardToken x;
  Status_LastFailoverToken := V1alpha1.Status_LastFailoverToken x;
  Status_LastPasswordRotationToken := V1alpha1.Status_LastPasswordRotationToken x;
  Status_LastTLSCertFingerprint := V1alpha1.Status_LastTLSCertFingerprint x;
  Status_Conditions := V1alpha1.Status_Conditions x |}.
Definition hubValkeyACLUser (x : V1alpha1.ValkeyACLUser) : ValkeyACLUser := {|
  User_Name := V1alpha1.User_Name x; User_PasswordSecret := hubSecretKeyReference <$> V1alpha1.User_PasswordSecret x;
  User_Rules := V1alpha1.User_Rules x |}.
Definition hubValkeyACLSpec (x : V1alpha1.ValkeyACLSpec) : ValkeyACLSpec := {|
  ACL_ClusterRef := V1alpha1.ACL_ClusterRef x; ACL_Users := hubValkeyACLUser <$> V1alpha1.ACL_Users x |}.
Definition hubValkeyACLStatus (x : V1alpha1.ValkeyACLStatus) : ValkeyACLStatus := {|
  ACL_AppliedUsers := V1alpha1.ACL_AppliedUsers x; ACL_ObservedGeneration := V1alpha1.ACL_ObservedGeneration x;
  ACL_Conditions := V1alpha1.ACL_Conditions x |}.

Definition spokeLoggingSpec (x : LoggingSpec) : V1alpha1.LoggingSpec := {|
  V1alpha1.Log_Format := Log_Format x |}.
Definition spokeSecretKeyReference (x : SecretKeyReference) : V1alpha1.SecretKeyReference := {|
  V1alpha1.SKR_Name := SKR_Name x; V1alpha1.SKR_Key := SKR_Key x |}.
Definition spokeSourceCASecretRef (x : SourceCASecretRef) : V1alpha1.SourceCASecretRef := {|
  V1alpha1.CA_Name := CA_Name x; V1alpha1.CA_Key := CA_Key x |}.
Definition spokeReplicateFromSpec (x : ReplicateFromSpec) : V1alpha1.ReplicateFromSpec := {|
  V1alpha1.RF_Host := RF_Host x; V1alpha1.RF_Port := RF_Port x;
  V1alpha1.RF_PasswordSecret := spokeSecretKeyReference <$> RF_PasswordSecret x; V1alpha1.RF_TLS := RF_TLS x;
  V1alpha1.RF_CASecret := spokeSourceCASecretRef <$> RF_CASecret x |}.
Definition spokeS3Spec (x : S3Spec) : V1alpha1.S3Spec := {|
  V1alpha1.S3_Bucket := S3_Bucket x; V1alpha1.S3_Endpoint := S3_Endpoint x; V1alpha1.S3_Region := S3_Region x;
  V1alpha1.S3_Prefix := S3_Prefix x; V1alpha1.S3_CredentialsSecret := S3_CredentialsSecret x;
  V1alpha1.S3_Encryption := S3_Encryption x; V1alpha1.S3_KMSKeyID := S3_KMSKeyID x |}.
Definition spokeRestoreSpec (x : RestoreSpec) : V1alpha1.RestoreSpec := {|
  V1alpha1.Restore_S3 := spokeS3Spec <$> Restore_S3 x; V1alpha1.Restore_SourceKey := Restore_SourceKey x;
  V1alpha1.Restore_AWSCLIImage := Restore_AWSCLIImage x |}.
Definition spokeBackupSpec (x : BackupSpec) : V1alpha1.BackupSpec := {|
  V1alpha1.Backup_Enabled := Backup_Enabled x; V1alpha1.Backup_Schedule := Backup_Schedule x;
  V1alpha1.Backup_S3 := spokeS3Spec <$> Backup_S3 x; V1alpha1.Backup_Image := Backup_Image x;
  V1alpha1.Backup_AWSCLIImage := Backup_AWSCLIImage x; V1alpha1.Backup_Retention := Backup_Retention x |}.
Definition spokePDBSpec (x : PDBSpec) : V1alpha1.PDBSpec := {|
  V1alpha1.PDB_Enabled := PDB_Enabled x; V1alpha1.PDB_MaxUnavailable := PDB_MaxUnavailable x;
  V1alpha1.PDB_MinAvailable := PDB_MinAvailable x |}.
Definition spokeNetworkPolicyEgressSpec (x : NetworkPolicyEgressSpec) : V1alpha1.NetworkPolicyEgressSpec := {|
  V1alpha1.Egress_Enabled := Egress_Enabled x; V1alpha1.Egress_DNS := Egress_DNS x;
  V1alpha1.Egress_Extra := Egress_Extra x |}.
Definition spokeNetworkPolicySpec (x : NetworkPolicySpec) : V1alpha1.NetworkPolicySpec := {|
  V1alpha1.NP_Enabled := NP_Enabled x; V1alpha1.NP_AllowFrom := NP_AllowFrom x;
  V1alpha1.NP_MetricsFrom := NP_MetricsFrom x; V1alpha1.NP_Egress := spokeNetworkPolicyEgressSpec <$> NP_Egress x |}.
Definition spokeStorageSpec (x : StorageSpec) : V1alpha1.StorageSpec := {|
  V1alpha1.Storage_Size := Storage_Size x; V1alpha1.Storage_StorageClassName := Storage_StorageClassName x;
  V1alpha1.Storage_Mode := Storage_Mode x; V1alpha1.Storage_Medium := Storage_Medium x |}.
Definition spokeAuthSpec (x : AuthSpec) : V1alpha1.AuthSpec := {|
  V1alpha1.Auth_Enabled := Auth_Enabled x; V1alpha1.Auth_ExistingSecret := Auth_ExistingSecret x |}.
Definition spokeCertIssuerRef (x : CertIssuerRef) : V1alpha1.CertIssuerRef := {|
  V1alpha1.Issuer_Name := Issuer_Name x; V1alpha1.Issuer_Kind := Issuer_Kind x;
  V1alpha1.Issuer_Group := Issuer_Group x |}.
Definition spokeTLSSpec (x : TLSSpec) : V1alpha1.TLSSpec := {|
  V1alpha1.TLS_Enabled := TLS_Enabled x; V1alpha1.TLS_IssuerRef := spokeCertIssuerRef <$> TLS_IssuerRef x;
  V1alpha1.TLS_ExistingSecret := TLS_ExistingSecret x; V1alpha1.TLS_MutualTLS := TLS_MutualTLS x |}.
Definition spokeMetricsSpec (x : MetricsSpec) : V1alpha1.MetricsSpec := {|
  V1alpha1.Metrics_Enabled := Metrics_Enabled x; V1alpha1.Metrics_Image := Metrics_Image x;
  V1alpha1.Metrics_ImagePullPolicy := Metrics_ImagePullPolicy x;
  V1alpha1.Metrics_ServiceMonitor := Metrics_ServiceMonitor x; V1alpha1.Metrics_Resources := Metrics_Resources x;
  V1alpha1.Metrics_Sentinel := Metrics_Sentinel x |}.
Definition spokeSentinelSpec (x : SentinelSpec) : V1alpha1.SentinelSpec := {|
  V1alpha1.Sentinel_Replicas := Sentinel_Replicas x; V1alpha1.Sentinel_Quorum := Sentinel_Quorum x;
  V1alpha1.Sentinel_Image := Sentinel_Image x; V1alpha1.Sentinel_Resources := Sentinel_Resources x;
  V1alpha1.Sentinel_DownAfterMilliseconds := Sentinel_DownAfterMilliseconds x;
  V1alpha1.Sentinel_FailoverTimeout := Sentinel_FailoverTimeout x |}.
Definition spokeValkeyClusterSpec (x : ValkeyClusterSpec) : V1alpha1.ValkeyClusterSpec := {|
  V1alpha1.Spec_Topology := Spec_Topology x; V1alpha1.Spec_Profile := Spec_Profile x;
  V1alpha1.Spec_Image := Spec_Image x; V1alpha1.Spec_ImagePullPolicy := Spec_ImagePullPolicy x;
  V1alpha1.Spec_ImagePullSecrets := Spec_ImagePullSecrets x; V1alpha1.Spec_PodLabels := Spec_PodLabels x;
  V1alpha1.Spec_Replicas := Spec_Replicas x; V1alpha1.Spec_Shards := Spec_Shards x;
  V1alpha1.Spec_ReplicasPerShard := Spec_ReplicasPerShard x;
  V1alpha1.Spec_PerShardWorkload := Spec_PerShardWorkload x; V1alpha1.Spec_AutoReshard := Spec_AutoReshard x;
  V1alpha1.Spec_Sentinel := spokeSentinelSpec <$> Spec_Sentinel x; V1alpha1.Spec_Resources := Spec_Resources x;
  V1alpha1.Spec_Storage := spokeStorageSpec <$> Spec_Storage x; V1alpha1.Spec_Auth := spokeAuthSpec <$> Spec_Auth x;
  V1alpha1.Spec_TLS := spokeTLSSpec <$> Spec_TLS x; V1alpha1.Spec_Metrics := spokeMetricsSpec <$> Spec_Metrics x;
  V1alpha1.Spec_Config := Spec_Config x; V1alpha1.Spec_NodeSelector := Spec_NodeSelector x;
  V1alpha1.Spec_Tolerations := Spec_Tolerations x; V1alpha1.Spec_Affinity := Spec_Affinity x;
  V1alpha1.Spec_TopologySpreadConstraints := Spec_TopologySpreadConstraints x;
  V1alpha1.Spec_PodSecurityContext := Spec_PodSecurityContext x;
  V1alpha1.Spec_ContainerSecurityContext := Spec_ContainerSecurityContext x;
  V1alpha1.Spec_PodDisruptionBudget := spokePDBSpec <$> Spec_PodDisruptionBudget x;
  V1alpha1.Spec_NetworkPolicy := spokeNetworkPolicySpec <$> Spec_NetworkPolicy x;
  V1alpha1.Spec_Backup := spokeBackupSpec <$> Spec_Backup x;
  V1alpha1.Spec_RestoreFrom := spokeRestoreSpec <$> Spec_RestoreFrom x;
  V1alpha1.Spec_ReplicateFrom := spokeReplicateFromSpec <$> Spec_ReplicateFrom x;
  V1alpha1.Spec_Logging := spokeLoggingSpec <$> Spec_Logging x |}.
Definition spokeReplicaOffset (x : ReplicaOffset) : V1alpha1.ReplicaOffset := {|
  V1alpha1.RO_Pod := RO_Pod x; V1alpha1.RO_Offset := RO_Offset x |}.
Definition spokeShardStatus (x : ShardStatus) : V1alpha1.ShardStatus := {|
  V1alpha1.Shard_Index := Shard_Index x; V1alpha1.Shard_Primary := Shard_Primary x;
  V1alpha1.Shard_PrimaryNodeID := Shard_PrimaryNodeID x; V1alpha1.Shard_Replicas := Shard_Replicas x;
  V1alpha1.Shard_SlotRanges := Shard_SlotRanges x; V1alpha1.Shard_SlotCount := Shard_SlotCount x;
  V1alpha1.Shard_Health := Shard_Health x; V1alpha1.Shard_PrimaryOffset := Shard_PrimaryOffset x;
  V1alpha1.Shard_ReplicaOffsets := spokeReplicaOffset <$> Shard_ReplicaOffsets x;
  V1alpha1.Shard_MaxLagBytes := Shard_MaxLagBytes x |}.
Definition spokeValkeyClusterStatus (x : ValkeyClusterStatus) : V1alpha1.ValkeyClusterStatus := {|
  V1alpha1.Status_Phase := Status_Phase x; V1alpha1.Status_ReadyReplicas := Status_ReadyReplicas x;
  V1alpha1.Status_Primary := Status_Primary x; V1alpha1.Status_PrimaryDownSince := Status_PrimaryDownSince x;
  V1alpha1.Status_QuorumDownSince := Status_QuorumDownSince x;
  V1alpha1.Status_InternalEndpoint := Status_InternalEndpoint x; V1alpha1.Status_Shards := Status_Shards x;
  V1alpha1.Status_ReadyShards := Status_ReadyShards x;
  V1alpha1.Status_ClusterInitialized := Status_ClusterInitialized x;
  V1alpha1.Status_LastAppliedReplicas := Status_LastAppliedReplicas x;
  V1alpha1.Status_ShardDetails := spokeShardStatus <$> Status_ShardDetails x;
  V1alpha1.Status_ObservedGeneration := Status_ObservedGeneration x;
  V1alpha1.Status_LastReshardToken := Status_LastReshardToken x;
  V1alpha1.Status_LastFailoverToken := Status_LastFailoverToken x;
  V1alpha1.Status_LastPasswordRotationToken := Status_LastPasswordRotationToken x;
  V1alpha1.Status_LastTLSCertFingerprint := Status_LastTLSCertFingerprint x;
  V1alpha1.Status_Conditions := Status_Conditions x |}.
Definition spokeValkeyACLUser (x : ValkeyACLUser) : V1alpha1.ValkeyACLUser := {|
  V1alpha1.User_Name := User_Name x;
  V1alpha1.User_PasswordSecret := spokeSecretKeyReference <$> User_PasswordSecret x;
  V1alpha1.User_Rules := User_Rules x |}.
Definition spokeValkeyACLSpec (x : ValkeyACLSpec) : V1alpha1.ValkeyACLSpec := {|
  V1alpha1.ACL_ClusterRef := ACL_ClusterRef x; V1alpha1.ACL_Users := spokeValkeyACLUser <$> ACL_Users x |}.
Definition spokeValkeyACLStatus (x : ValkeyACLStatus) : V1alpha1.ValkeyACLStatus := {|
  V1alpha1.ACL_AppliedUsers := ACL_AppliedUsers x; V1alpha1.ACL_ObservedGeneration := ACL_ObservedGeneration x;
  V1alpha1.ACL_Conditions := ACL_Conditions x |}.

(** ** The two copies undo each other *)
Create HintDb convert.
Lemma option_fmap_inverse {A B} (f : A → B) (g : B → A) (o : option A) : (∀ x, g (f x) = x) → g <$> (f <$> o) = o.
Proof. intros Hf. destruct o; cbn; [by rewrite Hf|done]. Qed.
Lemma list_fmap_inverse {A B} (f : A → B) (g : B → A) (l : list A) : (∀ x, g (f x) = x) → g <$> (f <$> l) = l.
Proof. intros Hf. induction l as [|x l IH]; cbn; [done|]. by rewrite Hf, IH. Qed.
#[local] Hint Resolve option_fmap_inverse list_fmap_inverse : convert.
Ltac inverse :=
  lazymatch goal with |- ?f (?g _) = _ => unfold f, g end; cbn; f_equal; auto with convert.

Lemma spoke_hub_LoggingSpec x : spokeLoggingSpec (hubLoggingSpec x) = x.
Proof. destruct x. inverse. Qed.
#[local] Hint Resolve spoke_hub_LoggingSpec : convert.
Lemma spoke_hub_SecretKeyReference x : spokeSecretKeyReference (hubSecretKeyReference x) = x.
Proof. destruct x. inverse. Qed.
#[local] Hint Resolve spoke_hub_SecretKeyReference : convert.
Lemma spoke_hub_SourceCASecretRef x : spokeSourceCASecretRef (hubSourceCASecretRef x) = x.
Proof. destruct x. inverse. Qed.
#[local] Hint Resolve spoke_hub_SourceCASecretRef : convert.
Lemma spoke_hub_ReplicateFromSpec x : spokeReplicateFromSpec (hubReplicateFromSpec x) = x.
Proof. destruct x. inverse. Qed.
#[local] Hint Resolve spoke_hub_ReplicateFromSpec : convert.
Lemma spoke_hub_S3Spec x : spokeS3Spec (hubS3Spec x) = x.
Proof. destruct x. inverse. Qed.
#[local] Hint Resolve spoke_hub_S3Spec : convert.
Lemma spoke_hub_RestoreSpec x : spokeRestoreSpec (hubRestoreSpec x) = x.
Proof. destruct x. inverse. Qed.
#[local] Hint Resolve spoke_hub_RestoreSpec : convert.
Lemma spoke_hub_BackupSpec x : spokeBackupSpec (hubBackupSpec x) = x.
Proof. destruct x. inverse. Qed.
#[local] Hint Resolve spoke_hub_BackupSpec : convert.
Lemma spoke_hub_PDBSpec x : spokePDBSpec (hubPDBSpec x) = x.
Proof. destruct x. inverse. Qed.
#[local] Hint Resolve spoke_hub_PDBSpec : convert.
Lemma spoke_hub_NetworkPolicyEgressSpec x : spokeNetworkPolicyEgressSpec (hubNetworkPolicyEgressSpec x) = x.
Proof. destruct x. inverse. Qed.
#[local] Hint Resolve spoke_hub_NetworkPolicyEgressSpec : convert.
Lemma spoke_hub_NetworkPolicySpec x : spokeNetworkPolicySpec (hubNetworkPolicySpec x) = x.
Proof. destruct x. inverse. Qed.
#[local] Hint Resolve spoke_hub_NetworkPolicySpec : convert.
Lemma spoke_hub_StorageSpec x : spokeStorageSpec (hubStorageSpec x) = x.
Proof. destruct x. inverse. Qed.
#[local] Hint Resolve spoke_hub_StorageSpec : convert.
Lemma spoke_hub_AuthSpec x : spokeAuthSpec (hubAuthSpec x) = x.
Proof. destruct x. inverse. Qed.
#[local] Hint Resolve spoke_hub_AuthSpec : convert.
Lemma spoke_hub_CertIssuerRef x : spokeCertIssuerRef (hubCertIssuerRef x) = x.
Proof. destruct x. inverse. Qed.
#[local] Hint Resolve spoke_hub_CertIssuerRef : convert.
Lemma spoke_hub_TLSSpec x : spokeTLSSpec (hubTLSSpec x) = x.
Proof. destruct x. inverse. Qed.
#[local] Hint Resolve spoke_hub_TLSSpec : convert.
Lemma spoke_hub_MetricsSpec x : spokeMetricsSpec (hubMetricsSpec x) = x.
Proof. destruct x. inverse. Qed.
#[local] Hint Resolve spoke_hub_MetricsSpec : convert.
Lemma spoke_hub_SentinelSpec x : spokeSentinelSpec (hubSentinelSpec x) = x.
Proof. destruct x. inverse. Qed.
#[local] Hint Resolve spoke_hub_SentinelSpec : convert.
Lemma spoke_hub_ValkeyClusterSpec x : spokeValkeyClusterSpec (hubValkeyClusterSpec x) = x.
Proof. destruct x. inverse. Qed.
#[local] Hint Resolve spoke_hub_ValkeyClusterSpec : convert.
Lemma spoke_hub_ReplicaOffset x : spokeReplicaOffset (hubReplicaOffset x) = x.
Proof. destruct x. inverse. Qed.
#[local] Hint Resolve spoke_hub_ReplicaOffset : convert.
Lemma spoke_hub_ShardStatus x : spokeShardStatus (hubShardStatus x) = x.
Proof. destruct x. inverse. Qed.
#[local] Hint Resolve spoke_hub_ShardStatus : convert.
Lemma spoke_hub_ValkeyClusterStatus x : spokeValkeyClusterStatus (hubValkeyClusterStatus x) = x.
Proof. destruct x. inverse. Qed.
#[local] Hint Resolve spoke_hub_ValkeyClusterStatus : convert.
Lemma spoke_hub_ValkeyACLUser x : spokeValkeyACLUser (hubValkeyACLUser x) = x.
Proof. destruct x. inverse. Qed.
#[local] Hint Resolve spoke_hub_ValkeyACLUser : convert.
Lemma spoke_hub_ValkeyACLSpec x : spokeValkeyACLSpec (hubValkeyACLSpec x) = x.
Proof. destruct x. inverse. Qed.
#[local] Hint Resolve spoke_hub_ValkeyACLSpec : convert.
Lemma spoke_hub_ValkeyACLStatus x : spokeValkeyACLStatus (hubValkeyACLStatus x) = x.
Proof. destruct x. inverse. Qed.
#[local] Hint Resolve spoke_hub_ValkeyACLStatus : convert.
Lemma hub_spoke_LoggingSpec x : hubLoggingSpec (spokeLoggingSpec x) = x.
Proof. destruct x. inverse. Qed.
#[local] Hint Resolve hub_spoke_LoggingSpec : convert.
Lemma hub_spoke_SecretKeyReference x : hubSecretKeyReference (spokeSecretKeyReference x) = x.
Proof. destruct x. inverse. Qed.
#[local] Hint Resolve hub_spoke_SecretKeyReference : convert.
Lemma hub_spoke_SourceCASecretRef x : hubSourceCASecretRef (spokeSourceCASecretRef x) = x.
Proof. destruct x. inverse. Qed.
#[local] Hint Resolve hub_spoke_SourceCASecretRef : convert.
Lemma hub_spoke_ReplicateFromSpec x : hubReplicateFromSpec (spokeReplicateFromSpec x) = x.
Proof. destruct x. inverse. Qed.
#[local] Hint Resolve hub_spoke_ReplicateFromSpec : convert.
Lemma hub_spoke_S3Spec x : hubS3Spec (spokeS3Spec x) = x.
Proof. destruct x. inverse. Qed.
#[local] Hint Resolve hub_spoke_S3Spec : convert.
Lemma hub_spoke_RestoreSpec x : hubRestoreSpec (spokeRestoreSpec x) = x.
Proof. destruct x. inverse. Qed.
#[local] Hint Resolve hub_spoke_RestoreSpec : convert.
Lemma hub_spoke_BackupSpec x : hubBackupSpec (spokeBackupSpec x) = x.
Proof. destruct x. inverse. Qed.
#[local] Hint Resolve hub_spoke_BackupSpec : convert.
Lemma hub_spoke_PDBSpec x : hubPDBSpec (spokePDBSpec x) = x.
Proof. destruct x. inverse. Qed.
#[local] Hint Resolve hub_spoke_PDBSpec : convert.
Lemma hub_spoke_NetworkPolicyEgressSpec x : hubNetworkPolicyEgressSpec (spokeNetworkPolicyEgressSpec x) = x.
Proof. destruct x. inverse. Qed.
#[local] Hint Resolve hub_spoke_NetworkPolicyEgressSpec : convert.
Lemma hub_spoke_NetworkPolicySpec x : hubNetworkPolicySpec (spokeNetworkPolicySpec x) = x.
Proof. destruct x. inverse. Qed.
#[local] Hint Resolve hub_spoke_NetworkPolicySpec : convert.
Lemma hub_spoke_StorageSpec x : hubStorageSpec (spokeStorageSpec x) = x.
Proof. destruct x. inverse. Qed.
#[local] Hint Resolve hub_spoke_StorageSpec : convert.
Lemma hub_spoke_AuthSpec x : hubAuthSpec (spokeAuthSpec x) = x.
Proof. destruct x. inverse. Qed.
#[local] Hint Resolve hub_spoke_AuthSpec : convert.
Lemma hub_spoke_CertIssuerRef x : hubCertIssuerRef (spokeCertIssuerRef x) = x.
Proof. destruct x. inverse. Qed.
#[local] Hint Resolve hub_spoke_CertIssuerRef : convert.
Lemma hub_spoke_TLSSpec x : hubTLSSpec (spokeTLSSpec x) = x.
Proof. destruct x. inverse. Qed.
#[local] Hint Resolve hub_spoke_TLSSpec : convert.
Lemma hub_spoke_MetricsSpec x : hubMetricsSpec (spokeMetricsSpec x) = x.
Proof. destruct x. inverse. Qed.
#[local] Hint Resolve hub_spoke_MetricsSpec : convert.
Lemma hub_spoke_SentinelSpec x : hubSentinelSpec (spokeSentinelSpec x) = x.
Proof. destruct x. inverse. Qed.
#[local] Hint Resolve hub_spoke_SentinelSpec : convert.
Lemma hub_spoke_ValkeyClusterSpec x : hubValkeyClusterSpec (spokeValkeyClusterSpec x) = x.
Proof. destruct x. inverse. Qed.
#[local] Hint Resolve hub_spoke_ValkeyClusterSpec : convert.
Lemma hub_spoke_ReplicaOffset x : hubReplicaOffset (spokeReplicaOffset x) = x.
Proof. destruct x. inverse. Qed.
#[local] Hint Resolve hub_spoke_ReplicaOffset : convert.
Lemma hub_spoke_ShardStatus x : hubShardStatus (spokeShardStatus x) = x.
Proof. destruct x. inverse. Qed.
#[local] Hint Resolve hub_spoke_ShardStatus : convert.
Lemma hub_spoke_ValkeyClusterStatus x : hubValkeyClusterStatus (spokeValkeyClusterStatus x) = x.
Proof. destruct x. inverse. Qed.
#[local] Hint Resolve hub_spoke_ValkeyClusterStatus : convert.
Lemma hub_spoke_ValkeyACLUser x : hubValkeyACLUser (spokeValkeyACLUser x) = x.
Proof. destruct x. inverse. Qed.
#[local] Hint Resolve hub_spoke_ValkeyACLUser : convert.
Lemma hub_spoke_ValkeyACLSpec x : hubValkeyACLSpec (spokeValkeyACLSpec x) = x.
Proof. destruct x. inverse. Qed.
#[local] Hint Resolve hub_spoke_ValkeyACLSpec : convert.
Lemma hub_spoke_ValkeyACLStatus x : hubValkeyACLStatus (spokeValkeyACLStatus x) = x.
Proof. destruct x. inverse. Qed.
#[local] Hint Resolve hub_spoke_ValkeyACLStatus : convert.

(** ** They keep the widths *)
Lemma Forall_fmap_iff {A B} (f : A → B) (V : A → Prop) (W : B → Prop) l : (∀ x, V x ↔ W (f x)) → Forall V l ↔ Forall W (f <$> l).
Proof. intros Hf. rewrite Forall_fmap. by apply Forall_iff. Qed.
Lemma optAll_fmap_iff {A B} (f : A → B) (V : A → Prop) (W : B → Prop) o : (∀ x, V x ↔ W (f x)) → optAll V o ↔ optAll W (f <$> o).
Proof. intros Hf. by destruct o; cbn. Qed.
#[local] Hint Resolve Forall_fmap_iff optAll_fmap_iff : convert.
Lemma and_iff P P' Q Q' : (P ↔ P') → (Q ↔ Q') → P ∧ Q ↔ P' ∧ Q'.
Proof. tauto. Qed.
#[local] Arguments optAll : simpl never.
#[local] Arguments fmap : simpl never.
Ltac same_valid va vb :=
  unfold va, vb; cbn; repeat apply and_iff; solve [reflexivity|auto with convert].

Lemma valid_hub_ReplicateFromSpec x : V1alpha1.validReplicateFromSpec x ↔ validReplicateFromSpec (hubReplicateFromSpec x).
Proof. same_valid (@V1alpha1.validReplicateFromSpec) (@validReplicateFromSpec). Qed.
#[local] Hint Resolve valid_hub_ReplicateFromSpec : convert.
Lemma valid_hub_BackupSpec x : V1alpha1.validBackupSpec x ↔ validBackupSpec (hubBackupSpec x).
Proof. same_valid (@V1alpha1.validBackupSpec) (@validBackupSpec). Qed.
#[local] Hint Resolve valid_hub_BackupSpec : convert.
Lemma valid_hub_PDBSpec x : V1alpha1.validPDBSpec x ↔ validPDBSpec (hubPDBSpec x).
Proof. same_valid (@V1alpha1.validPDBSpec) (@validPDBSpec). Qed.
#[local] Hint Resolve valid_hub_PDBSpec : convert.
Lemma valid_hub_NetworkPolicyEgressSpec x : V1alpha1.validNetworkPolicyEgressSpec x ↔ validNetworkPolicyEgressSpec (hubNetworkPolicyEgressSpec x).
Proof. same_valid (@V1alpha1.validNetworkPolicyEgressSpec) (@validNetworkPolicyEgressSpec). Qed.
#[local] Hint Resolve valid_hub_NetworkPolicyEgressSpec : convert.
Lemma valid_hub_NetworkPolicySpec x : V1alpha1.validNetworkPolicySpec x ↔ validNetworkPolicySpec (hubNetworkPolicySpec x).
Proof. same_valid (@V1alpha1.validNetworkPolicySpec) (@validNetworkPolicySpec). Qed.
#[local] Hint Resolve valid_hub_NetworkPolicySpec : convert.
Lemma valid_hub_StorageSpec x : V1alpha1.validStorageSpec x ↔ validStorageSpec (hubStorageSpec x).
Proof. same_valid (@V1alpha1.validStorageSpec) (@validStorageSpec). Qed.
#[local] Hint Resolve valid_hub_StorageSpec : convert.
Lemma valid_hub_MetricsSpec x : V1alpha1.validMetricsSpec x ↔ validMetricsSpec (hubMetricsSpec x).
Proof. same_valid (@V1alpha1.validMetricsSpec) (@validMetricsSpec). Qed.
#[local] Hint Resolve valid_hub_MetricsSpec : convert.
Lemma valid_hub_SentinelSpec x : V1alpha1.validSentinelSpec x ↔ validSentinelSpec (hubSentinelSpec x).
Proof. same_valid (@V1alpha1.validSentinelSpec) (@validSentinelSpec). Qed.
#[local] Hint Resolve valid_hub_SentinelSpec : convert.
Lemma valid_hub_ValkeyClusterSpec x : V1alpha1.validValkeyClusterSpec x ↔ validValkeyClusterSpec (hubValkeyClusterSpec x).
Proof. same_valid (@V1alpha1.validValkeyClusterSpec) (@validValkeyClusterSpec). Qed.
#[local] Hint Resolve valid_hub_ValkeyClusterSpec : convert.
Lemma valid_hub_ReplicaOffset x : V1alpha1.validReplicaOffset x ↔ validReplicaOffset (hubReplicaOffset x).
Proof. same_valid (@V1alpha1.validReplicaOffset) (@validReplicaOffset). Qed.
#[local] Hint Resolve valid_hub_ReplicaOffset : convert.
Lemma valid_hub_ShardStatus x : V1alpha1.validShardStatus x ↔ validShardStatus (hubShardStatus x).
Proof. same_valid (@V1alpha1.validShardStatus) (@validShardStatus). Qed.
#[local] Hint Resolve valid_hub_ShardStatus : convert.
Lemma valid_hub_ValkeyClusterStatus x : V1alpha1.validValkeyClusterStatus x ↔ validValkeyClusterStatus (hubValkeyClusterStatus x).
Proof. same_valid (@V1alpha1.validValkeyClusterStatus) (@validValkeyClusterStatus). Qed.
#[local] Hint Resolve valid_hub_ValkeyClusterStatus : convert.
Lemma valid_hub_ValkeyACLStatus x : V1alpha1.validValkeyACLStatus x ↔ validValkeyACLStatus (hubValkeyACLStatus x).
Proof. same_valid (@V1alpha1.validValkeyACLStatus) (@validValkeyACLStatus). Qed.
#[local] Hint Resolve valid_hub_ValkeyACLStatus : convert.

(** ** The JSON round trip is that copy *)
Section fields.
Context `{KubeCodecs}.
#[export] Instance hubLoggingSpec_converts : Converts V1alpha1.loggingSpecC loggingSpecC anything hubLoggingSpec.
Proof. convert_struct (@V1alpha1.loggingSpecC) (@loggingSpecC). Qed.
#[export] Instance hubSecretKeyReference_converts : Converts V1alpha1.secretKeyReferenceC secretKeyReferenceC anything hubSecretKeyReference.
Proof. convert_struct (@V1alpha1.secretKeyReferenceC) (@secretKeyReferenceC). Qed.
#[export] Instance hubSourceCASecretRef_converts : Converts V1alpha1.sourceCASecretRefC sourceCASecretRefC anything hubSourceCASecretRef.
Proof. convert_struct (@V1alpha1.sourceCASecretRefC) (@sourceCASecretRefC). Qed.
#[export] Instance hubReplicateFromSpec_converts : Converts V1alpha1.replicateFromSpecC replicateFromSpecC V1alpha1.validReplicateFromSpec hubReplicateFromSpec.
Proof. convert_struct (@V1alpha1.replicateFromSpecC) (@replicateFromSpecC). Qed.
#[export] Instance hubS3Spec_converts : Converts V1alpha1.S3SpecC S3SpecC anything hubS3Spec.
Proof. convert_struct (@V1alpha1.S3SpecC) (@S3SpecC). Qed.
#[export] Instance hubRestoreSpec_converts : Converts V1alpha1.restoreSpecC restoreSpecC anything hubRestoreSpec.
Proof. convert_struct (@V1alpha1.restoreSpecC) (@restoreSpecC). Qed.
#[export] Instance hubBackupSpec_converts : Converts V1alpha1.backupSpecC backupSpecC V1alpha1.validBackupSpec hubBackupSpec.
Proof. convert_struct (@V1alpha1.backupSpecC) (@backupSpecC). Qed.
#[export] Instance hubPDBSpec_converts : Converts V1alpha1.PDBSpecC PDBSpecC V1alpha1.validPDBSpec hubPDBSpec.
Proof. convert_struct (@V1alpha1.PDBSpecC) (@PDBSpecC). Qed.
#[export] Instance hubNetworkPolicyEgressSpec_converts : Converts V1alpha1.networkPolicyEgressSpecC networkPolicyEgressSpecC V1alpha1.validNetworkPolicyEgressSpec hubNetworkPolicyEgressSpec.
Proof. convert_struct (@V1alpha1.networkPolicyEgressSpecC) (@networkPolicyEgressSpecC). Qed.
#[export] Instance hubNetworkPolicySpec_converts : Converts V1alpha1.networkPolicySpecC networkPolicySpecC V1alpha1.validNetworkPolicySpec hubNetworkPolicySpec.
Proof. convert_struct (@V1alpha1.networkPolicySpecC) (@networkPolicySpecC). Qed.
#[export] Instance hubStorageSpec_converts : Converts V1alpha1.storageSpecC storageSpecC V1alpha1.validStorageSpec hubStorageSpec.
Proof. convert_struct (@V1alpha1.storageSpecC) (@storageSpecC). Qed.
#[export] Instance hubAuthSpec_converts : Converts V1alpha1.authSpecC authSpecC anything hubAuthSpec.
Proof. convert_struct (@V1alpha1.authSpecC) (@authSpecC). Qed.
#[export] Instance hubCertIssuerRef_converts : Converts V1alpha1.certIssuerRefC certIssuerRefC anything hubCertIssuerRef.
Proof. convert_struct (@V1alpha1.certIssuerRefC) (@certIssuerRefC). Qed.
#[export] Instance hubTLSSpec_converts : Converts V1alpha1.TLSSpecC TLSSpecC anything hubTLSSpec.
Proof. convert_struct (@V1alpha1.TLSSpecC) (@TLSSpecC). Qed.
#[export] Instance hubMetricsSpec_converts : Converts V1alpha1.metricsSpecC metricsSpecC V1alpha1.validMetricsSpec hubMetricsSpec.
Proof. convert_struct (@V1alpha1.metricsSpecC) (@metricsSpecC). Qed.
#[export] Instance hubSentinelSpec_converts : Converts V1alpha1.sentinelSpecC sentinelSpecC V1alpha1.validSentinelSpec hubSentinelSpec.
Proof. convert_struct (@V1alpha1.sentinelSpecC) (@sentinelSpecC). Qed.
#[export] Instance hubValkeyClusterSpec_converts : Converts V1alpha1.valkeyClusterSpecC valkeyClusterSpecC V1alpha1.validValkeyClusterSpec hubValkeyClusterSpec.
Proof. convert_struct (@V1alpha1.valkeyClusterSpecC) (@valkeyClusterSpecC). Qed.
#[export] Instance hubReplicaOffset_converts : Converts V1alpha1.replicaOffsetC replicaOffsetC V1alpha1.validReplicaOffset hubReplicaOffset.
Proof. convert_struct (@V1alpha1.replicaOffsetC) (@replicaOffsetC). Qed.
#[export] Instance hubShardStatus_converts : Converts V1alpha1.shardStatusC shardStatusC V1alpha1.validShardStatus hubShardStatus.
Proof. convert_struct (@V1alpha1.shardStatusC) (@shardStatusC). Qed.
#[export] Instance hubValkeyClusterStatus_converts : Converts V1alpha1.valkeyClusterStatusC valkeyClusterStatusC V1alpha1.validValkeyClusterStatus hubValkeyClusterStatus.
Proof. convert_struct (@V1alpha1.valkeyClusterStatusC) (@valkeyClusterStatusC). Qed.
#[export] Instance hubValkeyACLUser_converts : Converts V1alpha1.valkeyACLUserC valkeyACLUserC anything hubValkeyACLUser.
Proof. convert_struct (@V1alpha1.valkeyACLUserC) (@valkeyACLUserC). Qed.
#[export] Instance hubValkeyACLSpec_converts : Converts V1alpha1.valkeyACLSpecC valkeyACLSpecC anything hubValkeyACLSpec.
Proof. convert_struct (@V1alpha1.valkeyACLSpecC) (@valkeyACLSpecC). Qed.
#[export] Instance hubValkeyACLStatus_converts : Converts V1alpha1.valkeyACLStatusC valkeyACLStatusC V1alpha1.validValkeyACLStatus hubValkeyACLStatus.
Proof. convert_struct (@V1alpha1.valkeyACLStatusC) (@valkeyACLStatusC). Qed.

#[export] Instance spokeLoggingSpec_converts : Converts loggingSpecC V1alpha1.loggingSpecC anything spokeLoggingSpec.
Proof. convert_struct (@loggingSpecC) (@V1alpha1.loggingSpecC). Qed.
#[export] Instance spokeSecretKeyReference_converts : Converts secretKeyReferenceC V1alpha1.secretKeyReferenceC anything spokeSecretKeyReference.
Proof. convert_struct (@secretKeyReferenceC) (@V1alpha1.secretKeyReferenceC). Qed.
#[export] Instance spokeSourceCASecretRef_converts : Converts sourceCASecretRefC V1alpha1.sourceCASecretRefC anything spokeSourceCASecretRef.
Proof. convert_struct (@sourceCASecretRefC) (@V1alpha1.sourceCASecretRefC). Qed.
#[export] Instance spokeReplicateFromSpec_converts : Converts replicateFromSpecC V1alpha1.replicateFromSpecC validReplicateFromSpec spokeReplicateFromSpec.
Proof. convert_struct (@replicateFromSpecC) (@V1alpha1.replicateFromSpecC). Qed.
#[export] Instance spokeS3Spec_converts : Converts S3SpecC V1alpha1.S3SpecC anything spokeS3Spec.
Proof. convert_struct (@S3SpecC) (@V1alpha1.S3SpecC). Qed.
#[export] Instance spokeRestoreSpec_converts : Converts restoreSpecC V1alpha1.restoreSpecC anything spokeRestoreSpec.
Proof. convert_struct (@restoreSpecC) (@V1alpha1.restoreSpecC). Qed.
#[export] Instance spokeBackupSpec_converts : Converts backupSpecC V1alpha1.backupSpecC validBackupSpec spokeBackupSpec.
Proof. convert_struct (@backupSpecC) (@V1alpha1.backupSpecC). Qed.
#[export] Instance spokePDBSpec_converts : Converts PDBSpecC V1alpha1.PDBSpecC validPDBSpec spokePDBSpec.
Proof. convert_struct (@PDBSpecC) (@V1alpha1.PDBSpecC). Qed.
#[export] Instance spokeNetworkPolicyEgressSpec_converts : Converts networkPolicyEgressSpecC V1alpha1.networkPolicyEgressSpecC validNetworkPolicyEgressSpec spokeNetworkPolicyEgressSpec.
Proof. convert_struct (@networkPolicyEgressSpecC) (@V1alpha1.networkPolicyEgressSpecC). Qed.
#[export] Instance spokeNetworkPolicySpec_converts : Converts networkPolicySpecC V1alpha1.networkPolicySpecC validNetworkPolicySpec spokeNetworkPolicySpec.
Proof. convert_struct (@networkPolicySpecC) (@V1alpha1.networkPolicySpecC). Qed.
#[export] Instance spokeStorageSpec_converts : Converts storageSpecC V1alpha1.storageSpecC validStorageSpec spokeStorageSpec.
Proof. convert_struct (@storageSpecC) (@V1alpha1.storageSpecC). Qed.
#[export] Instance spokeAuthSpec_converts : Converts authSpecC V1alpha1.authSpecC anything spokeAuthSpec.
Proof. convert_struct (@authSpecC) (@V1alpha1.authSpecC). Qed.
#[export] Instance spokeCertIssuerRef_converts : Converts certIssuerRefC V1alpha1.certIssuerRefC anything spokeCertIssuerRef.
Proof. convert_struct (@certIssuerRefC) (@V1alpha1.certIssuerRefC). Qed.
#[export] Instance spokeTLSSpec_converts : Converts TLSSpecC V1alpha1.TLSSpecC anything spokeTLSSpec.
Proof. convert_struct (@TLSSpecC) (@V1alpha1.TLSSpecC). Qed.
#[export] Instance spokeMetricsSpec_converts : Converts metricsSpecC V1alpha1.metricsSpecC validMetricsSpec spokeMetricsSpec.
Proof. convert_struct (@metricsSpecC) (@V1alpha1.metricsSpecC). Qed.
#[export] Instance spokeSentinelSpec_converts : Converts sentinelSpecC V1alpha1.sentinelSpecC validSentinelSpec spokeSentinelSpec.
Proof. convert_struct (@sentinelSpecC) (@V1alpha1.sentinelSpecC). Qed.
#[export] Instance spokeValkeyClusterSpec_converts : Converts valkeyClusterSpecC V1alpha1.valkeyClusterSpecC validValkeyClusterSpec spokeValkeyClusterSpec.
Proof. convert_struct (@valkeyClusterSpecC) (@V1alpha1.valkeyClusterSpecC). Qed.
#[export] Instance spokeReplicaOffset_converts : Converts replicaOffsetC V1alpha1.replicaOffsetC validReplicaOffset spokeReplicaOffset.
Proof. convert_struct (@replicaOffsetC) (@V1alpha1.replicaOffsetC). Qed.
#[export] Instance spokeShardStatus_converts : Converts shardStatusC V1alpha1.shardStatusC validShardStatus spokeShardStatus.
Proof. convert_struct (@shardStatusC) (@V1alpha1.shardStatusC). Qed.
#[export] Instance spokeValkeyClusterStatus_converts : Converts valkeyClusterStatusC V1alpha1.valkeyClusterStatusC validValkeyClusterStatus spokeValkeyClusterStatus.
Proof. convert_struct (@valkeyClusterStatusC) (@V1alpha1.valkeyClusterStatusC). Qed.
#[export] Instance spokeValkeyACLUser_converts : Converts valkeyACLUserC V1alpha1.valkeyACLUserC anything spokeValkeyACLUser.
Proof. convert_struct (@valkeyACLUserC) (@V1alpha1.valkeyACLUserC). Qed.
#[export] Instance spokeValkeyACLSpec_converts : Converts valkeyACLSpecC V1alpha1.valkeyACLSpecC anything spokeValkeyACLSpec.
Proof. convert_struct (@valkeyACLSpecC) (@V1alpha1.valkeyACLSpecC). Qed.
#[export] Instance spokeValkeyACLStatus_converts : Converts valkeyACLStatusC V1alpha1.valkeyACLStatusC validValkeyACLStatus spokeValkeyACLStatus.
Proof. convert_struct (@valkeyACLStatusC) (@V1alpha1.valkeyACLStatusC). Qed.

End fields.

(** ** Whole objects *)
Definition hubCluster (vc : V1alpha1.ValkeyCluster) : ValkeyCluster := {|
  Meta := V1alpha1.Meta vc; Spec := hubValkeyClusterSpec (V1alpha1.Spec vc); Status := hubValkeyClusterStatus (V1alpha1.Status vc) |}.
Definition spokeCluster (vc : ValkeyCluster) : V1alpha1.ValkeyCluster := {|
  V1alpha1.Meta := Meta vc; V1alpha1.Spec := spokeValkeyClusterSpec (Spec vc); V1alpha1.Status := spokeValkeyClusterStatus (Status vc) |}.
Definition hubACL (a : V1alpha1.ValkeyACL) : ValkeyACL := {|
  ACL_Meta := V1alpha1.ACL_Meta a; ACL_Spec := hubValkeyACLSpec (V1alpha1.ACL_Spec a); ACL_Status := hubValkeyACLStatus (V1alpha1.ACL_Status a) |}.
Definition spokeACL (a : ValkeyACL) : V1alpha1.ValkeyACL := {|
  V1alpha1.ACL_Meta := ACL_Meta a; V1alpha1.ACL_Spec := spokeValkeyACLSpec (ACL_Spec a); V1alpha1.ACL_Status := spokeValkeyACLStatus (ACL_Status a) |}.
Definition validCluster (vc : ValkeyCluster) : Prop := validValkeyClusterSpec (Spec vc) ∧ validValkeyClusterStatus (Status vc).
Definition validAlphaCluster (vc : V1alpha1.ValkeyCluster) : Prop :=
  V1alpha1.validValkeyClusterSpec (V1alpha1.Spec vc) ∧ V1alpha1.validValkeyClusterStatus (V1alpha1.Status vc).

Lemma spoke_hubCluster vc : spokeCluster (hubCluster vc) = vc.
Proof. destruct vc. unfold spokeCluster, hubCluster. cbn. f_equal; auto with convert. Qed.
Lemma hub_spokeCluster vc : hubCluster (spokeCluster vc) = vc.
Proof. destruct vc. unfold spokeCluster, hubCluster. cbn. f_equal; auto with convert. Qed.
Lemma spoke_hubACL a : spokeACL (hubACL a) = a.
Proof. destruct a. unfold spokeACL, hubACL. cbn. f_equal; auto with convert. Qed.
Lemma valid_hubCluster vc : validAlphaCluster vc ↔ validCluster (hubCluster vc).
Proof. unfold validAlphaCluster, validCluster. apply and_iff; [apply valid_hub_ValkeyClusterSpec|apply valid_hub_ValkeyClusterStatus]. Qed.

Section objects.
Context `{KubeCodecs}.

(** The new object the framework passes to be filled, whatever its metadata. *)
Definition fresh (dst : ValkeyCluster) : Prop :=
  Spec dst = c_zero valkeyClusterSpecC ∧ Status dst = c_zero valkeyClusterStatusC.
Definition freshAlpha (dst : V1alpha1.ValkeyCluster) : Prop :=
  V1alpha1.Spec dst = c_zero V1alpha1.valkeyClusterSpecC ∧ V1alpha1.Status dst = c_zero V1alpha1.valkeyClusterStatusC.
Definition freshACL (dst : ValkeyACL) : Prop := ACL_Spec dst = c_zero valkeyACLSpecC ∧ ACL_Status dst = c_zero valkeyACLStatusC.
Definition freshAlphaACL (dst : V1alpha1.ValkeyACL) : Prop :=
  V1alpha1.ACL_Spec dst = c_zero V1alpha1.valkeyACLSpecC ∧ V1alpha1.ACL_Status dst = c_zero V1alpha1.valkeyACLStatusC.

Lemma jsonRoundTrip_converts {A B} (ca : Codec A) (cb : Codec B) V f `{!Converts ca cb V f} x dst :
  V x → dst = c_zero cb → jsonRoundTrip ca cb x dst = Some (f x).
Proof. intros Hx ->. unfold jsonRoundTrip. by apply converts_dec. Qed.

Lemma ConvertTo_hub src dst : validAlphaCluster src → fresh dst → ConvertTo src dst = Some (hubCluster src).
Proof.
  intros [H1 H2] [F1 F2]. eapply bind_Some_intro; [by apply (jsonRoundTrip_converts _ _ _ hubValkeyClusterSpec)|].
  eapply bind_Some_intro; [by apply (jsonRoundTrip_converts _ _ _ hubValkeyClusterStatus)|done].
Qed.
Lemma ConvertFrom_spoke src dst : validCluster src → freshAlpha dst → ConvertFrom src dst = Some (spokeCluster src).
Proof.
  intros [H1 H2] [F1 F2]. eapply bind_Some_intro; [by apply (jsonRoundTrip_converts _ _ _ spokeValkeyClusterSpec)|].
  eapply bind_Some_intro; [by apply (jsonRoundTrip_converts _ _ _ spokeValkeyClusterStatus)|done].
Qed.
Lemma aclConvertTo_hub src dst : V1alpha1.validValkeyACLStatus (V1alpha1.ACL_Status src) → freshACL dst → aclConvertTo src dst = Some (hubACL src).
Proof.
  intros H2 [F1 F2]. eapply bind_Some_intro; [by apply (jsonRoundTrip_converts _ _ _ hubValkeyACLSpec)|].
  eapply bind_Some_intro; [by apply (jsonRoundTrip_converts _ _ _ hubValkeyACLStatus)|done].
Qed.
Lemma aclConvertFrom_spoke src dst : validValkeyACLStatus (ACL_Status src) → freshAlphaACL dst → aclConvertFrom src dst = Some (spokeACL src).
Proof.
  intros H2 [F1 F2]. eapply bind_Some_intro; [by apply (jsonRoundTrip_converts _ _ _ spokeValkeyACLSpec)|].
  eapply bind_Some_intro; [by apply (jsonRoundTrip_converts _ _ _ spokeValkeyACLStatus)|done].
Qed.
End objects.

(** ** Defaulting before or after *)
Lemma hubCluster_with_spec vc f g : hubValkeyClusterSpec (f (V1alpha1.Spec vc)) = g (hubValkeyClusterSpec (V1alpha1.Spec vc)) →
  hubCluster (V1alpha1.with_spec vc f) = with_spec (hubCluster vc) g.
Proof. intros Hf. unfold hubCluster, V1alpha1.with_spec, with_spec. cbn. by rewrite Hf. Qed.
Ltac hub_set := apply hubCluster_with_spec; match goal with |- context [V1alpha1.Spec ?v] => by destruct (V1alpha1.Spec v) end.
Lemma hub_defaultTopology vc : hubCluster (V1alpha1.defaultTopology vc) = defaultTopology (hubCluster vc).
Proof. unfold V1alpha1.defaultTopology, defaultTopology. cbn [Spec hubCluster Spec_Topology hubValkeyClusterSpec]. repeat case_bool_decide; try done; hub_set. Qed.
Lemma hub_defaultProfile vc : hubCluster (V1alpha1.defaultProfile vc) = defaultProfile (hubCluster vc).
Proof. unfold V1alpha1.defaultProfile, defaultProfile. cbn [Spec hubCluster Spec_Profile hubValkeyClusterSpec]. repeat case_bool_decide; try done; hub_set. Qed.
Lemma hub_defaultImageField vc : hubCluster (V1alpha1.defaultImageField vc) = defaultImageField (hubCluster vc).
Proof. unfold V1alpha1.defaultImageField, defaultImageField. cbn [Spec hubCluster Spec_Image hubValkeyClusterSpec]. repeat case_bool_decide; try done; hub_set. Qed.
Lemma hub_defaultPullPolicy vc : hubCluster (V1alpha1.defaultPullPolicy vc) = defaultPullPolicy (hubCluster vc).
Proof. unfold V1alpha1.defaultPullPolicy, defaultPullPolicy. cbn [Spec hubCluster Spec_ImagePullPolicy hubValkeyClusterSpec]. repeat case_bool_decide; try done; hub_set. Qed.
Lemma hub_defaultReplicas vc : hubCluster (V1alpha1.defaultReplicas vc) = defaultReplicas (hubCluster vc).
Proof.
  unfold V1alpha1.defaultReplicas, defaultReplicas. cbn [Spec hubCluster Spec_Replicas Spec_Topology hubValkeyClusterSpec].
  repeat case_bool_decide; try done; hub_set.
Qed.
Lemma hub_defaultStorage vc : hubCluster (V1alpha1.defaultStorage vc) = defaultStorage (hubCluster vc).
Proof.
  unfold V1alpha1.defaultStorage, defaultStorage. cbn [Spec hubCluster Spec_Storage Spec_Profile hubValkeyClusterSpec].
  destruct (V1alpha1.Spec_Storage _); [done|]. change (hubStorageSpec <$> None) with (@None StorageSpec). cbv iota.
  repeat case_bool_decide; try done; hub_set.
Qed.
Lemma hub_Default vc : hubCluster (V1alpha1.Default vc) = Default (hubCluster vc).
Proof.
  unfold V1alpha1.Default, Default.
  by rewrite hub_defaultStorage, hub_defaultReplicas, hub_defaultPullPolicy, hub_defaultImageField, hub_defaultProfile, hub_defaultTopology.
Qed.
(** Defaults fit the widths. *)
Lemma valid_with_spec vc f : (validValkeyClusterSpec (Spec vc) → validValkeyClusterSpec (f (Spec vc))) → validCluster vc → validCluster (with_spec vc f).
Proof. intros Hf [H1 H2]. split; [by apply Hf|done]. Qed.
Lemma valid_set_Topology v s : validValkeyClusterSpec s → validValkeyClusterSpec (set_Spec_Topology v s).
Proof. by destruct s. Qed.
Lemma valid_set_Profile v s : validValkeyClusterSpec s → validValkeyClusterSpec (set_Spec_Profile v s).
Proof. by destruct s. Qed.
Lemma valid_set_Image v s : validValkeyClusterSpec s → validValkeyClusterSpec (set_Spec_Image v s).
Proof. by destruct s. Qed.
Lemma valid_set_ImagePullPolicy v s : validValkeyClusterSpec s → validValkeyClusterSpec (set_Spec_ImagePullPolicy v s).
Proof. by destruct s. Qed.
Lemma valid_set_Replicas v s : is_int32 v → validValkeyClusterSpec s → validValkeyClusterSpec (set_Spec_Replicas v s).
Proof. destruct s. intros Hv [_ Hr]. by split. Qed.
Lemma valid_set_Storage v s : optAll validStorageSpec v → validValkeyClusterSpec s → validValkeyClusterSpec (set_Spec_Storage v s).
Proof. destruct s. intros Hv (H1 & H2 & H3 & H4 & H5 & _ & Hr). exact (conj H1 (conj H2 (conj H3 (conj H4 (conj H5 (conj Hv Hr)))))). Qed.
#[local] Hint Resolve valid_with_spec valid_set_Topology valid_set_Profile valid_set_Image valid_set_ImagePullPolicy : convert.
Lemma valid_Default vc : validCluster vc → validCluster (Default vc).
Proof.
  intros H0. unfold Default.
  assert (validCluster (defaultTopology vc)) as H1 by (unfold defaultTopology; case_bool_decide; auto with convert).
  revert H1; generalize (defaultTopology vc) as v1; intros v1 H1.
  assert (validCluster (defaultProfile v1)) as H2 by (unfold defaultProfile; case_bool_decide; auto with convert).
  revert H2; generalize (defaultProfile v1) as v2; intros v2 H2.
  assert (validCluster (defaultImageField v2)) as H3 by (unfold defaultImageField; case_bool_decide; auto with convert).
  revert H3; generalize (defaultImageField v2) as v3; intros v3 H3.
  assert (validCluster (defaultPullPolicy v3)) as H4 by (unfold defaultPullPolicy; case_bool_decide; auto with convert).
  revert H4; generalize (defaultPullPolicy v3) as v4; intros v4 H4.
  assert (validCluster (defaultReplicas v4)) as H5.
  { unfold defaultReplicas. repeat case_bool_decide; try done; (apply valid_with_spec; [apply valid_set_Replicas; by vm_compute|done]). }
  revert H5; generalize (defaultReplicas v4) as v5; intros v5 H5.
  unfold defaultStorage. destruct (Spec_Storage (Spec v5)); [done|]. case_bool_decide; [|done].
  apply valid_with_spec; [apply valid_set_Storage; by vm_compute|done].
Qed.

(** ** A concrete set of codecs: every value as one number *)
Definition codedC {A B} `{Countable B} (zero : A) (f : A → B) (g : B → A) : Codec A := {|
  c_zero := zero; c_empty := λ _, false; c_enc := λ x, JNum (Zpos (encode (f x)));
  c_dec := λ j cur, match j with JNum (Zpos p) => g <$> decode p | JNull => Some cur | _ => None end |}.
Lemma codedC_faithful {A B} `{Countable B} zero (f : A → B) g V : (∀ x, g (f x) = x) → Faithful (codedC zero f g) V.
Proof. intros Hg. split; [|done]. intros x _. cbn. rewrite decode_encode. exact (f_equal Some (Hg x)). Qed.
Lemma codedC_nonnull {A B} `{Countable B} zero (f : A → B) g V : NonNull (codedC zero f g) V.
Proof. by intros x _. Qed.

#[local] Instance Opaque_eq : EqDecision Opaque.
Proof. unfold Opaque. apply _. Defined.
#[local] Instance Opaque_countable : Countable Opaque.
Proof. unfold Opaque, Opaque_eq. apply _. Defined.
Definition selectorOf (s : LabelSelector) : gmap string string * list (string * string * list string) :=
  (MatchLabels s, (λ r, (lsr_Key r, lsr_Operator r, lsr_Values r)) <$> MatchExpressions s).
Definition toSelector (p : gmap string string * list (string * string * list string)) : LabelSelector :=
  {| MatchLabels := p.1; MatchExpressions := (λ r, {| lsr_Key := r.1.1; lsr_Operator := r.1.2; lsr_Values := r.2 |}) <$> p.2 |}.
Lemma toSelector_Of s : toSelector (selectorOf s) = s.
Proof. destruct s as [m l]. unfold toSelector, selectorOf. cbn. f_equal. apply list_fmap_inverse. by intros []. Qed.
Definition intOrStringOf (x : IntOrString) : Z + string := match x with IntVal n => inl n | StrVal s => inr s end.
Definition toIntOrString (x : Z + string) : IntOrString := match x with inl n => IntVal n | inr s => StrVal s end.
Lemma toIntOrString_Of x : toIntOrString (intOrStringOf x) = x.
Proof. by destruct x. Qed.
Definition peerOf (p : NetworkPolicyPeer) := (selectorOf <$> PodSelector p, selectorOf <$> NamespaceSelector p, IPBlock p).
Definition toPeer p : NetworkPolicyPeer := {| PodSelector := toSelector <$> p.1.1; NamespaceSelector := toSelector <$> p.1.2; IPBlock := p.2 |}.
Lemma toPeer_Of p : toPeer (peerOf p) = p.
Proof. destruct p as [a b c]. unfold toPeer, peerOf. cbn. by rewrite !(option_fmap_inverse selectorOf toSelector) by apply toSelector_Of. Qed.
Definition portOf (p : NetworkPolicyPort) := (np_Protocol p, intOrStringOf <$> np_Port p, np_EndPort p).
Definition toPort p : NetworkPolicyPort := {| np_Protocol := p.1.1; np_Port := toIntOrString <$> p.1.2; np_EndPort := p.2 |}.
Lemma toPort_Of p : toPort (portOf p) = p.
Proof. destruct p as [a b c]. unfold toPort, portOf. cbn. by rewrite (option_fmap_inverse intOrStringOf toIntOrString) by apply toIntOrString_Of. Qed.
Definition termOf (t : PodAffinityTerm) := (pat_TopologyKey t, selectorOf (pat_Selector t)).
Definition toTerm t : PodAffinityTerm := {| pat_TopologyKey := t.1; pat_Selector := toSelector t.2 |}.
Lemma toTerm_Of t : toTerm (termOf t) = t.
Proof. destruct t. unfold toTerm, termOf. cbn. by rewrite toSelector_Of. Qed.
Definition antiOf (a : PodAntiAffinity) := (termOf <$> paa_Required a, prod_map id termOf <$> paa_Preferred a, paa_Rest a).
Definition toAnti a : PodAntiAffinity := {| paa_Required := toTerm <$> a.1.1; paa_Preferred := prod_map id toTerm <$> a.1.2; paa_Rest := a.2 |}.
Lemma toAnti_Of a : toAnti (antiOf a) = a.
Proof.
  destruct a as [r p x]. unfold toAnti, antiOf. cbn. rewrite (list_fmap_inverse termOf toTerm) by apply toTerm_Of.
  rewrite (list_fmap_inverse (prod_map id termOf) (prod_map id toTerm)); [done|]. intros [w t]. cbn. by rewrite toTerm_Of.
Qed.
Definition spreadOf (c : TopologySpreadConstraint) := (tsc_MaxSkew c, tsc_TopologyKey c, tsc_WhenUnsatisfiable c, selectorOf <$> tsc_LabelSelector c, tsc_Rest c).
Definition toSpread (p : Z * string * string * option (gmap string string * list (string * string * list string)) * string) : TopologySpreadConstraint :=
  let '(a, b, c, d, e) := p in
  {| tsc_MaxSkew := a; tsc_TopologyKey := b; tsc_WhenUnsatisfiable := c; tsc_LabelSelector := toSelector <$> d; tsc_Rest := e |}.
Lemma toSpread_Of c : toSpread (spreadOf c) = c.
Proof. destruct c. unfold toSpread, spreadOf. cbn. by rewrite (option_fmap_inverse selectorOf toSelector) by apply toSelector_Of. Qed.

Definition affinityOf (a : Affinity) := (aff_NodeAffinity a, aff_PodAffinity a, antiOf <$> aff_PodAntiAffinity a).
Definition toAffinity p : Affinity := {| aff_NodeAffinity := p.1.1; aff_PodAffinity := p.1.2; aff_PodAntiAffinity := toAnti <$> p.2 |}.
Lemma toAffinity_Of a : toAffinity (affinityOf a) = a.
Proof. destruct a as [x y z]. unfold toAffinity, affinityOf. cbn. by rewrite (option_fmap_inverse antiOf toAnti) by apply toAnti_Of. Qed.
Definition ruleOf (r : NetworkPolicyEgressRule) := (peerOf <$> eg_To r, portOf <$> eg_Ports r).
Definition toRule p : NetworkPolicyEgressRule := {| eg_To := toPeer <$> p.1; eg_Ports := toPort <$> p.2 |}.
Lemma toRule_Of r : toRule (ruleOf r) = r.
Proof.
  destruct r as [a b]. unfold toRule, ruleOf. cbn. rewrite (list_fmap_inverse peerOf toPeer) by apply toPeer_Of.
  by rewrite (list_fmap_inverse portOf toPort) by apply toPort_Of.
Qed.

Definition ex_localRefC : Codec string := codedC "" id id.
Lemma ex_localRefC_faithful : Faithful ex_localRefC anything.
Proof. apply codedC_faithful. done. Qed.
Definition ex_tolerationC : Codec Opaque := codedC "" id id.
Lemma ex_tolerationC_faithful : Faithful ex_tolerationC anything.
Proof. apply codedC_faithful. done. Qed.
Definition ex_resourcesC : Codec ResourceRequirements := codedC noResources (λ r, (Limits r, Requests r)) (λ p, {| Limits := p.1; Requests := p.2 |}).
Lemma ex_resourcesC_faithful : Faithful ex_resourcesC validResources.
Proof. apply codedC_faithful. by intros []. Qed.
Definition ex_affinityC : Codec Affinity := codedC {| aff_NodeAffinity := None; aff_PodAffinity := None; aff_PodAntiAffinity := None |} affinityOf toAffinity.
Lemma ex_affinityC_faithful : Faithful ex_affinityC validAffinity.
Proof. apply codedC_faithful. apply toAffinity_Of. Qed.
Definition ex_spreadC : Codec TopologySpreadConstraint := codedC {| tsc_MaxSkew := 0; tsc_TopologyKey := ""; tsc_WhenUnsatisfiable := ""; tsc_LabelSelector := None; tsc_Rest := "" |} spreadOf toSpread.
Lemma ex_spreadC_faithful : Faithful ex_spreadC validSpread.
Proof. apply codedC_faithful. apply toSpread_Of. Qed.
Definition ex_podSecurityC : Codec PodSecurityContext := codedC {| psc_FSGroup := None; psc_RunAsUser := None; psc_RunAsNonRoot := None; psc_SeccompProfile := None; psc_Rest := "" |}
      (λ c, (psc_FSGroup c, psc_RunAsUser c, psc_RunAsNonRoot c, psc_SeccompProfile c, psc_Rest c : string))
      (λ p, let '(a, b, c, d, e) := p in {| psc_FSGroup := a; psc_RunAsUser := b; psc_RunAsNonRoot := c; psc_SeccompProfile := d; psc_Rest := e |}).
Lemma ex_podSecurityC_faithful : Faithful ex_podSecurityC validPodSecurity.
Proof. apply codedC_faithful. by intros []. Qed.
Definition ex_securityC : Codec SecurityContext := codedC {| sc_AllowPrivilegeEscalation := None; sc_RunAsNonRoot := None; sc_CapabilitiesDrop := []; sc_SeccompProfile := None; sc_Rest := "" |}
      (λ c, (sc_AllowPrivilegeEscalation c, sc_RunAsNonRoot c, sc_CapabilitiesDrop c, sc_SeccompProfile c, sc_Rest c : string))
      (λ p, let '(a, b, c, d, e) := p in
            {| sc_AllowPrivilegeEscalation := a; sc_RunAsNonRoot := b; sc_CapabilitiesDrop := c; sc_SeccompProfile := d; sc_Rest := e |}).
Lemma ex_securityC_faithful : Faithful ex_securityC anything.
Proof. apply codedC_faithful. by intros []. Qed.
Definition ex_intOrStringC : Codec IntOrString := codedC (IntVal 0) intOrStringOf toIntOrString.
Lemma ex_intOrStringC_faithful : Faithful ex_intOrStringC validIntOrString.
Proof. apply codedC_faithful. apply toIntOrString_Of. Qed.
Definition ex_peerC : Codec NetworkPolicyPeer := codedC {| PodSelector := None; NamespaceSelector := None; IPBlock := None |} peerOf toPeer.
Lemma ex_peerC_faithful : Faithful ex_peerC anything.
Proof. apply codedC_faithful. apply toPeer_Of. Qed.
Definition ex_egressRuleC : Codec NetworkPolicyEgressRule := codedC {| eg_To := []; eg_Ports := [] |} ruleOf toRule.
Lemma ex_egressRuleC_faithful : Faithful ex_egressRuleC validEgressRule.
Proof. apply codedC_faithful. apply toRule_Of. Qed.
Definition ex_quantityC : Codec Z := codedC 0%Z id id.
Lemma ex_quantityC_faithful : Faithful ex_quantityC validQuantity.
Proof. apply codedC_faithful. done. Qed.
Definition ex_timeC : Codec Z := codedC 0%Z id id.
Lemma ex_timeC_faithful : Faithful ex_timeC storedTime.
Proof. apply codedC_faithful. done. Qed.
Definition ex_conditionC : Codec Condition := codedC {| cond_Type := ""; cond_Status := ""; cond_Reason := ""; cond_Message := ""; cond_ObservedGeneration := 0; cond_LastTransitionTime := 0 |}
      (λ c, (cond_Type c, cond_Status c, cond_Reason c, cond_Message c, cond_ObservedGeneration c, cond_LastTransitionTime c))
      (λ p, let '(a, b, c, d, e, f) := p in
            {| cond_Type := a; cond_Status := b; cond_Reason := c; cond_Message := d; cond_ObservedGeneration := e; cond_LastTransitionTime := f |}).
Lemma ex_conditionC_faithful : Faithful ex_conditionC validCondition.
Proof. apply codedC_faithful. by intros []. Qed.
#[local] Instance exampleCodecs : KubeCodecs := {|
  localRefC := ex_localRefC; localRefC_faithful := ex_localRefC_faithful;
  tolerationC := ex_tolerationC; tolerationC_faithful := ex_tolerationC_faithful;
  resourcesC := ex_resourcesC; resourcesC_faithful := ex_resourcesC_faithful;
  affinityC := ex_affinityC; affinityC_faithful := ex_affinityC_faithful;
  spreadC := ex_spreadC; spreadC_faithful := ex_spreadC_faithful;
  podSecurityC := ex_podSecurityC; podSecurityC_faithful := ex_podSecurityC_faithful;
  securityC := ex_securityC; securityC_faithful := ex_securityC_faithful;
  intOrStringC := ex_intOrStringC; intOrStringC_faithful := ex_intOrStringC_faithful;
  peerC := ex_peerC; peerC_faithful := ex_peerC_faithful;
  egressRuleC := ex_egressRuleC; egressRuleC_faithful := ex_egressRuleC_faithful;
  quantityC := ex_quantityC; quantityC_faithful := ex_quantityC_faithful;
  timeC := ex_timeC; timeC_faithful := ex_timeC_faithful;
  conditionC := ex_conditionC; conditionC_faithful := ex_conditionC_faithful;
  affinityC_nonnull := codedC_nonnull _ _ _ _;
  podSecurityC_nonnull := codedC_nonnull _ _ _ _;
  securityC_nonnull := codedC_nonnull _ _ _ _;
  intOrStringC_nonnull := codedC_nonnull _ _ _ _;
  timeC_nonnull := codedC_nonnull _ _ _ _ |}.

(** ** Theorems *)

(** C23: neither direction of the conversion loses anything: for objects whose integers fit their types
    and whose times are whole seconds, and new objects to fill, [ConvertTo] and [ConvertFrom] do not
    fail and copy every field, a v1alpha1 object read as v1beta1 and back is the object again, and a
    stored v1beta1 object served as v1alpha1 and written back unchanged is the same object (no field of
    the hub is missing from the spoke). *)
Theorem conversion_roundtrip `{KubeCodecs} dst back : fresh dst → freshAlpha back →
  (∀ src, validAlphaCluster src →
     ∃ h, ConvertTo src dst = Some h ∧ Meta h = V1alpha1.Meta src ∧ h = hubCluster src ∧ ConvertFrom h back = Some src) ∧
  (∀ src, validCluster src →
     ∃ a, ConvertFrom src back = Some a ∧ V1alpha1.Meta a = Meta src ∧ a = spokeCluster src ∧ ConvertTo a dst = Some src).
Proof.
  intros Hd Hb. split; intros src Hv.
  - exists (hubCluster src). split; [by apply ConvertTo_hub|]. split_and!; [done..|].
    rewrite (ConvertFrom_spoke _ back (proj1 (valid_hubCluster src) Hv) Hb). by rewrite spoke_hubCluster.
  - exists (spokeCluster src). split; [by apply ConvertFrom_spoke|]. split_and!; [done..|].
    assert (validAlphaCluster (spokeCluster src)) as Hv' by (apply valid_hubCluster; by rewrite hub_spokeCluster).
    by rewrite (ConvertTo_hub _ dst Hv' Hd), hub_spokeCluster.
Qed.

(** C26: the two copies of [Default] agree: defaulting a v1alpha1 object and converting it, or
    converting it and defaulting the v1beta1 object, gives the same object. *)
Theorem Default_commutes `{KubeCodecs} src dst :
  validAlphaCluster src → fresh dst →
  ConvertTo (V1alpha1.Default src) dst = Default <$> ConvertTo src dst ∧
  is_Some (ConvertTo (V1alpha1.Default src) dst).
Proof.
  intros Hv Hd. assert (validAlphaCluster (V1alpha1.Default src)) as Hv'.
  { apply valid_hubCluster. rewrite hub_Default. apply valid_Default. by apply valid_hubCluster. }
  rewrite (ConvertTo_hub src dst Hv Hd), (ConvertTo_hub _ dst Hv' Hd), hub_Default. split; [reflexivity|by eexists].
Qed.

(** The same for ValkeyACL. *)
Theorem acl_roundtrip `{KubeCodecs} src dst back :
  V1alpha1.validValkeyACLStatus (V1alpha1.ACL_Status src) → freshACL dst → freshAlphaACL back →
  ∃ h, aclConvertTo src dst = Some h ∧ h = hubACL src ∧ aclConvertFrom h back = Some src.
Proof.
  intros Hv Hd Hb. exists (hubACL src). split; [by apply aclConvertTo_hub|]. split; [done|].
  rewrite (aclConvertFrom_spoke (hubACL src) back (proj1 (valid_hub_ValkeyACLStatus _) Hv) Hb). by rewrite spoke_hubACL.
Qed.

(** ** Concrete objects *)
Definition exampleAlpha : V1alpha1.ValkeyCluster :=
  spokeCluster (with_status (with_spec (newCluster "web" "prod" zeroSpec)
    (λ s, set_Spec_Config {["maxmemory" := "1gb"]} (set_Spec_Shards (Some 3%Z) (set_Spec_Topology TopologyCluster s))))
    (set_Status_PrimaryDownSince (Some (1700000000 * 10 ^ 9)%Z))).
Definition emptyBeta : ValkeyCluster := {|
  Meta := Meta (newCluster "" "" zeroSpec); Spec := c_zero valkeyClusterSpecC; Status := c_zero valkeyClusterStatusC |}.
Definition emptyAlpha : V1alpha1.ValkeyCluster := {|
  V1alpha1.Meta := Meta (newCluster "" "" zeroSpec);
  V1alpha1.Spec := c_zero V1alpha1.valkeyClusterSpecC; V1alpha1.Status := c_zero V1alpha1.valkeyClusterStatusC |}.
Lemma exampleAlpha_valid : validAlphaCluster exampleAlpha.
Proof.
  unfold validAlphaCluster, V1alpha1.validValkeyClusterSpec, V1alpha1.validValkeyClusterStatus, validResources, mapAll, storedTime, is_int32, is_int64.
  cbn -[Z.pow Z.mul Z.modulo Z.lt Z.le]. unfold optAll. cbn [from_option fmap option_fmap option_map].
  split_and!; first [exact I|lia|lazymatch goal with |- (_ `mod` _)%Z = _ => vm_compute; reflexivity end|apply map_Forall_empty|constructor].
Qed.

Lemma conversion_roundtrip_witness :
  (∃ h, ConvertTo exampleAlpha emptyBeta = Some h ∧ ConvertFrom h emptyAlpha = Some exampleAlpha) ∧
  (∃ a, ConvertFrom (hubCluster exampleAlpha) emptyAlpha = Some a ∧ ConvertTo a emptyBeta = Some (hubCluster exampleAlpha)).
Proof.
  destruct (conversion_roundtrip emptyBeta emptyAlpha) as [Ha Hb]; [split; reflexivity|split; reflexivity|].
  destruct (Ha exampleAlpha exampleAlpha_valid) as (h & H1 & _ & _ & H2).
  destruct (Hb (hubCluster exampleAlpha) (proj1 (valid_hubCluster exampleAlpha) exampleAlpha_valid)) as (a & H3 & _ & _ & H4).
  exact (conj (ex_intro _ h (conj H1 H2)) (ex_intro _ a (conj H3 H4))).
Defined.
Lemma Default_commutes_witness : ConvertTo (V1alpha1.Default exampleAlpha) emptyBeta = Default <$> ConvertTo exampleAlpha emptyBeta.
Proof. apply (Default_commutes exampleAlpha emptyBeta); [exact exampleAlpha_valid|split; reflexivity]. Defined.

(** The object to fill must be new: what the source leaves out is not cleared. *)
Example ConvertTo_keeps_stale :
  (Spec_Auth ∘ Spec) <$> ConvertTo exampleAlpha (with_spec emptyBeta (set_Spec_Auth (Some {| Auth_Enabled := None; Auth_ExistingSecret := "s" |}))) =
  Some (Some {| Auth_Enabled := None; Auth_ExistingSecret := "s" |}).
Proof. vm_compute. reflexivity. Qed.
