(* ===== verification/Schema.v ===== *)
(** * Schema: the rules the API server enforces on a ValkeyCluster (markers of valkeycluster_types.go)

    The CRD's schema is generated from the markers on the types: defaults, enumerations, minimums and
    required fields, and CEL rules on the spec and on its fields.  The API server fills in the defaults
    and checks the rules on every write, before the operator sees the object; a rule that mentions
    [oldSelf] is checked on updates only, and on a field only when the field is set both before and
    after.  [has(self.f)] is that the field is in the JSON: a pointer that is not nil, a text that is
    not empty.

    [schemaDefaults] is the defaulting; [admitted] and [admittedUpdate] are the conjunctions; [lifetime] follows one object through its
    updates. *)

From S2P Require Import Prelude GoStd Kube Api Naming Workload.

(** ** Defaulting by the API server ([+kubebuilder:default])

    An absent field gets its default where the block it belongs to is there.  A text or number that is
    left out when empty stands for an absent one. *)
Definition orText (d s : string) : string := if s == "" then d else s.
Definition orNumber (d n : Z) : Z := if n == 0%Z then d else n.
Definition keyDefaults (k : SecretKeyReference) : SecretKeyReference := {| SKR_Name := SKR_Name k; SKR_Key := orText "password" (SKR_Key k) |}.
Definition caDefaults (k : SourceCASecretRef) : SourceCASecretRef := {| CA_Name := CA_Name k; CA_Key := orText "ca.crt" (CA_Key k) |}.
Definition replicateFromDefaults (r : ReplicateFromSpec) : ReplicateFromSpec := {|
  RF_Host := RF_Host r; RF_Port := orNumber 6379 (RF_Port r); RF_PasswordSecret := keyDefaults <$> RF_PasswordSecret r; RF_TLS := RF_TLS r;
  RF_CASecret := caDefaults <$> RF_CASecret r |}.
Definition S3Defaults (x : S3Spec) : S3Spec := {|
  S3_Bucket := S3_Bucket x; S3_Endpoint := S3_Endpoint x; S3_Region := orText "us-east-1" (S3_Region x); S3_Prefix := S3_Prefix x;
  S3_CredentialsSecret := S3_CredentialsSecret x; S3_Encryption := S3_Encryption x; S3_KMSKeyID := S3_KMSKeyID x |}.
Definition restoreDefaults (r : RestoreSpec) : RestoreSpec := {|
  Restore_S3 := S3Defaults <$> Restore_S3 r; Restore_SourceKey := Restore_SourceKey r;
  Restore_AWSCLIImage := orText "amazon/aws-cli:2.15.0" (Restore_AWSCLIImage r) |}.
Definition backupDefaults (b : BackupSpec) : BackupSpec := {|
  Backup_Enabled := Backup_Enabled b; Backup_Schedule := orText "0 3 * * *" (Backup_Schedule b); Backup_S3 := S3Defaults <$> Backup_S3 b;
  Backup_Image := Backup_Image b; Backup_AWSCLIImage := orText "amazon/aws-cli:2.15.0" (Backup_AWSCLIImage b);
  Backup_Retention := Some (default 7%Z (Backup_Retention b)) |}.
Definition PDBDefaults (p : PDBSpec) : PDBSpec := {|
  PDB_Enabled := Some (default true (PDB_Enabled p)); PDB_MaxUnavailable := PDB_MaxUnavailable p; PDB_MinAvailable := PDB_MinAvailable p |}.
Definition storageDefaults (st : StorageSpec) : StorageSpec := {|
  Storage_Size := Storage_Size st; Storage_StorageClassName := Storage_StorageClassName st; Storage_Mode := orText "rdb" (Storage_Mode st);
  Storage_Medium := orText "Disk" (Storage_Medium st) |}.
Definition authDefaults (a : AuthSpec) : AuthSpec := {|
  Auth_Enabled := Some (default true (Auth_Enabled a)); Auth_ExistingSecret := Auth_ExistingSecret a |}.
Definition issuerDefaults (i : CertIssuerRef) : CertIssuerRef := {|
  Issuer_Name := Issuer_Name i; Issuer_Kind := orText "Issuer" (Issuer_Kind i); Issuer_Group := Issuer_Group i |}.
Definition TLSDefaults (t : TLSSpec) : TLSSpec := {|
  TLS_Enabled := TLS_Enabled t; TLS_IssuerRef := issuerDefaults <$> TLS_IssuerRef t; TLS_ExistingSecret := TLS_ExistingSecret t;
  TLS_MutualTLS := TLS_MutualTLS t |}.
Definition metricsDefaults (m : MetricsSpec) : MetricsSpec := {|
  Metrics_Enabled := Metrics_Enabled m; Metrics_Image := orText "oliver006/redis_exporter:v1.62.0" (Metrics_Image m);
  Metrics_ImagePullPolicy := Metrics_ImagePullPolicy m; Metrics_ServiceMonitor := Metrics_ServiceMonitor m;
  Metrics_Resources := Metrics_Resources m; Metrics_Sentinel := Metrics_Sentinel m |}.
Definition sentinelDefaults (x : SentinelSpec) : SentinelSpec := {|
  Sentinel_Replicas := orNumber 3 (Sentinel_Replicas x); Sentinel_Quorum := Sentinel_Quorum x; Sentinel_Image := Sentinel_Image x;
  Sentinel_Resources := Sentinel_Resources x; Sentinel_DownAfterMilliseconds := Sentinel_DownAfterMilliseconds x;
  Sentinel_FailoverTimeout := Sentinel_FailoverTimeout x |}.
Definition schemaDefaults (s : ValkeyClusterSpec) : ValkeyClusterSpec := {|
  Spec_Topology := orText "Replication" (Spec_Topology s); Spec_Profile := orText "Cache" (Spec_Profile s);
  Spec_Image := orText "valkey/valkey:8.0" (Spec_Image s); Spec_ImagePullPolicy := orText "IfNotPresent" (Spec_ImagePullPolicy s);
  Spec_ImagePullSecrets := Spec_ImagePullSecrets s; Spec_PodLabels := Spec_PodLabels s; Spec_Replicas := orNumber 3 (Spec_Replicas s);
  Spec_Shards := Spec_Shards s; Spec_ReplicasPerShard := Spec_ReplicasPerShard s; Spec_PerShardWorkload := Spec_PerShardWorkload s;
  Spec_AutoReshard := Some (default true (Spec_AutoReshard s)); Spec_Sentinel := sentinelDefaults <$> Spec_Sentinel s;
  Spec_Resources := Spec_Resources s; Spec_Storage := storageDefaults <$> Spec_Storage s; Spec_Auth := authDefaults <$> Spec_Auth s;
  Spec_TLS := TLSDefaults <$> Spec_TLS s; Spec_Metrics := metricsDefaults <$> Spec_Metrics s; Spec_Config := Spec_Config s;
  Spec_NodeSelector := Spec_NodeSelector s; Spec_Tolerations := Spec_Tolerations s; Spec_Affinity := Spec_Affinity s;
  Spec_TopologySpreadConstraints := Spec_TopologySpreadConstraints s; Spec_PodSecurityContext := Spec_PodSecurityContext s;
  Spec_ContainerSecurityContext := Spec_ContainerSecurityContext s; Spec_PodDisruptionBudget := PDBDefaults <$> Spec_PodDisruptionBudget s;
  Spec_NetworkPolicy := Spec_NetworkPolicy s; Spec_Backup := backupDefaults <$> Spec_Backup s;
  Spec_RestoreFrom := restoreDefaults <$> Spec_RestoreFrom s; Spec_ReplicateFrom := replicateFromDefaults <$> Spec_ReplicateFrom s;
  Spec_Logging := Spec_Logging s |}.

(** ** Values *)
Definition oneOf (l : list string) (s : string) : bool := bool_decide (s ∈ l).
Definition topologyEnum (s : ValkeyClusterSpec) : bool := oneOf ["Standalone"; "Replication"; "Sentinel"; "Cluster"] (Spec_Topology s).
Definition profileEnum (s : ValkeyClusterSpec) : bool := oneOf ["Cache"; "Durable"] (Spec_Profile s).
Definition replicasMin (s : ValkeyClusterSpec) : bool := (1 <=? Spec_Replicas s)%Z.
Definition shardsMin (s : ValkeyClusterSpec) : bool := match Spec_Shards s with Some n => (3 <=? n)%Z | None => true end.
Definition replicasPerShardMin (s : ValkeyClusterSpec) : bool := match Spec_ReplicasPerShard s with Some n => (0 <=? n)%Z | None => true end.
Definition sentinelReplicasMin (s : ValkeyClusterSpec) : bool := match Spec_Sentinel s with Some x => (3 <=? Sentinel_Replicas x)%Z | None => true end.
Definition sentinelTimingsMin (s : ValkeyClusterSpec) : bool :=
  match Spec_Sentinel s with Some x => ((0 <=? Sentinel_DownAfterMilliseconds x) && (0 <=? Sentinel_FailoverTimeout x))%Z%bool | None => true end.
Definition retentionMin (s : ValkeyClusterSpec) : bool := match Spec_Backup s ≫= Backup_Retention with Some n => (0 <=? n)%Z | None => true end.
Definition storageModeEnum (s : ValkeyClusterSpec) : bool :=
  match Spec_Storage s with Some st => oneOf [""; "rdb"; "aof"; "both"; "none"] (Storage_Mode st) | None => true end.
Definition storageMediumEnum (s : ValkeyClusterSpec) : bool :=
  match Spec_Storage s with Some st => oneOf [""; "Disk"; "Memory"] (Storage_Medium st) | None => true end.

Definition nonEmpty (s : string) : bool := s != "".
Definition onSome {A} (rule : A → bool) (o : option A) : bool := match o with Some x => rule x | None => true end.
Definition loggingEnum (s : ValkeyClusterSpec) : bool := onSome (λ l, oneOf [""; "json"; "logfmt"; "legacy"] (Log_Format l)) (Spec_Logging s).
Definition replicateFromMin (s : ValkeyClusterSpec) : bool :=
  onSome (λ rf, nonEmpty (RF_Host rf) && onSome (λ ca, nonEmpty (CA_Name ca)) (RF_CASecret rf))%bool (Spec_ReplicateFrom s).
Definition S3Rules (x : S3Spec) : bool :=
  (nonEmpty (S3_Bucket x) && nonEmpty (S3_CredentialsSecret x) && oneOf [""; "AES256"; "KMS"] (S3_Encryption x))%bool.
(** The [s3] block is required; with it its own rules. *)
Definition requiredS3 (o : option S3Spec) : bool := match o with Some x => S3Rules x | None => false end.
Definition backupRules (s : ValkeyClusterSpec) : bool := onSome (λ b, requiredS3 (Backup_S3 b)) (Spec_Backup s).
Definition restoreRules (s : ValkeyClusterSpec) : bool :=
  onSome (λ r, requiredS3 (Restore_S3 r) && nonEmpty (Restore_SourceKey r))%bool (Spec_RestoreFrom s).
Definition issuerKindEnum (s : ValkeyClusterSpec) : bool :=
  onSome (λ i, oneOf [""; "Issuer"; "ClusterIssuer"] (Issuer_Kind i)) (Spec_TLS s ≫= TLS_IssuerRef).
Definition metricsPullPolicyEnum (s : ValkeyClusterSpec) : bool :=
  onSome (λ m, oneOf [""; "Always"; "Never"; "IfNotPresent"] (Metrics_ImagePullPolicy m)) (Spec_Metrics s).

(** ** Rules on one spec *)
Definition has {A} (o : option A) : bool := match o with Some _ => true | None => false end.
Definition shardsRequired (s : ValkeyClusterSpec) : bool := ((Spec_Topology s != TopologyCluster) || has (Spec_Shards s))%bool.
Definition shardsOnlyCluster (s : ValkeyClusterSpec) : bool := ((Spec_Topology s == TopologyCluster) || negb (has (Spec_Shards s)))%bool.
Definition replicasPerShardOnlyCluster (s : ValkeyClusterSpec) : bool :=
  ((Spec_Topology s == TopologyCluster) || negb (has (Spec_ReplicasPerShard s)))%bool.
Definition sentinelRequired (s : ValkeyClusterSpec) : bool := ((Spec_Topology s != TopologySentinel) || has (Spec_Sentinel s))%bool.
Definition sentinelOnlySentinel (s : ValkeyClusterSpec) : bool := ((Spec_Topology s == TopologySentinel) || negb (has (Spec_Sentinel s)))%bool.
Definition replicateFromTopology (s : ValkeyClusterSpec) : bool :=
  (negb (has (Spec_ReplicateFrom s)) || (Spec_Topology s == TopologyStandalone) || (Spec_Topology s == TopologyReplication))%bool.
(** A boolean that is absent makes the expression an error, which refuses the object as false does. *)
Definition caSecretNeedsTLS (s : ValkeyClusterSpec) : bool :=
  match Spec_ReplicateFrom s with
  | Some rf => (negb (has (RF_CASecret rf)) || (RF_TLS rf && match Spec_TLS s with Some t => TLS_Enabled t | None => false end))%bool
  | None => true
  end.
Definition memoryNotDurable (s : ValkeyClusterSpec) : bool :=
  match Spec_Storage s with
  | Some st => ((Storage_Medium st == "") || (Storage_Medium st != "Memory") || (Spec_Profile s != ProfileDurable))%bool
  | None => true
  end.
Definition perShardOnlyCluster (s : ValkeyClusterSpec) : bool := (negb (has (Spec_PerShardWorkload s)) || (Spec_Topology s == TopologyCluster))%bool.
Definition podLabelsForeign (s : ValkeyClusterSpec) : bool :=
  bool_decide (map_Forall (λ k _, has_prefix k "valkey.wellcake.io/" = false ∧ has_prefix k "cache.wellcake.io/" = false ∧
                                  has_prefix k "app.kubernetes.io/" = false) (Spec_PodLabels s)).

Definition schemaRules : list (ValkeyClusterSpec → bool) :=
  [topologyEnum; profileEnum; replicasMin; shardsMin; replicasPerShardMin; sentinelReplicasMin; sentinelTimingsMin; retentionMin;
   storageModeEnum; storageMediumEnum; loggingEnum; replicateFromMin; backupRules; restoreRules; issuerKindEnum; metricsPullPolicyEnum;
   shardsRequired; shardsOnlyCluster; replicasPerShardOnlyCluster; sentinelRequired; sentinelOnlySentinel; replicateFromTopology;
   caSecretNeedsTLS; memoryNotDurable; perShardOnlyCluster; podLabelsForeign].
Definition admitted (s : ValkeyClusterSpec) : bool := forallb (λ rule : ValkeyClusterSpec → bool, rule s) schemaRules.

(** ** Rules on an update *)

(** [self == oldSelf] on a text: checked when it is set before and after. *)
Definition sameText (old new : string) : bool := ((old == "") || (new == "") || (new == old))%bool.
Definition topologyImmutable (old new : ValkeyClusterSpec) : bool := sameText (Spec_Topology old) (Spec_Topology new).
Definition profileImmutable (old new : ValkeyClusterSpec) : bool := sameText (Spec_Profile old) (Spec_Profile new).
Definition storageRule (rule : StorageSpec → StorageSpec → bool) (old new : ValkeyClusterSpec) : bool :=
  match Spec_Storage old, Spec_Storage new with Some o, Some n => rule o n | _, _ => true end.
(** A size of zero stands for one that is not set. *)
Definition sizeNotShrunk : ValkeyClusterSpec → ValkeyClusterSpec → bool :=
  storageRule (λ o n, (Storage_Size o =? 0) || (Storage_Size n =? 0) || (Storage_Size o <=? Storage_Size n))%Z%bool.
Definition storageClassImmutable : ValkeyClusterSpec → ValkeyClusterSpec → bool :=
  storageRule (λ o n, match Storage_StorageClassName o, Storage_StorageClassName n with Some a, Some b => b == a | _, _ => true end).
Definition storageModeImmutable : ValkeyClusterSpec → ValkeyClusterSpec → bool := storageRule (λ o n, sameText (Storage_Mode o) (Storage_Mode n)).
Definition storageMediumImmutable : ValkeyClusterSpec → ValkeyClusterSpec → bool :=
  storageRule (λ o n, sameText (Storage_Medium o) (Storage_Medium n)).
Definition authNotToggled (old new : ValkeyClusterSpec) : bool :=
  let on s := (has (Spec_Auth s) && match Spec_Auth s ≫= Auth_Enabled with Some b => b | None => true end)%bool in
  ((Spec_Topology old == "") || (Spec_Topology old == TopologyStandalone) || eqb (on old) (on new))%bool.
Definition shardsGrow (old new : ValkeyClusterSpec) : bool :=
  match Spec_Shards new, Spec_Shards old with
  | Some n, Some o => ((o <=? n)%Z || default false (Spec_PerShardWorkload new))%bool
  | _, _ => true
  end.
Definition perShardImmutable (old new : ValkeyClusterSpec) : bool :=
  (eqb (has (Spec_PerShardWorkload new)) (has (Spec_PerShardWorkload old)) &&
   match Spec_PerShardWorkload new, Spec_PerShardWorkload old with Some n, Some o => eqb n o | _, _ => true end)%bool.

Definition admittedUpdate (old new : ValkeyClusterSpec) : bool :=
  (admitted new && forallb (λ rule : ValkeyClusterSpec → ValkeyClusterSpec → bool, rule old new)
    [topologyImmutable; profileImmutable; sizeNotShrunk; storageClassImmutable; storageModeImmutable; storageMediumImmutable;
     authNotToggled; shardsGrow; perShardImmutable])%bool.

(** The specs one object has had, the first first. *)
Inductive lifetime : ValkeyClusterSpec → ValkeyClusterSpec → Prop :=
  | created s : admitted s = true → lifetime s s
  | updated s0 s s' : lifetime s0 s → admittedUpdate s s' = true → lifetime s0 s'.

(** ** What holds of every object the operator sees *)
Lemma admittedUpdate_spec old new : admittedUpdate old new = true ↔
  admitted new = true ∧ topologyImmutable old new = true ∧ profileImmutable old new = true ∧ sizeNotShrunk old new = true ∧
  storageClassImmutable old new = true ∧ storageModeImmutable old new = true ∧ storageMediumImmutable old new = true ∧
  authNotToggled old new = true ∧ shardsGrow old new = true ∧ perShardImmutable old new = true.
Proof. unfold admittedUpdate. cbn [forallb]. rewrite !andb_true_iff. tauto. Qed.
Lemma admitted_rule (rule : ValkeyClusterSpec → bool) s : admitted s = true → rule ∈ schemaRules → rule s = true.
Proof. unfold admitted. rewrite forallb_forall. intros H Hin. apply H. by apply list_elem_of_In. Qed.
Ltac by_rule r := apply (admitted_rule r); [assumption|apply list_elem_of_In; cbn; tauto].

Lemma oneOf_nonempty l s : oneOf l s = true → bool_decide ("" ∈ l) = false → s ≠ "".
Proof. intros H%bool_decide_eq_true Hn%bool_decide_eq_false ->. done. Qed.
Lemma admitted_nonempty s : admitted s = true → Spec_Topology s ≠ "" ∧ Spec_Profile s ≠ "".
Proof.
  intros Ha. assert (topologyEnum s = true) as Ht by by_rule topologyEnum. assert (profileEnum s = true) as Hp by by_rule profileEnum.
  split; [by apply (oneOf_nonempty _ _ Ht)|by apply (oneOf_nonempty _ _ Hp)].
Qed.
Lemma sameText_eq old new : old ≠ "" → new ≠ "" → sameText old new = true → new = old.
Proof. intros Ho Hn. unfold sameText. rewrite (bool_decide_false _ Ho), (bool_decide_false _ Hn). by intros H%bool_decide_eq_true. Qed.
Lemma authNotToggled_spec old new : authNotToggled old new = true → Spec_Topology old ≠ "" → Spec_Topology old ≠ TopologyStandalone →
  AuthEnabled new = AuthEnabled old.
Proof.
  unfold authNotToggled. cbv zeta. intros H Hne Hst. rewrite (bool_decide_false _ Hne), (bool_decide_false _ Hst) in H. cbn [orb] in H.
  apply eqb_prop in H. unfold AuthEnabled. destruct (Spec_Auth old) as [a|], (Spec_Auth new) as [b|]; cbn in H |- *; done.
Qed.
Lemma perShard_spec old new : perShardImmutable old new = true → Spec_PerShardWorkload new = Spec_PerShardWorkload old.
Proof.
  unfold perShardImmutable. destruct (Spec_PerShardWorkload new), (Spec_PerShardWorkload old); cbn; try done. by intros ->%eqb_prop.
Qed.

(** C22: what the CRD promises holds over the whole life of an object, however many updates it gets: the
    topology, the profile and the pod layout are the ones it was created with; outside Standalone so is
    whether it has a password; and a cluster of one StatefulSet never has fewer shards than before. *)
Theorem lifetime_invariants s0 s : lifetime s0 s →
  admitted s = true ∧ Spec_Topology s = Spec_Topology s0 ∧ Spec_Profile s = Spec_Profile s0 ∧
  Spec_PerShardWorkload s = Spec_PerShardWorkload s0 ∧
  (Spec_Topology s0 ≠ TopologyStandalone → AuthEnabled s = AuthEnabled s0) ∧
  (Spec_Topology s0 = TopologyCluster → ∃ n0 n, Spec_Shards s0 = Some n0 ∧ Spec_Shards s = Some n ∧ (3 ≤ n)%Z ∧
     (Spec_PerShardWorkload s0 ≠ Some true → (n0 ≤ n)%Z)).
Proof.
  assert (∀ s, admitted s = true → Spec_Topology s = TopologyCluster → ∃ n, Spec_Shards s = Some n ∧ (3 ≤ n)%Z) as Hsh.
  { intros x Hx Ht. assert (shardsRequired x = true) as H1 by by_rule shardsRequired. assert (shardsMin x = true) as H2 by by_rule shardsMin.
    unfold shardsRequired in H1. unfold shardsMin in H2. rewrite Ht, bool_decide_true in H1 by done. destruct (Spec_Shards x) as [n|]; [|done].
    exists n. apply Z.leb_le in H2. done. }
  induction 1 as [s Ha|s0 s s' Hl IH Hu].
  - split_and!; try done. intros Ht. destruct (Hsh s Ha Ht) as (n & E & Hn). exists n, n. done.
  - destruct IH as (Ha & IHt & IHp & IHs & IHa & IHc). apply admittedUpdate_spec in Hu as (Ha' & Ht & Hp & _ & _ & _ & _ & Hauth & Hg & Hps).
    destruct (admitted_nonempty s Ha) as [N1 N2], (admitted_nonempty s' Ha') as [N3 N4].
    apply (sameText_eq _ _ N1 N3) in Ht. apply (sameText_eq _ _ N2 N4) in Hp. apply perShard_spec in Hps.
    split_and!; [done|congruence..| |].
    + intros Hst. rewrite (authNotToggled_spec s s'); [by apply IHa|done..|by rewrite IHt].
    + intros Hc. destruct (IHc Hc) as (n0 & n & E0 & E & Hn & Hle). destruct (Hsh s' Ha' ltac:(congruence)) as (n' & E' & Hn').
      exists n0, n'. split_and!; [done..|]. intros Hns. unfold shardsGrow in Hg. rewrite E, E' in Hg. apply orb_true_iff in Hg as [Hg%Z.leb_le|Hg].
      * specialize (Hle Hns). lia.
      * rewrite Hps, IHs in Hg. destruct (Spec_PerShardWorkload s0) as [[]|]; [by destruct Hns|done..].
Qed.

(** Labels a user may add are disjoint from the operator's. *)
Lemma podLabels_disjoint vc (l : gmap string string) : podLabelsForeign (Spec vc) = true →
  (∀ k, is_Some (l !! k) → has_prefix k "valkey.wellcake.io/" = true ∨ has_prefix k "cache.wellcake.io/" = true ∨ has_prefix k "app.kubernetes.io/" = true) →
  Spec_PodLabels (Spec vc) ⊆ podLabelsFor vc l.
Proof.
  intros Hf%bool_decide_eq_true Hl. unfold podLabelsFor. case_bool_decide as E; [rewrite E; apply map_empty_subseteq|].
  apply map_union_subseteq_r, map_disjoint_spec. intros k x y Hx Hy. destruct (Hf k y Hy) as (H1 & H2 & H3).
  destruct (Hl k (mk_is_Some _ _ Hx)) as [H|[H|H]]; congruence.
Qed.
Lemma labelsFor_prefix vc k : is_Some (labelsFor vc !! k) → has_prefix k "app.kubernetes.io/" = true.
Proof.
  intros Hk. destruct (decide (k ∈ [nameLabel; instanceLabel; partOfLabel; managedByLabel; componentLabel])) as [Hin|Hn].
  - clear Hk. revert k Hin. apply Forall_forall. by repeat constructor.
  - rewrite (labelsFor_lookup_other _ _ Hn) in Hk. by destruct Hk.
Qed.
Lemma insert_prefix (P : string → Prop) (l : gmap string string) k v : P k → (∀ k', is_Some (l !! k') → P k') → ∀ k', is_Some (<[k := v]> l !! k') → P k'.
Proof. intros Hk Hl k' H. destruct (decide (k' = k)) as [->|Hne]; [done|]. apply Hl. by rewrite lookup_insert_ne in H. Qed.

(** An admitted object has what its topology needs and no more, and none of its labels is lost: a
    cluster has at least three shards, a Sentinel topology at least three Sentinels, the other
    topologies neither; and since the rule keeps [podLabels] off the operator's prefixes, every pod of
    every StatefulSet carries all labels of both sides. *)
Theorem admitted_complete vc hash proactive shard x : admitted (Spec vc) = true →
  (Spec_Topology (Spec vc) = TopologyCluster ↔ is_Some (Spec_Shards (Spec vc))) ∧
  (Spec_Topology (Spec vc) = TopologySentinel ↔ is_Some (Spec_Sentinel (Spec vc))) ∧
  (∀ n, Spec_Shards (Spec vc) = Some n → 3 ≤ n)%Z ∧ (∀ sn, Spec_Sentinel (Spec vc) = Some sn → 3 ≤ Sentinel_Replicas sn)%Z ∧
  Forall (λ sts, Spec_PodLabels (Spec vc) ∪ sts_Selector sts ⊆ pt_Labels (sts_Template sts))
    [buildStatefulSet vc hash proactive; buildShardStatefulSet vc shard hash proactive; buildSentinelStatefulSet vc x proactive].
Proof.
  intros Ha.
  assert (shardsRequired (Spec vc) = true) as R1 by by_rule shardsRequired. assert (shardsOnlyCluster (Spec vc) = true) as R2 by by_rule shardsOnlyCluster.
  assert (sentinelRequired (Spec vc) = true) as R3 by by_rule sentinelRequired. assert (sentinelOnlySentinel (Spec vc) = true) as R4 by by_rule sentinelOnlySentinel.
  assert (shardsMin (Spec vc) = true) as R5 by by_rule shardsMin. assert (sentinelReplicasMin (Spec vc) = true) as R6 by by_rule sentinelReplicasMin.
  assert (podLabelsForeign (Spec vc) = true) as R7 by by_rule podLabelsForeign.
  unfold shardsRequired, shardsOnlyCluster, sentinelRequired, sentinelOnlySentinel, shardsMin, sentinelReplicasMin in *. split_and!.
  - destruct (decide (Spec_Topology (Spec vc) = TopologyCluster)) as [E|E]; [rewrite (bool_decide_true _ E) in R1|rewrite (bool_decide_false _ E) in R2];
      destruct (Spec_Shards (Spec vc)); try done; by split; [|intros [? ?]].
  - destruct (decide (Spec_Topology (Spec vc) = TopologySentinel)) as [E|E]; [rewrite (bool_decide_true _ E) in R3|rewrite (bool_decide_false _ E) in R4];
      destruct (Spec_Sentinel (Spec vc)); try done; by split; [|intros [? ?]].
  - intros n E. rewrite E in R5. by apply Z.leb_le.
  - intros sn E. rewrite E in R6. by apply Z.leb_le.
  - assert (∀ l, (∀ k, is_Some (l !! k) → has_prefix k "valkey.wellcake.io/" = true ∨ has_prefix k "cache.wellcake.io/" = true ∨ has_prefix k "app.kubernetes.io/" = true) →
      ∀ sel, sel ⊆ l → Spec_PodLabels (Spec vc) ∪ sel ⊆ podLabelsFor vc l) as Hboth.
    { intros l Hl sel Hsel. apply map_union_least; [by apply podLabels_disjoint|]. etrans; [exact Hsel|apply podLabelsFor_contains]. }
    repeat apply Forall_cons_2; [..|done].
    + apply Hboth; [|done]. intros k Hk. right. right. by apply (labelsFor_prefix vc).
    + apply Hboth; [|done]. unfold shardLabelsFor. apply insert_prefix; [by right; left|]. intros k Hk. right. right. by apply (labelsFor_prefix vc).
    + assert (∀ k, is_Some (labelsFor vc !! k) → has_prefix k "valkey.wellcake.io/" = true ∨ has_prefix k "cache.wellcake.io/" = true ∨ has_prefix k "app.kubernetes.io/" = true) as Hl
        by (intros k Hk; right; right; by apply (labelsFor_prefix vc)).
      apply (Hboth (sentinelPodLabels vc)); unfold sentinelPodLabels, sentinelLabels.
      * apply insert_prefix; [by left|]. apply insert_prefix; [by right; right|done].
      * apply insert_subseteq, lookup_insert_None. split; [|done]. apply labelsFor_lookup_other. by_computation.
Qed.

(** ** Concrete objects *)
Definition demoSpec (topology : Topology) (shards : option Z) (mode : string) : ValkeyClusterSpec :=
  set_Spec_Topology topology (set_Spec_Profile ProfileCache (set_Spec_Replicas 3 (set_Spec_Shards shards
    (set_Spec_Storage (if decide (mode = "") then None
                       else Some {| Storage_Size := 0; Storage_StorageClassName := None; Storage_Mode := mode; Storage_Medium := "Disk" |}) zeroSpec)))).
Lemma lifetime_invariants_witness :
  ∃ n0 n, Spec_Shards (demoSpec TopologyCluster (Some 3%Z) "") = Some n0 ∧ Spec_Shards (demoSpec TopologyCluster (Some 5%Z) "") = Some n ∧ (n0 ≤ n)%Z.
Proof.
  destruct (lifetime_invariants (demoSpec TopologyCluster (Some 3%Z) "") (demoSpec TopologyCluster (Some 5%Z) "")) as (_ & _ & _ & _ & _ & H).
  - eapply updated; [apply created|]; vm_compute; reflexivity.
  - destruct (H ltac:(reflexivity)) as (n0 & n & E0 & E & _ & Hle). exists n0, n. split; [exact E0|]. split; [exact E|]. apply Hle. discriminate.
Defined.
Lemma admitted_complete_witness :
  let vc := newCluster "web" "prod" (demoSpec TopologyCluster (Some 3%Z) "rdb") in is_Some (Spec_Shards (Spec vc)).
Proof.
  intros vc.
  destruct (admitted_complete vc "" false 0 {| Sentinel_Replicas := 3; Sentinel_Quorum := 2; Sentinel_Image := ""; Sentinel_Resources := noResources;
    Sentinel_DownAfterMilliseconds := 0; Sentinel_FailoverTimeout := 0 |} ltac:(vm_compute; reflexivity)) as (H & _). apply H. reflexivity.
Defined.

(** The rules on the fields of [storage] only compare blocks that are there: taking the block out and putting
    another one in, in two updates, changes the persistence mode of a live cluster. *)
Theorem storage_mode_changes : ∃ s0 s st0 st, lifetime s0 s ∧ Spec_Storage s0 = Some st0 ∧ Spec_Storage s = Some st ∧
  Storage_Mode st0 = "rdb" ∧ Storage_Mode st = "none".
Proof.
  exists (demoSpec TopologyReplication None "rdb"), (demoSpec TopologyReplication None "none"). eexists _, _.
  split; [|by vm_compute]. apply (updated _ (demoSpec TopologyReplication None "")); [apply (updated _ (demoSpec TopologyReplication None "rdb"))|];
    [apply created|..]; vm_compute; reflexivity.
Qed.
