(* ===== verification/StatusRules.v ===== *)
(** * StatusRules: what the operator writes to a status passes the CRD (markers on the status types)

    The CRD restricts the status as well: the phase and the health of a shard are enumerations,
    shards are listed by distinct index, and conditions have a status of three, a reason of a given
    form and no negative generation.  The API server refuses a write that breaks a rule, and the
    operator, which keeps its memory in the status, would be stuck.  [keeps p Q]: on an API server
    that only serves objects it has accepted, every status [p] writes is accepted, and [Q] holds of
    the result.

    An empty phase or health is not sent ([omitempty]) and so not checked.  Left out are the limits
    on the length of texts and the pattern of a condition's type (the operator's types are constants);
    conditions are seen by type, as [findCondition] sees them. *)

From S2P Require Import Prelude GoStd Float64 Kube Api Effects Naming Failover Rollout ClusterNodes Status Jobs Recovery SentinelRollout Scaling Rotation Config Workload Ensure Sentinel TlsReload Backup Telemetry Acl Controller Schema.

(** ** The rules *)
Definition phaseRule (st : ValkeyClusterStatus) : bool :=
  oneOf [""; "Pending"; "Creating"; "Ready"; "Updating"; "Failed"; "Hibernated"] (Status_Phase st).
Definition healthRule (s : ShardStatus) : bool := oneOf [""; "Unknown"; "Ready"; "Degraded"; "Down"] (Shard_Health s).
(** [^[A-Za-z]([A-Za-z0-9_,:]*[A-Za-z0-9_])?$]. *)
Definition letter (a : byte) : bool :=
  let n := code a in (((65 <=? n) && (n <=? 90)) || ((97 <=? n) && (n <=? 122)))%nat%bool.
Definition reasonInner (a : byte) : bool := (letter a || is_digit a || (a == "_"%char) || (a == ","%char) || (a == ":"%char))%bool.
Definition reasonLast (a : byte) : bool := (letter a || is_digit a || (a == "_"%char))%bool.
Fixpoint reasonRest (s : string) : bool :=
  match s with
  | EmptyString => false
  | String a EmptyString => reasonLast a
  | String a s => (reasonInner a && reasonRest s)%bool
  end.
Definition reasonRule (r : string) : bool :=
  match r with EmptyString => false | String a s => (letter a && ((s == "") || reasonRest s))%bool end.
Definition conditionRule (c : Condition) : bool :=
  (oneOf ["True"; "False"; "Unknown"] (cond_Status c) && reasonRule (cond_Reason c) && (0 <=? cond_ObservedGeneration c)%Z)%bool.
Definition conditionsRule (cs : list Condition) : Prop := ∀ t c, findCondition t cs = Some c → conditionRule c = true.
(** Conditions are a map by type, shards one by index. *)
Record statusRules (st : ValkeyClusterStatus) : Prop := {
  sr_phase : phaseRule st = true;
  sr_health : Forall (λ s, healthRule s = true) (Status_ShardDetails st);
  sr_index : NoDup (Shard_Index <$> Status_ShardDetails st);
  sr_conditions : conditionsRule (Status_Conditions st)
}.
(** An object as the API server holds it. *)
Record acceptable (vc : ValkeyCluster) : Prop := { acc_status : statusRules (Status vc); acc_generation : (0 ≤ Meta_Generation (Meta vc))%Z }.
Record acceptableACL (acl : ValkeyACL) : Prop := { acl_conditions : conditionsRule (ACL_Conditions (ACL_Status acl)); acl_generation : (0 ≤ Meta_Generation (ACL_Meta acl))%Z }.

Definition served (e : Event) : Prop :=
  match e with
  | Ev (OGetCluster _ _) (inr vc) | Ev (OReadCluster _ _) (inr vc) | Ev (OUpdateCluster _) (inr vc) => acceptable vc
  | Ev (OGetACL _ _) (inr acl) => acceptableACL acl
  | _ => True
  end.
Definition accepted (e : Event) : Prop :=
  match ev_op e with
  | OPatchStatus _ new => statusRules (Status new)
  | OUpdateStatus new => statusRules (Status new)
  | OPatchACL _ new => conditionsRule (ACL_Conditions (ACL_Status new))
  | _ => True
  end.
Definition keeps {A} (p : prog A) (Q : A → Prop) : Prop := ∀ tr a, exec p tr a → Forall served tr → Forall accepted tr ∧ Q a.
Abbreviation quietly p := (keeps p (λ _, True)).

Lemma keeps_ret {A} (a : A) (Q : A → Prop) : Q a → keeps (mret a) Q.
Proof. intros HQ tr b [-> <-]%exec_ret _. by split. Qed.
Lemma keeps_bind {A B} (p : prog A) (f : A → prog B) Q R : keeps p Q → (∀ a, Q a → keeps (f a) R) → keeps (p ≫= f) R.
Proof.
  intros Hp Hf tr b (t1 & t2 & a & -> & H1 & H2)%exec_bind [S1 S2]%Forall_app. destruct (Hp _ _ H1 S1) as [A1 HQ].
  destruct (Hf a HQ _ _ H2 S2) as [A2 HR]. split; [by apply Forall_app|done].
Qed.
Lemma keeps_mono {A} (p : prog A) (Q R : A → Prop) : keeps p Q → (∀ a, Q a → R a) → keeps p R.
Proof. intros H HQ tr a Hx Hs. destruct (H _ _ Hx Hs). auto. Qed.
Lemma keeps_op op (Q : ans op → Prop) : (∀ x, accepted (Ev op x)) → (∀ x, served (Ev op x) → Q x) → keeps (perform op) Q.
Proof. intros Ha HQ tr a ->%exec_perform [Hs _]%Forall_cons. split; [by constructor|auto]. Qed.
Lemma quietly_bind {A B} (p : prog A) (f : A → prog B) R : quietly p → (∀ a, keeps (f a) R) → keeps (p ≫= f) R.
Proof. intros Hp Hf. eapply keeps_bind; [exact Hp|auto]. Qed.
Lemma quietly_foldM {S A} (f : S → A → prog S) s l : (∀ s x, quietly (f s x)) → quietly (foldM f s l).
Proof. intros Hf. revert s; induction l as [|x l IH]; intros s; cbn; [by apply keeps_ret|]. apply quietly_bind; auto. Qed.
Lemma quietly_mapP {A B} (f : A → prog B) l : (∀ x, quietly (f x)) → quietly (mapP f l).
Proof.
  intros Hf. induction l as [|x l IH]; cbn; [by apply keeps_ret|]. apply quietly_bind; [done|]. intros y. apply quietly_bind; [done|]. intros ys. by apply keeps_ret.
Qed.

Create HintDb quiet.
(** Programs that write no status: along the program, into the programs it calls, with lemmas for the recursive ones. *)
Ltac head_of t := match t with ?f _ => head_of f | _ => t end.
Ltac quiet_step :=
  match goal with
  | |- keeps (mret _) _ => by apply keeps_ret
  | |- keeps (mbind _ _) _ => apply quietly_bind; [|intros ?]
  | |- keeps (perform ?op) _ => apply (keeps_op op); [intros ?; exact I|intros ? ?; exact I]
  | |- keeps (match ?x with _ => _ end) _ => destruct x
  | |- keeps (foldM _ _ _) _ => apply quietly_foldM; intros ? ?
  | |- keeps (mapP _ _) _ => apply quietly_mapP; intros ?
  | |- keeps ?p _ => let h := head_of p in progress unfold h; cbv zeta
  end.
Ltac quiet := cbv zeta; repeat first [solve [auto 2 with quiet nocore]|quiet_step].

Lemma quiet_dial vc host port pw t : quietly (dialPod vc host port pw t).
Proof. quiet. Qed.
#[local] Hint Resolve quiet_dial : quiet.
Lemma quiet_survey vc pw : quietly (surveyReplication vc pw).
Proof. quiet. Qed.
Lemma quiet_enforce vc pw survey primary port : quietly (enforceReplication vc pw survey primary port).
Proof. quiet. Qed.
#[local] Hint Resolve quiet_survey quiet_enforce : quiet.
Lemma quiet_promote vc pw survey target port : quietly (promoteReplica vc pw survey target port).
Proof. quiet. Qed.
#[local] Hint Resolve quiet_promote : quiet.
Lemma quiet_rollout vc pw survey : quietly (driveReplicationRollout vc pw survey).
Proof. quiet. Qed.
Lemma quiet_clusterRollout vc pw : quietly (driveClusterRollout vc pw).
Proof. quiet. Qed.
Lemma quiet_retry n fn : quietly fn → quietly (RetryOnConflict n fn).
Proof. intros Hf. induction n; cbn [RetryOnConflict]; quiet; done. Qed.
Lemma quiet_retryValue {A} n (fn : prog (KubeErr + A)) : quietly fn → quietly (RetryOnConflictValue n fn).
Proof. intros Hf. induction n; cbn [RetryOnConflictValue]; quiet; done. Qed.
Lemma quiet_tryFailover vc pw ords : ∀ last, quietly (tryFailover vc pw last ords).
Proof. induction ords; intros last; cbn [tryFailover]; quiet. Qed.
#[local] Hint Resolve quiet_rollout quiet_clusterRollout quiet_retry quiet_retryValue quiet_tryFailover : quiet.
Lemma quiet_poll {S} n poll (cond : S → prog (bool * S)) : (∀ st, quietly (cond st)) → ∀ st, quietly (poll_go n poll cond st).
Proof. intros Hc. induction n; intros st; cbn [poll_go]; quiet; done. Qed.
Lemma quiet_promoted dial hosts : (∀ h, quietly (dial h)) → ∀ st, quietly (findPromoted dial hosts st).
Proof. intros Hd. induction hosts; intros st; cbn [findPromoted]; quiet; auto. Qed.
Lemma quiet_await dial mc hosts port t : (∀ h, quietly (dial h)) → quietly (awaitPromotion dial mc hosts port t).
Proof. intros Hd. unfold awaitPromotion, pollUntil. apply quietly_bind; [apply quiet_poll, quiet_promoted, Hd|]. intros a. quiet. Qed.
Lemma quiet_handOver dial failover host hosts port t : (∀ h, quietly (dial h)) → quietly failover → quietly (handOverMaster dial failover host hosts port t).
Proof.
  intros Hd Hf. assert (∀ mc, quietly (handOverPaused dial failover mc hosts port t)) as Hp; [|unfold handOverMaster; quiet].
  intros mc. unfold handOverPaused. apply quietly_bind; [apply quiet_poll; intros ?; quiet|]. intros a.
  destruct a.1; [quiet|]. apply quietly_bind; [done|]. intros [e|]; [destruct (negb _); [quiet|]|]; by apply quiet_await.
Qed.
#[local] Hint Resolve quiet_poll quiet_promoted quiet_await : quiet.
Lemma quiet_sentinelRollout vc pw : quietly (driveSentinelRollout vc pw).
Proof.
  assert (∀ survey m, quietly (sentinelHandover vc pw survey m)) as Hh.
  { intros survey m. unfold sentinelHandover. apply quietly_bind; [quiet|]. intros cert. cbv zeta. destruct (handoverHosts vc m survey).
    apply quiet_handOver; [intros h|]; quiet. }
  unfold driveSentinelRollout. quiet.
Qed.
Lemma quiet_dialFirst vc pw pods : quietly (dialFirst vc pw pods).
Proof. induction pods; cbn [dialFirst]; quiet. Qed.
Lemma quiet_deleteShards vc l : quietly (deleteShards vc l).
Proof. induction l; cbn [deleteShards]; quiet. Qed.
Lemma quiet_seqErr l : Forall (λ p, quietly p) l → quietly (seqErr l).
Proof. induction 1; cbn [seqErr]; quiet; done. Qed.
Lemma quiet_eachSentinel vc o n step cert ords : quietly (onEachSentinel vc o n step cert ords).
Proof.
  induction ords; cbn [onEachSentinel]; quiet.
Qed.
#[local] Hint Resolve quiet_sentinelRollout quiet_dialFirst quiet_deleteShards quiet_seqErr quiet_eachSentinel : quiet.
Lemma quiet_eachPod vc o n cert what cmd pods : (∀ c, quietly (cmd c)) → quietly (onEachPod vc o n cert what cmd pods).
Proof. intros Hc. induction pods; cbn [onEachPod]; quiet. Qed.
Lemma quiet_users {A} (l l' : list (prog (option error))) (f : A → prog (option error)) us :
  Forall (λ p, quietly p) l → (∀ u, quietly (f u)) → Forall (λ p, quietly p) l' → quietly (seqErr (l ++ (f <$> us) ++ l')).
Proof. intros Hl Hf Hl'. apply quiet_seqErr. rewrite !Forall_app. split_and!; [done|by apply Forall_fmap, Forall_true|done]. Qed.
Lemma quiet_addNew vc pw c : quietly (addNewOn vc pw c).
Proof. apply quiet_users; [|intros u; quiet|]; repeat (apply Forall_cons; split; [quiet|]); by apply Forall_nil. Qed.
Lemma quiet_cutover vc pw c : quietly (cutoverOn vc pw c).
Proof. apply quiet_users; [|intros u; quiet|]; repeat (apply Forall_cons; split; [quiet|]); by apply Forall_nil. Qed.
#[local] Hint Resolve quiet_eachPod quiet_addNew quiet_cutover : quiet.
Lemma quiet_configSetAll host c params : quietly (configSetAll host c params).
Proof. induction params as [|[]]; cbn [configSetAll]; quiet. Qed.
#[local] Hint Resolve quiet_configSetAll : quiet.
Lemma quiet_tlsLoop sha vc pw cert fp pods : ∀ b, quietly (reloadTLSLoop sha vc pw cert fp pods b).
Proof. induction pods; intros b; cbn [reloadTLSLoop]; quiet. Qed.
Lemma quiet_pvcs vc d pvcs : quietly (expandPVCs vc d pvcs).
Proof. induction pvcs; cbn [expandPVCs]; quiet. Qed.
Lemma quiet_zones pods : ∀ out, quietly (zonesOfPods pods out).
Proof. induction pods; intros out; cbn [zonesOfPods]; quiet. Qed.
#[local] Hint Resolve quiet_tlsLoop quiet_pvcs quiet_zones : quiet.
Lemma quiet_sts n hash vc d : quietly (applyStatefulSet n hash vc d).
Proof. quiet. all: apply quiet_retryValue; quiet. Qed.
#[local] Hint Resolve quiet_sts : quiet.
Lemma quiet_ensureSts n hash vc ch : quietly (ensureStatefulSet n hash vc ch).
Proof. quiet. Qed.
Lemma quiet_shards n hash vc ch l : ∀ ready, quietly (ensureShards n hash vc ch ready l).
Proof. induction l; intros ready; cbn [ensureShards]; quiet. Qed.
#[local] Hint Resolve quiet_ensureSts quiet_shards : quiet.
Lemma quiet_shardWorkload n hash vc ch : quietly (ensureShardWorkload n hash vc ch).
Proof. quiet. Qed.
Lemma quiet_password vc : quietly (ensurePasswordSecret vc).
Proof. quiet. Qed.
Lemma quiet_configMap sha vc pw : quietly (ensureConfigMap sha vc pw).
Proof. quiet. Qed.
Lemma quiet_sentinelConfigMap sha vc s pw : quietly (ensureSentinelConfigMap sha vc s pw).
Proof. quiet. Qed.
Lemma quiet_sentinelSts vc s hash hold : quietly (ensureSentinelStatefulSet vc s hash hold).
Proof. quiet. Qed.
Lemma quiet_pdb n dd vc d : quietly (applyPDB n dd vc d).
Proof. quiet. all: apply quiet_retry; quiet. Qed.
Lemma quiet_netpol vc : quietly (ensureNetworkPolicy vc).
Proof. quiet. Qed.
Lemma quiet_monitor vc : quietly (ensureMetricsServiceMonitor vc).
Proof. quiet. Qed.
Lemma quiet_backup hash vc : quietly (ensureBackupCronJob hash vc).
Proof. quiet. Qed.
Lemma quiet_service vc svc : quietly (ensureService vc svc).
Proof. quiet. Qed.
Lemma quiet_roleLabels vc primary : quietly (ensureRoleLabels vc primary).
Proof. quiet. Qed.
#[local] Hint Resolve quiet_shardWorkload quiet_password quiet_configMap quiet_sentinelConfigMap quiet_sentinelSts quiet_pdb quiet_netpol quiet_monitor
  quiet_backup quiet_service quiet_roleLabels : quiet.
Lemma quiet_timings vc s pw : quietly (applySentinelTimings vc s pw).
Proof. quiet. Qed.
Lemma quiet_views vc pw : quietly (collectSentinelViews vc pw).
Proof. quiet. Qed.
Lemma quiet_reset vc s pw views : quietly (resetStaleSentinels vc s pw views).
Proof. quiet. Qed.
Lemma quiet_repair vc s pw views : quietly (repairSentinelDataPods vc s pw views).
Proof. quiet. Qed.
Lemma quiet_telemetry order vc pw : quietly (collectValkeyTelemetry order vc pw).
Proof. quiet. Qed.
Lemma quiet_zoneCheck vc : quietly (checkZoneColocation vc).
Proof. quiet. Qed.
Lemma quiet_forget vc : quietly (forgetTelemetry vc).
Proof. quiet. Qed.
#[local] Hint Resolve quiet_timings quiet_views quiet_reset quiet_repair quiet_telemetry quiet_zoneCheck quiet_forget : quiet.

(** ** Programs that write the status *)

(** Only three fields are under rules. *)
Lemma rules_eq st st' : Status_Phase st' = Status_Phase st → Status_ShardDetails st' = Status_ShardDetails st → Status_Conditions st' = Status_Conditions st →
  statusRules st → statusRules st'.
Proof. intros E1 E2 E3 [H1 H2 H3 H4]. split; [unfold phaseRule; by rewrite E1|by rewrite E2|by rewrite E2|by rewrite E3]. Qed.
Lemma acceptable_with f vc : acceptable vc → statusRules (f (Status vc)) → acceptable (with_status vc f).
Proof. intros [H1 H2] Hf. by split. Qed.
Ltac same_rules :=
  match goal with |- acceptable ?vc → _ => intros Hv; apply acceptable_with; [done|]; eapply rules_eq, (acc_status _ Hv); by destruct (Status vc) end.
Lemma rules_primaryDown vc t : acceptable vc → acceptable (with_status vc (set_Status_PrimaryDownSince t)).
Proof. same_rules. Qed.
Lemma rules_quorumDown vc t : acceptable vc → acceptable (with_status vc (set_Status_QuorumDownSince t)).
Proof. same_rules. Qed.
Lemma rules_failoverToken vc t : acceptable vc → acceptable (with_status vc (set_Status_LastFailoverToken t)).
Proof. same_rules. Qed.
Lemma rules_replicas vc n : acceptable vc → acceptable (with_status vc (set_Status_LastAppliedReplicas n)).
Proof. same_rules. Qed.
Lemma rules_reshardToken vc t : acceptable vc → acceptable (with_status vc (set_Status_LastReshardToken t)).
Proof. same_rules. Qed.
Lemma rules_rotationToken vc t : acceptable vc → acceptable (with_status vc (set_Status_LastPasswordRotationToken t)).
Proof. same_rules. Qed.
Lemma rules_fingerprint vc t : acceptable vc → acceptable (with_status vc (set_Status_LastTLSCertFingerprint t)).
Proof. same_rules. Qed.

Lemma keeps_patch base new : acceptable new → keeps (perform (OPatchStatus base new)) (λ _, True).
Proof. intros [H _]. by apply (keeps_op (OPatchStatus base new)). Qed.
Create HintDb keep.
#[local] Hint Resolve keeps_patch rules_primaryDown rules_quorumDown rules_failoverToken rules_replicas rules_reshardToken : keep.
(** Along the program: a step that answers an object answers an acceptable one. *)
Ltac keep_step :=
  match goal with
  | |- keeps (mret _) _ => apply keeps_ret; cbn [fst snd out_vc ok failed requeue returning]; solve [auto 3 with keep]
  | |- keeps (mbind _ _) _ => first [eapply keeps_bind; [solve [eauto 3 with keep]|intros ? ?]|apply quietly_bind; [solve [quiet]|intros ?]]
  | |- keeps (match ?x with _ => _ end) _ => destruct x
  end.
Ltac keep := cbv zeta; repeat first [solve [eauto 3 with keep]|keep_step].

Lemma keeps_setPrimaryDown vc t : acceptable vc → keeps (setPrimaryDown vc t) acceptable.
Proof. intros Hv. unfold setPrimaryDown. keep. Qed.
#[local] Hint Resolve keeps_setPrimaryDown : keep.
Lemma keeps_clearPrimaryDown vc : acceptable vc → keeps (clearPrimaryDown vc) acceptable.
Proof. intros Hv. unfold clearPrimaryDown. keep. Qed.
Lemma keeps_longEnough vc : acceptable vc → keeps (primaryDownLongEnough vc) (λ r, acceptable r.2).
Proof. intros Hv. unfold primaryDownLongEnough. keep. Qed.
#[local] Hint Resolve keeps_clearPrimaryDown keeps_longEnough : keep.
Lemma keeps_adopt vc pw survey chosen port : acceptable vc → keeps (adoptMaster vc pw survey chosen port) (λ r, acceptable r.2).
Proof. intros Hv. unfold adoptMaster. keep. Qed.
#[local] Hint Resolve keeps_adopt : keep.
Lemma keeps_failover vc pw survey : acceptable vc → keeps (reconcileFailover vc pw survey) (λ r, acceptable r.2).
Proof. intros Hv. unfold reconcileFailover. keep. Qed.
Lemma keeps_manual vc pw survey tok : acceptable vc → keeps (manualFailover vc pw survey tok) (λ r, acceptable r.2).
Proof. intros Hv. unfold manualFailover. keep. Qed.
#[local] Hint Resolve keeps_failover keeps_manual : keep.
Lemma keeps_setQuorumDown vc t : acceptable vc → keeps (setQuorumDown vc t) acceptable.
Proof. intros Hv. unfold setQuorumDown. keep. Qed.
#[local] Hint Resolve keeps_setQuorumDown : keep.
Lemma keeps_clearQuorumDown vc : acceptable vc → keeps (clearQuorumDown vc) acceptable.
Proof. intros Hv. unfold clearQuorumDown. keep. Qed.
Lemma keeps_quorumLongEnough vc : acceptable vc → keeps (quorumDownLongEnough vc) (λ r, acceptable r.2).
Proof. intros Hv. unfold quorumDownLongEnough. keep. Qed.
#[local] Hint Resolve keeps_clearQuorumDown keeps_quorumLongEnough : keep.
Lemma keeps_recover vc pw : acceptable vc → keeps (maybeRecoverClusterQuorum vc pw) (λ r, acceptable r.2).
Proof. intros Hv. unfold maybeRecoverClusterQuorum. keep. Qed.

(** The latest version of the object is what the API server has accepted. *)
Definition goodAnswer (r : KubeErr + ValkeyCluster) : Prop := match r with inr vc => acceptable vc | inl _ => True end.
Lemma keeps_get ns name : keeps (perform (OGetCluster ns name)) goodAnswer.
Proof.
  apply (keeps_op (OGetCluster ns name) goodAnswer); [done|].
  refine (λ x, match x as y return served (Ev (OGetCluster ns name) y) → goodAnswer y with inl _ => λ _, I | inr _ => λ H, H end).
Qed.
Lemma keeps_update vc : keeps (perform (OUpdateCluster vc)) goodAnswer.
Proof.
  apply (keeps_op (OUpdateCluster vc) goodAnswer); [done|].
  refine (λ x, match x as y return served (Ev (OUpdateCluster vc) y) → goodAnswer y with inl _ => λ _, I | inr _ => λ H, H end).
Qed.
Lemma keeps_recordToken vc token : keeps (recordToken vc token) (λ _, True).
Proof.
  unfold recordToken. eapply keeps_bind; [apply keeps_get|].
  intros [err|latest] Ha; [by apply keeps_ret|]. apply (keeps_op (OUpdateStatus _)); [|done]. intros x. apply acc_status. by apply rules_rotationToken.
Qed.
Lemma keeps_recordFingerprint vc fp : keeps (recordFingerprint vc fp) (λ _, True).
Proof.
  unfold recordFingerprint. eapply keeps_bind; [apply keeps_get|].
  intros [err|latest] Ha; [by apply keeps_ret|]. apply (keeps_op (OUpdateStatus _)); [|done]. intros x. apply acc_status. by apply rules_fingerprint.
Qed.
#[local] Hint Resolve keeps_recordToken keeps_recordFingerprint : quiet.
Lemma keeps_rotation n api vc : quietly (reconcilePasswordRotation n api vc).
Proof. quiet. Qed.
Lemma keeps_tls pem cert sha n api vc : quietly (reconcileTLSReload pem cert sha n api vc).
Proof. quiet. Qed.
#[local] Hint Resolve keeps_rotation keeps_tls : quiet.

(** The survey: indices count up and the health is one of the constants. *)
Definition shardsOk (l : list ShardStatus) : Prop := Forall (λ s, healthRule s = true) l ∧ Shard_Index <$> l = Z.of_nat <$> seq 0 (length l).
Lemma addMaster_ok nodes : ∀ acc, shardsOk acc.1 → shardsOk (foldl addMaster acc nodes).1.
Proof.
  induction nodes as [|n nodes IH]; intros [shards byID] Hs; [done|]. cbn [foldl]. apply IH. unfold addMaster. destruct (negb (nodeIsMaster n)); [done|].
  destruct Hs as [Hh Hi]. split; cbn in *.
  - apply Forall_app. split; [done|]. apply Forall_singleton. unfold masterShard, healthRule. cbn. by destruct (negb (nodeIsHealthy n)).
  - rewrite fmap_app, Hi, length_app, Nat.add_1_r, seq_S, fmap_app. done.
Qed.
Lemma alter_ok f i l : (∀ s, Shard_Index (f s) = Shard_Index s) → (∀ s, healthRule s = true → healthRule (f s) = true) → shardsOk l → shardsOk (alter f i l).
Proof.
  intros Hi Hh [H1 H2]. split.
  - apply Forall_alter; [done|]. intros x _. apply Hh.
  - rewrite length_alter, <- H2. apply list_eq. intros j. rewrite !list_lookup_fmap, list_lookup_alter. case_decide; [|done]. subst. destruct (l !! j) as [s|] eqn:E; rewrite ?E; [|done]. exact (f_equal Some (Hi s)).
Qed.
Lemma shardsOfNodes_ok nodes : shardsOk (shardsOfNodes nodes).
Proof.
  unfold shardsOfNodes. pose proof (addMaster_ok nodes ([], ∅)) as H0. destruct (foldl addMaster ([], ∅) nodes) as [shards byID].
  assert (shardsOk shards) as Hs by (apply H0; by split). clear H0. generalize nodes at 1. intros l. revert shards Hs.
  induction l as [|n l IH]; intros shards Hs; [done|]. cbn [foldl]. apply IH. unfold addReplica. destruct (_ || _)%bool; [done|].
  destruct (byID !! cn_masterID n); [|done]. apply alter_ok; [done| |done]. intros s. unfold attachReplica, healthRule. cbn.
  destruct (_ && _)%bool; [done|]. done.
Qed.
Lemma keeps_fillLag vc pw s : keeps (fillShardLag vc pw s) (λ s', Shard_Health s' = Shard_Health s ∧ Shard_Index s' = Shard_Index s).
Proof.
  unfold fillShardLag. destruct (_ || _)%bool; [by apply keeps_ret|]. apply quietly_bind; [quiet|]. intros [c|]; [|by apply keeps_ret].
  apply quietly_bind; [quiet|]. intros [e|m]; [by apply keeps_ret|]. cbv zeta. apply quietly_bind; [quiet|]. intros r. by apply keeps_ret.
Qed.
Lemma keeps_mapP {A B} (f : A → prog B) (R : A → B → Prop) l : (∀ x, keeps (f x) (R x)) → keeps (mapP f l) (Forall2 R l).
Proof.
  intros Hf. induction l as [|x l IH]; cbn; [by apply keeps_ret|]. eapply keeps_bind; [apply Hf|]. intros y Hy.
  eapply keeps_bind; [exact IH|]. intros ys Hys. apply keeps_ret. by constructor.
Qed.
Lemma keeps_surveyCluster vc pw : keeps (surveyCluster vc pw) shardsOk.
Proof.
  unfold surveyCluster. apply quietly_bind; [quiet|]. intros [c|]; [|by apply keeps_ret]. apply quietly_bind; [quiet|]. intros [e|raw]; [by apply keeps_ret|].
  eapply keeps_mono; [apply keeps_mapP; intros s; apply keeps_fillLag|]. intros out Hf. destruct (shardsOfNodes_ok (parseClusterNodes raw)) as [H1 H2].
  split.
  - clear H2. induction Hf as [|s s' l l' [E _] Hf IH]; [done|]. apply Forall_cons in H1 as [Hs H1]. constructor; [unfold healthRule; by rewrite E|by apply IH].
  - rewrite <- (Forall2_length _ _ _ Hf), <- H2. clear -Hf. induction Hf as [|s s' l l' [_ E] Hf IH]; [done|]. cbn. by rewrite E, IH.
Qed.

Section conditions.
Context `{ConditionLib}.
Lemma set_rules cs c : conditionsRule cs → conditionRule c = true → conditionsRule (setCondition cs c).
Proof.
  intros Hcs Hc t x. unfold setCondition. destruct (decide (t = cond_Type c)) as [->|Hne]; [|rewrite SetStatusCondition_other by done; apply Hcs].
  rewrite SetStatusCondition_same. intros [= <-]. unfold transition. destruct (findCondition _ cs); [|done]. by case_bool_decide.
Qed.
Definition stampOk (status reason : string) (gen : Z) : Prop := oneOf ["True"; "False"; "Unknown"] status = true ∧ reasonRule reason = true ∧ (0 ≤ gen)%Z.
Lemma keeps_stamp st type status reason msg gen : statusRules st → stampOk status reason gen →
  keeps (stampCondition st type status reason msg gen) (λ st', statusRules st' ∧ Status_ObservedGeneration st' = Status_ObservedGeneration st).
Proof.
  intros [H1 H2 H3 H4] (Hs & Hr & Hg). unfold stampCondition. apply quietly_bind; [quiet|]. intros now. apply keeps_ret.
  assert (∀ cs, Status_Phase (set_Status_Conditions cs st) = Status_Phase st ∧ Status_ShardDetails (set_Status_Conditions cs st) = Status_ShardDetails st ∧
    Status_Conditions (set_Status_Conditions cs st) = cs ∧ Status_ObservedGeneration (set_Status_Conditions cs st) = Status_ObservedGeneration st) as Hset
    by (intros cs; by destruct st).
  destruct (Hset (setCondition (Status_Conditions st) {| cond_Type := type; cond_Status := status; cond_Reason := reason; cond_Message := msg;
    cond_ObservedGeneration := gen; cond_LastTransitionTime := now |})) as (E1 & E2 & E3 & E4). split; [|exact E4].
  split; [unfold phaseRule; by rewrite E1|by rewrite E2|by rewrite E2|]. rewrite E3. apply set_rules; [done|].
  unfold conditionRule. cbn [cond_Status cond_Reason cond_ObservedGeneration]. by rewrite Hs, Hr, (proj2 (Z.leb_le _ _) Hg).
Qed.
Lemma keeps_ready st ready reason msg : statusRules st → reasonRule reason = true → (0 ≤ Status_ObservedGeneration st)%Z →
  keeps (setReadyCondition st ready reason msg) (λ st', statusRules st' ∧ Status_ObservedGeneration st' = Status_ObservedGeneration st).
Proof. intros Hs Hr Hg. apply keeps_stamp; [done|]. split_and!; [by destruct ready|done|done]. Qed.
(** The end of every writer: patch and answer the object. *)
Lemma keeps_write d vc st : acceptable vc → statusRules st →
  keeps (err ← perform (OPatchStatus vc (with_status vc (λ _, st))); mret (returning d err (with_status vc (λ _, st)))) (λ o, acceptable (out_vc o)).
Proof.
  intros Hv Hs. assert (acceptable (with_status vc (λ _, st))) as Ha by (by apply acceptable_with). apply quietly_bind; [by apply keeps_patch|].
  intros err. by apply keeps_ret.
Qed.
Lemma keeps_setPhase vc reason msg : acceptable vc → reasonRule reason = true → keeps (setPhase vc reason msg) (λ o, acceptable (out_vc o)).
Proof.
  intros Hv Hr. unfold setPhase. cbv zeta. set (st := set_Status_ObservedGeneration _ _).
  assert (statusRules st ∧ Status_ObservedGeneration st = vcGeneration vc) as [Hs Hg].
  { destruct (acc_status _ Hv) as [H1 H2 H3 H4]. unfold st. destruct (Status vc). by split. }
  eapply keeps_bind; [apply keeps_stamp; [done|by split_and!]|]. intros st1 [Hs1 Hg1].
  eapply keeps_bind; [apply keeps_ready; [done|done|]; rewrite Hg1, Hg; apply (acc_generation _ Hv)|]. intros st2 [Hs2 _]. by apply keeps_write.
Qed.
Lemma rules_phase st st' : statusRules st → phaseRule st' = true → Status_ShardDetails st' = Status_ShardDetails st → Status_Conditions st' = Status_Conditions st →
  statusRules st'.
Proof. intros [H1 H2 H3 H4] Hp E2 E3. split; [done|by rewrite E2|by rewrite E2|by rewrite E3]. Qed.
Lemma oneOf_condStatus b : oneOf ["True"; "False"; "Unknown"] (condStatus b) = true.
Proof. by destruct b. Qed.
Lemma keeps_updateStatus vc sts primary : acceptable vc → keeps (updateStatus vc sts primary) (λ o, acceptable (out_vc o)).
Proof.
  intros Hv. unfold updateStatus. cbv zeta. set (phase := phaseOf _ _). set (st := set_Status_ObservedGeneration _ _).
  assert (phase ∈ [PhaseReady; PhaseUpdating; PhaseCreating]) as Hp by (unfold phase, phaseOf; repeat case_match; set_solver).
  assert (reasonRule phase = true) as Hr by (clearbody phase; rewrite !elem_of_cons, elem_of_nil in Hp; by destruct Hp as [->|[->|[->|[]]]]).
  assert (statusRules st ∧ Status_ObservedGeneration st = vcGeneration vc) as [Hs Hg].
  { split; [|unfold st; by destruct (Status vc)]. apply (rules_phase (Status vc)); [apply Hv| |unfold st; by destruct (Status vc)..].
    assert (Status_Phase st = phase) as E by (unfold st; by destruct (Status vc)). unfold phaseRule. rewrite E. clear -Hp.
    rewrite !elem_of_cons, elem_of_nil in Hp. by destruct Hp as [->|[->|[->|[]]]]. }
  eapply keeps_bind; [apply keeps_stamp; [done|split_and!; [apply oneOf_condStatus|done|apply (acc_generation _ Hv)]]|]. intros st1 [Hs1 Hg1].
  eapply keeps_bind; [apply keeps_ready; [done|done|]; rewrite Hg1, Hg; apply (acc_generation _ Hv)|]. intros st2 [Hs2 _]. by apply keeps_write.
Qed.
Lemma keeps_stampShards vc st details : acceptable vc → statusRules st → keeps (stampShards vc st details) statusRules.
Proof.
  intros Hv Hs. unfold stampShards. destruct (summarizeShards details) as [n bad]. destruct (_ == _); [by apply keeps_ret|].
  destruct (length bad == 0); (eapply keeps_mono; [apply keeps_stamp; [done|]|by intros ? []]); (split_and!; [done|done|apply (acc_generation _ Hv)]).
Qed.
Lemma shardsOk_index l : shardsOk l → NoDup (Shard_Index <$> l).
Proof. intros [_ ->]. apply NoDup_fmap_2; [apply _|]. apply NoDup_ListNoDup, seq_NoDup. Qed.
Lemma keeps_updateClusterStatus vc ready all details : acceptable vc → shardsOk details → keeps (updateClusterStatus vc ready all details) (λ o, acceptable (out_vc o)).
Proof.
  intros Hv Hd. unfold updateClusterStatus. destruct (clusterPhase vc ready all _) as [[phase reason] msg] eqn:Ep. set (st := set_Status_Phase _ _).
  assert (reasonRule reason = true ∧ (phase = PhaseCreating ∨ phase = PhaseReady)) as [Hr Hp].
  { unfold clusterPhase in Ep. destruct (negb all); [|destruct (negb _)]; injection Ep as <- <- _; split; auto. }
  assert (statusRules st ∧ Status_ObservedGeneration st = vcGeneration vc) as [Hs Hg].
  { split; [|unfold st; by destruct (Status vc)]. destruct (acc_status _ Hv) as [_ _ _ H4].
    assert (Status_Phase st = phase ∧ Status_ShardDetails st = details ∧ Status_Conditions st = Status_Conditions (Status vc)) as (E1 & E2 & E3)
      by (unfold st; by destruct (Status vc)).
    split; [unfold phaseRule; rewrite E1; by destruct Hp as [->| ->]|rewrite E2; apply Hd|rewrite E2; by apply shardsOk_index|by rewrite E3]. }
  apply quietly_bind; [quiet|]. intros [].
  eapply keeps_bind; [apply keeps_stamp; [done|split_and!; [apply oneOf_condStatus|done|apply (acc_generation _ Hv)]]|]. intros st1 [Hs1 Hg1].
  eapply keeps_bind; [apply keeps_ready; [done|done|]; rewrite Hg1, Hg; apply (acc_generation _ Hv)|]. intros st2 [Hs2 _].
  eapply keeps_bind; [by apply keeps_stampShards|]. intros st3 Hs3. by apply keeps_write.
Qed.
Lemma keeps_markInitialized vc reason msg : acceptable vc → reasonRule reason = true → keeps (markInitialized vc reason msg) (λ o, acceptable (out_vc o)).
Proof.
  intros Hv Hr. unfold markInitialized. cbv zeta. eapply keeps_bind; [apply keeps_stamp|].
  - eapply rules_eq, (acc_status _ Hv); by destruct (Status vc).
  - split_and!; [done|done|apply (acc_generation _ Hv)].
  - intros st [Hs _]. by apply keeps_write.
Qed.
#[local] Hint Resolve keeps_recover keeps_surveyCluster keeps_setPhase keeps_updateStatus keeps_updateClusterStatus keeps_markInitialized : keep.
#[local] Hint Extern 1 (reasonRule _ = true) => reflexivity : keep.
Abbreviation reports p := (keeps p (λ o, acceptable (out_vc o))).

(** ** The Cluster pass *)
Lemma keeps_createJob vc job d : acceptable vc → reports (createJob vc job d).
Proof. intros Hv. unfold createJob. keep. Qed.
Lemma keeps_recordReplicas vc name : acceptable vc → reports (recordReplicas vc name).
Proof. intros Hv. unfold recordReplicas. keep. Qed.
#[local] Hint Resolve keeps_createJob keeps_recordReplicas : keep.
Lemma keeps_bootstrap vc pw : acceptable vc → reports (runClusterBootstrap vc pw).
Proof. intros Hv. unfold runClusterBootstrap, adoptFormedCluster. keep. Qed.
Lemma keeps_assembly vc rs s3 pw : acceptable vc → reports (runClusterRestoreAssembly vc rs s3 pw).
Proof. intros Hv. unfold runClusterRestoreAssembly, adoptFormedCluster. keep. Qed.
Lemma keeps_scaleUp vc pw : acceptable vc → reports (runClusterScaleUp vc pw).
Proof. intros Hv. unfold runClusterScaleUp. keep. Qed.
Lemma keeps_scaleDown vc pw : acceptable vc → reports (runClusterScaleDown vc pw).
Proof. intros Hv. unfold runClusterScaleDown. keep. Qed.
Lemma keeps_reshard vc pw tok : acceptable vc → reports (runClusterReshard vc pw tok).
Proof. intros Hv. unfold runClusterReshard. keep. Qed.
#[local] Hint Resolve keeps_bootstrap keeps_assembly keeps_scaleUp keeps_scaleDown keeps_reshard : keep.
Lemma keeps_reshardStep vc pw all : acceptable vc → keeps (reshardStep vc pw all) (λ r, acceptable (out_vc r.1)).
Proof. intros Hv. unfold reshardStep. keep. Qed.
#[local] Hint Resolve keeps_reshardStep : keep.
Lemma keeps_scaleDownStep vc pw want all : acceptable vc → keeps (scaleDownStep vc pw want all) (λ r, acceptable (out_vc r.1)).
Proof. intros Hv. unfold scaleDownStep. keep. Qed.
#[local] Hint Resolve keeps_scaleDownStep : keep.
Lemma keeps_scaling vc pw want all : acceptable vc → keeps (maybeReconcileClusterScaling vc pw want all) (λ r, acceptable (out_vc r.1)).
Proof. intros Hv. unfold maybeReconcileClusterScaling. keep. Qed.
Lemma keeps_clusterRollout vc pw want : acceptable vc → keeps (maybeDriveClusterRollout vc pw want) (λ r, acceptable (out_vc r.1)).
Proof. intros Hv. unfold maybeDriveClusterRollout. keep. Qed.
Lemma keeps_surveyAndReport vc pw ready all : acceptable vc → reports (surveyAndReport vc pw ready all).
Proof.
  intros Hv. unfold surveyAndReport. eapply (keeps_bind _ _ shardsOk); [destruct (_ && _)%bool; [apply keeps_surveyCluster|by apply keeps_ret]|].
  intros details Hd. keep.
Qed.
#[local] Hint Resolve keeps_scaling keeps_clusterRollout keeps_surveyAndReport : keep.
Lemma keeps_clusterPass vc pw ready : acceptable vc → reports (clusterPass vc pw ready).
Proof.
  intros Hv. assert (∀ vc want all, acceptable vc → reports (recoverThenRest vc pw ready want all)) as Hrest.
  { clear vc Hv. intros vc want all Hv. unfold recoverThenRest, scaleThenRest, rolloutThenReport. keep. }
  assert (reports (bootstrapOrRestore vc pw)) as Hb by (unfold bootstrapOrRestore; keep).
  unfold clusterPass. cbv zeta. destruct (_ && _)%bool; [|by apply Hrest]. eapply keeps_bind; [exact Hb|]. intros o Ho.
  destruct (handles o); [by apply keeps_ret|by apply Hrest].
Qed.
#[local] Hint Resolve keeps_clusterPass : keep.

(** ** The other topologies *)
Lemma requeueIfOk_vc d o : out_vc (requeueIfOk d o) = out_vc o.
Proof. unfold requeueIfOk. by destruct (out_err o). Qed.
Lemma acceptable_requeue d o : acceptable (out_vc o) → acceptable (out_vc (requeueIfOk d o)).
Proof. by rewrite requeueIfOk_vc. Qed.
Lemma acceptable_if (b : bool) o o' : acceptable (out_vc o) → acceptable (out_vc o') → acceptable (out_vc (if b then o else o')).
Proof. by destruct b. Qed.
#[local] Hint Resolve acceptable_requeue acceptable_if : keep.
Lemma keeps_reportReplication vc sts primary d : acceptable vc → reports (reportReplication vc sts primary d).
Proof. intros Hv. unfold reportReplication. keep. Qed.
#[local] Hint Resolve keeps_reportReplication : keep.
Lemma keeps_failoverThenReport vc pw sts survey : acceptable vc → reports (failoverThenReport vc pw sts survey).
Proof. intros Hv. unfold failoverThenReport. keep. Qed.
#[local] Hint Resolve keeps_failoverThenReport : keep.
Lemma keeps_replicationPass vc pw sts : acceptable vc → reports (replicationPass vc pw sts).
Proof. intros Hv. unfold replicationPass. keep. Qed.
(** A status that only says how far the pass got. *)
Lemma rules_progress vc st phase : acceptable vc → oneOf [PhaseReady; PhaseCreating; PhaseUpdating; PhaseHibernated] phase = true → Status_Phase st = phase →
  Status_ShardDetails st = Status_ShardDetails (Status vc) → Status_Conditions st = Status_Conditions (Status vc) → statusRules st ∧ reasonRule phase = true.
Proof.
  intros Hv Hp E1 E2 E3. unfold oneOf in Hp. apply bool_decide_eq_true in Hp. rewrite !elem_of_cons, elem_of_nil in Hp. split.
  - apply (rules_phase (Status vc)); [apply Hv| |done..]. unfold phaseRule. rewrite E1. by destruct Hp as [->|[->|[->|[->|[]]]]].
  - by destruct Hp as [->|[->|[->|[->|[]]]]].
Qed.
Lemma keeps_sentinelStatus vc sts ssts pending : acceptable vc → reports (sentinelStatus vc sts ssts pending).
Proof.
  intros Hv. unfold sentinelStatus. cbv zeta. set (phase := if (_ && _)%bool then PhaseReady else PhaseCreating). set (st := set_Status_Phase _ _).
  destruct (rules_progress vc st phase Hv) as [Hs Hr]; [subst phase; by destruct (_ && _)%bool|unfold st; by destruct (Status vc)..|].
  eapply keeps_bind; [apply keeps_stamp; [done|split_and!; [apply oneOf_condStatus|done|apply (acc_generation _ Hv)]]|].
  intros st1 [Hs1 _]. by apply keeps_write.
Qed.
Lemma keeps_sentinelUpdating vc sts : acceptable vc → reports (sentinelUpdating vc sts).
Proof.
  intros Hv. unfold sentinelUpdating. cbv zeta. set (st := set_Status_ReadyReplicas _ _).
  destruct (rules_progress vc st PhaseUpdating Hv) as [Hs _]; [done|unfold st; by destruct (Status vc)..|].
  eapply keeps_bind; [apply keeps_stamp; [done|split_and!; [done|done|apply (acc_generation _ Hv)]]|]. intros st1 [Hs1 _].
  assert (acceptable (with_status vc (λ _, st1))) as Ha by (by apply acceptable_with).
  apply quietly_bind; [by apply keeps_patch|]. intros [err|]; by apply keeps_ret.
Qed.
Lemma keeps_reportHibernated vc ready : acceptable vc → reports (reportHibernated vc ready).
Proof.
  intros Hv. unfold reportHibernated. cbv zeta. set (st := set_Status_ObservedGeneration _ _).
  destruct (rules_progress vc st PhaseHibernated Hv) as [Hs _]; [done|unfold st; by destruct (Status vc)..|].
  assert (Status_ObservedGeneration st = vcGeneration vc) as Hg by (unfold st; by destruct (Status vc)).
  eapply keeps_bind; [apply keeps_stamp; [done|split_and!; [done|done|apply (acc_generation _ Hv)]]|]. intros st1 [Hs1 Hg1].
  eapply keeps_bind; [apply keeps_ready; [done|done|]; rewrite Hg1, Hg; apply (acc_generation _ Hv)|]. intros st2 [Hs2 _]. by apply keeps_write.
Qed.
#[local] Hint Resolve keeps_replicationPass keeps_sentinelStatus keeps_sentinelUpdating keeps_reportHibernated : keep.
Lemma keeps_hibernated vc : acceptable vc → reports (reconcileHibernated vc).
Proof. intros Hv. unfold reconcileHibernated. keep. Qed.
Lemma keeps_deletion vc : acceptable vc → reports (handleDeletion vc).
Proof.
  intros Hv. unfold handleDeletion. destruct (negb _); [by apply keeps_ret|]. apply quietly_bind; [quiet|]. intros []. cbv zeta.
  assert (acceptable (RemoveFinalizer vc finalizerName)) as Hr by (destruct Hv; by split).
  eapply keeps_bind; [apply keeps_update|]. intros [err|vc'] Ha; by apply keeps_ret.
Qed.

(** ** The workload, then the pass *)
Section loop.
Context (L : Libs).
Lemma keeps_must what vc p k : acceptable vc → quietly p → reports k → reports (must what vc p k).
Proof. intros Hv Hp Hk. unfold must. apply quietly_bind; [done|]. intros [err|]; [by apply keeps_ret|done]. Qed.
Lemma keeps_mustGet {A} what vc (p : prog (GoErr + A)) k : acceptable vc → quietly p → (∀ x, reports (k x)) → reports (mustGet what vc p k).
Proof. intros Hv Hp Hk. unfold mustGet. apply quietly_bind; [done|]. intros [err|x]; [by apply keeps_ret|done]. Qed.
Ltac walk :=
  repeat first
    [ apply keeps_must; [done|solve [quiet]|]
    | apply keeps_mustGet; [done|solve [quiet]|intros ?]
    | progress cbv zeta | keep_step | solve [eauto 3 with keep] ].
Lemma keeps_replication vc : acceptable vc → reports (reconcileReplication L vc).
Proof. intros Hv. unfold reconcileReplication, replicationWorkload. walk. Qed.
Lemma keeps_sentinelPass vc s pw sts ssts hold : acceptable vc → reports (sentinelPass L vc s pw sts ssts hold).
Proof. intros Hv. unfold sentinelPass. keep. Qed.
#[local] Hint Resolve keeps_sentinelPass : keep.
Lemma keeps_sentinel vc : acceptable vc → reports (reconcileSentinel L vc).
Proof. intros Hv. unfold reconcileSentinel, sentinelWorkload. walk. Qed.
Lemma keeps_clusterThenPass vc pw ready : acceptable vc → reports (clusterThenPass L vc pw ready).
Proof. intros Hv. unfold clusterThenPass. keep. Qed.
#[local] Hint Resolve keeps_clusterThenPass : keep.
Lemma keeps_cluster vc : acceptable vc → reports (reconcileCluster L vc).
Proof. intros Hv. unfold reconcileCluster, ensureClusterWorkload, clusterWorkload. walk. Qed.
#[local] Hint Resolve keeps_hibernated keeps_replication keeps_sentinel keeps_cluster : keep.
Lemma keeps_dispatch vc : acceptable vc → reports (dispatch L vc).
Proof. intros Hv. unfold dispatch. keep. Qed.
#[local] Hint Resolve keeps_dispatch : keep.
Lemma keeps_observe vc : acceptable vc → reports (observeThenDispatch L vc).
Proof. intros Hv. unfold observeThenDispatch. keep. Qed.
#[local] Hint Resolve keeps_observe : keep.
Lemma keeps_reload vc : acceptable vc → reports (reloadThenRest L vc).
Proof. intros Hv. unfold reloadThenRest. keep. Qed.
#[local] Hint Resolve keeps_reload : keep.
Lemma acceptable_Default vc : acceptable vc → acceptable (Default vc).
Proof.
  intros Hv. unfold Default, defaultStorage, defaultReplicas, defaultPullPolicy, defaultImageField, defaultProfile, defaultTopology.
  assert (∀ v f, acceptable v → acceptable (with_spec v f)) as Hw by (intros v f []; by split). repeat case_match; auto 8.
Qed.
Lemma keeps_manage vc : acceptable vc → reports (manage L vc).
Proof. intros Hv%acceptable_Default. unfold manage. keep. Qed.
Lemma keeps_body ns name : quietly (reconcileBody L ns name).
Proof.
  assert (∀ vc, acceptable vc → quietly (o ← manage L vc; mret (out_Requeue o, out_err o))) as Hm.
  { intros vc Hv. eapply keeps_bind; [by apply keeps_manage|]. intros o _. by apply keeps_ret. }
  unfold reconcileBody. cbv zeta. eapply keeps_bind; [apply keeps_get|]. intros [err|vc] Ha; [by apply keeps_ret|].
  destruct (Meta_Deleting _); [eapply keeps_bind; [by apply keeps_deletion|]; intros o _; by apply keeps_ret|].
  destruct (ContainsFinalizer _ _); [by apply Hm|]. eapply keeps_bind; [apply keeps_update|].
  intros [err|vc'] Hu; [by apply keeps_ret|by apply Hm].
Qed.
End loop.

(** ** The ACL controller *)
Lemma keeps_stampAvailable acl status reason msg : acceptableACL acl → oneOf ["True"; "False"; "Unknown"] status = true → reasonRule reason = true →
  keeps (stampAvailable acl status reason msg) (λ acl', conditionsRule (ACL_Conditions (ACL_Status acl'))).
Proof.
  intros [Hc Hg] Hs Hr. unfold stampAvailable. apply quietly_bind; [quiet|]. intros now. apply keeps_ret. cbn.
  apply set_rules; [done|]. unfold conditionRule. cbn [cond_Status cond_Reason cond_ObservedGeneration].
  by rewrite Hs, Hr, (proj2 (Z.leb_le _ _) Hg).
Qed.
Lemma keeps_patchACL base new : conditionsRule (ACL_Conditions (ACL_Status new)) → quietly (perform (OPatchACL base new)).
Proof. intros Hn. by apply (keeps_op (OPatchACL base new)). Qed.
Lemma keeps_mark acl reason msg : acceptableACL acl → reasonRule reason = true → quietly (markUnavailable acl reason msg).
Proof.
  intros Ha Hr. unfold markUnavailable. eapply keeps_bind; [by apply keeps_stampAvailable|]. intros acl' Hc.
  apply quietly_bind; [by apply keeps_patchACL|]. intros e. by apply keeps_ret.
Qed.
Lemma keeps_markAndRetry acl reason msg : acceptableACL acl → reasonRule reason = true → quietly (markAndRetry acl reason msg).
Proof. intros Ha Hr. unfold markAndRetry. apply quietly_bind; [by apply keeps_mark|]. intros r. by apply keeps_ret. Qed.
Lemma keeps_applyTo acl vc pw targets : acceptableACL acl → quietly (applyTo acl vc pw targets).
Proof.
  intros Ha. unfold applyTo. apply quietly_bind; [quiet|]. intros [names pws]. apply quietly_bind; [quiet|]. intros reached.
  destruct (reached == 0%Z); [by apply keeps_markAndRetry|]. cbv zeta. eapply keeps_bind.
  { apply keeps_stampAvailable; [destruct Ha; by split|done|done]. }
  intros acl' Hc. apply quietly_bind; [by apply keeps_patchACL|]. intros e. by apply keeps_ret.
Qed.
Definition goodACL (r : KubeErr + ValkeyACL) : Prop := match r with inr acl => acceptableACL acl | inl _ => True end.
Lemma keeps_getACL ns name : keeps (perform (OGetACL ns name)) goodACL.
Proof.
  apply (keeps_op (OGetACL ns name) goodACL); [done|].
  refine (λ x, match x as y return served (Ev (OGetACL ns name) y) → goodACL y with inl _ => λ _, I | inr _ => λ H, H end).
Qed.
Lemma keeps_acl ns name : quietly (Acl.Reconcile ns name).
Proof.
  assert (quietly (reconcileACL ns name)) as Hb; [|unfold Acl.Reconcile; apply quietly_bind; [done|]; intros r; quiet].
  unfold reconcileACL. eapply keeps_bind; [apply keeps_getACL|]. intros [err|acl] Ha; [by apply keeps_ret|]. cbv zeta.
  apply quietly_bind; [quiet|]. intros [err|vc]; [destruct (IsNotFound err); [by apply keeps_mark|by apply keeps_ret]|].
  destruct (aclNotReady vc); [by apply keeps_markAndRetry|]. apply quietly_bind; [quiet|]. intros [err|pw]; [by apply keeps_ret|].
  cbv zeta. destruct (_ == _); [by apply keeps_markAndRetry|by apply keeps_applyTo].
Qed.
Lemma keeps_Reconcile L ns name : quietly (Reconcile L ns name).
Proof. unfold Reconcile. apply quietly_bind; [apply keeps_body|]. intros r. quiet. Qed.
End conditions.

(** C24: whatever the answers of the API server and of the pods, a run of either controller's [Reconcile] on
    an API server that only holds statuses it has accepted asks it for no status the CRD refuses: the
    phase of every write is one of the enumeration, the health of every shard too, no two shards share
    an index, and every condition has one of the three statuses, a reason of the prescribed form and no
    negative generation. *)
Theorem status_writes_accepted `{ConditionLib} (L : Libs) ns name tr r :
  exec (Reconcile L ns name) tr r ∨ exec (Acl.Reconcile ns name) tr r → Forall served tr → Forall accepted tr.
Proof. intros [Hx|Hx] Hs; [apply (keeps_Reconcile L ns name _ _ Hx Hs)|apply (keeps_acl ns name _ _ Hx Hs)]. Qed.

Lemma zeroStatus_rules : statusRules zeroStatus.
Proof. split; [done|constructor|constructor|done]. Qed.
Lemma sleepy_acceptable : acceptable (demoCluster true [finalizerName]).
Proof. split; [exact zeroStatus_rules|done]. Qed.
(** An API server that serves acceptable objects only does so along every run. *)
Lemma served_trace {W A} (h : ∀ op : Op, W → ans op * W) (p : prog A) : (∀ op w, served (Ev op (h op w).1)) → ∀ w, Forall served (trace h p w).
Proof.
  intros Hh. induction p as [a|op k IH]; intros w; cbn; [constructor|]. specialize (Hh op w). destruct (h op w) as [x w']. constructor; [exact Hh|apply IH].
Qed.
Lemma sleep_served op w : served (Ev op (sleepAPI op w).1).
Proof. destruct op; try exact I. exact sleepy_acceptable. Qed.
Lemma status_writes_accepted_witness :
  let tr := trace sleepAPI (demoReconcile "ns" "demo") tt in
  Forall accepted tr ∧ Exists (λ e, match ev_op e with OPatchStatus _ new => Status_Phase (Status new) = PhaseHibernated | _ => False end) tr.
Proof.
  intros tr. split.
  - apply (status_writes_accepted demoLibs "ns" "demo" _ _ (or_introl (run_exec sleepAPI (demoReconcile "ns" "demo") tt))), served_trace. exact sleep_served.
  - vm_compute. repeat first [apply Exists_cons_hd; reflexivity|apply Exists_cons_tl].
Defined.
