(* ===== verification/Manager.v ===== *)
(** * Manager: the operator's entry point (cmd/main.go) and the wiring of its controllers

    [main] reads flags and environment, builds the manager's options, registers controllers, webhooks
    and health checks, and starts the manager; anything that fails ends the process with code 1.  The
    manager itself is controller-runtime: a step of the setup is recorded with its arguments and
    succeeds or not as a parameter says.  Left out: parsing the flags, logging. *)

From S2P Require Import Prelude GoStd Kube Api Effects Naming Workload Controller.

(** ** Flags and environment *)
Record Flags := {
  fl_metricsAddr : string;
  fl_metricsCertPath : string; fl_metricsCertName : string; fl_metricsCertKey : string;
  fl_webhookCertPath : string; fl_webhookCertName : string; fl_webhookCertKey : string;
  fl_enableLeaderElection : bool;
  fl_probeAddr : string;
  fl_secureMetrics : bool;
  fl_enableHTTP2 : bool;
  fl_maxConcurrentReconciles : Z
}.
Definition defaultFlags : Flags := {|
  fl_metricsAddr := "0";
  fl_metricsCertPath := ""; fl_metricsCertName := "tls.crt"; fl_metricsCertKey := "tls.key";
  fl_webhookCertPath := ""; fl_webhookCertName := "tls.crt"; fl_webhookCertKey := "tls.key";
  fl_enableLeaderElection := false; fl_probeAddr := ":8081"; fl_secureMetrics := true; fl_enableHTTP2 := false;
  fl_maxConcurrentReconciles := 1 |}.
Record Environ := { env_WATCH_NAMESPACE : string; env_ENABLE_WEBHOOKS : string }.

(** The namespaces of the manager's cache; [None] is all of them. *)
Definition watchNamespaces (raw : string) : option (gset string) :=
  let out := foldl (λ out ns, let ns := trim_space ns in if ns != "" then {[ns]} ∪ out else out) ∅ (split_byte ","%char raw) in
  if bool_decide (size out = 0) then None else Some out.

(** ** Servers *)
Record TLSConfig := { NextProtos : list string; tls_Rest : Opaque }.
Definition disableHTTP2 (c : TLSConfig) : TLSConfig := {| NextProtos := ["http/1.1"]; tls_Rest := tls_Rest c |}.
Definition tlsOpts (f : Flags) : list (TLSConfig → TLSConfig) := if negb (fl_enableHTTP2 f) then [disableHTTP2] else [].
Record WebhookOptions := { wo_TLSOpts : list (TLSConfig → TLSConfig); wo_CertDir : string; wo_CertName : string; wo_KeyName : string }.
Definition webhookServerOptions (f : Flags) : WebhookOptions :=
  if 0 <? String.length (fl_webhookCertPath f) then
    {| wo_TLSOpts := tlsOpts f; wo_CertDir := fl_webhookCertPath f; wo_CertName := fl_webhookCertName f; wo_KeyName := fl_webhookCertKey f |}
  else {| wo_TLSOpts := tlsOpts f; wo_CertDir := ""; wo_CertName := ""; wo_KeyName := "" |}.
Record MetricsOptions := {
  me_BindAddress : string; me_SecureServing : bool; me_TLSOpts : list (TLSConfig → TLSConfig);
  me_AuthFilter : bool;                        (* filters.WithAuthenticationAndAuthorization *)
  me_CertDir : string; me_CertName : string; me_KeyName : string
}.
Definition metricsServerOptions (f : Flags) : MetricsOptions :=
  let certs := 0 <? String.length (fl_metricsCertPath f) in {|
  me_BindAddress := fl_metricsAddr f; me_SecureServing := fl_secureMetrics f; me_TLSOpts := tlsOpts f;
  me_AuthFilter := fl_secureMetrics f;
  me_CertDir := if certs then fl_metricsCertPath f else ""; me_CertName := if certs then fl_metricsCertName f else "";
  me_KeyName := if certs then fl_metricsCertKey f else "" |}.

Record ManagerOptions := {
  mo_Metrics : MetricsOptions; mo_WebhookServer : WebhookOptions; mo_HealthProbeBindAddress : string;
  mo_DefaultNamespaces : option (gset string);
  mo_PodSelector : gmap string string;         (* the labels a pod needs to be cached *)
  mo_LeaderElection : bool; mo_LeaderElectionID : string
}.
Definition managerOptions (f : Flags) (e : Environ) : ManagerOptions := {|
  mo_Metrics := metricsServerOptions f; mo_WebhookServer := webhookServerOptions f; mo_HealthProbeBindAddress := fl_probeAddr f;
  mo_DefaultNamespaces := watchNamespaces (env_WATCH_NAMESPACE e);
  mo_PodSelector := {["app.kubernetes.io/managed-by" := "valkey-operator"]};
  mo_LeaderElection := fl_enableLeaderElection f; mo_LeaderElectionID := "1e0a58e3.wellcake.io" |}.

(** ** The controllers' wiring ([SetupWithManager]) *)
Record Wiring := {
  w_Name : string; w_For : string;
  w_Owns : list (string * bool);               (* the kind, and whether every owner counts *)
  w_Watches : list string; w_Concurrency : Z
}.
Definition SetupWithManager (maxConcurrentReconciles : Z) : Wiring := {|
  w_Name := "valkeycluster"; w_For := "ValkeyCluster";
  w_Owns := [("StatefulSet", false); ("Service", false); ("ConfigMap", false); ("Secret", true); ("PodDisruptionBudget", false);
             ("NetworkPolicy", false); ("Job", false); ("CronJob", false)];
  w_Watches := ["Pod"; "Secret"]; w_Concurrency := Z.max 1 maxConcurrentReconciles |}.
(** valkeyacl_controller.go; controller-runtime's default is one worker. *)
Definition aclSetupWithManager : Wiring := {|
  w_Name := "valkeyacl"; w_For := "ValkeyACL"; w_Owns := []; w_Watches := []; w_Concurrency := 1 |}.

(** ** main *)
Inductive Setup :=
  | SNewManager (o : ManagerOptions)
  | SController (w : Wiring)
  | SWebhook (kind : string)
  | SHealthzCheck (name : string)
  | SReadyzCheck (name : string)
  | SStart.
Definition mainSteps (f : Flags) (e : Environ) : list Setup :=
  [SNewManager (managerOptions f e); SController (SetupWithManager (fl_maxConcurrentReconciles f)); SController aclSetupWithManager] ++
  (if env_ENABLE_WEBHOOKS e != "false" then [SWebhook "ValkeyCluster"] else []) ++
  (if env_ENABLE_WEBHOOKS e != "false" then [SWebhook "ValkeyACL"] else []) ++
  [SHealthzCheck "healthz"; SReadyzCheck "readyz"; SStart].
(** The steps taken and the exit code, [fails] saying which steps return an error. *)
Fixpoint runSteps (fails : Setup → bool) (steps : list Setup) : list Setup * Z :=
  match steps with
  | [] => ([], 0%Z)
  | s :: steps' => if fails s then ([s], 1%Z) else let '(taken, code) := runSteps fails steps' in (s :: taken, code)
  end.
Definition main (f : Flags) (e : Environ) (fails : Setup → bool) : list Setup * Z := runSteps fails (mainSteps f e).

(** ** Properties *)

Lemma watch_fold l out : foldl (λ out ns, let ns := trim_space ns in if ns != "" then {[ns]} ∪ out else out) out l =
  (list_to_set (filter (λ ns, ns ≠ "") (trim_space <$> l)) ∪ out : gset string).
Proof.
  revert out; induction l as [|x l IH]; intros out; [cbn; set_solver|]. cbn [foldl fmap list_fmap]. rewrite IH. cbv zeta.
  destruct (decide (trim_space x = "")) as [E|E].
  - rewrite bool_decide_true by done. rewrite filter_cons_False by (intros H; exact (H E)). done.
  - rewrite bool_decide_false by done. rewrite filter_cons_True by done. cbn [negb list_to_set]. set_solver.
Qed.
(** WATCH_NAMESPACE scopes the operator as documented: the cache covers exactly the names between the
    commas, without the blanks around them, and all namespaces when there is none. *)
Theorem watchNamespaces_spec raw :
  match watchNamespaces raw with
  | None => ∀ piece, piece ∈ split_byte "," raw → trim_space piece = ""
  | Some s => ∀ ns, ns ∈ s ↔ ns ≠ "" ∧ ∃ piece, piece ∈ split_byte "," raw ∧ trim_space piece = ns
  end.
Proof.
  unfold watchNamespaces. cbv zeta. rewrite watch_fold, (right_id_L ∅ (∪)). case_bool_decide as Hs.
  - apply size_empty_inv in Hs. intros piece Hp. destruct (decide (trim_space piece = "")) as [|Hne]; [done|].
    exfalso. apply (not_elem_of_empty (C := gset string) (trim_space piece)). rewrite <- Hs. apply elem_of_list_to_set, list_elem_of_filter.
    split; [done|]. by apply list_elem_of_fmap_2.
  - intros ns. rewrite elem_of_list_to_set, list_elem_of_filter, list_elem_of_fmap. naive_solver.
Qed.
Example watch_two : watchNamespaces " ns-a , , ns-b ," = Some {["ns-a"; "ns-b"]}.
Proof. vm_compute. reflexivity. Qed.

(** The labels by which a pod is cached and routed. *)
Definition ownLabels (vc : ValkeyCluster) : gmap string string := {[managedByLabel := operatorName; instanceLabel := vcName vc]}.
Lemma ownLabels_subseteq vc (l : gmap string string) : ownLabels vc ⊆ l ↔ l !! managedByLabel = Some operatorName ∧ l !! instanceLabel = Some (vcName vc).
Proof.
  split.
  - intros H. split; (eapply lookup_weaken; [|exact H]); unfold ownLabels; by simplify_map_eq.
  - intros [H1 H2]. unfold ownLabels. apply insert_subseteq_l; [done|]. by apply map_singleton_subseteq_l.
Qed.
Lemma ownLabels_wake f e vc (l : gmap string string) : vcName vc ≠ "" → ownLabels vc ⊆ l →
  mo_PodSelector (managerOptions f e) ⊆ l ∧ mapPodToCluster (vcNamespace vc) l = [requestFor vc].
Proof.
  intros Hn Hl.
  apply ownLabels_subseteq in Hl as [H1 H2].
  split; [by apply map_singleton_subseteq_l|]. unfold mapPodToCluster, map_get. rewrite H1, H2. cbn [default].
  rewrite (bool_decide_true (operatorName = operatorName)), bool_decide_false by done. done.
Qed.
Lemma ownLabels_podLabels vc sts i l : pt_Labels (sts_Template sts) = podLabelsFor vc l → ownLabels vc ⊆ l → ownLabels vc ⊆ podLabels sts i.
Proof.
  intros E Hl. unfold podLabels. rewrite E. apply labels_subset_pod; [|unfold ownLabels; by simplify_map_eq].
  etrans; [exact Hl|apply podLabelsFor_contains].
Qed.
Lemma ownLabels_labelsFor vc : ownLabels vc ⊆ labelsFor vc.
Proof. apply ownLabels_subseteq. unfold labelsFor. by simplify_map_eq. Qed.


(** HTTP/2 is off on both servers unless asked for, whatever the rest of their TLS configuration. *)
Theorem http2_off f c : fl_enableHTTP2 f = false →
  NextProtos (foldl (λ c o, o c) c (wo_TLSOpts (webhookServerOptions f))) = ["http/1.1"] ∧
  NextProtos (foldl (λ c o, o c) c (me_TLSOpts (metricsServerOptions f))) = ["http/1.1"].
Proof. intros H. unfold webhookServerOptions, metricsServerOptions, tlsOpts. rewrite H. by case_match. Qed.

(** A run of steps of which only the last starts the manager. *)
Lemma runSteps_start fails pre : SStart ∉ pre →
  let '(taken, code) := runSteps fails (pre ++ [SStart]) in
  (code = 0%Z ∨ code = 1%Z) ∧ (SStart ∈ taken → taken = pre ++ [SStart] ∧ ∀ s, s ∈ taken → s ≠ SStart → fails s = false) ∧
  (code = 0%Z ↔ ∀ s, s ∈ pre ++ [SStart] → fails s = false).
Proof.
  induction pre as [|x pre IH]; intros Hp.
  - cbn. destruct (fails SStart) eqn:E; (split_and!; [by auto| |]); [set_solver| |set_solver|].
    + split; [done|]. intros H. rewrite H in E by left. done.
    + split; [|done]. intros _ s. rewrite list_elem_of_singleton. by intros ->.
  - cbn [app runSteps]. destruct (fails x) eqn:E.
    + split_and!; [by right|set_solver|]. split; [done|]. intros H. rewrite H in E by left. done.
    + specialize (IH ltac:(set_solver)). destruct (runSteps fails (pre ++ [SStart])) as [taken code]. destruct IH as (H1 & H2 & H3).
      split_and!; [done| |rewrite H3; setoid_rewrite elem_of_cons; naive_solver]. intros Hin.
      apply elem_of_cons in Hin as [Hx|Hin]; [exfalso; apply Hp; rewrite <- Hx; left|].
      destruct (H2 Hin) as [-> Hf]. split; [done|]. intros s. rewrite elem_of_cons. naive_solver.
Qed.
Lemma mainSteps_last f e : ∃ pre, mainSteps f e = pre ++ [SStart] ∧ (SStart ∉ pre) ∧ (env_ENABLE_WEBHOOKS e ≠ "false" ↔ SWebhook "ValkeyCluster" ∈ pre).
Proof.
  unfold mainSteps. exists ([SNewManager (managerOptions f e); SController (SetupWithManager (fl_maxConcurrentReconciles f)); SController aclSetupWithManager] ++
    (if env_ENABLE_WEBHOOKS e != "false" then [SWebhook "ValkeyCluster"] else []) ++ (if env_ENABLE_WEBHOOKS e != "false" then [SWebhook "ValkeyACL"] else []) ++
    [SHealthzCheck "healthz"; SReadyzCheck "readyz"]). rewrite <- !app_assoc. split; [done|].
  case_bool_decide; cbn [negb app]; (split; [intros Hs; repeat (apply elem_of_cons in Hs as [Hs|Hs]; [discriminate|]); by apply elem_of_nil in Hs|]); split; try done.
  - intros H'. repeat (apply elem_of_cons in H' as [H'|H']; [discriminate|]). by apply elem_of_nil in H'.
  - intros _. do 3 right. left.
Qed.
(** The manager starts only when everything before has been set up, the webhooks among it unless they
    are disabled; the process ends with 0 only when the manager has run to its end. *)
Theorem main_starts_last f e fails :
  let '(taken, code) := main f e fails in
  (code = 0%Z ∨ code = 1%Z) ∧
  (SStart ∈ taken → taken = mainSteps f e ∧ ∀ s, s ∈ taken → s ≠ SStart → fails s = false) ∧
  (code = 0%Z ↔ ∀ s, s ∈ mainSteps f e → fails s = false) ∧
  (env_ENABLE_WEBHOOKS e ≠ "false" ↔ SWebhook "ValkeyCluster" ∈ mainSteps f e).
Proof.
  unfold main. destruct (mainSteps_last f e) as (pre & -> & Hp & Hw). pose proof (runSteps_start fails pre Hp) as H.
  destruct (runSteps fails (pre ++ [SStart])) as [taken code]. destruct H as (H1 & H2 & H3). split_and!; try done. set_solver.
Qed.
