(* ===== verification/TimeFormat.v ===== *)
(** * TimeFormat: [time.Format(time.RFC3339Nano)] in UTC

    A time is its nanoseconds since the epoch.  The calendar date comes from the number of days by
    the usual arithmetic of 400-year eras starting on the first of March; the text is the date, the
    time of day and the fraction of a second without its trailing zeros.  Two different instants
    have different texts ([rfc3339Nano_inj]), which is what makes a text usable as a request token. *)

From S2P Require Import Prelude GoStd.

(** ** Zero-padded numbers *)

(** The last [w] decimal digits. *)
Definition digitByte (n : Z) : byte := Ascii.ascii_of_nat (48 + Z.to_nat (n mod 10)).
Fixpoint digits (w : nat) (n : Z) : string :=
  match w with 0 => "" | S w' => digits w' (n / 10) +:+ String (digitByte n) "" end.
(** [appendInt(b, x, width)]: at least [w] digits. *)
Definition appendNat (w : nat) (n : Z) : string := if (n <? 10 ^ Z.of_nat w)%Z then digits w n else Itoa n.
Definition appendInt (w : nat) (n : Z) : string := if (n <? 0)%Z then "-" +:+ appendNat w (- n) else appendNat w n.

(** ** The calendar *)
Record Date := { Year : Z; Month : Z; Day : Z }.
(** Within an era of 146097 days (four centuries, a leap day at the end of the last): the year, from
    March, and the day of that year. *)
Definition yearOfEra (doe : Z) : Z :=
  (let c := Z.min 3 (doe / 36524) in let doc := doe - 36524 * c in
   let q := doc / 1461 in 100 * c + 4 * q + Z.min 3 ((doc - 1461 * q) / 365))%Z.
Definition dayOfYear (doe : Z) : Z := (let y := yearOfEra doe in doe - (365 * y + y / 4 - y / 100))%Z.
Definition marchMonth (doy : Z) : Z := ((5 * doy + 2) / 153)%Z.
Definition civilDate (days : Z) : Date :=
  let z := (days + 719468)%Z in
  let doe := (z mod 146097)%Z in
  let mp := marchMonth (dayOfYear doe) in
  let m := if (mp <? 10)%Z then (mp + 3)%Z else (mp - 9)%Z in
  {| Year := yearOfEra doe + 400 * (z / 146097) + (if (m <=? 2)%Z then 1 else 0); Month := m;
     Day := dayOfYear doe - (153 * mp + 2) / 5 + 1 |}.
(** And back: the days before a date. *)
Definition daysOfDate (d : Date) : Z :=
  let y := (if (Month d <=? 2)%Z then Year d - 1 else Year d)%Z in
  let mp := (if (2 <? Month d)%Z then Month d - 3 else Month d + 9)%Z in
  let yoe := (y mod 400)%Z in
  let doy := ((153 * mp + 2) / 5 + Day d - 1)%Z in
  ((y / 400) * 146097 + (yoe * 365 + yoe / 4 - yoe / 100 + doy) - 719468)%Z.

(** ** The text *)

(** [appendNano] with trailing nines in the layout: the fraction without trailing zeros. *)
Fixpoint trimZeros (s : string) : string :=
  match s with
  | "" => ""
  | String c s' => let t := trimZeros s' in if ((t == "") && (c == "048"%char))%bool then "" else String c t
  end.
Definition dotted (t : string) : string := if t == "" then "" else "." +:+ t.
Definition fraction (nanos : Z) : string := dotted (trimZeros (digits 9 nanos)).
Definition rfc3339Nano (t : Z) : string :=
  let secs := (t / 1000000000)%Z in
  let d := civilDate (secs / 86400) in
  let s := (secs mod 86400)%Z in
  appendInt 4 (Year d) +:+ "-" +:+ appendInt 2 (Month d) +:+ "-" +:+ appendInt 2 (Day d) +:+ "T" +:+
  appendInt 2 (s / 3600) +:+ ":" +:+ appendInt 2 (s / 60 mod 60) +:+ ":" +:+ appendInt 2 (s mod 60) +:+
  fraction (t mod 1000000000) +:+ "Z".

Example epoch_text : rfc3339Nano 0 = "1970-01-01T00:00:00Z".
Proof. reflexivity. Qed.
Example leap_text : rfc3339Nano 1709210096120000000 = "2024-02-29T12:34:56.12Z".
Proof. vm_compute. reflexivity. Qed.

(** ** The calendar arithmetic is a bijection *)
Fixpoint allFrom (P : Z → bool) (n : nat) (z : Z) : bool :=
  match n with 0 => true | S n' => (P z && allFrom P n' (z + 1))%bool end.
Lemma allFrom_spec P n lo : allFrom P n lo = true → ∀ z, (lo ≤ z < lo + Z.of_nat n)%Z → P z = true.
Proof.
  revert lo; induction n as [|n IH]; intros lo H z Hz; [lia|]. cbn [allFrom] in H. apply andb_true_iff in H as [H1 H2].
  destruct (decide (z = lo)) as [->|]; [done|]. apply (IH _ H2). lia.
Qed.
Ltac div_lia := Z.to_euclidean_division_equations; lia.
Lemma era_year doe : (0 ≤ doe < 146097)%Z → (0 ≤ yearOfEra doe < 400 ∧ 0 ≤ dayOfYear doe < 366)%Z.
Proof.
  intros H. unfold dayOfYear. cbv zeta. unfold yearOfEra. cbv zeta.
  set (c := Z.min 3 (doe / 36524)). assert (0 ≤ c ≤ 3 ∧ 0 ≤ doe - 36524 * c ≤ 36524)%Z as [Hc Hdoc] by (unfold c; div_lia). clearbody c.
  set (doc := (doe - 36524 * c)%Z) in *. assert (doe = doc + 36524 * c)%Z as Hdoe by lia. clearbody doc.
  set (q := (doc / 1461)%Z). assert (0 ≤ q ≤ 24 ∧ 0 ≤ doc - 1461 * q < 1461)%Z as [Hq Hdoq] by (unfold q; div_lia). clearbody q.
  set (doq := (doc - 1461 * q)%Z) in *. assert (doc = doq + 1461 * q)%Z as Hdoc' by lia. clearbody doq.
  set (yq := Z.min 3 (doq / 365)). assert (0 ≤ yq ≤ 3 ∧ 0 ≤ doq - 365 * yq < 366)%Z as [Hy Hdoy] by (unfold yq; div_lia). clearbody yq.
  replace ((100 * c + 4 * q + yq) / 4)%Z with (25 * c + q)%Z by div_lia. replace ((100 * c + 4 * q + yq) / 100)%Z with c by div_lia. lia.
Qed.
(** Every day of a year has a month and a day of the month. *)
Definition yearDayOk (doy : Z) : bool :=
  let mp := marchMonth doy in let d := (doy - (153 * mp + 2) / 5 + 1)%Z in
  ((0 <=? mp) && (mp <? 12) && (1 <=? d) && (d <=? 31))%Z%bool.
Lemma year_days doy : (0 ≤ doy < 366)%Z → yearDayOk doy = true.
Proof. intros H. apply (allFrom_spec yearDayOk 366 0); [vm_compute; reflexivity|lia]. Qed.
Lemma era_days doe : (0 ≤ doe < 146097)%Z →
  let y := yearOfEra doe in let doy := dayOfYear doe in let mp := marchMonth doy in let d := (doy - (153 * mp + 2) / 5 + 1)%Z in
  (0 ≤ y < 400 ∧ 0 ≤ mp < 12 ∧ 1 ≤ d ≤ 31 ∧ y * 365 + y / 4 - y / 100 + doy = doe)%Z.
Proof.
  intros H. cbv zeta. destruct (era_year doe H) as [Hy Hd]. pose proof (year_days _ Hd) as Hk.
  unfold yearDayOk in Hk. cbv zeta in Hk. rewrite !andb_true_iff, !Z.leb_le, !Z.ltb_lt in Hk.
  split_and!; try lia. unfold dayOfYear. cbv zeta. lia.
Qed.

Lemma civilDate_range days : let d := civilDate days in (1 ≤ Month d ≤ 12 ∧ 1 ≤ Day d ≤ 31)%Z.
Proof.
  cbv zeta. pose proof (era_days ((days + 719468) mod 146097)) as H. specialize (H ltac:(apply Z.mod_pos_bound; lia)).
  unfold civilDate. cbn [Month Day]. set (doe := ((days + 719468) mod 146097)%Z) in *. clearbody doe.
  cbv zeta in H.
  destruct (marchMonth (dayOfYear doe) <? 10)%Z eqn:E; rewrite ?Z.ltb_lt, ?Z.ltb_ge in E; lia.
Qed.
(** Adding whole eras moves the year, and the day of the era comes back. *)
Lemma daysOfDate_civil days : daysOfDate (civilDate days) = days.
Proof.
  pose proof (era_days ((days + 719468) mod 146097)) as H. specialize (H ltac:(apply Z.mod_pos_bound; lia)).
  pose proof (Z.div_mod (days + 719468) 146097 ltac:(lia)) as Hz.
  unfold daysOfDate, civilDate. cbn [Year Month Day].
  set (era := ((days + 719468) / 146097)%Z) in *. set (doe := ((days + 719468) mod 146097)%Z) in *. clearbody era doe.
  cbv zeta in H.
  set (mp := marchMonth (dayOfYear doe)) in *. set (y := yearOfEra doe) in *. set (doy := dayOfYear doe) in *. clearbody mp y doy.
  destruct (mp <? 10)%Z eqn:E; rewrite ?Z.ltb_lt, ?Z.ltb_ge in E.
  - rewrite (proj2 (Z.leb_gt (mp + 3) 2)) by lia. rewrite (proj2 (Z.ltb_lt 2 (mp + 3))) by lia.
    replace (y + 400 * era + 0)%Z with (y + era * 400)%Z by lia. rewrite Z.mod_add, Z.mod_small, Z.div_add, Z.div_small by lia.
    replace (mp + 3 - 3)%Z with mp by lia. lia.
  - rewrite (proj2 (Z.leb_le (mp - 9) 2)) by lia. rewrite (proj2 (Z.ltb_ge 2 (mp - 9))) by lia.
    replace (y + 400 * era + 1 - 1)%Z with (y + era * 400)%Z by lia. rewrite Z.mod_add, Z.mod_small, Z.div_add, Z.div_small by lia.
    replace (mp - 9 + 9)%Z with mp by lia. lia.
Qed.

(** ** Texts of equal parts *)
Lemma str_app_inj_1 s1 s2 t1 t2 : String.length s1 = String.length s2 → s1 +:+ t1 = s2 +:+ t2 → s1 = s2 ∧ t1 = t2.
Proof.
  revert s2; induction s1 as [|a s1 IH]; intros [|b s2] Hl H; try done. rewrite !str_app_cons in H. injection H as -> H.
  injection Hl as Hl. by destruct (IH _ Hl H) as [-> ->].
Qed.
Lemma str_app_inj_2 s1 s2 t1 t2 : String.length t1 = String.length t2 → s1 +:+ t1 = s2 +:+ t2 → s1 = s2 ∧ t1 = t2.
Proof.
  intros Hl H. apply str_app_inj_1; [|done]. apply (f_equal String.length) in H. rewrite !str_length_app in H. lia.
Qed.
Lemma digits_length w n : String.length (digits w n) = w.
Proof. revert n; induction w as [|w IH]; intros n; [done|]. cbn [digits]. rewrite str_length_app, IH. cbn. lia. Qed.
Lemma digitByte_inj a b : digitByte a = digitByte b → (a mod 10 = b mod 10)%Z.
Proof.
  unfold digitByte. intros H. pose proof (Z.mod_pos_bound a 10 ltac:(lia)). pose proof (Z.mod_pos_bound b 10 ltac:(lia)).
  apply (f_equal Ascii.nat_of_ascii) in H. rewrite !Ascii.nat_ascii_embedding in H by lia. lia.
Qed.
Lemma digits_inj w a b : (0 ≤ a < 10 ^ Z.of_nat w)%Z → (0 ≤ b < 10 ^ Z.of_nat w)%Z → digits w a = digits w b → a = b.
Proof.
  revert a b; induction w as [|w IH]; intros a b Ha Hb H; [cbn in *; lia|]. cbn [digits] in H.
  apply str_app_inj_1 in H as [Hd Hl]; [|by rewrite !digits_length]. injection Hl as Hl%digitByte_inj.
  rewrite Nat2Z.inj_succ, Z.pow_succ_r in Ha, Hb by lia.
  assert (a / 10 = b / 10)%Z as Hq.
  { apply IH; [..|done]; (split; [apply Z.div_pos; lia|apply Z.div_lt_upper_bound; lia]). }
  rewrite (Z.div_mod a 10), (Z.div_mod b 10) by lia. by rewrite Hq, Hl.
Qed.
Lemma appendInt_small w n : (0 ≤ n < 10 ^ Z.of_nat w)%Z → appendInt w n = digits w n.
Proof.
  intros H. unfold appendInt, appendNat. rewrite (proj2 (Z.ltb_ge n 0)) by lia. by rewrite (proj2 (Z.ltb_lt n _)) by lia.
Qed.

(** What is trimmed is zeros, so the length gives them back. *)
Fixpoint zeros (n : nat) : string := match n with 0 => "" | S n' => String "048"%char (zeros n') end.
Lemma trimZeros_pad s : ∃ n, s = trimZeros s +:+ zeros n.
Proof.
  induction s as [|c s [n IH]]; [by exists 0|]. cbn [trimZeros]. destruct (decide (trimZeros s = "")) as [E|E].
  - rewrite (bool_decide_true _ E). rewrite E in IH. cbn in IH. destruct (decide (c = "048"%char)) as [->|Hc].
    + rewrite bool_decide_true by done. exists (S n). cbn. by rewrite IH at 1.
    + rewrite (bool_decide_false _ Hc). exists n. cbn [andb]. rewrite str_app_cons, E, str_app_nil_l. by rewrite IH at 1.
  - rewrite (bool_decide_false _ E). exists n. cbn [andb]. rewrite str_app_cons. by rewrite <- IH.
Qed.
Lemma zeros_length n : String.length (zeros n) = n.
Proof. induction n as [|n IH]; [done|]. cbn. by rewrite IH. Qed.
Lemma trimZeros_inj s1 s2 : String.length s1 = String.length s2 → trimZeros s1 = trimZeros s2 → s1 = s2.
Proof.
  intros Hl Ht. destruct (trimZeros_pad s1) as [n1 H1], (trimZeros_pad s2) as [n2 H2]. rewrite H1, H2, !str_length_app, !zeros_length, Ht in Hl.
  rewrite H1, H2, Ht. do 2 f_equal. lia.
Qed.
Lemma dotted_inj x y : dotted x = dotted y → x = y.
Proof.
  unfold dotted. intros H. destruct (decide (x = "")) as [->|Hx], (decide (y = "")) as [->|Hy]; [done|..].
  - rewrite bool_decide_true, bool_decide_false in H by done. done.
  - rewrite bool_decide_false, bool_decide_true in H by done. done.
  - rewrite !bool_decide_false in H by done. by apply (str_app_inj_1 "." ".") in H as [_ H].
Qed.
Lemma trimmed_inj w a b : (0 ≤ a < 10 ^ Z.of_nat w)%Z → (0 ≤ b < 10 ^ Z.of_nat w)%Z →
  dotted (trimZeros (digits w a)) = dotted (trimZeros (digits w b)) → a = b.
Proof.
  intros Ha Hb H. apply dotted_inj, trimZeros_inj in H; [|rewrite !digits_length; reflexivity].
  exact (digits_inj w a b Ha Hb H).
Qed.
Lemma fraction_inj a b : (0 ≤ a < 1000000000)%Z → (0 ≤ b < 1000000000)%Z → fraction a = fraction b → a = b.
Proof. exact (trimmed_inj 9 a b). Qed.

(** The years the layout writes with four digits. *)
Lemma daysOfDate_lower d : (1 ≤ Month d ≤ 12 → 1 ≤ Day d → 10000 ≤ Year d → 2932897 ≤ daysOfDate d)%Z.
Proof.
  intros Hm Hd Hy. unfold daysOfDate. cbv zeta. destruct (Month d <=? 2)%Z eqn:E; rewrite ?Z.leb_le, ?Z.leb_gt in E.
  - rewrite (proj2 (Z.ltb_ge 2 (Month d))) by lia. div_lia.
  - rewrite (proj2 (Z.ltb_lt 2 (Month d))) by lia. div_lia.
Qed.
Lemma daysOfDate_upper d : (1 ≤ Month d ≤ 12 → Day d ≤ 31 → Year d < 0 → daysOfDate d < 0)%Z.
Proof.
  intros Hm Hd Hy. unfold daysOfDate. cbv zeta. destruct (Month d <=? 2)%Z eqn:E; rewrite ?Z.leb_le, ?Z.leb_gt in E.
  - rewrite (proj2 (Z.ltb_ge 2 (Month d))) by lia. div_lia.
  - rewrite (proj2 (Z.ltb_lt 2 (Month d))) by lia. div_lia.
Qed.
Lemma civilDate_year days : (0 ≤ days < 2932897 → 0 ≤ Year (civilDate days) < 10000)%Z.
Proof.
  intros H. destruct (civilDate_range days) as [Hm Hd]. pose proof (daysOfDate_civil days) as Hb.
  pose proof (daysOfDate_lower (civilDate days)). pose proof (daysOfDate_upper (civilDate days)). lia.
Qed.
Lemma Date_eta d : {| Year := Year d; Month := Month d; Day := Day d |} = d.
Proof. by destruct d. Qed.

(** The time of day from its three numbers. *)
Lemma clock_inj a b : (0 ≤ a → 0 ≤ b → a / 3600 = b / 3600 → a / 60 mod 60 = b / 60 mod 60 → a mod 60 = b mod 60 → a = b)%Z.
Proof. intros. div_lia. Qed.
(** A text that starts with digits of a known width. *)
Lemma digits_app_inj w a b s t : (0 ≤ a < 10 ^ Z.of_nat w)%Z → (0 ≤ b < 10 ^ Z.of_nat w)%Z →
  appendInt w a +:+ s = appendInt w b +:+ t → a = b ∧ s = t.
Proof.
  intros Ha Hb H. rewrite !appendInt_small in H by done. apply str_app_inj_1 in H as [H ->]; [|by rewrite !digits_length].
  split; [by apply (digits_inj w)|done].
Qed.
Lemma sep_inj c s t : String c "" +:+ s = String c "" +:+ t → s = t.
Proof. intros H. rewrite !str_app_cons, !str_app_nil_l in H. by injection H as H. Qed.

(** The token [nowToken] makes of an instant identifies it: two different instants between the epoch
    and the year 10000 have different RFC 3339 texts with nanoseconds. *)
Theorem rfc3339Nano_inj t1 t2 :
  (0 ≤ t1 < 253402300800 * 1000000000)%Z → (0 ≤ t2 < 253402300800 * 1000000000)%Z → rfc3339Nano t1 = rfc3339Nano t2 → t1 = t2.
Proof.
  intros H1 H2 H. unfold rfc3339Nano in H. cbv zeta in H.
  assert (0 ≤ t1 / 1000000000 / 86400 < 2932897)%Z as D1 by div_lia. assert (0 ≤ t2 / 1000000000 / 86400 < 2932897)%Z as D2 by div_lia.
  rewrite (Z.div_mod t1 1000000000), (Z.div_mod t2 1000000000) by lia.
  pose proof (Z.mod_pos_bound t1 1000000000 ltac:(lia)) as N1. pose proof (Z.mod_pos_bound t2 1000000000 ltac:(lia)) as N2.
  set (n1 := (t1 mod 1000000000)%Z) in *. set (n2 := (t2 mod 1000000000)%Z) in *. clearbody n1 n2.
  set (s1 := (t1 / 1000000000)%Z) in *. set (s2 := (t2 / 1000000000)%Z) in *. clearbody s1 s2. clear H1 H2 t1 t2.
  pose proof (civilDate_year _ D1) as Y1. pose proof (civilDate_year _ D2) as Y2.
  destruct (civilDate_range (s1 / 86400)) as [M1 E1], (civilDate_range (s2 / 86400)) as [M2 E2].
  pose proof (Z.mod_pos_bound s1 86400 ltac:(lia)) as R1. pose proof (Z.mod_pos_bound s2 86400 ltac:(lia)) as R2.
  set (r1 := (s1 mod 86400)%Z) in *. set (r2 := (s2 mod 86400)%Z) in *.
  assert (∀ r, (0 ≤ r < 86400 → 0 ≤ r / 3600 < 100 ∧ 0 ≤ r / 60 mod 60 < 100 ∧ 0 ≤ r mod 60 < 100)%Z) as Hclock by (intros; div_lia).
  destruct (Hclock r1 R1) as (C1 & C1' & C1''), (Hclock r2 R2) as (C2 & C2' & C2'').
  apply (digits_app_inj 4) in H as [HY H]; [|exact Y1|exact Y2]. apply sep_inj in H.
  apply (digits_app_inj 2) in H as [HM H]; [|change (10 ^ Z.of_nat 2)%Z with 100%Z; lia..]. apply sep_inj in H.
  apply (digits_app_inj 2) in H as [HD H]; [|change (10 ^ Z.of_nat 2)%Z with 100%Z; lia..]. apply sep_inj in H.
  apply (digits_app_inj 2) in H as [Hh H]; [|exact C1|exact C2]. apply sep_inj in H.
  apply (digits_app_inj 2) in H as [Hm H]; [|exact C1'|exact C2']. apply sep_inj in H.
  apply (digits_app_inj 2) in H as [Hs H]; [|exact C1''|exact C2''].
  apply str_app_inj_2 in H as [Hn _]; [|done]. apply fraction_inj in Hn; [|done..].
  assert (civilDate (s1 / 86400) = civilDate (s2 / 86400)) as Hd by (rewrite <- (Date_eta (civilDate (s1 / 86400))), HY, HM, HD; apply Date_eta).
  apply (f_equal daysOfDate) in Hd. rewrite !daysOfDate_civil in Hd.
  pose proof (clock_inj r1 r2 ltac:(lia) ltac:(lia) Hh Hm Hs) as Hr.
  rewrite (Z.div_mod s1 86400), (Z.div_mod s2 86400) by lia. fold r1 r2. by rewrite Hd, Hr, Hn.
Qed.
Lemma rfc3339Nano_inj_witness : rfc3339Nano 1709210096120000000 ≠ rfc3339Nano 1709210096120000001.
Proof. intros H. apply (rfc3339Nano_inj 1709210096120000000 1709210096120000001) in H; [discriminate|lia..]. Defined.
