(* ===== verification/Tabwriter.v ===== *)
(** * Tabwriter: text/tabwriter as the plugin uses it

    [tabwriter.NewWriter(&b, 0, 2, 2, ' ', 0)]: text is cut into cells at tabs and into lines at
    newlines; the last cell of a line belongs to no column.  A column is a block of consecutive
    lines that have a cell there, as wide as its widest cell and the padding of two.  [format] is
    the recursion of the package over columns; [renderTable] is what it amounts to for a table, a
    list of rows of the same length. *)

From S2P Require Import Prelude GoStd.

Definition padding : nat := 2.
(** [utf8.RuneCount] of valid text: the bytes that start a character. *)
Definition continuation (c : byte) : bool := let n := Ascii.nat_of_ascii c in ((128 <=? n) && (n <? 192))%nat%bool.
Fixpoint runeCount (s : string) : nat :=
  match s with "" => 0 | String c s' => (if continuation c then 0 else 1) + runeCount s' end.
Fixpoint spaces (n : nat) : string := match n with 0 => "" | S n' => String " "%char (spaces n') end.

(** A line: its cells, and what ends it. *)
Definition Line : Type := list string * string.

(** [writeLines]: the cells of the columns that have a width are padded to it. *)
Fixpoint writeCells (widths : list nat) (cells : list string) : string :=
  match cells, widths with
  | [], _ => ""
  | c :: cs, w :: ws => c +:+ spaces (w - runeCount c) +:+ writeCells ws cs
  | c :: cs, [] => c +:+ writeCells [] cs
  end.
Definition writeLine (widths : list nat) (l : Line) : string := writeCells widths l.1 +:+ l.2.
Fixpoint writeLines (widths : list nat) (ls : list Line) : string :=
  match ls with [] => "" | l :: ls' => writeLine widths l +:+ writeLines widths ls' end.

(** The line has a cell in the column that is not its last. *)
Definition inColumn (column : nat) (l : Line) : bool := column <? length l.1 - 1.
Definition cellWidth (column : nat) (l : Line) : nat := runeCount (default "" (l.1 !! column)) + padding.
Definition blockWidth (column : nat) (block : list Line) : nat := foldr (λ l w, cellWidth column l `max` w) 0 block.

(** The loop of [format] over its lines: [pending] are the lines not printed yet, [block] the lines
    of the column block being collected, which [f] formats. *)
Fixpoint blocks (f : list Line → string) (widths : list nat) (pending block ls : list Line) : string :=
  match ls with
  | [] => writeLines widths pending +:+ match block with [] => "" | _ => f block end
  | l :: ls' =>
      if inColumn (length widths) l then blocks f widths pending (block ++ [l]) ls'
      else match block with
           | [] => blocks f widths (pending ++ [l]) [] ls'
           | _ => writeLines widths pending +:+ f block +:+ blocks f widths [l] [] ls'
           end
  end.
Fixpoint format (fuel : nat) (widths : list nat) (ls : list Line) : string :=
  match fuel with
  | 0 => ""
  | S fuel' => blocks (λ block, format fuel' (widths ++ [blockWidth (length widths) block]) block) widths [] [] ls
  end.
(** The depth of the recursion is the number of columns. *)
Definition columns (ls : list Line) : nat := foldr (λ l n, length l.1 `max` n) 0 ls.
Definition formatAll (ls : list Line) : string := format (S (columns ls)) [] ls.

(** ** The writer *)
Record Writer := { tw_lines : list (list string); tw_cells : list string; tw_cell : string }.
Definition NewWriter : Writer := {| tw_lines := []; tw_cells := []; tw_cell := "" |}.
(** [Flush]: the line being written has no newline. *)
Definition Flush (w : Writer) : string :=
  let lastLine := if tw_cell w == "" then tw_cells w else tw_cells w ++ [tw_cell w] in
  formatAll (((λ cells, (cells, nl)) <$> tw_lines w) ++ [(lastLine, "")]).
(** One byte: the writer after it, and what it has printed. *)
Definition writeByte (w : Writer) (c : byte) : Writer * string :=
  let n := Ascii.nat_of_ascii c in
  if ((n =? 9) || (n =? 11))%nat%bool then        (* a tab ends the cell *)
    ({| tw_lines := tw_lines w; tw_cells := tw_cells w ++ [tw_cell w]; tw_cell := "" |}, "")
  else if ((n =? 10) || (n =? 12))%nat%bool then  (* a newline or form feed ends the line *)
    let cells := tw_cells w ++ [tw_cell w] in
    let w' := {| tw_lines := tw_lines w ++ [cells]; tw_cells := []; tw_cell := "" |} in
    (* a form feed, or a line of one cell, which no column reaches across: print what there is *)
    if ((n =? 12) || (length cells =? 1))%nat%bool then (NewWriter, Flush w') else (w', "")
  else ({| tw_lines := tw_lines w; tw_cells := tw_cells w; tw_cell := tw_cell w +:+ String c "" |}, "").
Fixpoint write (w : Writer) (s : string) : Writer * string :=
  match s with
  | "" => (w, "")
  | String c s' => let '(w1, o1) := writeByte w c in let '(w2, o2) := write w1 s' in (w2, o1 +:+ o2)
  end.
(** Write a text to a new writer and flush it. *)
Definition tabulate (s : string) : string := let '(w, o) := write NewWriter s in o +:+ Flush w.

Example tabulate_ragged : tabulate ("a" +:+ tab +:+ "bbb" +:+ tab +:+ "c" +:+ nl +:+ "aaa" +:+ tab +:+ "b" +:+ nl +:+ "x" +:+ nl +:+ "y" +:+ tab +:+ "z" +:+ nl)
  = "a    bbb  c" +:+ nl +:+ "aaa  b" +:+ nl +:+ "x" +:+ nl +:+ "y  z" +:+ nl.
Proof. vm_compute. reflexivity. Qed.

(** ** Tables *)

(** A row as it is written, and the text of a whole table. *)
Definition rowText (cells : list string) : string := join tab cells +:+ nl.
Fixpoint tableText (rows : list (list string)) : string :=
  match rows with [] => "" | r :: rows' => rowText r +:+ tableText rows' end.
(** What comes out: the widths of all columns but the last, every row padded to them. *)
Definition columnWidths (n : nat) (rows : list (list string)) : list nat :=
  (λ j, foldr (λ r w, (runeCount (default "" (r !! j)) + padding) `max` w) 0 rows) <$> seq 0 (n - 1).
Fixpoint renderRows (widths : list nat) (rows : list (list string)) : string :=
  match rows with [] => "" | r :: rows' => writeCells widths r +:+ nl +:+ renderRows widths rows' end.
Definition renderTable (n : nat) (rows : list (list string)) : string := renderRows (columnWidths n rows) rows.

(** Text without the bytes the writer treats specially. *)
Definition plain (s : string) : bool := str_forall (λ c, let n := Ascii.nat_of_ascii c in negb ((9 <=? n) && (n <=? 12))%nat%bool) s.

Lemma write_app w s t : write w (s +:+ t) = let '(w1, o1) := write w s in let '(w2, o2) := write w1 t in (w2, o1 +:+ o2).
Proof.
  revert w; induction s as [|c s IH]; intros w; [rewrite str_app_nil_l; cbn [write]; by destruct (write w t)|].
  rewrite str_app_cons. cbn [write]. destruct (writeByte w c) as [w1 o1]. rewrite IH. destruct (write w1 s) as [w2 o2].
  destruct (write w2 t) as [w3 o3]. by rewrite str_app_assoc.
Qed.
Lemma write_plain L cs p s : plain s = true →
  write {| tw_lines := L; tw_cells := cs; tw_cell := p |} s = ({| tw_lines := L; tw_cells := cs; tw_cell := p +:+ s |}, "").
Proof.
  revert p; induction s as [|c s IH]; intros p H; [by rewrite str_app_nil_r|]. cbn [plain str_forall] in H.
  apply andb_true_iff in H as [Hc H]. cbn [write]. unfold writeByte. cbv zeta in Hc |- *.
  rewrite negb_true_iff, andb_false_iff, !Nat.leb_gt in Hc.
  rewrite (proj2 (orb_false_iff _ _)) by (rewrite !Nat.eqb_neq; lia).
  rewrite (proj2 (orb_false_iff _ _)) by (rewrite !Nat.eqb_neq; lia).
  cbn [tw_lines tw_cells tw_cell]. rewrite IH by done. by rewrite <- str_app_assoc, str_app_cons, str_app_nil_l.
Qed.
(** Writing a row of more than one cell adds a line and prints nothing. *)
Lemma write_row L pre cells : cells ≠ [] → length (pre ++ cells) ≠ 1 → Forall (λ c, plain c = true) cells →
  write {| tw_lines := L; tw_cells := pre; tw_cell := "" |} (rowText cells) =
  ({| tw_lines := L ++ [pre ++ cells]; tw_cells := []; tw_cell := "" |}, "").
Proof.
  revert pre; induction cells as [|c cells IH]; intros pre Hne Hl Hp; [done|]. apply Forall_cons in Hp as [Hc Hcs]. unfold rowText in *.
  destruct cells as [|c' cells].
  - cbn [join]. rewrite write_app, write_plain by done. cbn [write nl]. unfold writeByte. cbn [tw_lines tw_cells tw_cell Nat.eqb orb].
    rewrite str_app_nil_l. change (Ascii.nat_of_ascii "010"%char) with 10. cbn [Nat.eqb orb].
    by rewrite (proj2 (Nat.eqb_neq _ _)) by done.
  - change (join tab (c :: c' :: cells)) with (c +:+ tab +:+ join tab (c' :: cells)).
    rewrite <- !str_app_assoc, write_app, write_plain by done. rewrite write_app. cbn [write tab]. unfold writeByte at 1.
    change (Ascii.nat_of_ascii "009"%char) with 9. cbn [Nat.eqb orb tw_lines tw_cells tw_cell]. rewrite str_app_nil_l.
    rewrite IH; [by rewrite <- app_assoc|done| |done]. rewrite <- app_assoc. exact Hl.
Qed.
Definition rectangular (n : nat) (rows : list (list string)) : Prop :=
  Forall (λ r, length r = n ∧ Forall (λ c, plain c = true) r) rows.
Lemma write_table n rows L : 1 < n → rectangular n rows →
  write {| tw_lines := L; tw_cells := []; tw_cell := "" |} (tableText rows) =
  ({| tw_lines := L ++ rows; tw_cells := []; tw_cell := "" |}, "").
Proof.
  intros Hn H. revert L; induction H as [|r rows [Hl Hp] _ IH]; intros L; cbn [tableText write]; [by rewrite app_nil_r|].
  rewrite write_app, write_row; [|by intros ->; cbn in Hl; lia|cbn; lia|done]. rewrite app_nil_l, IH. by rewrite <- app_assoc.
Qed.

(** Formatting a block all of whose lines have the column. *)
Lemma blocks_all f widths pending block ls rest : Forall (λ l, inColumn (length widths) l = true) ls →
  blocks f widths pending block (ls ++ rest) = blocks f widths pending (block ++ ls) rest.
Proof.
  intros H. revert block; induction H as [|l ls Hl _ IH]; intros block; [by rewrite app_nil_r|].
  cbn [app blocks]. rewrite Hl, IH. by rewrite <- app_assoc.
Qed.
Lemma blocks_none f widths pending ls : Forall (λ l, inColumn (length widths) l = false) ls →
  blocks f widths pending [] ls = writeLines widths (pending ++ ls).
Proof.
  intros H. revert pending; induction H as [|l ls Hl _ IH]; intros pending; cbn [blocks]; [by rewrite app_nil_r, str_app_nil_r|].
  rewrite Hl, IH. by rewrite <- app_assoc.
Qed.
Definition ownWidths (lo n : nat) (ls : list Line) : list nat := (λ j, blockWidth j ls) <$> seq lo (n - 1 - lo).
Lemma format_uniform fuel n widths ls : ls ≠ [] → Forall (λ l, length l.1 = n) ls → n - length widths < fuel →
  format fuel widths ls = writeLines (widths ++ ownWidths (length widths) n ls) ls.
Proof.
  intros Hne Hn. revert widths; induction fuel as [|fuel IH]; intros widths Hf; [lia|]. cbn [format].
  destruct (decide (length widths < n - 1)) as [Hlt|Hge].
  - rewrite <- (app_nil_r ls) at 1. rewrite blocks_all; [|eapply Forall_impl; [exact Hn|]; intros l Hl; unfold inColumn; rewrite Hl; by apply Nat.ltb_lt].
    cbn [app blocks writeLines]. rewrite str_app_nil_l. destruct ls as [|l0 ls']; [done|]. set (ls := l0 :: ls') in *.
    rewrite IH by (rewrite length_app; cbn; lia). f_equal. rewrite length_app. cbn [length]. rewrite <- app_assoc. f_equal.
    unfold ownWidths. replace (n - 1 - length widths) with (S (n - 1 - (length widths + 1))) by lia. cbn [seq fmap list_fmap app].
    by rewrite Nat.add_1_r.
  - rewrite blocks_none; [|eapply Forall_impl; [exact Hn|]; intros l Hl; unfold inColumn; rewrite Hl; apply Nat.ltb_ge; lia].
    unfold ownWidths. replace (n - 1 - length widths) with 0 by lia. cbn [seq fmap list_fmap]. by rewrite app_nil_r.
Qed.

(** The fuel is enough: more of it changes nothing. *)
Lemma blocks_ext f g widths pending block ls (V : Line → Prop) :
  (∀ b, b ≠ [] → Forall (λ l, inColumn (length widths) l = true ∧ V l) b → f b = g b) →
  Forall (λ l, inColumn (length widths) l = true ∧ V l) block → Forall V ls →
  blocks f widths pending block ls = blocks g widths pending block ls.
Proof.
  intros Hfg Hb Hls. revert pending block Hb; induction Hls as [|l ls Hl _ IH]; intros pending block Hb; cbn [blocks].
  - destruct block; [done|]. f_equal. by apply Hfg.
  - destruct (inColumn (length widths) l) eqn:E; [apply IH, Forall_app; auto|]. destruct block as [|b block]; [by apply IH|].
    rewrite (Hfg (b :: block)) by done. do 2 f_equal. by apply IH.
Qed.
Lemma columns_le n ls : Forall (λ l, length l.1 ≤ n) ls ↔ columns ls ≤ n.
Proof. induction ls as [|l ls IH]; [split; [cbn; lia|done]|]. rewrite Forall_cons, IH. change (columns (l :: ls)) with (length l.1 `max` columns ls). lia. Qed.
Lemma format_fuel fuel fuel' widths ls : columns ls - length widths < fuel → columns ls - length widths < fuel' →
  format fuel widths ls = format fuel' widths ls.
Proof.
  revert fuel' widths ls; induction fuel as [|fuel IH]; intros [|fuel'] widths ls H H'; [lia..|]. cbn [format].
  apply (blocks_ext _ _ _ _ _ _ (λ l, length l.1 ≤ columns ls)); [|done|by apply columns_le].
  intros [|l0 b] Hne Hb; [done|]. apply Forall_and in Hb as [Hc Hv%columns_le]. apply Forall_cons in Hc as [Hc _].
  unfold inColumn in Hc. apply Nat.ltb_lt in Hc. change (columns (l0 :: b)) with (length l0.1 `max` columns b) in Hv.
  apply IH; change (columns (l0 :: b)) with (length l0.1 `max` columns b); rewrite length_app; cbn [length]; lia.
Qed.

Lemma columns_uniform n ls l : ls ≠ [] → Forall (λ l, length l.1 = n) ls → length l.1 ≤ n → columns (ls ++ [l]) = n.
Proof.
  intros Hne H Hl. induction H as [|x ls Hx Hls IH]; [done|]. cbn [app columns foldr]. rewrite Hx. fold (columns (ls ++ [l])).
  destruct ls as [|y ls]; [cbn; lia|]. rewrite IH by done. lia.
Qed.
Lemma blockWidth_rows j rows : blockWidth j ((λ cells, (cells, nl)) <$> rows) = foldr (λ r w, (runeCount (default "" (r !! j)) + padding) `max` w) 0 rows.
Proof. induction rows as [|r rows IH]; [done|]. cbn. by rewrite <- IH. Qed.
Lemma writeLines_rows widths rows : writeLines widths ((λ cells, (cells, nl)) <$> rows) = renderRows widths rows.
Proof. induction rows as [|r rows IH]; [done|]. cbn [fmap list_fmap writeLines renderRows]. unfold writeLine. cbn [fst snd]. by rewrite IH, <- str_app_assoc. Qed.

(** The recursion over column blocks of the package amounts to the simple thing on a table: for
    rows of the same number (at least two) of cells without control characters, what is printed is
    every row with each cell but the last padded to its column's widest and two spaces. *)
Theorem tabulate_table n rows : 1 < n → rectangular n rows → tabulate (tableText rows) = renderTable n rows.
Proof.
  intros Hn Hr. unfold tabulate, NewWriter. rewrite (write_table n) by done. rewrite str_app_nil_l, app_nil_l.
  unfold Flush. cbn [tw_lines tw_cells tw_cell]. rewrite bool_decide_true by done. unfold formatAll, renderTable.
  destruct rows as [|r0 rows']; [done|]. set (rows := r0 :: rows') in *. set (ls := (λ cells, (cells, nl)) <$> rows).
  assert (ls ≠ []) as Hne by done.
  assert (Forall (λ l : Line, length l.1 = n) ls) as Hl.
  { apply Forall_fmap. eapply Forall_impl; [exact Hr|]. by intros r [Hr' _]. }
  rewrite (columns_uniform n) by (done || cbn; lia). cbn [format]. rewrite blocks_all; cycle 1.
  { eapply Forall_impl; [exact Hl|]. intros l Hl'. unfold inColumn. rewrite Hl'. apply Nat.ltb_lt. cbn. lia. }
  cbn [app blocks length]. change (inColumn 0 ([], "")) with false. cbv iota.
  assert (∀ s t : string, match ls with [] => s | _ => t end = t) as Hm by (intros; by destruct ls). rewrite Hm. clear Hm.
  rewrite (format_uniform _ n [blockWidth 0 ls]) by (done || cbn; lia). cbn [writeLines writeLine]. unfold writeLine. cbn [writeCells fst snd].
  rewrite !str_app_nil_l, !str_app_nil_r. etransitivity; [apply (writeLines_rows _ rows)|]. f_equal.
  unfold columnWidths, ownWidths. cbn [length app]. replace (n - 1) with (S (n - 1 - 1)) by lia. cbn [seq fmap list_fmap].
  f_equal; [apply blockWidth_rows|]. replace (S (n - 1 - 1) - 1) with (n - 1 - 1) by lia. apply list_fmap_ext. intros i j _. apply blockWidth_rows.
Qed.

(** A table is not what is left when a cell has a newline: the rest of the row is a line of its own. *)
Example tabulate_newline : tabulate (tableText [["TYPE"; "MESSAGE"]; ["Ready"; "line one" +:+ nl +:+ "line two"]]) =
  "TYPE   MESSAGE" +:+ nl +:+ "Ready  line one" +:+ nl +:+ "line two" +:+ nl.
Proof. vm_compute. reflexivity. Qed.
Lemma tabulate_table_witness : tabulate (tableText [["#"; "PRIMARY"; "LAG"]; ["10"; "web-0"; "0"]]) =
  "#   PRIMARY  LAG" +:+ nl +:+ "10  web-0    0" +:+ nl.
Proof. rewrite (tabulate_table 3); [vm_compute; reflexivity|lia|repeat constructor]. Defined.
