(* ===== verification/Plugin.v ===== *)
(** * Plugin: the kubectl plugin (cmd/kubectl-valkey)

    A separate binary that reads and annotates ValkeyClusters for a user at a terminal.  It repeats
    names, ports and annotations of the operator, since it does not import the operator's package:
    the definitions here are its own copies, in a module of their own, and the theorems compare
    them with the operator's and follow a request from the command to the reconcile that honours
    it.  A command is a function of its flags and arguments; the command lines are in Commands.
    YAML is written by sigs.k8s.io/yaml, the parameter [marshal]. *)

From S2P Require Import Prelude GoStd Kube Api Effects Naming Failover Rollout Status Scaling Workload Ensure Backup Controller TimeFormat Tabwriter.

Module Plugin.

(** ** client.go *)
Definition valkeyPort : Z := 6379.
Definition valkeyTLSPort : Z := 6380.
Definition tlsMountPath : string := "/etc/valkey/tls".
Definition valkeyCtr : string := "valkey".
Definition caCrtFile : string := "ca.crt".
Definition tlsCrtFile : string := "tls.crt".
Definition tlsKeyFile : string := "tls.key".
Definition valueTrue : string := "true".
Definition instanceLabel : string := "app.kubernetes.io/instance".

(** An error of a command: its text, or a text and the error it wraps. *)
Inductive CmdErr :=
  | ECmd (msg : string)
  | EApi (context : string) (e : KubeErr)
  | EHost (context : string) (e : error).

Definition hostErr (context : string) (e : option error) : option CmdErr := match e with Some e => Some (EHost context e) | None => None end.

(** Loading the kubeconfig or building the client may fail; the client itself, and the scheme it is
    given, are not modelled. *)
Definition newClient : prog (option CmdErr) :=
  e ← perform OKubeconfig;
  match e with
  | Some e => mret (Some (EHost "load kubeconfig" e))
  | None => e ← perform ONewClient; mret (hostErr "" e)
  end.
Definition resolveNamespace (flag : string) : prog string :=
  if flag != "" then mret flag
  else
    r ← perform OContextNamespace;
    mret (match r with
          | inl _ => "default"
          | inr ns => if ns == "" then "default" else ns
          end).
Definition passwordSecretName (vc : ValkeyCluster) : string :=
  match Spec_Auth (Spec vc) with
  | Some a => if Auth_ExistingSecret a != "" then Auth_ExistingSecret a else vcName vc +:+ "-auth"
  | None => vcName vc +:+ "-auth"
  end.
Definition tlsOn (vc : ValkeyCluster) : bool := match Spec_TLS (Spec vc) with Some t => TLS_Enabled t | None => false end.
Definition dataPort (vc : ValkeyCluster) : Z :=
  if match Spec_TLS (Spec vc) with Some t => TLS_Enabled t | None => false end then valkeyTLSPort else valkeyPort.
Definition authOn (vc : ValkeyCluster) : bool := AuthEnabled (Spec vc).
Definition tlsSecretNameFor (vc : ValkeyCluster) : string :=
  match Spec_TLS (Spec vc) with
  | Some t => if TLS_ExistingSecret t != "" then TLS_ExistingSecret t else vcName vc +:+ "-tls"
  | None => vcName vc +:+ "-tls"
  end.

(** ** ops.go: request annotations *)
Definition restartAnnotation : string := "valkey.wellcake.io/restart".
Definition reshardAnnotation : string := "valkey.wellcake.io/reshard".
Definition failoverAnnotation : string := "valkey.wellcake.io/failover".
Definition failoverTargetAnnotation : string := "valkey.wellcake.io/failover-target".
Definition hibernateAnnotation : string := "valkey.wellcake.io/hibernate".

Definition nowToken : prog string := t ← perform ONow; mret (rfc3339Nano t).

Definition requireCluster (t : Topology) : option CmdErr :=
  if t != TopologyCluster
  then Some (ECmd ("reshard is only valid for Cluster topology (cluster is " +:+ Quote t +:+ ")")) else None.
Definition requireNotCluster (t : Topology) : option CmdErr :=
  if t == TopologyCluster
  then Some (ECmd "failover is for Replication/Sentinel; Cluster topology fails over via native gossip") else None.

Definition with_annotations (vc : ValkeyCluster) (f : gmap string string → gmap string string) : ValkeyCluster :=
  let m := Meta vc in
  {| Meta := {| Meta_Name := Meta_Name m; Meta_Namespace := Meta_Namespace m; Meta_UID := Meta_UID m;
                Meta_Generation := Meta_Generation m; Meta_Annotations := f (Meta_Annotations m);
                Meta_Finalizers := Meta_Finalizers m; Meta_Deleting := Meta_Deleting m |};
     Spec := Spec vc; Status := Status vc |}.
Definition slashed (ns name : string) : string := ns +:+ "/" +:+ name.
Definition patchClusterAnnotations (namespace name : string) (kv : gmap string string)
    (guard : option (Topology → option CmdErr)) (msg : string) : prog (option CmdErr) :=
  g ← perform (OGetCluster namespace name);
  match g with
  | inl e => mret (Some (EApi ("get ValkeyCluster " +:+ slashed namespace name) e))
  | inr vc =>
      match guard ≫= λ check, check (Spec_Topology (Spec vc)) with
      | Some err => mret (Some err)
      | None =>
          (* maps.Copy: the new values win *)
          e ← perform (OPatchCluster vc (with_annotations vc (λ old, kv ∪ old)));
          match e with
          | Some e => mret (Some (EApi ("patch ValkeyCluster " +:+ slashed namespace name) e))
          | None =>
              _ ← perform (OPrint (msg +:+ " for " +:+ slashed namespace name +:+ nl));
              mret None
          end
      end
  end.

Definition restartCmd (namespace cluster : string) : prog (option CmdErr) :=
  err ← newClient;
  match err with
  | Some err => mret (Some err)
  | None =>
      ns ← resolveNamespace namespace;
      token ← nowToken;
      patchClusterAnnotations ns cluster {[restartAnnotation := token]} None "rolling restart requested"
  end.
Definition reshardCmd (namespace cluster : string) : prog (option CmdErr) :=
  err ← newClient;
  match err with
  | Some err => mret (Some err)
  | None =>
      ns ← resolveNamespace namespace;
      token ← nowToken;
      patchClusterAnnotations ns cluster {[reshardAnnotation := token]} (Some requireCluster) "reshard requested"
  end.
Definition failoverCmd (namespace to cluster : string) : prog (option CmdErr) :=
  err ← newClient;
  match err with
  | Some err => mret (Some err)
  | None =>
      token ← nowToken;
      let kv := {[failoverAnnotation := token]} : gmap string string in
      let kv := if to != "" then <[failoverTargetAnnotation := to]> kv else kv in
      ns ← resolveNamespace namespace;
      patchClusterAnnotations ns cluster kv (Some requireNotCluster) "failover requested"
  end.
Definition hibernateCmd (namespace onOff cluster : string) : prog (option CmdErr) :=
  match (if onOff == "on" then Some (valueTrue, "hibernation requested")
         else if onOff == "off" then Some ("false", "wake requested") else None) with
  | None => mret (Some (ECmd ("first argument must be 'on' or 'off', got " +:+ Quote onOff)))
  | Some (value, msg) =>
      err ← newClient;
      match err with
      | Some err => mret (Some err)
      | None =>
          ns ← resolveNamespace namespace;
          patchClusterAnnotations ns cluster {[hibernateAnnotation := value]} None msg
      end
  end.

(** ** backup.go *)
Definition jobFromCronJob (cj : CronJob) : ManualJob := {|
  mj_GenerateName := cj_Name cj +:+ "-manual-"; mj_Namespace := cj_Namespace cj;
  mj_Labels := <["valkey.wellcake.io/manual-backup" := valueTrue]> (cjs_JobLabels (cj_Spec cj));
  mj_Annotations := {["cronjob.kubernetes.io/instantiate" := "manual"]};
  mj_PodLabels := cjs_PodLabels (cj_Spec cj); mj_PodSpec := cjs_PodSpec (cj_Spec cj) |}.
Definition cronName (cluster : string) : string := cluster +:+ "-backup".
Definition runBackup (namespace name : string) : prog (option CmdErr) :=
  err ← newClient;
  match err with
  | Some err => mret (Some err)
  | None =>
      ns ← resolveNamespace namespace;
      g ← perform (OGet KCronJob ns (cronName name));
      match g with
      | inl e =>
          if IsNotFound e
          then mret (Some (ECmd ("no backup CronJob " +:+ Quote (cronName name) +:+ " in namespace " +:+ ns +:+
                                 " — set spec.backup.enabled on the ValkeyCluster")))
          else mret (Some (EApi ("get CronJob " +:+ Quote (cronName name)) e))
      | inr cj =>
          r ← perform (OCreateManualJob (jobFromCronJob cj));
          match r with
          | inl e => mret (Some (EApi "create backup job" e))
          | inr jobName => _ ← perform (OPrint ("created backup job " +:+ slashed ns jobName +:+ nl)); mret None
          end
      end
  end.

(** ** cli.go *)
Definition targetPod (vc : ValkeyCluster) : string :=
  if ((Spec_Topology (Spec vc) != TopologyCluster) && (Status_Primary (Status vc) != ""))%bool then Status_Primary (Status vc)
  else vcName vc +:+ "-0".
Definition buildCliExecArgs (vc : ValkeyCluster) (namespace pod password : string) (extra : list string) : list string :=
  ["exec"; "-it"; "-n"; namespace; pod; "-c"; valkeyCtr; "--"] ++
  (if password != "" then ["env"; "REDISCLI_AUTH=" +:+ password] else []) ++
  ["valkey-cli"; "-p"; Itoa (dataPort vc)] ++
  (if tlsOn vc then ["--tls"; "--cert"; tlsMountPath +:+ "/tls.crt"; "--key"; tlsMountPath +:+ "/tls.key";
                     "--cacert"; tlsMountPath +:+ "/ca.crt"] else []) ++
  (if Spec_Topology (Spec vc) == TopologyCluster then ["-c"] else []) ++ extra.
(** With the password known: find kubectl and run it. *)
Definition execCli (vc : ValkeyCluster) (ns pod password : string) (extra : list string) : prog (option CmdErr) :=
  k ← perform (OLookPath "kubectl");
  match k with
  | inl e => mret (Some (EHost "kubectl not found on PATH" e))
  | inr kubectl => e ← perform (OExec kubectl (buildCliExecArgs vc ns pod password extra)); mret (hostErr "" e)
  end.
Definition runCli (namespace name podOverride : string) (extra : list string) : prog (option CmdErr) :=
  err ← newClient;
  match err with
  | Some err => mret (Some err)
  | None =>
      ns ← resolveNamespace namespace;
      g ← perform (OGetCluster ns name);
      match g with
      | inl e => mret (Some (EApi ("get ValkeyCluster " +:+ slashed ns name) e))
      | inr vc =>
          let pod := if podOverride == "" then targetPod vc else podOverride in
          if authOn vc then
            s ← perform (OGetSecret ns (passwordSecretName vc));
            match s with
            | inl e => mret (Some (EApi ("read auth secret " +:+ Quote (passwordSecretName vc)) e))
            | inr sec => execCli vc ns pod (map_get (sec_Data sec) "password") extra
            end
          else execCli vc ns pod "" extra
      end
  end.

(** ** path/filepath *)

(** One element of the path, on the cleaned elements before it (last first). *)
Definition cleanElem (rooted : bool) (acc : list string) (e : string) : list string :=
  if ((e == "") || (e == "."))%bool then acc
  else if e == ".." then
    match acc with
    | top :: acc' => if top == ".." then e :: acc else acc'
    | [] => if rooted then [] else [e]
    end
  else e :: acc.
Definition Clean (path : string) : string :=
  let rooted := has_prefix path "/" in
  let elems := rev (foldl (cleanElem rooted) [] (split_byte "/"%char path)) in
  let body := join "/" elems in
  if rooted then "/" +:+ body else if body == "" then "." else body.
(** [filepath.Join(dir, file)] of a file name that is not empty. *)
Definition joinPath (dir file : string) : string := Clean (if dir == "" then file else dir +:+ "/" +:+ file).

(** ** certificate.go *)

(** The loop over the three files: how many it wrote, or the error it stopped at. *)
Fixpoint writeCerts (sec : Secret) (outDir : string) (files : list string) (wrote : Z) : prog (CmdErr + Z) :=
  match files with
  | [] => mret (inr wrote)
  | f :: files' =>
      let data := map_get (sec_Data sec) f in
      if data == "" then writeCerts sec outDir files' wrote
      else
        e ← perform (OWriteFile (joinPath outDir f) data 384);      (* 0o600 *)
        match e with
        | Some e => mret (inl (EHost ("write " +:+ f) e))
        | None => writeCerts sec outDir files' (wrote + 1)
        end
  end.
Definition exportCertificate (sec : Secret) (secName outDir : string) : prog (option CmdErr) :=
  if outDir == "" then
    let ca := map_get (sec_Data sec) caCrtFile in
    if ca == "" then mret (Some (ECmd ("TLS secret " +:+ Quote secName +:+ " has no ca.crt")))
    else e ← perform (OPrint ca); mret (hostErr "" e)
  else
    e ← perform (OMkdirAll outDir);
    match e with
    | Some e => mret (Some (EHost "" e))
    | None =>
        r ← writeCerts sec outDir [caCrtFile; tlsCrtFile; tlsKeyFile] 0;
        match r with
        | inl err => mret (Some err)
        | inr wrote =>
            if wrote == 0%Z
            then mret (Some (ECmd ("TLS secret " +:+ Quote secName +:+ " contained none of ca.crt/tls.crt/tls.key")))
            else
              _ ← perform (OPrint ("wrote " +:+ Itoa wrote +:+ " TLS file(s) from secret " +:+ Quote secName +:+ " to " +:+ outDir +:+ nl));
              mret None
        end
    end.
Definition runCertificate (namespace name outDir : string) : prog (option CmdErr) :=
  ns ← resolveNamespace namespace;
  g ← perform (OGetCluster ns name);
  match g with
  | inl e => mret (Some (EApi ("get ValkeyCluster " +:+ slashed ns name) e))
  | inr vc =>
      if negb (tlsOn vc)
      then mret (Some (ECmd ("TLS is not enabled for " +:+ slashed ns name +:+ " (spec.tls.enabled is false)")))
      else
        let secName := tlsSecretNameFor vc in
        s ← perform (OGetSecret ns secName);
        match s with
        | inl e => mret (Some (EApi ("get TLS secret " +:+ Quote secName) e))
        | inr sec => exportCertificate sec secName outDir
        end
  end.

Definition certificateCmd (namespace outDir cluster : string) : prog (option CmdErr) :=
  err ← newClient;
  match err with Some err => mret (Some err) | None => runCertificate namespace cluster outDir end.

(** ** status.go *)
Definition orDash (s : string) : string := if s == "" then "-" else s.
Definition joinOrDash (items : list string) : string := if bool_decide (length items = 0) then "-" else join "," items.
Definition boolText (b : bool) : string := if b then "true" else "false".
Definition conditionLine (c : Condition) : string :=
  "  " +:+ cond_Type c +:+ tab +:+ cond_Status c +:+ tab +:+ cond_Reason c +:+ tab +:+ cond_Message c +:+ nl.
Definition shardLine (s : ShardStatus) : string :=
  "  " +:+ Itoa (Shard_Index s) +:+ tab +:+ orDash (Shard_Primary s) +:+ tab +:+ joinOrDash (Shard_Replicas s) +:+ tab +:+
  Itoa (Shard_SlotCount s) +:+ tab +:+ orDash (Shard_Health s) +:+ tab +:+ Itoa (Shard_MaxLagBytes s) +:+ nl.
Definition concatS (l : list string) : string := foldr String.app "" l.
Definition statusHead (vc : ValkeyCluster) : string :=
  "Cluster:   " +:+ slashed (vcNamespace vc) (vcName vc) +:+ nl +:+
  "Topology:  " +:+ orDash (Spec_Topology (Spec vc)) +:+ nl +:+
  "Profile:   " +:+ orDash (Spec_Profile (Spec vc)) +:+ nl +:+
  "Image:     " +:+ orDash (Spec_Image (Spec vc)) +:+ nl +:+
  "Phase:     " +:+ orDash (Status_Phase (Status vc)) +:+ nl +:+
  (if Spec_Topology (Spec vc) == TopologyCluster then
     "Shards:    " +:+ Itoa (Status_ReadyShards (Status vc)) +:+ "/" +:+ Itoa (Status_Shards (Status vc)) +:+ " ready" +:+ nl +:+
     "Bootstrapped: " +:+ boolText (Status_ClusterInitialized (Status vc)) +:+ nl
   else
     "Primary:   " +:+ orDash (Status_Primary (Status vc)) +:+ nl +:+
     "Ready:     " +:+ Itoa (Status_ReadyReplicas (Status vc)) +:+ "/" +:+ Itoa (Spec_Replicas (Spec vc)) +:+ nl).
Definition conditionsText (cs : list Condition) : string :=
  if 0 <? length cs then
    nl +:+ "Conditions:" +:+ nl +:+
    tabulate ("  TYPE" +:+ tab +:+ "STATUS" +:+ tab +:+ "REASON" +:+ tab +:+ "MESSAGE" +:+ nl +:+ concatS (conditionLine <$> cs))
  else "".
Definition shardsText (ss : list ShardStatus) : string :=
  if 0 <? length ss then
    nl +:+ "Shards:" +:+ nl +:+
    tabulate ("  #" +:+ tab +:+ "PRIMARY" +:+ tab +:+ "REPLICAS" +:+ tab +:+ "SLOTS" +:+ tab +:+ "HEALTH" +:+ tab +:+ "LAG(bytes)" +:+ nl +:+
              concatS (shardLine <$> ss))
  else "".
Definition formatStatus (vc : ValkeyCluster) : string :=
  statusHead vc +:+ conditionsText (Status_Conditions (Status vc)) +:+ shardsText (Status_ShardDetails (Status vc)).
Definition runStatus (namespace name : string) : prog (option CmdErr) :=
  err ← newClient;
  match err with
  | Some err => mret (Some err)
  | None =>
      ns ← resolveNamespace namespace;
      g ← perform (OGetCluster ns name);
      match g with
      | inl e => mret (Some (EApi ("get ValkeyCluster " +:+ slashed ns name) e))
      | inr vc => _ ← perform (OPrint (formatStatus vc)); mret None
      end
  end.

(** ** report.go *)
Inductive Dump :=
  | DCluster (vc : ValkeyCluster)
  | DStatefulSets (l : list StatefulSet)
  | DList (k : Kind) (l : list (obj k))
  | DPods (l : list Pod)
  | DEvents (l : list KubeEvent).
Section report.
Context (marshal : Dump → error + string).

Definition writeYAML (dir file : string) (o : Dump) : prog (option CmdErr) :=
  match marshal o with
  | inl e => mret (Some (EHost ("marshal " +:+ file) e))
  | inr b => e ← perform (OWriteFile (joinPath dir file) b 420); mret (hostErr ("write " +:+ file) e)     (* 0o644 *)
  end.
(** A list that was read and is not empty is written, whether or not that succeeds, and counted. *)
Definition dumpList {A} (dir file : string) (dump : list A → Dump) (r : KubeErr + list A) (files : Z) : prog Z :=
  match r with
  | inr (x :: l) => _ ← writeYAML dir file (dump (x :: l)); mret (files + 1)%Z
  | _ => mret files
  end.
Definition runReport (namespace name outDir : string) : prog (option CmdErr) :=
  ns ← resolveNamespace namespace;
  let outDir := if outDir == "" then "valkey-report-" +:+ name else outDir in
  e ← perform (OMkdirAll outDir);
  match e with
  | Some e => mret (Some (EHost "" e))
  | None =>
      g ← perform (OGetCluster ns name);
      match g with
      | inl e => mret (Some (EApi ("get ValkeyCluster " +:+ slashed ns name) e))
      | inr vc =>
          w ← writeYAML outDir "cluster.yaml" (DCluster vc);
          match w with
          | Some err => mret (Some err)
          | None =>
              let inst := {[instanceLabel := name]} : gmap string string in
              r ← perform (OListSts ns inst);
              files ← dumpList outDir "statefulsets.yaml" DStatefulSets r 1;
              r ← perform (OList KService ns inst);
              files ← dumpList outDir "services.yaml" (DList KService) r files;
              r ← perform (OList KConfigMap ns inst);
              files ← dumpList outDir "configmaps.yaml" (DList KConfigMap) r files;
              r ← perform (OList KPDB ns inst);
              files ← dumpList outDir "poddisruptionbudgets.yaml" (DList KPDB) r files;
              r ← perform (OListPods ns inst);
              files ← dumpList outDir "pods.yaml" DPods r files;
              r ← perform (OListEvents ns);
              files ← dumpList outDir "events.yaml" DEvents
                        (match r with inl e => inl e | inr evs => inr (filter (λ ev, has_prefix (kev_Involved ev) name = true) evs) end) files;
              _ ← perform (OPrint ("wrote " +:+ Itoa files +:+ " file(s) to " +:+ outDir +:+ nl));
              mret None
          end
      end
  end.
Definition reportCmd (namespace outDir cluster : string) : prog (option CmdErr) :=
  err ← newClient;
  match err with Some err => mret (Some err) | None => runReport namespace cluster outDir end.
End report.
End Plugin.

(** ** The plugin's copies are the operator's *)

(** The CronJob an operation of the operator is about. *)
Definition onCronJob (key : string * string) (e : Event) : Prop :=
  match ev_op e with
  | OGet KCronJob ns name | ODelete KCronJob ns name => (ns, name) = key
  | OCreate KCronJob c => (cj_Namespace c, cj_Name c) = key
  | OUpdate KCronJob _ | OSetControllerReference _ _ => True
  | _ => False
  end.
Lemma spec_op P op (Q : ans op → Prop) : (∀ x, P (Ev op x)) → (∀ x, Q x) → spec (perform op) P Q.
Proof. intros H HQ. apply spec_perform. auto. Qed.
Lemma backup_onCronJob hash vc : spec (ensureBackupCronJob hash vc) (onCronJob (vcNamespace vc, vcName vc +:+ "-backup")) (λ _, True).
Proof.
  set (P := onCronJob _).
  assert (∀ p, spec p P (λ _, True) → spec (kube p) P (λ _, True)) as Hk.
  { intros p Hp. eapply spec_bind; [exact Hp|]. intros e _. by apply spec_ret. }
  assert (spec (deleteIfPresent KCronJob (vcNamespace vc) (vcName vc +:+ "-backup")) P (λ _, True)) as Hd.
  { apply spec_bind_op; [done|]. intros [e|o]; [by apply spec_ret|]. by apply (spec_op P (ODelete KCronJob _ _)). }
  unfold ensureBackupCronJob. destruct (Spec_Backup (Spec vc)) as [b|]; [|by apply Hk].
  destruct (Backup_Enabled b); [|by apply Hk]. destruct (Backup_S3 b) as [s3|]; [|by apply spec_ret].
  apply Hk, spec_bind_op; [done|]. intros [e|]; [by apply spec_ret|]. apply spec_bind_op; [done|].
  intros [e|o]; cbn [id]; case_match; first [by apply spec_ret|by apply (spec_op P (OCreate KCronJob _))|by apply (spec_op P (OUpdate KCronJob _))].
Qed.

(** The plugin repeats what the operator's package defines, and gets it right: for every cluster the
    Secrets and the port are the ones the operator works with; the CronJob it instantiates is the one
    the operator's backup step keeps, the container it enters is one of every data pod, the label it
    selects by is on the cluster's objects and the annotations it writes are the ones the operator reads. *)
Theorem plugin_agrees vc cronHash configHash proactive shard :
  Plugin.passwordSecretName vc = authSecretName vc ∧ Plugin.tlsSecretNameFor vc = tlsSecretName vc ∧
  Plugin.dataPort vc = dataPort vc ∧ Plugin.tlsOn vc = tlsEnabled vc ∧ Plugin.authOn vc = AuthEnabled (Spec vc) ∧
  spec (ensureBackupCronJob cronHash vc) (onCronJob (vcNamespace vc, Plugin.cronName (vcName vc))) (λ _, True) ∧
  Forall (λ sts, Plugin.valkeyCtr ∈ ctr_Name <$> ps_Containers (pt_Spec (sts_Template sts)) ∧ sts_Labels sts !! Plugin.instanceLabel = Some (vcName vc))
    [buildStatefulSet vc configHash proactive; buildShardStatefulSet vc shard configHash proactive] ∧
  Plugin.tlsMountPath = tlsMountPath ∧
  (Plugin.restartAnnotation, Plugin.reshardAnnotation, Plugin.failoverAnnotation, Plugin.failoverTargetAnnotation, Plugin.hibernateAnnotation) =
  (restartAnnotation, reshardAnnotation, failoverAnnotation, failoverTargetAnnotation, hibernateAnnotation).
Proof.
  split_and!; try done; [apply backup_onCronJob|].
  repeat apply Forall_cons_2; [..|done]; (split; [|cbn [sts_Labels buildStatefulSet buildShardStatefulSet]; unfold shardLabelsFor, labelsFor; by simplify_map_eq]).
  - left.
  - cbn [sts_Template buildShardStatefulSet pt_Spec]. destruct (Spec_Affinity (Spec vc)); left.
Qed.

(** ** Requests *)
Lemma annotation_new vc kv k v : kv !! k = Some v → annotation (Plugin.with_annotations vc (λ old, kv ∪ old)) k = v.
Proof. intros H. unfold annotation, map_get. cbn. by rewrite (lookup_union_Some_l _ _ _ _ H). Qed.
Lemma annotation_old vc kv k : kv !! k = None → annotation (Plugin.with_annotations vc (λ old, kv ∪ old)) k = annotation vc k.
Proof. intros H. unfold annotation, map_get. cbn. by rewrite lookup_union_r. Qed.

Definition patchOf (e : Event) : option (ValkeyCluster * ValkeyCluster * option KubeErr) :=
  match e with Ev op x => match op return ans op → option (ValkeyCluster * ValkeyCluster * option KubeErr) with OPatchCluster b n => λ y, Some (b, n, y) | _ => λ _, None end x end.
Lemma Ev_patch_inj b n y b' n' x : Ev (OPatchCluster b n) y = Ev (OPatchCluster b' n') x → b = b' ∧ n = n' ∧ y = x.
Proof. intros H%(f_equal patchOf). by injection H as -> -> ->. Qed.

(** What the API server stored: the object that was read, with the annotations added. *)
Definition requested (tr : list Event) (kv : gmap string string) (base new : ValkeyCluster) : Prop :=
  Ev (OPatchCluster base new) None ∈ tr ∧ new = Plugin.with_annotations base (λ old, kv ∪ old).

Lemma exec_patch ns name kv guard msg tr r : exec (Plugin.patchClusterAnnotations ns name kv guard msg) tr r →
  (∃ e, tr = [Ev (OGetCluster ns name) (inl e)] ∧ is_Some r) ∨
  ∃ base, let refused := guard ≫= λ check, check (Spec_Topology (Spec base)) in
  (tr = [Ev (OGetCluster ns name) (inr base)] ∧ r = refused ∧ is_Some r) ∨
  ∃ x rest, refused = None ∧
    tr = [Ev (OGetCluster ns name) (inr base); Ev (OPatchCluster base (Plugin.with_annotations base (λ old, kv ∪ old))) x] ++ rest ∧
    (r = None ↔ x = None) ∧ Forall (λ e, ∃ t, ev_op e = OPrint t) rest.
Proof.
  unfold Plugin.patchClusterAnnotations. intros Hx. apply exec_bind in Hx as (t1 & t2 & g & -> & H & Hx). apply exec_perform in H as ->.
  destruct g as [e|base]; [apply exec_ret in Hx as [-> <-]; left; eauto|]. right. exists base. cbv zeta.
  destruct (guard ≫= _) as [err|]; [apply exec_ret in Hx as [-> <-]; left; eauto|]. right.
  apply exec_bind in Hx as (t3 & t4 & x & -> & H & Hx). apply exec_perform in H as ->. exists x, t4.
  split_and!; [done|done|..]; destruct x as [e|].
  - by apply exec_ret in Hx as [-> <-].
  - by apply exec_bind in Hx as (t5 & t6 & [] & -> & H & [-> <-]%exec_ret).
  - by apply exec_ret in Hx as [-> <-].
  - apply exec_bind in Hx as (t5 & t6 & ? & -> & H & [-> <-]%exec_ret). apply exec_perform in H as ->. rewrite app_nil_r. constructor; [|done]. by eexists.
Qed.

(** A request changes what it asks for and nothing else: whatever the API server answers, a command
    patches at most the object it read, in no field but its annotations, of these only the ones it was
    given, and only past its topology guard; it reports success exactly when that patch was accepted. *)
Theorem request_is_annotations ns name kv guard msg tr r :
  exec (Plugin.patchClusterAnnotations ns name kv guard msg) tr r →
  (∀ base new x, Ev (OPatchCluster base new) x ∈ tr →
     Ev (OGetCluster ns name) (inr base) ∈ tr ∧ (guard ≫= λ check, check (Spec_Topology (Spec base))) = None ∧
     Spec new = Spec base ∧ Status new = Status base ∧ vcName new = vcName base ∧
     ∀ k, annotation new k = default (annotation base k) (kv !! k)) ∧
  Forall (λ e, match ev_op e with OPatchCluster _ _ => True | op => reads op = true end) tr ∧
  (r = None ↔ ∃ base new, Ev (OPatchCluster base new) None ∈ tr).
Proof.
  intros Hx. apply exec_patch in Hx as [(e & -> & [? ->])|(base & [(-> & _ & [? ->])|(x & rest & Hg & -> & Hr & Hp)])].
  - split_and!; [|by repeat constructor|split; [done|]]; [intros ??? H|intros (?&?&H)]; by apply list_elem_of_singleton in H.
  - split_and!; [|by repeat constructor|split; [done|]]; [intros ??? H|intros (?&?&H)]; by apply list_elem_of_singleton in H.
  - assert (∀ b n y, Ev (OPatchCluster b n) y ∉ rest) as Hno.
    { intros b n y Hin. rewrite Forall_forall in Hp. destruct (Hp _ Hin) as [t Ht]. done. }
    split_and!.
    + intros b n y H. apply elem_of_app in H as [H|H]; [|by apply Hno in H].
      apply elem_of_cons in H as [H|H%list_elem_of_singleton]; [done|]. apply Ev_patch_inj in H as (-> & -> & _). split_and!; try done; [left|].
      intros k. destruct (kv !! k) eqn:E; [by apply annotation_new|by apply annotation_old].
    + apply Forall_app. split; [by repeat constructor|]. eapply Forall_impl; [exact Hp|]. intros e [t Ht]. by rewrite Ht.
    + rewrite Hr. split; [intros ->; eexists _, _; right; left|]. intros (b & n & H). apply elem_of_app in H as [H|H]; [|by apply Hno in H].
      apply elem_of_cons in H as [H|H%list_elem_of_singleton]; [done|]. by apply Ev_patch_inj in H as (_ & _ & ->).
Qed.

(** ** From the command to the reconcile *)
Lemma patch_accepted ns name kv guard msg tr : exec (Plugin.patchClusterAnnotations ns name kv guard msg) tr None →
  ∃ base new, requested tr kv base new ∧ (guard ≫= λ check, check (Spec_Topology (Spec base))) = None.
Proof.
  intros Hx. apply exec_patch in Hx as [(e & -> & [? Hr])|(base & [(-> & _ & [? Hr])|(x & rest & Hg & -> & Hr & Hp)])]; [done..|].
  eexists base, _. split; [split; [|done]|done]. rewrite (proj1 Hr eq_refl). right. left.
Qed.
Lemma requested_app tr1 tr2 kv base new : requested tr2 kv base new → requested (tr1 ++ tr2) kv base new.
Proof. intros [H ->]. split; [|done]. apply elem_of_app. by right. Qed.
Lemma exec_nowToken tr tok : exec Plugin.nowToken tr tok → ∃ t, tr = [Ev ONow t] ∧ tok = rfc3339Nano t.
Proof. intros (t1 & t2 & t & -> & ->%exec_perform & [-> <-]%exec_ret)%exec_bind. by exists t. Qed.
(** The part common to the commands: a client, then the rest. *)
Lemma exec_client {k : prog (option Plugin.CmdErr)} tr :
  exec (err ← Plugin.newClient; match err with Some err => mret (Some err) | None => k end) tr None → ∃ tr1 tr2, tr = tr1 ++ tr2 ∧ exec k tr2 None.
Proof.
  intros Hx. apply exec_bind in Hx as (t1 & t2 & e & -> & _ & Hx). destruct e as [e|]; [by apply exec_ret in Hx as [_ ?]|]. eauto.
Qed.
Lemma exec_stamped namespace cluster (kv : string → gmap string string) guard msg tr :
  exec (ns ← Plugin.resolveNamespace namespace; token ← Plugin.nowToken; Plugin.patchClusterAnnotations ns cluster (kv token) guard msg) tr None →
  ∃ t base new, Ev ONow t ∈ tr ∧ requested tr (kv (rfc3339Nano t)) base new ∧ (guard ≫= λ check, check (Spec_Topology (Spec base))) = None.
Proof.
  intros Hx. apply exec_bind in Hx as (t1 & t2 & ns & -> & _ & Hx). apply exec_bind in Hx as (t3 & t4 & tok & -> & H & Hx).
  apply exec_nowToken in H as (t & -> & ->). destruct (patch_accepted _ _ _ _ _ _ Hx) as (base & new & Hq & Hg).
  exists t, base, new. split_and!; [set_solver| |done]. apply requested_app. by apply (requested_app [_]).
Qed.

Lemma annotation_Default vc k : annotation (Default vc) k = annotation vc k.
Proof.
  assert (∀ v, Meta (Default v) = Meta v) as H; [|unfold annotation; by rewrite H]. clear. intros v.
  unfold Default, defaultStorage, defaultReplicas, defaultPullPolicy, defaultImageField, defaultProfile, defaultTopology.
  repeat match goal with
  | |- context [if bool_decide ?P then _ else _] => destruct (bool_decide P)
  | |- context [match Spec_Storage ?s with _ => _ end] => destruct (Spec_Storage s)
  end; reflexivity.
Qed.

(** The automatic failover of a pass leaves the request alone. *)
Definition keepsRequest (vc vc' : ValkeyCluster) : Prop :=
  Meta vc' = Meta vc ∧ Spec vc' = Spec vc ∧ Status_LastFailoverToken (Status vc') = Status_LastFailoverToken (Status vc).
Lemma keepsRequest_down vc t : keepsRequest vc (with_status vc (set_Status_PrimaryDownSince t)).
Proof. unfold keepsRequest, with_status. cbn. by destruct (Status vc). Qed.
Lemma exec_setPrimaryDown vc t tr vc' : exec (setPrimaryDown vc t) tr vc' → keepsRequest vc vc'.
Proof. intros (t1 & t2 & x & -> & _ & [-> <-]%exec_ret)%exec_bind. apply keepsRequest_down. Qed.
Lemma exec_clearPrimaryDown vc tr vc' : exec (clearPrimaryDown vc) tr vc' → keepsRequest vc vc'.
Proof. unfold clearPrimaryDown. destruct (Status_PrimaryDownSince _); [apply exec_setPrimaryDown|]. by intros [_ <-]%exec_ret. Qed.
Lemma exec_primaryDownLongEnough vc tr r : exec (primaryDownLongEnough vc) tr r → keepsRequest vc r.2.
Proof.
  unfold primaryDownLongEnough. destruct (Status_PrimaryDownSince _).
  - by intros (t1 & t2 & x & -> & _ & [-> <-]%exec_ret)%exec_bind.
  - intros (t1 & t2 & x & -> & _ & (t3 & t4 & y & -> & H%exec_setPrimaryDown & [-> <-]%exec_ret)%exec_bind)%exec_bind. done.
Qed.
Lemma exec_adoptMaster vc pw survey m port tr r : exec (adoptMaster vc pw survey m port) tr r → r.2 = vc.
Proof. intros (t1 & t2 & x & -> & _ & (t3 & t4 & y & -> & _ & [-> <-]%exec_ret)%exec_bind)%exec_bind. done. Qed.
Lemma keepsRequest_trans a b c : keepsRequest a b → keepsRequest b c → keepsRequest a c.
Proof. intros (H1 & H2 & H3) (H4 & H5 & H6). split_and!; congruence. Qed.
Lemma exec_reconcileFailover vc pw survey tr r : exec (reconcileFailover vc pw survey) tr r → keepsRequest vc r.2.
Proof.
  unfold reconcileFailover. cbv zeta. destruct (_ <? 2)%Z; [by intros [_ <-]%exec_ret|]. destruct (ta_masters (tally survey)) as [|m ms].
  - destruct (ta_bestReplica (tally survey)) as [best|]; [|by intros [_ <-]%exec_ret].
    intros (t1 & t2 & [long vc1] & -> & H1%exec_primaryDownLongEnough & Hx)%exec_bind. destruct long; cbn [negb] in Hx; [|by apply exec_ret in Hx as [_ <-]].
    apply exec_bind in Hx as (t3 & t4 & vc2 & -> & H2%exec_clearPrimaryDown & Hx). apply exec_bind in Hx as (t5 & t6 & p & -> & _ & Hx).
    apply exec_ret in Hx as [_ <-]. exact (keepsRequest_trans _ _ _ H1 H2).
  - intros (t1 & t2 & vc1 & -> & H1%exec_clearPrimaryDown & Hx)%exec_bind.
    destruct (pickAuthoritativeMaster vc1 (m :: ms)) as [chosen|]; [|by apply exec_ret in Hx as [_ <-]].
    destruct (ta_bestReplica (tally survey)) as [best|]; [destruct (_ && _)%bool|].
    + apply exec_bind in Hx as (t5 & t6 & p & -> & _ & Hx). by apply exec_ret in Hx as [_ <-].
    + by apply exec_adoptMaster in Hx as ->.
    + by apply exec_adoptMaster in Hx as ->.
Qed.

Section reach.
Context `{ConditionLib} (L : Libs).

(** A manual failover gets from the terminal to the pods: when [kubectl valkey failover] reports
    success, the stored object carries a token made of the clock's time, and with it the next
    reconcile of the replication topology, unless it has already handled that very token, runs the
    manual failover for it after the automatic one, on the replica named by [--to] or by an earlier
    request, if there is one. *)
Theorem failover_reaches_operator namespace to cluster tr :
  exec (Plugin.failoverCmd namespace to cluster) tr None →
  ∃ t base new, Ev ONow t ∈ tr ∧ Ev (OPatchCluster base new) None ∈ tr ∧ Spec_Topology (Spec base) ≠ TopologyCluster ∧
    annotation new failoverTargetAnnotation = (if decide (to = "") then annotation base failoverTargetAnnotation else to) ∧
    (Status_LastFailoverToken (Status base) ≠ rfc3339Nano t → ∀ pw sts survey tr' o, exec (failoverThenReport new pw sts survey) tr' o →
     ∃ tr1 tr2 tr3 primary vc' m, tr' = tr1 ++ tr2 ++ tr3 ∧ exec (reconcileFailover new pw survey) tr1 (primary, vc') ∧
       exec (manualFailover vc' pw survey (rfc3339Nano t)) tr2 m ∧
       annotation vc' failoverTargetAnnotation = annotation new failoverTargetAnnotation).
Proof.
  intros (t1 & t2 & -> & Hx)%exec_client. apply exec_bind in Hx as (t3 & t4 & tok & -> & (t & -> & ->)%exec_nowToken & Hx).
  apply exec_bind in Hx as (t5 & t6 & ns & -> & _ & Hx). apply patch_accepted in Hx as (base & new & [Hq Hnew] & Hg).
  exists t, base, new. split_and!; [set_solver|set_solver|..].
  - cbn in Hg. unfold Plugin.requireNotCluster in Hg. intros E. by rewrite bool_decide_true in Hg.
  - rewrite Hnew. case_decide as Ht; [rewrite bool_decide_true by done|rewrite bool_decide_false by done]; cbn [negb].
    + apply annotation_old. by simplify_map_eq.
    + apply annotation_new. by simplify_map_eq.
  - intros Hlast pw sts survey tr' o (u1 & u2 & [primary vc'] & -> & Hf & Hx)%exec_bind.
    pose proof (exec_reconcileFailover _ _ _ _ _ Hf) as (Hm & _ & Htok). cbn [snd] in Hm, Htok.
    assert (annotation vc' failoverAnnotation = rfc3339Nano t) as Ha.
    { unfold annotation. rewrite Hm. fold (annotation new failoverAnnotation). rewrite Hnew. apply annotation_new. destruct (_ != _); by simplify_map_eq. }
    cbv beta iota zeta in Hx. rewrite Ha in Hx. rewrite (bool_decide_false (rfc3339Nano t = "")) in Hx by (unfold rfc3339Nano; destruct (appendInt _ _); discriminate).
    rewrite Htok, Hnew in Hx. change (Status (Plugin.with_annotations base _)) with (Status base) in Hx.
    rewrite bool_decide_false in Hx by done. cbn [negb andb] in Hx. apply exec_bind in Hx as (u3 & u4 & m & -> & Hman & _).
    exists u1, u3, u4, primary, vc', m. split_and!; [done..|]. unfold annotation. by rewrite Hm.
Qed.

Lemma token_nonempty t : rfc3339Nano t ≠ "".
Proof. unfold rfc3339Nano. destruct (appendInt _ _); discriminate. Qed.

(** The other requests reach what they are for.  A successful [restart] gives the pod template a new
    annotation, the token; a successful [reshard] is of a cluster topology and makes the next step of
    a formed cluster with every pod ready run the reshard for its token, unless that was the last one
    handled; [hibernate on] sends the reconcile to hibernation whatever the annotations were before,
    and [hibernate off] away from it. *)
Theorem requests_reach_operator namespace cluster tr :
  (exec (Plugin.restartCmd namespace cluster) tr None →
   ∃ t base new, Ev ONow t ∈ tr ∧ Ev (OPatchCluster base new) None ∈ tr ∧
     ∀ hash, stsAnnotations new hash !! restartedAtPodAnnotation = Some (rfc3339Nano t)) ∧
  (exec (Plugin.reshardCmd namespace cluster) tr None →
   ∃ t base new, Ev ONow t ∈ tr ∧ Ev (OPatchCluster base new) None ∈ tr ∧ Spec_Topology (Spec new) = TopologyCluster ∧
     (Status_LastReshardToken (Status base) ≠ rfc3339Nano t → ∀ pw, reshardStep new pw true =
      (o ← runClusterReshard new pw (rfc3339Nano t); if handles o then mret (o, true) else mret (ok (out_vc o), false)))) ∧
  (exec (Plugin.hibernateCmd namespace "on" cluster) tr None →
   ∃ base new, Ev (OPatchCluster base new) None ∈ tr ∧ manage L new = reconcileHibernated (Default new)) ∧
  (exec (Plugin.hibernateCmd namespace "off" cluster) tr None →
   ∃ base new, Ev (OPatchCluster base new) None ∈ tr ∧ hibernated (Default new) = false).
Proof.
  split_and!; intros Hx.
  - apply exec_client in Hx as (t1 & t2 & -> & Hx). apply (exec_stamped _ _ (λ tok, {[Plugin.restartAnnotation := tok]})) in Hx as (t & base & new & Ht & [Hq Hnew] & _).
    exists t, base, new. split_and!; [set_solver|set_solver|]. intros hash. rewrite Hnew. unfold stsAnnotations.
    rewrite (annotation_new _ _ restartAnnotation (rfc3339Nano t)) by (by simplify_map_eq).
    rewrite bool_decide_false by apply token_nonempty. cbn [negb]. by rewrite lookup_insert_eq.
  - apply exec_client in Hx as (t1 & t2 & -> & Hx). apply (exec_stamped _ _ (λ tok, {[Plugin.reshardAnnotation := tok]})) in Hx as (t & base & new & Ht & [Hq Hnew] & Hg).
    exists t, base, new. split_and!; [set_solver|set_solver|..].
    + rewrite Hnew. cbn in Hg |- *. unfold Plugin.requireCluster in Hg. by case_bool_decide.
    + intros Hlast pw. rewrite Hnew. unfold reshardStep. cbv zeta. rewrite (annotation_new _ _ reshardAnnotation (rfc3339Nano t)) by (by simplify_map_eq).
      rewrite (bool_decide_false (rfc3339Nano t = "")) by apply token_nonempty. cbn [Status Plugin.with_annotations].
      by rewrite bool_decide_false.
  - unfold Plugin.hibernateCmd in Hx. rewrite bool_decide_true in Hx by done. apply exec_client in Hx as (t1 & t2 & -> & Hx).
    apply exec_bind in Hx as (t3 & t4 & ns & -> & _ & Hx). apply patch_accepted in Hx as (base & new & [Hq Hnew] & _).
    exists base, new. split; [set_solver|]. rewrite Hnew. unfold manage. cbv zeta. unfold hibernated. rewrite annotation_Default.
    by rewrite (annotation_new _ _ hibernateAnnotation valueTrue) by (by simplify_map_eq).
  - unfold Plugin.hibernateCmd in Hx. rewrite bool_decide_false, bool_decide_true in Hx by done. apply exec_client in Hx as (t1 & t2 & -> & Hx).
    apply exec_bind in Hx as (t3 & t4 & ns & -> & _ & Hx). apply patch_accepted in Hx as (base & new & [Hq Hnew] & _).
    exists base, new. split; [set_solver|]. rewrite Hnew. unfold hibernated. rewrite annotation_Default.
    by rewrite (annotation_new _ _ hibernateAnnotation "false") by (by simplify_map_eq).
Qed.
End reach.

(** ** An earlier target stays *)

(** The help text promises the most up-to-date replica when [--to] is absent; but a target named by an
    earlier request is never removed.  Once that pod is the primary, no replica is chosen, although
    there is one, and the manual failover does nothing at all. *)
Theorem stale_target_blocks_failover namespace cluster tr :
  exec (Plugin.failoverCmd namespace "" cluster) tr None →
  ∃ base new, Ev (OPatchCluster base new) None ∈ tr ∧ annotation new failoverTargetAnnotation = annotation base failoverTargetAnnotation ∧
    (∀ pw survey token p, annotation base failoverTargetAnnotation = podName new (pr_ordinal p) → p ∈ survey →
       (∀ s, s ∈ survey → podName new (pr_ordinal s) = podName new (pr_ordinal p) → s = p) → pr_role p = roleMaster →
       manualFailover new pw survey token = mret ("", new)).
Proof.
  intros (t1 & t2 & -> & Hx)%exec_client. apply exec_bind in Hx as (t3 & t4 & tok & -> & (t & -> & ->)%exec_nowToken & Hx).
  apply exec_bind in Hx as (t5 & t6 & ns & -> & _ & Hx). apply patch_accepted in Hx as (base & new & [Hq Hnew] & _).
  exists base, new. assert (annotation new failoverTargetAnnotation = annotation base failoverTargetAnnotation) as Ha.
  { rewrite Hnew. rewrite bool_decide_true by done. apply annotation_old. by simplify_map_eq. }
  split_and!; [set_solver|done|]. intros pw survey token p Hp Hin Huniq Hrole. unfold manualFailover. rewrite Ha, Hp. clear Hp Ha Hq Hnew.
  unfold pickFailoverTarget. rewrite bool_decide_false by (unfold podName; destruct (statefulSetName new); discriminate). cbn [negb].
  replace (findNamed new (podName new (pr_ordinal p)) survey) with (@None podRole); [done|]. symmetry. induction survey as [|s survey IH]; [by apply elem_of_nil in Hin|].
  cbn [findNamed]. case_bool_decide as E.
  - rewrite (Huniq s ltac:(left) E), Hrole. rewrite bool_decide_false by done. by rewrite andb_false_r.
  - apply IH; [|intros s' Hs'; apply Huniq; by right]. apply elem_of_cons in Hin as [->|]; done.
Qed.

(** ** Commands that look *)

(** The events of a command that changes nothing in the cluster: reads, and files it may write. *)
Definition looks (file : string → string → Z → Prop) (e : Event) : Prop :=
  match ev_op e with OWriteFile path data perm => file path data perm | op => reads op = true end.
Ltac look_op := apply spec_bind_op; [by intros ?|intros ?].
Lemma spec_newClient file (k : prog (option Plugin.CmdErr)) : spec k (looks file) (λ _, True) →
  spec (err ← Plugin.newClient; match err with Some err => mret (Some err) | None => k end) (looks file) (λ _, True).
Proof.
  intros Hk. eapply (spec_bind _ _ _ (λ _, True)); [unfold Plugin.newClient; look_op; destruct x; [by apply spec_ret|look_op; by apply spec_ret]|]. intros [e|] _; [by apply spec_ret|done].
Qed.
Lemma spec_resolve file ns (k : string → prog (option Plugin.CmdErr)) : (∀ n, spec (k n) (looks file) (λ _, True)) →
  spec (n ← Plugin.resolveNamespace ns; k n) (looks file) (λ _, True).
Proof.
  intros Hk. eapply (spec_bind _ _ _ (λ _, True)); [|intros; apply Hk]. unfold Plugin.resolveNamespace.
  destruct (_ != _); [by apply spec_ret|]. look_op. by apply spec_ret.
Qed.

Lemma spec_writeCerts sec outDir files wrote :
  spec (Plugin.writeCerts sec outDir files wrote)
    (looks (λ path data perm, ∃ f, f ∈ files ∧ path = Plugin.joinPath outDir f ∧ sec_Data sec !! f = Some data ∧ data ≠ "" ∧ perm = 384%Z)) (λ _, True).
Proof.
  revert wrote; induction files as [|f files IH]; intros wrote; cbn [Plugin.writeCerts]; [by apply spec_ret|]. cbv zeta.
  assert (∀ w, spec (Plugin.writeCerts sec outDir files w) (looks (λ path data perm, ∃ g, g ∈ f :: files ∧ path = Plugin.joinPath outDir g ∧
    sec_Data sec !! g = Some data ∧ data ≠ "" ∧ perm = 384%Z)) (λ _, True)) as IH'.
  { intros w. eapply spec_mono; [apply IH| |done]. intros [op x]. unfold looks. cbn. destruct op; try done.
    intros (g & ? & ?). exists g. split; [by right|done]. }
  case_bool_decide as E; [apply IH'|]. apply spec_bind_op.
  - intros x. unfold looks. cbn. exists f. unfold map_get in *. destruct (sec_Data sec !! f); [|done]. split; [left|done].
  - intros [e|]; [by apply spec_ret|apply IH'].
Qed.

Lemma exec_newClient tr e : exec Plugin.newClient tr e → Forall (λ e, ev_op e = OKubeconfig ∨ ev_op e = ONewClient) tr.
Proof.
  intros (t1 & t2 & x & -> & ->%exec_perform & Hx)%exec_bind. destruct x; [apply exec_ret in Hx as [-> <-]; by repeat constructor|].
  apply exec_bind in Hx as (t3 & t4 & x & -> & ->%exec_perform & [-> <-]%exec_ret). apply Forall_cons_2; [by left|]. apply Forall_cons_2; [by right|done].
Qed.
Lemma exec_resolve flag tr n : exec (Plugin.resolveNamespace flag) tr n → Forall (λ e, ev_op e = OContextNamespace) tr.
Proof.
  unfold Plugin.resolveNamespace. destruct (_ != _); [by intros [-> _]%exec_ret|].
  intros (t1 & t2 & x & -> & ->%exec_perform & [-> <-]%exec_ret)%exec_bind. by repeat constructor.
Qed.
Lemma spec_exportCertificate sec secName outDir :
  spec (Plugin.exportCertificate sec secName outDir)
    (looks (λ path data perm, outDir ≠ "" ∧ perm = 384%Z ∧ ∃ f, f ∈ ["ca.crt"; "tls.crt"; "tls.key"] ∧ path = Plugin.joinPath outDir f ∧
       sec_Data sec !! f = Some data)) (λ _, True).
Proof.
  unfold Plugin.exportCertificate. cbv zeta. case_bool_decide as Ho.
  - case_bool_decide; [by apply spec_ret|]. look_op. by apply spec_ret.
  - look_op. destruct x as [e|]; [by apply spec_ret|]. eapply (spec_bind _ _ _ (λ _, True)).
    + eapply spec_mono; [apply spec_writeCerts| |done]. intros [op x]. unfold looks. cbn. destruct op; try done.
      intros (f & Hf & -> & Hd & _ & ->). split_and!; [done..|]. by exists f.
    + intros [err|wrote] _; [by apply spec_ret|]. case_bool_decide; [by apply spec_ret|]. look_op. by apply spec_ret.
Qed.

(** [certificate] touches nothing in the cluster, and hands out key material with care: without an
    output directory it prints the CA and writes no file; with one it writes at most [ca.crt],
    [tls.crt] and [tls.key] into it, each with exactly the Secret's bytes and readable by its owner
    only (mode 0600).  The Secret is the one the operator mounts. *)
Theorem certificate_exports ns name outDir tr r : exec (Plugin.certificateCmd ns outDir name) tr r →
  Forall (looks (λ path data perm, outDir ≠ "" ∧ perm = 384%Z ∧ ∃ n vc sec f,
    Ev (OGetCluster n name) (inr vc) ∈ tr ∧ tlsEnabled vc = true ∧ Ev (OGetSecret n (tlsSecretName vc)) (inr sec) ∈ tr ∧
    f ∈ ["ca.crt"; "tls.crt"; "tls.key"] ∧ path = Plugin.joinPath outDir f ∧ sec_Data sec !! f = Some data)) tr.
Proof.
  intros (t1 & t2 & e & -> & Hc%exec_newClient & Hx)%exec_bind. apply Forall_app.
  split; [eapply Forall_impl; [exact Hc|]; intros [op y] [Hop|Hop]; unfold looks; by rewrite Hop|]. clear Hc.
  destruct e as [e|]; [by apply exec_ret in Hx as [-> _]|]. apply exec_bind in Hx as (t3 & t4 & n & -> & Hn%exec_resolve & Hx).
  apply Forall_app. split; [eapply Forall_impl; [exact Hn|]; intros [op y] Hop; unfold looks; by rewrite Hop|]. clear Hn.
  apply exec_bind in Hx as (t5 & t6 & g & -> & ->%exec_perform & Hx). apply Forall_cons. split; [done|].
  destruct g as [ge|vc]; [by apply exec_ret in Hx as [-> _]|]. destruct (Plugin.tlsOn vc) eqn:Htls; cbn [negb] in Hx; [|by apply exec_ret in Hx as [-> _]].
  cbv zeta in Hx. apply exec_bind in Hx as (t7 & t8 & s & -> & ->%exec_perform & Hx). apply Forall_cons. split; [done|].
  destruct s as [se|sec]; [by apply exec_ret in Hx as [-> _]|]. apply spec_exportCertificate in Hx as [Hx _].
  eapply Forall_impl; [exact Hx|]. intros [op y]. unfold looks. cbn [ev_op]. destruct op; try done.
  intros (Ho & Hp & f & Hf & Hpath & Hd). split_and!; [done..|]. exists n, vc, sec, f. split_and!; try done; set_solver.
Qed.

Definition reportDir (outDir name : string) : string := if outDir == "" then "valkey-report-" +:+ name else outDir.
Section report.
Context (marshal : Plugin.Dump → error + string).
(** What a report may write: YAML of what was read, under one of its seven names. *)
Definition reportFile (dir path data : string) (perm : Z) : Prop :=
  perm = 420%Z ∧ ∃ file o, path = Plugin.joinPath dir file ∧ marshal o = inr data ∧
    file ∈ ["cluster.yaml"; "statefulsets.yaml"; "services.yaml"; "configmaps.yaml"; "poddisruptionbudgets.yaml"; "pods.yaml"; "events.yaml"].
Lemma spec_writeYAML dir file o :
  file ∈ ["cluster.yaml"; "statefulsets.yaml"; "services.yaml"; "configmaps.yaml"; "poddisruptionbudgets.yaml"; "pods.yaml"; "events.yaml"] →
  spec (Plugin.writeYAML marshal dir file o) (looks (reportFile dir)) (λ _, True).
Proof.
  intros Hf. unfold Plugin.writeYAML. destruct (marshal o) as [e|b] eqn:E; [by apply spec_ret|].
  apply spec_bind_op; [|intros; by apply spec_ret]. intros x. unfold looks. cbn. split; [done|]. by exists file, o.
Qed.
Lemma spec_dumpList {A} dir file (dump : list A → Plugin.Dump) r files (k : Z → prog (option Plugin.CmdErr)) :
  file ∈ ["cluster.yaml"; "statefulsets.yaml"; "services.yaml"; "configmaps.yaml"; "poddisruptionbudgets.yaml"; "pods.yaml"; "events.yaml"] →
  (∀ n, spec (k n) (looks (reportFile dir)) (λ _, True)) →
  spec (n ← Plugin.dumpList marshal dir file dump r files; k n) (looks (reportFile dir)) (λ _, True).
Proof.
  intros Hf Hk. eapply (spec_bind _ _ _ (λ _, True)); [|intros; apply Hk]. unfold Plugin.dumpList. destruct r as [e|[|x l]]; try by apply spec_ret.
  eapply (spec_bind _ _ _ (λ _, True)); [by apply spec_writeYAML|]. intros. by apply spec_ret.
Qed.

(** [status] and [report] change nothing in the cluster, whatever the API server answers: [status] also
    writes no file, and [report] writes only YAML of what it read, under its own file names in its
    directory. *)
Theorem diagnostics_read_only ns outDir name :
  spec (Plugin.runStatus ns name) (looks (λ _ _ _, False)) (λ _, True) ∧
  spec (Plugin.reportCmd marshal ns outDir name) (looks (reportFile (reportDir outDir name))) (λ _, True).
Proof.
  split.
  - apply spec_newClient, spec_resolve. intros n. look_op. destruct x; [by apply spec_ret|]. look_op. by apply spec_ret.
  - apply spec_newClient. unfold Plugin.runReport. apply spec_resolve. intros n. cbv zeta. fold (reportDir outDir name). look_op.
    destruct x as [e|]; [by apply spec_ret|]. look_op. destruct x as [e|vc]; [by apply spec_ret|].
    eapply (spec_bind _ _ _ (λ _, True)); [apply spec_writeYAML; set_solver|]. intros [err|] _; [by apply spec_ret|].
    do 6 (look_op; apply spec_dumpList; [set_solver|]; intros ?). look_op. by apply spec_ret.
Qed.
End report.

(** ** The report of [status] *)
Definition conditionRow (c : Condition) : list string := ["  " +:+ cond_Type c; cond_Status c; cond_Reason c; cond_Message c].
Definition shardRow (s : ShardStatus) : list string :=
  ["  " +:+ Itoa (Shard_Index s); Plugin.orDash (Shard_Primary s); Plugin.joinOrDash (Shard_Replicas s); Itoa (Shard_SlotCount s);
   Plugin.orDash (Shard_Health s); Itoa (Shard_MaxLagBytes s)].
Lemma conditionLine_row c : Plugin.conditionLine c = rowText (conditionRow c).
Proof. unfold Plugin.conditionLine, rowText, conditionRow. cbn [join]. by rewrite <- !str_app_assoc. Qed.
Lemma shardLine_row s : Plugin.shardLine s = rowText (shardRow s).
Proof. unfold Plugin.shardLine, rowText, shardRow. cbn [join]. by rewrite <- !str_app_assoc. Qed.
Lemma concat_rows {A} (line : A → string) row l : (∀ x, line x = rowText (row x)) → Plugin.concatS (line <$> l) = tableText (row <$> l).
Proof. intros H. induction l as [|x l IH]; [done|]. cbn. by rewrite H, <- IH. Qed.

Definition plainCondition (c : Condition) : bool :=
  (plain (cond_Type c) && plain (cond_Status c) && plain (cond_Reason c) && plain (cond_Message c))%bool.
Definition plainShard (s : ShardStatus) : bool :=
  (plain (Shard_Primary s) && forallb plain (Shard_Replicas s) && plain (Shard_Health s))%bool.
Lemma plain_app s t : plain (s +:+ t) = (plain s && plain t)%bool.
Proof. apply str_forall_app. Qed.
Lemma plain_digit c : is_digit c = true → negb ((9 <=? Ascii.nat_of_ascii c) && (Ascii.nat_of_ascii c <=? 12))%nat%bool = true.
Proof. by destruct c as [[] [] [] [] [] [] [] []]. Qed.
Lemma plain_Itoa n : plain (Itoa n) = true.
Proof.
  assert (∀ n, (0 ≤ n)%Z → plain (Itoa n) = true) as H.
  { intros m Hm. eapply str_forall_impl; [|by apply Itoa_digits]. apply plain_digit. }
  destruct n as [|p|p]; [done|by apply H|]. change (Itoa (Z.neg p)) with ("-" +:+ Itoa (Z.pos p)). rewrite plain_app. by apply H.
Qed.
Lemma plain_orDash s : plain s = true → plain (Plugin.orDash s) = true.
Proof. unfold Plugin.orDash. by case_bool_decide. Qed.
Lemma plain_join l : forallb plain l = true → plain (join "," l) = true.
Proof.
  induction l as [|x l IH]; [done|]. cbn [forallb]. intros [Hx Hl]%andb_true_iff. destruct l as [|y l]; [done|].
  change (join "," (x :: y :: l)) with (x +:+ "," +:+ join "," (y :: l)). rewrite !plain_app, Hx, IH by done. done.
Qed.
Lemma plain_joinOrDash l : forallb plain l = true → plain (Plugin.joinOrDash l) = true.
Proof. unfold Plugin.joinOrDash. case_bool_decide; [done|apply plain_join]. Qed.
#[local] Hint Resolve plain_Itoa plain_orDash plain_joinOrDash : core.

(** C28: [status] prints tables: unless some text holds a control character, its conditions and its shards
    come out one to a line under their headings, in the order of the status, every column as wide as
    its widest entry and two spaces. *)
Theorem status_tables vc :
  Forall (λ c, plainCondition c = true) (Status_Conditions (Status vc)) → Forall (λ s, plainShard s = true) (Status_ShardDetails (Status vc)) →
  Plugin.formatStatus vc = Plugin.statusHead vc +:+
    (if decide (Status_Conditions (Status vc) = []) then ""
     else nl +:+ "Conditions:" +:+ nl +:+
       renderTable 4 (["  TYPE"; "STATUS"; "REASON"; "MESSAGE"] :: (conditionRow <$> Status_Conditions (Status vc)))) +:+
    (if decide (Status_ShardDetails (Status vc) = []) then ""
     else nl +:+ "Shards:" +:+ nl +:+
       renderTable 6 (["  #"; "PRIMARY"; "REPLICAS"; "SLOTS"; "HEALTH"; "LAG(bytes)"] :: (shardRow <$> Status_ShardDetails (Status vc)))).
Proof.
  intros Hc Hs. unfold Plugin.formatStatus. f_equal. f_equal.
  - revert Hc. generalize (Status_Conditions (Status vc)) as cs. intros cs Hc. unfold Plugin.conditionsText.
    destruct cs as [|c cs]; [by rewrite decide_True|]. rewrite decide_False by done. change (0 <? length (c :: cs)) with true. cbv iota.
    rewrite (concat_rows _ _ _ conditionLine_row). do 3 f_equal. rewrite <- (tabulate_table 4); [done|lia|].
    apply Forall_cons. split; [by repeat constructor|]. apply Forall_fmap. eapply Forall_impl; [exact Hc|].
    intros x Hx. unfold plainCondition in Hx. rewrite !andb_true_iff in Hx. destruct Hx as [[[? ?] ?] ?]. split; [done|]. by repeat constructor.
  - revert Hs. generalize (Status_ShardDetails (Status vc)) as ss. intros ss Hs. unfold Plugin.shardsText.
    destruct ss as [|x ss]; [by rewrite decide_True|]. rewrite decide_False by done. change (0 <? length (x :: ss)) with true. cbv iota.
    rewrite (concat_rows _ _ _ shardLine_row). do 3 f_equal. rewrite <- (tabulate_table 6); [done|lia|].
    apply Forall_cons. split; [by repeat constructor|]. apply Forall_fmap. eapply Forall_impl; [exact Hs|].
    intros y Hy. unfold plainShard in Hy. rewrite !andb_true_iff in Hy. destruct Hy as [[? ?] ?]. split; [done|]. repeat constructor; auto.
    change (plain (Itoa (Shard_Index y)) = true). auto.
Qed.

(** ** cli *)

(** [cli] leaves the cluster to kubectl: what it runs is [kubectl exec] into one pod with the cluster's own
    port and flags, with a password only when auth is on, and then the one of the operator's Secret. *)
Theorem cli_execs ns name pod extra tr r : exec (Plugin.runCli ns name pod extra) tr r →
  Forall (λ e, match ev_op e with
    | OExec _ args => ∃ n vc pw, Ev (OGetCluster n name) (inr vc) ∈ tr ∧
        args = Plugin.buildCliExecArgs vc n (if pod == "" then Plugin.targetPod vc else pod) pw extra ∧
        (if AuthEnabled (Spec vc) then ∃ sec, Ev (OGetSecret n (authSecretName vc)) (inr sec) ∈ tr ∧ pw = map_get (sec_Data sec) secretKeyPassword else pw = "")
    | op => reads op = true end) tr.
Proof.
  intros (t1 & t2 & e & -> & Hc%exec_newClient & Hx)%exec_bind. apply Forall_app.
  split; [eapply Forall_impl; [exact Hc|]; intros [op y] [Hop|Hop]; by rewrite Hop|]. clear Hc.
  destruct e as [e|]; [by apply exec_ret in Hx as [-> _]|]. apply exec_bind in Hx as (t3 & t4 & n & -> & Hn%exec_resolve & Hx).
  apply Forall_app. split; [eapply Forall_impl; [exact Hn|]; intros [op y] Hop; by rewrite Hop|]. clear Hn.
  apply exec_bind in Hx as (t5 & t6 & g & -> & ->%exec_perform & Hx). apply Forall_cons. split; [done|].
  destruct g as [ge|vc]; [by apply exec_ret in Hx as [-> _]|]. cbv zeta in Hx.
  assert (∀ pw tr', exec (Plugin.execCli vc n (if pod == "" then Plugin.targetPod vc else pod) pw extra) tr' r →
    Forall (λ e, ev_op e = OLookPath "kubectl" ∨
      ∃ k, ev_op e = OExec k (Plugin.buildCliExecArgs vc n (if pod == "" then Plugin.targetPod vc else pod) pw extra)) tr') as Hexec.
  { intros pw tr' (u1 & u2 & k & -> & ->%exec_perform & Hk)%exec_bind. apply Forall_cons. split; [by left|].
    destruct k as [ke|k]; [by apply exec_ret in Hk as [-> _]|]. apply exec_bind in Hk as (u3 & u4 & y & -> & ->%exec_perform & [-> _]%exec_ret).
    apply Forall_cons. split; [|done]. right. by exists k. }
  unfold Plugin.authOn in Hx. destruct (AuthEnabled (Spec vc)) eqn:Ha.
  - apply exec_bind in Hx as (t7 & t8 & s & -> & ->%exec_perform & Hx). apply Forall_cons. split; [done|].
    destruct s as [se|sec]; [by apply exec_ret in Hx as [-> _]|]. eapply Forall_impl; [by apply Hexec|]. intros [op y] [Hop|[k Hop]]; rewrite Hop; [done|].
    eexists n, vc, _. rewrite Ha. split_and!; [set_solver|done|]. exists sec. split; [|done]. change (authSecretName vc) with (Plugin.passwordSecretName vc). set_solver.
  - eapply Forall_impl; [by apply Hexec|]. intros [op y] [Hop|[k Hop]]; rewrite Hop; [done|]. eexists n, vc, "". rewrite Ha. split_and!; [set_solver|done..].
Qed.

(** In the per-shard layout the default pod of [cli] is no pod of the cluster: they are named after the
    StatefulSets of the shards. *)
Theorem cli_misses_sharded_pods vc : perShardEnabled vc = true → ∀ shard ord, Plugin.targetPod vc ≠ shardStsName vc shard +:+ "-" +:+ Itoa ord.
Proof.
  unfold perShardEnabled, Plugin.targetPod, shardStsName. intros [Ht _]%andb_true_iff shard ord. rewrite Ht. cbn [negb andb].
  rewrite <- !str_app_assoc. intros H. apply str_app_inj_1 in H as [_ H]; [|done]. discriminate.
Qed.

(** ** Concrete runs *)

(** A desk with a kubeconfig, and a cluster it names. *)
Definition demoTLSCluster (topology : Topology) : ValkeyCluster :=
  with_spec (newCluster "web" "prod" zeroSpec)
    (λ s, set_Spec_Topology topology (set_Spec_TLS (Some {| TLS_Enabled := true; TLS_IssuerRef := None; TLS_ExistingSecret := ""; TLS_MutualTLS := false |}) s)).
Definition demoTLSSecret : Secret := {|
  sec_Name := "web-tls"; sec_Namespace := "prod"; sec_Labels := ∅; sec_Data := {["ca.crt" := "CA"; "tls.key" := "KEY"]} |}.
Definition desk (topology : Topology) (op : Op) : () → ans op * () :=
  match op return () → ans op * () with
  | OGetCluster _ _ => λ w, (inr (demoTLSCluster topology), w)
  | OGetSecret _ _ => λ w, (inr demoTLSSecret, w)
  | OContextNamespace => λ w, (inr "prod", w)
  | ONow => λ w, (1709210096120000000%Z, w)
  | _op => λ w, (inhabitant, w)
  end.

Lemma request_is_annotations_witness :
  let tr := trace (desk TopologyReplication) (Plugin.patchClusterAnnotations "prod" "web" {[failoverAnnotation := "t"]} (Some Plugin.requireNotCluster) "m") tt in
  ∃ base new, Ev (OPatchCluster base new) None ∈ tr.
Proof.
  intros tr. pose proof (run_exec (desk TopologyReplication)
    (Plugin.patchClusterAnnotations "prod" "web" {[failoverAnnotation := "t"]} (Some Plugin.requireNotCluster) "m") tt) as Hx.
  destruct (request_is_annotations _ _ _ _ _ _ _ Hx) as (_ & _ & Hr). apply Hr. vm_compute. reflexivity.
Defined.
Lemma failover_reaches_operator_witness :
  let tr := trace (desk TopologyReplication) (Plugin.failoverCmd "" "web-2" "web") tt in
  ∃ base new, Ev (OPatchCluster base new) None ∈ tr ∧ annotation new failoverTargetAnnotation = "web-2".
Proof.
  intros tr. pose proof (run_exec (desk TopologyReplication) (Plugin.failoverCmd "" "web-2" "web") tt) as Hx.
  assert ((run (desk TopologyReplication) (Plugin.failoverCmd "" "web-2" "web") tt).1 = None) as E by (vm_compute; reflexivity). rewrite E in Hx.
  destruct (failover_reaches_operator "" "web-2" "web" _ Hx) as (t & base & new & _ & Hp & _ & Ha & _). exists base, new. split; [exact Hp|exact Ha].
Defined.
Lemma requests_reach_operator_witness :
  let tr := trace (desk TopologyCluster) (Plugin.reshardCmd "" "web") tt in
  ∃ base new, Ev (OPatchCluster base new) None ∈ tr ∧ Spec_Topology (Spec new) = TopologyCluster.
Proof.
  intros tr. pose proof (run_exec (desk TopologyCluster) (Plugin.reshardCmd "" "web") tt) as Hx.
  assert ((run (desk TopologyCluster) (Plugin.reshardCmd "" "web") tt).1 = None) as E by (vm_compute; reflexivity). rewrite E in Hx.
  destruct (proj1 (proj2 (requests_reach_operator demoLibs "" "web" _)) Hx) as (t & base & new & _ & Hp & Ht & _). exists base, new. split; [exact Hp|exact Ht].
Defined.
Lemma certificate_exports_witness :
  let tr := trace (desk TopologyReplication) (Plugin.certificateCmd "" "out/" "web") tt in
  Ev (OWriteFile "out/tls.key" "KEY" 384) None ∈ tr ∧
  Forall (λ e, match ev_op e with OWriteFile _ _ perm => perm = 384%Z | op => reads op = true end) tr.
Proof.
  intros tr. split; [vm_compute; do 7 right; left|].
  pose proof (certificate_exports "" "web" "out/" _ _ (run_exec (desk TopologyReplication) (Plugin.certificateCmd "" "out/" "web") tt)) as H.
  eapply Forall_impl; [exact H|]. intros [op x]. unfold looks. cbn. destruct op; try done. by intros (_ & Hp & _).
Defined.
Lemma status_tables_witness :
  let vc := with_status (demoTLSCluster TopologyReplication) (set_Status_Conditions
    [{| cond_Type := "Ready"; cond_Status := "True"; cond_Reason := "AllPodsReady"; cond_Message := "ok"; cond_ObservedGeneration := 1; cond_LastTransitionTime := 0 |}]) in
  Plugin.formatStatus vc = Plugin.statusHead vc +:+ nl +:+ "Conditions:" +:+ nl +:+
    "  TYPE   STATUS  REASON        MESSAGE" +:+ nl +:+ "  Ready  True    AllPodsReady  ok" +:+ nl.
Proof. intros vc. rewrite (status_tables vc); [vm_compute; reflexivity|by repeat constructor|by constructor]. Defined.
