(* ===== verification/Commands.v ===== *)
(** * Commands: the command tree of the kubectl plugin (cmd/kubectl-valkey/main.go and the new...Cmd constructors)

    Each constructor builds a cobra command: the word it is called by, the number of arguments it takes,
    its flags (all strings, empty by default) and the function it runs.  Cobra itself is the class
    [Cobra]: which command a command line leads to, as its documentation says.  The theorems follow
    a line typed at the terminal to the reconcile that honours it.  Left out are the help texts and
    the printing of an error. *)

From S2P Require Import Prelude GoStd Kube Api Effects Naming Failover Rollout Status Scaling Workload Controller TimeFormat Plugin.

(** ** The tree *)
Inductive PositionalArgs := ExactArgs (n : nat) | MinimumNArgs (n : nat).
Definition argsOk (a : PositionalArgs) (args : list string) : bool :=
  match a with ExactArgs n => length args =? n | MinimumNArgs n => n <=? length args end.
Record Flag := { fl_Name : string; fl_Shorthand : string }.
(** [RunE] gets the flags that were given; [None] is the panic of an index out of range. *)
Record Command := {
  cmd_Use : string;
  cmd_Aliases : list string;
  cmd_Args : PositionalArgs;
  cmd_Flags : list Flag;
  cmd_RunE : gmap string string → list string → option (prog (option Plugin.CmdErr))
}.
(** [Command.Name]: [Use] up to the first space. *)
Definition cmd_Name (c : Command) : string := match cut_byte " "%char (cmd_Use c) with Some (name, _) => name | None => cmd_Use c end.
Definition cmd_Words (c : Command) : list string := cmd_Name c :: cmd_Aliases c.

Definition namespaceFlag : Flag := {| fl_Name := "namespace"; fl_Shorthand := "n" |}.
Definition outputDirFlag : Flag := {| fl_Name := "output-dir"; fl_Shorthand := "o" |}.
Definition namespaceOf (flags : gmap string string) : string := map_get flags "namespace".

Definition newStatusCmd : Command := {|
  cmd_Use := "status <cluster>"; cmd_Aliases := []; cmd_Args := ExactArgs 1; cmd_Flags := [namespaceFlag];
  cmd_RunE flags args := cluster ← args !! 0; Some (Plugin.runStatus (namespaceOf flags) cluster) |}.
Definition newCliCmd : Command := {|
  cmd_Use := "cli <cluster> [-- valkey-cli args...]"; cmd_Aliases := ["exec"]; cmd_Args := MinimumNArgs 1;
  cmd_Flags := [namespaceFlag; {| fl_Name := "pod"; fl_Shorthand := "" |}];
  cmd_RunE flags args := cluster ← args !! 0; Some (Plugin.runCli (namespaceOf flags) cluster (map_get flags "pod") (drop 1 args)) |}.
Definition newBackupCmd : Command := {|
  cmd_Use := "backup <cluster>"; cmd_Aliases := []; cmd_Args := ExactArgs 1; cmd_Flags := [namespaceFlag];
  cmd_RunE flags args := cluster ← args !! 0; Some (Plugin.runBackup (namespaceOf flags) cluster) |}.
Definition newRestartCmd : Command := {|
  cmd_Use := "restart <cluster>"; cmd_Aliases := []; cmd_Args := ExactArgs 1; cmd_Flags := [namespaceFlag];
  cmd_RunE flags args := cluster ← args !! 0; Some (Plugin.restartCmd (namespaceOf flags) cluster) |}.
Definition newReshardCmd : Command := {|
  cmd_Use := "reshard <cluster>"; cmd_Aliases := []; cmd_Args := ExactArgs 1; cmd_Flags := [namespaceFlag];
  cmd_RunE flags args := cluster ← args !! 0; Some (Plugin.reshardCmd (namespaceOf flags) cluster) |}.
Definition newFailoverCmd : Command := {|
  cmd_Use := "failover <cluster>"; cmd_Aliases := []; cmd_Args := ExactArgs 1;
  cmd_Flags := [namespaceFlag; {| fl_Name := "to"; fl_Shorthand := "" |}];
  cmd_RunE flags args := cluster ← args !! 0; Some (Plugin.failoverCmd (namespaceOf flags) (map_get flags "to") cluster) |}.
Definition newCertificateCmd : Command := {|
  cmd_Use := "certificate <cluster>"; cmd_Aliases := []; cmd_Args := ExactArgs 1; cmd_Flags := [namespaceFlag; outputDirFlag];
  cmd_RunE flags args := cluster ← args !! 0; Some (Plugin.certificateCmd (namespaceOf flags) (map_get flags "output-dir") cluster) |}.
Definition newHibernateCmd : Command := {|
  cmd_Use := "hibernate <on|off> <cluster>"; cmd_Aliases := []; cmd_Args := ExactArgs 2; cmd_Flags := [namespaceFlag];
  cmd_RunE flags args := onOff ← args !! 0; cluster ← args !! 1; Some (Plugin.hibernateCmd (namespaceOf flags) onOff cluster) |}.
Definition newReportCmd (marshal : Plugin.Dump → error + string) : Command := {|
  cmd_Use := "report <cluster>"; cmd_Aliases := []; cmd_Args := ExactArgs 1; cmd_Flags := [namespaceFlag; outputDirFlag];
  cmd_RunE flags args := cluster ← args !! 0; Some (Plugin.reportCmd marshal (namespaceOf flags) (map_get flags "output-dir") cluster) |}.
Definition commandTree (marshal : Plugin.Dump → error + string) : list Command :=
  [newStatusCmd; newCliCmd; newBackupCmd; newRestartCmd; newReshardCmd; newFailoverCmd; newCertificateCmd; newHibernateCmd; newReportCmd marshal].

(** ** Cobra *)

(** The help is shown, the line is refused, or a command is run with flags and arguments. *)
Inductive Parsed := PHelp | PError (e : error) | PCall (c : Command) (flags : gmap string string) (args : list string).
Definition flagWord (f : string * string) : string := "--" +:+ f.1 +:+ "=" +:+ f.2.
Definition positional (s : string) : bool := negb (has_prefix s "-").
(** A command is found among the subcommands by its name or an alias; [--name=value] sets one of its flags,
    a word without a leading hyphen is an argument, and so is everything after [--]; arguments are
    counted before the command runs. *)
Class Cobra := {
  execute : list Command → list string → Parsed;
  execute_call cmds argv c flags args : execute cmds argv = PCall c flags args → c ∈ cmds ∧ argsOk (cmd_Args c) args = true;
  execute_line cmds word c fs args rest :
    c ∈ cmds → word ∈ cmd_Words c → (∀ c', c' ∈ cmds → word ∈ cmd_Words c' → c' = c) →
    positional word = true → NoDup fs.*1 → Forall (λ f, f.1 ∈ fl_Name <$> cmd_Flags c ∧ lacks "="%char f.1 = true) fs →
    forallb positional args = true → argsOk (cmd_Args c) (args ++ rest) = true →
    execute cmds (word :: (flagWord <$> fs) ++ args ++ (if rest is [] then [] else "--" :: rest)) = PCall c (list_to_map fs) (args ++ rest)
}.

(** [root.Execute] and the exit code. *)
Definition exitCode (e : option Plugin.CmdErr) : Z := match e with Some _ => 1 | None => 0 end.
Definition main `{Cobra} (marshal : Plugin.Dump → error + string) (argv : list string) : prog Z :=
  match execute (commandTree marshal) argv with
  | PHelp => mret 0%Z
  | PError _ => mret 1%Z
  | PCall c flags args => match cmd_RunE c flags args with Some run => e ← run; mret (exitCode e) | None => mret 2%Z end
  end.

(** ** A line and the command it names *)
Lemma concat_unique {A B} (f : A → list B) l a b x : NoDup (concat (f <$> l)) → a ∈ l → b ∈ l → x ∈ f a → x ∈ f b → b = a.
Proof.
  assert (∀ l c, c ∈ l → x ∈ f c → x ∈ concat (f <$> l)) as Hin.
  { clear. intros l c Hc Hx. apply list_elem_of_In, in_concat. exists (f c). split; apply list_elem_of_In; [by apply list_elem_of_fmap_2|done]. }
  induction l as [|c l IH]; cbn; [by rewrite elem_of_nil|]. intros (_ & Hd & Hn)%NoDup_app. rewrite !elem_of_cons. intros [->|Ha] [->|Hb] Hxa Hxb; auto.
  - destruct (Hd x Hxa). by eapply Hin.
  - destruct (Hd x Hxb). by eapply Hin.
Qed.
Lemma tree_words marshal word c c' : c ∈ commandTree marshal → c' ∈ commandTree marshal → word ∈ cmd_Words c → word ∈ cmd_Words c' → c' = c.
Proof. apply concat_unique. apply (bool_decide_eq_true_1 (NoDup _)). vm_compute. reflexivity. Qed.
Lemma in_tree marshal i c : commandTree marshal !! i = Some c → c ∈ commandTree marshal.
Proof. apply list_elem_of_lookup_2. Qed.
(** The arguments a command accepts are the arguments it indexes. *)
Lemma tree_total marshal c flags args : c ∈ commandTree marshal → argsOk (cmd_Args c) args = true → is_Some (cmd_RunE c flags args).
Proof.
  unfold commandTree. rewrite !elem_of_cons, elem_of_nil. intros Hc Ha. destruct args as [|x [|y [|z args]]];
    repeat match goal with H : _ ∨ _ |- _ => destruct H as [->|H] | H : False |- _ => destruct H end; cbn in *; try discriminate; eauto.
Qed.

Section lines.
Context `{Cobra} (marshal : Plugin.Dump → error + string).

(** No command line makes the plugin panic: it exits with 0 or 1. *)
Theorem main_exits argv tr n : exec (main marshal argv) tr n → n = 0%Z ∨ n = 1%Z.
Proof.
  unfold main. destruct (execute _ argv) as [|e|c flags args] eqn:E; intros Hx; [by apply exec_ret in Hx as [_ <-]; auto..|].
  apply execute_call in E as [Hc Ha]. destruct (tree_total marshal c flags args Hc Ha) as [p Hp]. rewrite Hp in Hx.
  apply exec_bind in Hx as (t1 & t2 & r & -> & _ & [_ <-]%exec_ret). destruct r; auto.
Qed.
(** A line in the documented form runs the command it names. *)
Lemma main_line word c fs args rest p : c ∈ commandTree marshal → word ∈ cmd_Words c → positional word = true → NoDup fs.*1 →
  Forall (λ f, f.1 ∈ fl_Name <$> cmd_Flags c ∧ lacks "="%char f.1 = true) fs → forallb positional args = true →
  argsOk (cmd_Args c) (args ++ rest) = true → cmd_RunE c (list_to_map fs) (args ++ rest) = Some p →
  main marshal (word :: (flagWord <$> fs) ++ args ++ (if rest is [] then [] else "--" :: rest)) = (e ← p; mret (exitCode e)).
Proof.
  intros Hc Hw Hpos Hnd Hf Hp Ha Hr. unfold main. rewrite (execute_line _ word c fs args rest); try done; [by rewrite Hr|].
  intros c' Hc' Hw'. by eapply tree_words.
Qed.
Lemma exec_exit p tr : exec (e ← p; mret (exitCode e)) tr 0%Z → exec p tr None.
Proof. intros (t1 & t2 & e & -> & Hx & [-> He]%exec_ret)%exec_bind. rewrite app_nil_r. by destruct e. Qed.

(** A flag that may be left out. *)
Definition given (name : string) (v : option string) : list (string * string) := match v with Some v => [(name, v)] | None => [] end.
Definition requestLine (word : string) (ns : option string) (more : list (string * string)) (args : list string) : list string :=
  word :: (flagWord <$> given "namespace" ns ++ more) ++ args.
Lemma given_get ns : namespaceOf (list_to_map (given "namespace" ns)) = default "" ns.
Proof. destruct ns; cbn; [|done]. unfold namespaceOf, map_get. by rewrite lookup_insert_eq. Qed.
Lemma exec_line word c ns args p tr : c ∈ commandTree marshal → word ∈ cmd_Words c → positional word = true → "namespace" ∈ fl_Name <$> cmd_Flags c →
  forallb positional args = true → argsOk (cmd_Args c) args = true → (∀ fl, namespaceOf fl = default "" ns → cmd_RunE c fl args = Some p) →
  exec (main marshal (requestLine word ns [] args)) tr 0%Z → exec p tr None.
Proof.
  intros Hc Hw Hpos Hf Hp Ha Hr. unfold requestLine. rewrite app_nil_r. pose proof (main_line word c (given "namespace" ns) args [] p) as E.
  rewrite !app_nil_r in E. rewrite E; [apply exec_exit|try done..].
  - destruct ns; cbn; [apply NoDup_singleton|apply NoDup_nil_2].
  - destruct ns; cbn; repeat constructor; done.
  - apply Hr, given_get.
Qed.
Lemma exec_failoverLine ns to cluster tr : positional cluster = true →
  exec (main marshal (requestLine "failover" ns (given "to" to) [cluster])) tr 0%Z → exec (Plugin.failoverCmd (default "" ns) (default "" to) cluster) tr None.
Proof.
  intros Hp. unfold requestLine. pose proof (main_line "failover" newFailoverCmd (given "namespace" ns ++ given "to" to) [cluster] []) as E.
  rewrite !app_nil_r in E. rewrite (E (Plugin.failoverCmd (default "" ns) (default "" to) cluster)); [apply exec_exit|..]; try done.
  - by apply (in_tree marshal 5).
  - by left.
  - destruct ns, to; apply (bool_decide_eq_true_1 (NoDup _)); reflexivity.
  - destruct ns, to; cbn; repeat constructor; done.
  - cbn. by rewrite Hp.
  - destruct ns, to; reflexivity.
Qed.
End lines.

(** The conditions on a line, for a command of the tree. *)
Ltac typed :=
  match goal with
  | |- newRestartCmd ∈ _ => by apply (in_tree _ 3)
  | |- newReshardCmd ∈ _ => by apply (in_tree _ 4)
  | |- newHibernateCmd ∈ _ => by apply (in_tree _ 7)
  | |- _ ∈ cmd_Words _ => by left
  | |- _ ∈ _ => by left
  | H : positional _ = true |- forallb _ _ = true => cbn [forallb]; by rewrite H
  | |- ∀ _, _ → _ => intros fl Hfl; cbn; by rewrite Hfl
  | |- _ => done
  end.
Section terminal.
Context `{Cobra, ConditionLib} (L : Libs) (marshal : Plugin.Dump → error + string).

End terminal.

(** ** A Cobra for these lines *)
Definition flagGiven (c : Command) (w : string) : option (string * string) :=
  body ← strip_prefix "--" w; f ← cut_byte "="%char body; if bool_decide (f.1 ∈ fl_Name <$> cmd_Flags c) then Some f else None.
Fixpoint parseWords (c : Command) (ws : list string) : option (list (string * string) * list string) :=
  match ws with
  | [] => Some ([], [])
  | w :: ws =>
      if w == "--" then Some ([], ws)
      else match flagGiven c w with
           | Some f => r ← parseWords c ws; Some (f :: r.1, r.2)
           | None => if positional w then r ← parseWords c ws; Some (r.1, w :: r.2) else None
           end
  end.
Definition demoExecute (cmds : list Command) (argv : list string) : Parsed :=
  match argv with
  | [] => PHelp
  | word :: ws =>
      match list_find (λ c, word ∈ cmd_Words c) cmds with
      | None => PError "unknown command"
      | Some (_, c) =>
          match parseWords c ws with
          | None => PError "unknown flag"
          | Some (fs, args) => if argsOk (cmd_Args c) args then PCall c (list_to_map fs) args else PError "wrong number of arguments"
          end
      end
  end.
Lemma flagGiven_word c f : f.1 ∈ fl_Name <$> cmd_Flags c → lacks "="%char f.1 = true → flagGiven c (flagWord f) = Some f.
Proof.
  intros Hf Hl. unfold flagGiven, flagWord. rewrite strip_prefix_app. cbn [mbind option_bind]. rewrite (str_app_cons "=" ""), str_app_nil_l, (cut_byte_app _ _ f.2 Hl).
  cbn [mbind option_bind fst snd]. rewrite bool_decide_true by done. by destruct f.
Qed.
Lemma positional_flag c w : positional w = true → flagGiven c w = None ∧ w ≠ "--".
Proof.
  intros Hp. split; [|by intros ->]. unfold flagGiven. destruct (strip_prefix "--" w) as [b|] eqn:E; [|done].
  apply strip_prefix_Some in E as ->. done.
Qed.
Lemma parseWords_line c fs args rest : Forall (λ f, f.1 ∈ fl_Name <$> cmd_Flags c ∧ lacks "="%char f.1 = true) fs → forallb positional args = true →
  parseWords c ((flagWord <$> fs) ++ args ++ (if rest is [] then [] else "--" :: rest)) = Some (fs, args ++ rest).
Proof.
  intros Hf Ha. induction Hf as [|f fs [H1 H2] Hf IH]; cbn [fmap list_fmap app].
  - induction args as [|w args IH]; [by destruct rest|]. cbn [app parseWords]. apply andb_prop in Ha as [Hw Ha].
    destruct (positional_flag c w Hw) as [E Hne]. rewrite bool_decide_false by done. rewrite E, Hw, (IH Ha). done.
  - pose proof (flagGiven_word c f H1 H2) as E. cbn [parseWords]. rewrite bool_decide_false by (intros E'; by rewrite E' in E).
    rewrite E. by rewrite IH.
Qed.
Lemma demoExecute_call cmds argv c flags args : demoExecute cmds argv = PCall c flags args → c ∈ cmds ∧ argsOk (cmd_Args c) args = true.
Proof.
  destruct argv as [|word ws]; [done|]. cbn [demoExecute].
  destruct (list_find _ cmds) as [[i c']|] eqn:Ef; [|done]. apply list_find_Some in Ef as (Hc & _ & _).
  destruct (parseWords c' ws) as [[fs xs]|]; [|done]. destruct (argsOk _ xs) eqn:Ea; [|done]. intros [= <- <- <-].
  split; [by eapply list_elem_of_lookup_2|done].
Qed.
Lemma demoExecute_line cmds word c fs args rest :
  c ∈ cmds → word ∈ cmd_Words c → (∀ c', c' ∈ cmds → word ∈ cmd_Words c' → c' = c) →
  Forall (λ f, f.1 ∈ fl_Name <$> cmd_Flags c ∧ lacks "="%char f.1 = true) fs → forallb positional args = true → argsOk (cmd_Args c) (args ++ rest) = true →
  demoExecute cmds (word :: (flagWord <$> fs) ++ args ++ (if rest is [] then [] else "--" :: rest)) = PCall c (list_to_map fs) (args ++ rest).
Proof.
  intros Hc Hw Hu Hf Hp Ha. cbn [demoExecute].
  destruct (list_find_elem_of (λ c, word ∈ cmd_Words c) cmds c Hc Hw) as [[i c'] E]. rewrite E.
  apply list_find_Some in E as (Hc' & Hw' & _). rewrite (Hu c' (list_elem_of_lookup_2 _ _ _ Hc') Hw').
  rewrite parseWords_line by done. by rewrite Ha.
Qed.
#[local] Instance demoCobra : Cobra := {|
  execute := demoExecute; execute_call := demoExecute_call;
  execute_line cmds word c fs args rest Hc Hw Hu _ _ Hf Hp Ha := demoExecute_line cmds word c fs args rest Hc Hw Hu Hf Hp Ha |}.

